(* ===== verification/_CoqProject ===== *)
-Q . S2P
Prelude.v
HashLink.v
Bytes.v
IkcpTypes.v
IkcpSend.v
IkcpInput.v
IkcpFlush.v
IkcpFlushSpec.v
IkcpTimer.v
IkcpInv.v
Wire.v
Delivery.v
Network.v
Fifo.v
Progress.v
Exchange.v
Acks.v
Rounds.v
Acked.v
Protocol.v
ProtocolSpec.v
Config.v
ConvCache.v
Stream.v
StreamIo.v
StreamSpec.v
StreamSafe.v
StreamWire.v
Handshake.v
Session.v
Calls.v
TaskCalls.v
Sessions.v
Programs.v
Marked.v
Endings.v
Intact.v
Transport.v
HalfClose.v
Lifetime.v
Udp.v
UdpSpec.v
UdpLoop.v
Demo.v
CoreProps.v
RustProps.v
TaskProps.v
UdpProps.v
