(* ===== verification/Prelude.v ===== *)
(** * kcp-rs: a verification development (root file)

    kcp-rs runs reliable streams over UDP.  This library models the program, translated from
    the sources under [src/], and proves what its parts promise to each other and to the user.

    ** The program and the files that model it

    - The protocol core is the C library [kcp/ikcp.c], which [src/ffi.rs] binds: a control block
      [IKCPCB] with a send queue, a send buffer, a receive buffer, a receive queue and a list of
      pending acknowledgements, and the functions that move segments between them.
      [IkcpTypes] has the data, creation and release, [IkcpSend] has [ikcp_send],
      [ikcp_peeksize] and [ikcp_recv], [IkcpInput] has [ikcp_input] and the routines it calls,
      [IkcpFlush] has [ikcp_flush], [ikcp_update], [ikcp_check] and the setters.
      [IkcpFlushSpec], [IkcpTimer], [IkcpInv] and [Wire] hold the theory of one control block;
      [Delivery], [Network], [Fifo], [Progress], [Exchange], [Acks], [Rounds] and
      [Acked] that of two with a network between them.
    - [src/protocol.rs] wraps a control block in [Kcp]: error mapping, buffers, the output
      callback, header readers and writers ([Protocol]; theory in [ProtocolSpec]).
    - [src/config.rs] is [Config]; [src/conv.rs], the cache of conversation numbers, is
      [ConvCache], over the hash map of [HashLink].
    - [src/stream.rs] runs one session.  Its [Task] owns a [Kcp] and loops over a [select!] of
      the input channel, the transport and a timer; it carries the SYN and FIN handshakes in the
      same frames as the data ([Stream]; theory in [StreamSpec], [StreamSafe], [StreamWire],
      [Handshake]).  The program's end, [KcpStream], is [StreamIo]; what follows the loop, up to
      the half-close pool, is [Lifetime].
    - [Calls] and [TaskCalls] read every handler of the task as a sequence of calls of the C
      functions, so that the theory of two control blocks applies to two tasks; [Sessions] puts
      two tasks and a network together, and [Programs] adds the programs, their streams and the
      channels in between.  [Marked] says which packets carry the FIN frame, [Endings] what it is
      to two control blocks, and [Intact] carries that to two programs.
    - [src/udp.rs] is the listener, which shares a socket among sessions: it routes packets,
      makes sessions and buries them ([Udp]; theory in [UdpSpec], [UdpLoop]).
    - [src/halfclose.rs] is the pool of tasks that repeat a RESET packet after a session
      ([HalfClose]).  [src/transport/] adapts channels and sockets ([Transport]).
    - [Demo] and [Session] have the concrete states of the examples; [CoreProps], [RustProps],
      [TaskProps] and [UdpProps] state the contracts, each with an application at a concrete
      input.

    ** How state and operations correspond

    A function has the name it has in the sources, prefixed where two files use one name
    ([Kcp_send], [Task_kcp_input], [ConvCache_add], [us_start_send]); [UdpTask] is the [Task] of
    [src/udp.rs].  A loop of a function is a definition of its own ([ikcp_input_loop],
    [ikcp_parse_una_loop], [fin_loop], [recv_loop]), and so are the parts of a long function
    ([flush_acks], [flush_data], [new_session], [create_sent]).

    State is passed explicitly.  A C queue is the list of its segments; a machine integer is a
    [Z] with its wrap-around written out ([u8], [u16], [u32], [i32] below).  A Rust function that
    can panic returns [None], or [Panic] where it returns a result.  The readings of a clock are
    a function of their number; random draws are a function of theirs; what a channel, a
    socket or a token does is an argument or an event.  A loop that waits is a step relation
    ([run_step] and [turn] for the session task, [udp_step] for the listener, [pool_step] for the
    half-close pool, [sys_step] for two endpoints and a network, [pair_step] for two programs).

    Code outside the sources is a class with laws: [BytesMut] of [bytes], [LinkedHashMap] of
    [hashlink], [Notify] of [tokio], [UdpFramed] of [tokio_util]; each has a concrete instance.
    [Sink] and [PollStream] are the interfaces the transports implement and [SinkLaws] what a
    session relies on.

    ** What the theorems show

    - Programs: of two programs that talk through their streams, each reads at all times a prefix
      of what the other wrote, whatever the network does, until its session sees a FIN mark; only
      the writer's FIN frame, once sent, can follow ([Programs]).  Of a stream that stays short the same holds to the end and past it: the FIN
      frame is never read as data, is sent when all the data is at the other end, each state of
      the closing session tells what the other has, and of a stream that fits the receive window
      nothing is lost ([Marked], [Endings], [Intact]).
    - Delivery: over a network that drops, repeats, delays and reorders packets the bytes read
      are a prefix of the bytes written, and in message mode so are the messages; the whole
      system refines a queue ([Network], [Fifo]).  A message written to an endpoint at rest does
      arrive: after four good rounds for each of its segments, with as many lost ones between
      them as the network likes ([Progress], [Acks], [Rounds]).  An acknowledgement is never a
      lie: with answers on the same kind of network, what the writer no longer keeps the reader
      has, and when nothing waits at the writer every byte is read or at the reader ([Acked]).
    - Core: the control block's invariant [kcp_ok] holds in every reachable state, whatever
      arrives; what a send queues, how many segments a flush moves into the window, what it emits,
      that the peer takes every packet of it, which segments are dropped and where the others go,
      what a read returns, when nothing is due, and every error of [ikcp_input].
    - Wrapper and cache: no call panics; packets and messages pass through whole; a number that
      was released is not allocated again before its time; [read_conv] and
      [read_payload_data] find what the C code wrote.
    - Session: the task never panics and only moves forward; it is opened only by a frame with
      the right key and identifier, and two ends that agree on the key do connect once their
      packets arrive ([Handshake]); FIN marks are understood by the peer; a task that leaves sends
      a bounded number of RESET packets, each of which ends its peer; [poll_read] and
      [poll_write] lose nothing.
    - Listener: its tables stay inverse to each other; a packet reaches a session exactly when it
      belongs to it; a repeated SYN makes no second session while the first lasts; numbers are
      not reused; a closing listener makes a bounded number of steps and is never stuck but in its
      [select!], where any event takes it on.  Half-close: a bounded number of RESET packets, and
      a shutdown that loses no wake-up.
    - Faults found are theorems too: a shrunk mtu overflows a packet, the loop spins before a
      flush, a burst loses a packet, a closing listener can wait for nothing, the header writer
      writes 28 bytes.

    ** Bounds and fuel

    [ikcp_input_loop] is given the length of the packet, and each turn takes 24 bytes of it
    ([ikcp_input_loop_fuel]).  [fin_loop] has more turns than there are handshake states
    ([fin_transit_terminates]).  [update_loop] has the number of entries, [fill_read_buf] the
    number of messages and one.  [rand_conv] and the allocation loop take any fuel: they end at
    the first number that will do ([rand_conv_contract], [cache_allocate_total]).  The delivery
    theorems assume what makes 32-bit numbers identify a segment: the network delivers nothing
    older than 2^31 - 65536 segments and the writer is never 2^31 segments ahead; in [Sessions]
    and [Programs] both are counted in bytes, and [AHEAD] is 2^31 - 131072.  [Acked] looks at
    transfers of less than [SHORT] = 2^31 - 65536 segments, so that no number, in a packet of
    any age, can be taken for another, and [Intact] at streams of less than [AHEAD] bytes for the
    same reason; that nothing is lost at their end it shows of streams of no more segments than the
    receive window.  In [Rounds] the receive window is below 65536, as its field in the header
    requires, and the message fits the window.  Buffers are shorter than 2^31 bytes, as [c_int]
    lengths require.  [ud_next_loop] has the number of datagrams the socket holds and one.

    ** Not modelled

    Allocation and its failure (except in [ikcp_setmtu]), the text of log calls, what a socket and
    name lookup do (arguments of [listen] and [connect]), the extern declarations of [ffi.rs],
    [build.rs] and the tests.  A session whose task has left its loop takes no further part in
    [Sessions]: the last pass of the loop head, which may still put packets on the transport, is a
    turn there, but the RESET packets of the half-close pool are not on that network (they are
    the subject of [StreamWire], [TaskProps] and [HalfClose]).  Of liveness, left are the reader's
    share of a transfer longer than its window (zero-window
    probes) and the timers of the handshakes and of dead links.  Of the end of a stream, left is
    that the last message is not lost when the stream has more segments than the receive window:
    [kcp_recv] drops a lone last message without a look at what it is, and it is the FIN frame
    only when the window had room for that frame. *)
From Stdlib Require Export ZArith Lia Bool ZifyBool ZifyNat Sorted.
From stdpp Require Export base tactics option numbers sorting sets list.
#[global] Open Scope Z_scope.

(** ** Machine integers

    A [u8], [u16], [u32] or [i32] of the program is a [Z]; every operation that can
    leave its range is followed by the wrap-around written out below.  C's and Rust's
    [as] casts between these types are the same functions. *)
Declare Scope word_scope.
Delimit Scope word_scope with word.

Definition u8 (z : Z) : Z := z mod 256.
Definition u16 (z : Z) : Z := z mod 65536.
Definition u32 (z : Z) : Z := z mod 4294967296.
Definition i32 (z : Z) : Z := (z + 2147483648) mod 4294967296 - 2147483648.

Abbreviation U32_MAX := 4294967295 (only parsing).
Notation "a +w b" := (u32 (a + b)) (at level 50, left associativity) : word_scope.
Notation "a -w b" := (u32 (a - b)) (at level 50, left associativity) : word_scope.
Notation "a *w b" := (u32 (a * b)) (at level 40, left associativity) : word_scope.
#[global] Open Scope word_scope.

(** The length of a list as the [Z] the machine code sees. *)
Definition Zlen {A} (l : list A) : Z := Z.of_nat (length l).

Lemma Zlen_nonneg {A} (l : list A) : 0 <= Zlen l.
Proof. unfold Zlen. lia. Qed.

Lemma Zlen_app {A} (l k : list A) : Zlen (l ++ k) = Zlen l + Zlen k.
Proof. unfold Zlen. rewrite length_app. lia. Qed.

Lemma Zlen_cons {A} (x : A) l : Zlen (x :: l) = 1 + Zlen l.
Proof. unfold Zlen. cbn [length]. lia. Qed.

Lemma Zlen_pos {A} (l : list A) : l <> [] -> 0 < Zlen l.
Proof. destruct l; [done|]. unfold Zlen. cbn [length]. lia. Qed.

(** [words] decides linear goals about wrapped integers with literal moduli. *)
Ltac words :=
  unfold u8, u16, u32, i32, Zlen in *; Z.div_mod_to_equations; lia.

Section Words.
Implicit Types a b z : Z.

Lemma u32_range z : 0 <= u32 z < 4294967296.
Proof. words. Qed.
Lemma u16_range z : 0 <= u16 z < 65536.
Proof. words. Qed.
Lemma u8_range z : 0 <= u8 z < 256.
Proof. words. Qed.
Lemma i32_range z : -2147483648 <= i32 z < 2147483648.
Proof. words. Qed.

Lemma u32_small z : 0 <= z < 4294967296 -> u32 z = z.
Proof. words. Qed.
Lemma u16_small z : 0 <= z < 65536 -> u16 z = z.
Proof. words. Qed.
Lemma u8_small z : 0 <= z < 256 -> u8 z = z.
Proof. words. Qed.
Lemma i32_small z : -2147483648 <= z < 2147483648 -> i32 z = z.
Proof. words. Qed.

Lemma u8_idemp z : u8 (u8 z) = u8 z.
Proof. words. Qed.
Lemma u16_idemp z : u16 (u16 z) = u16 z.
Proof. words. Qed.
Lemma u32_idemp z : u32 (u32 z) = u32 z.
Proof. words. Qed.
Lemma i32_u32 z : i32 (u32 z) = i32 z.
Proof. words. Qed.
Lemma u32_i32 z : u32 (i32 z) = u32 z.
Proof. words. Qed.
Lemma u32_add_l a b : u32 (u32 a + b) = u32 (a + b).
Proof. words. Qed.
Lemma u32_add_r a b : u32 (a + u32 b) = u32 (a + b).
Proof. words. Qed.
Lemma u32_sub_l a b : u32 (u32 a - b) = u32 (a - b).
Proof. words. Qed.
Lemma u32_sub_r a b : u32 (a - u32 b) = u32 (a - b).
Proof. words. Qed.
Lemma u32_mul_l a b : u32 (u32 a * b) = u32 (a * b).
Proof. unfold u32. apply Zmult_mod_idemp_l. Qed.

(** Two integers less than half the ring apart are told apart by their residues. *)
Lemma u32_inj_near a b :
  -4294967296 < a - b < 4294967296 -> u32 a = u32 b -> a = b.
Proof. words. Qed.
End Words.

(** [u32_lia] is [lia] knowing that every [u32 _] of the goal is in range. *)
Ltac u32_lia :=
  repeat match goal with
  | |- context [u32 ?z] =>
      lazymatch goal with
      | _ : 0 <= u32 z < 4294967296 |- _ => fail
      | _ => pose proof (u32_range z)
      end
  | _ : context [u32 ?z] |- _ =>
      lazymatch goal with
      | _ : 0 <= u32 z < 4294967296 |- _ => fail
      | _ => pose proof (u32_range z)
      end
  end; lia.

Create HintDb words.
Create Rewrite HintDb words.
#[export] Hint Resolve u32_range u16_range u8_range i32_range : words.
#[export] Hint Rewrite u32_idemp i32_u32 u32_i32 u32_add_l u32_add_r u32_sub_l
  u32_sub_r u32_mul_l : words.

(** ** Results of Rust calls

    [io::Result] with the error kinds the program uses.  [Panic] is the outcome of a
    reached [unreachable!()], of an [unwrap] of an error or of an index out of range. *)
Inductive io_error : Set :=
| InvalidInput | InvalidData | NotFound | OutOfMemory | TimedOut | NotConnected
| AddrNotAvailable.

Inductive io_result (A : Type) : Type :=
| Ok (a : A)
| Err (e : io_error)
| Panic.
Arguments Ok {A} a.
Arguments Err {A} e.
Arguments Panic {A}.

#[export] Instance io_error_eq_dec : EqDecision io_error.
Proof. solve_decision. Defined.

Definition is_ok {A} (r : io_result A) : bool :=
  match r with Ok _ => true | _ => false end.
Definition is_err {A} (r : io_result A) : bool :=
  match r with Err _ => true | _ => false end.

(** ** Record update

    [r <| f := v |>] is [r] with field [f] set to [v].  The updater of a field is found
    from the field's projection and the record's [Eta] expansion. *)
Class Eta (R : Type) := eta : R -> R.
Class Updater {R T : Type} (proj : R -> T) := mkUpdater { upd : (T -> T) -> R -> R }.
Arguments upd {R T} proj {_} _ _ : simpl never.

Ltac head_of t := lazymatch t with ?f _ => head_of f | _ => t end.

Ltac derive_updater :=
  lazymatch goal with
  | |- @Updater ?R ?T ?p =>
      let e := constr:(eta (R := R)) in
      let e := eval cbv [eta] in e in
      lazymatch e with
      | ?inst =>
          let h := head_of inst in
          let e := eval cbv beta delta [h] in e in
          refine (mkUpdater R T p (fun (upd_fun : T -> T) (upd_rec : R) =>
            ltac:(let b := eval cbv beta in (e upd_rec) in
                  let b' := eval pattern (p upd_rec) in b in
                  lazymatch b' with
                  | ?g _ => let v := eval cbv beta in (g (upd_fun (p upd_rec))) in exact v
                  end)))
      end
  end.
#[export] Hint Extern 1 (@Updater _ _ _) => derive_updater : typeclass_instances.

Notation "r <| p := v |>" := (upd p (fun _ => v) r)
  (at level 1, left associativity, p at level 0, v at level 200,
   format "r  <| p  :=  v |>").

(** [simp_upd] computes the reads of updated records: of a field, and of any function or
    predicate of the record alone that does not depend on the updated field. *)
Ltac same_params p q :=
  lazymatch p with
  | ?f ?x => lazymatch q with ?g x => same_params f g end
  | _ => is_const q
  end.
Ltac is_field R p q :=
  same_params p q;
  lazymatch type of q with
  | R -> R => fail
  | R -> _ -> _ => fail
  | R -> _ => idtac
  end.

(** The read is rewritten with an equation proved for a variable record, so that the
    conversion test never compares two long chains of updates. *)
Ltac upd_step q R T p U f r :=
  tryif constr_eq q p
  then
    (let E := constr:((fun _ _ => eq_refl)
               : forall (g : T -> T) (x : R), q (@upd R T p U g x) = g (p x)) in
     rewrite (E f r); cbv beta)
  else
    (let E := constr:((fun _ _ => eq_refl)
               : forall (g : T -> T) (x : R), q (@upd R T p U g x) = q x) in
     rewrite (E f r)).

Ltac simp_upd_goal :=
  repeat match goal with
  | |- context [?q (@upd ?R ?T ?p ?U ?f ?r)] => is_field R p q; upd_step q R T p U f r
  end.

Ltac simp_upd :=
  simp_upd_goal;
  repeat match goal with
  | H : context [?q (@upd ?R ?T ?p ?U ?f ?r)] |- _ =>
      is_field R p q; revert H; simp_upd_goal; intro H
  end.
