(* ===== verification/HashLink.v ===== *)
(** The linked hash map of the [hashlink] crate, which the number cache and the listener are
    built on.  The crate is not part of the sources: its operations are a class, and its
    documented behaviour, in terms of the entries from the front to the back, the laws. *)
From S2P Require Import Prelude.

Section HashLink.
Context {K V : Type} {EqK : EqDecision K}.

(** The entries other than that of [k]. *)
Definition without (k : K) (l : list (K * V)) : list (K * V) := filter (fun e => fst e <> k) l.

(** The value of the first entry of [k]. *)
Fixpoint assoc (k : K) (l : list (K * V)) : option V :=
  match l with
  | [] => None
  | (k', v) :: l => if decide (k' = k) then Some v else assoc k l
  end.

(** The entry of [k] changed in place. *)
Definition modify (k : K) (f : V -> V) (l : list (K * V)) : list (K * V) :=
  map (fun e => if decide (fst e = k) then (fst e, f (snd e)) else e) l.

Lemma map_fst_modify k f l : map fst (modify k f l) = map fst l.
Proof.
  unfold modify. rewrite map_map. apply map_ext. intros [k' v]. cbn [fst snd].
  by destruct (decide _).
Qed.

Lemma elem_of_modify k f l k' v' :
  (k', v') ∈ modify k f l <-> exists v, (k', v) ∈ l /\ v' = if decide (k' = k) then f v else v.
Proof.
  unfold modify. rewrite list_elem_of_fmap. split.
  - intros ([k1 v1] & E & H). cbn [fst snd] in E.
    destruct (decide (k1 = k)) as [->|Hne]; injection E as -> ->; exists v1.
    + by rewrite decide_True.
    + by rewrite decide_False.
  - intros (v & H & ->). exists (k', v). split; [|done]. cbn [fst snd]. by destruct (decide _).
Qed.

Lemma elem_of_without k e l : e ∈ without k l <-> e ∈ l /\ fst e <> k.
Proof. unfold without. rewrite list_elem_of_filter. naive_solver. Qed.

Lemma without_notin k l : k ∉ map fst l -> without k l = l.
Proof.
  induction l as [|[k' v] l IH]; [done|]. cbn [map fst]. intros [H1 H2]%not_elem_of_cons.
  unfold without. rewrite filter_cons_True by (cbn [fst]; congruence). f_equal. by apply IH.
Qed.

Lemma map_fst_without k l : map fst (without k l) = filter (fun k' => k' <> k) (map fst l).
Proof.
  unfold without. induction l as [|[k' v] l IH]; [done|]. rewrite !filter_cons. cbn [map fst].
  rewrite filter_cons. destruct (decide (k' <> k)); cbn [map fst]; by rewrite IH.
Qed.

Lemma NoDup_without k l : NoDup (map fst l) -> NoDup (map fst (without k l)).
Proof. rewrite map_fst_without. apply NoDup_filter. Qed.

Lemma assoc_elem k v l : assoc k l = Some v -> (k, v) ∈ l.
Proof.
  induction l as [|[k' v'] l IH]; [done|]. cbn. destruct (decide _) as [->|_].
  - intros [= ->]. left.
  - intros H. right. by apply IH.
Qed.

Lemma assoc_fst k v l : assoc k l = Some v -> k ∈ map fst l.
Proof. intros H%assoc_elem. apply list_elem_of_fmap. by exists (k, v). Qed.

Lemma elem_assoc k v l : NoDup (map fst l) -> (k, v) ∈ l -> assoc k l = Some v.
Proof.
  induction l as [|[k' v'] l IH]; [by intros _ ?%not_elem_of_nil|]. cbn.
  intros [Hn Hd]%NoDup_cons [[= -> ->]|Hin]%elem_of_cons.
  - by rewrite decide_True.
  - destruct (decide (k' = k)) as [->|_]; [|by apply IH].
    destruct Hn. apply list_elem_of_fmap. by exists (k, v).
Qed.

Lemma assoc_none k l : assoc k l = None <-> k ∉ map fst l.
Proof.
  induction l as [|[k' v'] l IH]; cbn; [split; [set_solver|done]|].
  destruct (decide (k' = k)) as [->|H]; [split; [done|set_solver]|].
  rewrite IH, not_elem_of_cons. naive_solver.
Qed.

Lemma assoc_without k k' l : assoc k' (without k l) = if decide (k' = k) then None else assoc k' l.
Proof.
  unfold without. induction l as [|[k1 v] l IH]; [by destruct (decide _)|].
  rewrite filter_cons. cbn [fst]. destruct (decide (k1 <> k)) as [Hk|Hk]; cbn [assoc].
  - destruct (decide (k1 = k')) as [->|]; [by rewrite decide_False|done].
  - rewrite IH. destruct (decide (k' = k)) as [->|]; [done|]. rewrite decide_False; [done|].
    intros ->. apply Hk. congruence.
Qed.

Lemma assoc_app k l r :
  assoc k (l ++ r) = match assoc k l with Some v => Some v | None => assoc k r end.
Proof.
  induction l as [|[k' v] l IH]; [done|]. cbn. by destruct (decide _).
Qed.
End HashLink.

Class LinkedHashMap (K V : Type) := {
  lhm : Type;
  lhm_new : lhm;
  lhm_entries : lhm -> list (K * V);           (* iteration order: front to back *)
  lhm_insert : lhm -> K -> V -> lhm;
  lhm_remove : lhm -> K -> lhm;
  lhm_get : lhm -> K -> option V;
  lhm_modify : lhm -> K -> (V -> V) -> lhm;    (* through [get_mut] *)
  lhm_contains_key : lhm -> K -> bool;
  lhm_is_empty : lhm -> bool;
  lhm_front : lhm -> option (K * V);
  lhm_pop_front : lhm -> lhm
}.
Arguments lhm K V {_}.

Class LinkedHashMapLaws K V `{EqDecision K} (M : LinkedHashMap K V) := {
  lhm_new_law : lhm_entries lhm_new = [];
  lhm_insert_law : forall m k v, lhm_entries (lhm_insert m k v) = without k (lhm_entries m) ++ [(k, v)];
  lhm_remove_law : forall m k, lhm_entries (lhm_remove m k) = without k (lhm_entries m);
  lhm_get_law : forall m k, lhm_get m k = assoc k (lhm_entries m);
  lhm_modify_law : forall m k f, lhm_entries (lhm_modify m k f) = modify k f (lhm_entries m);
  lhm_contains_law : forall m k,
    lhm_contains_key m k = bool_decide (k ∈ map fst (lhm_entries m));
  lhm_is_empty_law : forall m, lhm_is_empty m = bool_decide (lhm_entries m = []);
  lhm_front_law : forall m, lhm_front m = head (lhm_entries m);
  lhm_pop_front_law : forall m, lhm_entries (lhm_pop_front m) = tail (lhm_entries m)
}.

(** A concrete map: the list of its entries. *)
Definition list_lhm K V `{EqDecision K} : LinkedHashMap K V := {|
  lhm := list (K * V);
  lhm_new := [];
  lhm_entries m := m;
  lhm_insert m k v := without k m ++ [(k, v)];
  lhm_remove m k := without k m;
  lhm_get m k := assoc k m;
  lhm_modify m k f := modify k f m;
  lhm_contains_key m k := bool_decide (k ∈ map fst m);
  lhm_is_empty m := match m with [] => true | _ :: _ => false end;
  lhm_front m := head m;
  lhm_pop_front m := tail m
|}.

Lemma list_lhm_laws K V `{EqDecision K} : LinkedHashMapLaws K V (list_lhm K V).
Proof. split; try done. by intros []. Qed.
