(* ===== verification/Bytes.v ===== *)
(** Bytes, slices and the little-endian integer codec of [kcp/ikcp.c].

    A [&[u8]], a [Bytes] or a [BytesMut] is the list of its bytes.  The C pointers
    returned by the encoders and decoders are the written prefix and the unread suffix. *)
From Stdlib Require Import Strings.Byte.
From S2P Require Import Prelude.

Abbreviation bytes := (list byte).

Definition byte_to_Z (b : byte) : Z := Z.of_N (Byte.to_N b).
Definition byte_of_Z (z : Z) : byte := default x00 (Byte.of_N (Z.to_N (u8 z))).

(** The byte at offset [i]; the code reads only inside its buffers. *)
Definition byte_at (p : bytes) (i : nat) : Z := byte_to_Z (nth i p x00).

#[export] Instance byte_eq_dec : EqDecision byte := byte_eq_dec.

Lemma byte_to_Z_range b : 0 <= byte_to_Z b < 256.
Proof. unfold byte_to_Z. pose proof (Byte.to_N_bounded b). lia. Qed.

Lemma byte_to_of_Z z : byte_to_Z (byte_of_Z z) = u8 z.
Proof.
  unfold byte_to_Z, byte_of_Z. pose proof (u8_range z) as Hr.
  destruct (Byte.of_N (Z.to_N (u8 z))) as [b|] eqn:E; cbn.
  - apply Byte.to_of_N in E. lia.
  - apply Byte.of_N_None_iff in E. lia.
Qed.

Lemma byte_of_to_Z b : byte_of_Z (byte_to_Z b) = b.
Proof.
  unfold byte_of_Z. rewrite u8_small by apply byte_to_Z_range.
  unfold byte_to_Z. by rewrite N2Z.id, Byte.of_to_N.
Qed.

Lemma byte_at_app_r p q i :
  (length p <= i)%nat -> byte_at (p ++ q) i = byte_at q (i - length p).
Proof. intros. unfold byte_at. by rewrite app_nth2. Qed.

#[export] Hint Resolve byte_to_Z_range : words.

(** ** [ikcp_encode8u] ... [ikcp_decode32u]

    The build defines [IWORDS_MUST_ALIGN], so the byte-wise branches are compiled. *)
Definition ikcp_encode8u (p : bytes) (c : Z) : bytes := p ++ [byte_of_Z c].

Definition ikcp_decode8u (p : bytes) : bytes * Z := (drop 1 p, byte_at p 0).

Definition ikcp_encode16u (p : bytes) (w : Z) : bytes :=
  p ++ [byte_of_Z (Z.land w 255); byte_of_Z (Z.shiftr w 8)].

Definition ikcp_decode16u (p : bytes) : bytes * Z :=
  let w := byte_at p 1 in
  let w := u16 (byte_at p 0 + Z.shiftl w 8) in
  (drop 2 p, w).

Definition ikcp_encode32u (p : bytes) (l : Z) : bytes :=
  p ++ [byte_of_Z (Z.land (Z.shiftr l 0) 255); byte_of_Z (Z.land (Z.shiftr l 8) 255);
        byte_of_Z (Z.land (Z.shiftr l 16) 255); byte_of_Z (Z.land (Z.shiftr l 24) 255)].

Definition ikcp_decode32u (p : bytes) : bytes * Z :=
  let l := byte_at p 3 in
  let l := byte_at p 2 +w u32 (Z.shiftl l 8) in
  let l := byte_at p 1 +w u32 (Z.shiftl l 8) in
  let l := byte_at p 0 +w u32 (Z.shiftl l 8) in
  (drop 4 p, l).

(** [ikcp_getconv] *)
Definition ikcp_getconv (p : bytes) : Z := snd (ikcp_decode32u p).

(** The value of a little-endian byte list: the specification of the codec. *)
Fixpoint le_value (p : bytes) : Z :=
  match p with [] => 0 | b :: p => byte_to_Z b + 256 * le_value p end.

Lemma le_value_range p : 0 <= le_value p < 256 ^ Zlen p.
Proof.
  unfold Zlen. induction p as [|b p IH]; [cbn; lia|].
  rewrite length_cons, Nat2Z.inj_succ, Z.pow_succ_r by lia. cbn [le_value].
  pose proof (byte_to_Z_range b). nia.
Qed.

Lemma land_255 z : Z.land z 255 = u8 z.
Proof. change 255 with (Z.ones 8). by rewrite Z.land_ones by lia. Qed.

Ltac shifts :=
  rewrite ?Z.shiftr_div_pow2, ?Z.shiftl_mul_pow2 by lia;
  change (2 ^ 0) with 1; change (2 ^ 8) with 256; change (2 ^ 16) with 65536;
  change (2 ^ 24) with 16777216.

Lemma ikcp_decode8u_app c q : ikcp_decode8u (ikcp_encode8u [] c ++ q) = (q, u8 c).
Proof. cbn. unfold ikcp_decode8u, byte_at. cbn. by rewrite byte_to_of_Z. Qed.

Lemma ikcp_decode16u_app w q : ikcp_decode16u (ikcp_encode16u [] w ++ q) = (q, u16 w).
Proof.
  unfold ikcp_decode16u, byte_at. cbn [ikcp_encode16u app drop nth].
  rewrite !byte_to_of_Z, land_255. f_equal. shifts. words.
Qed.

Lemma ikcp_decode32u_app l q : ikcp_decode32u (ikcp_encode32u [] l ++ q) = (q, u32 l).
Proof.
  unfold ikcp_decode32u, byte_at. cbn [ikcp_encode32u app drop nth].
  rewrite !byte_to_of_Z, !land_255. f_equal. shifts.
  rewrite Z.div_1_r. words.
Qed.

Lemma ikcp_decode32u_value b0 b1 b2 b3 q :
  ikcp_decode32u (b0 :: b1 :: b2 :: b3 :: q) = (q, le_value [b0; b1; b2; b3]).
Proof.
  unfold ikcp_decode32u, byte_at. cbn [drop nth le_value]. f_equal.
  pose proof (byte_to_Z_range b0). pose proof (byte_to_Z_range b1).
  pose proof (byte_to_Z_range b2). pose proof (byte_to_Z_range b3). shifts. words.
Qed.

Lemma ikcp_encode8u_acc p c : ikcp_encode8u p c = p ++ ikcp_encode8u [] c.
Proof. done. Qed.
Lemma ikcp_encode16u_acc p w : ikcp_encode16u p w = p ++ ikcp_encode16u [] w.
Proof. done. Qed.
Lemma ikcp_encode32u_acc p l : ikcp_encode32u p l = p ++ ikcp_encode32u [] l.
Proof. done. Qed.

(** The little-endian bytes of an integer. *)
Fixpoint le_bytes (n : nat) (z : Z) : bytes :=
  match n with O => [] | S n => byte_of_Z z :: le_bytes n (z / 256) end.

Lemma length_le_bytes n z : length (le_bytes n z) = n.
Proof. revert z. induction n; intros; cbn; auto. Qed.

Lemma le_value_le_bytes n z : le_value (le_bytes n z) = z mod 256 ^ Z.of_nat n.
Proof.
  revert z. induction n as [|n IH]; intros z; cbn [le_bytes le_value]; [by rewrite Z.mod_1_r|].
  rewrite IH, byte_to_of_Z, Nat2Z.inj_succ, Z.pow_succ_r by lia.
  unfold u8. rewrite Z.rem_mul_r by lia. lia.
Qed.

(** ** The growable buffer of the [bytes] crate

    [BytesMut] is not part of the sources; a development over it takes its type and the
    methods the program calls as a class, and their documented behaviour as laws. *)
Class BytesMut := {
  bytes_mut : Type;
  bm_new : bytes_mut;                             (* BytesMut::new *)
  bm_bytes : bytes_mut -> bytes;                  (* Deref<Target = [u8]> *)
  bm_capacity : bytes_mut -> Z;
  bm_reserve : bytes_mut -> Z -> bytes_mut;
  bm_put_slice : bytes_mut -> bytes -> bytes_mut;
  bm_split_to : bytes_mut -> Z -> bytes_mut * bytes_mut;  (* what is returned, what stays *)
  bm_set_len : bytes_mut -> Z -> bytes_mut;
  bm_write : bytes_mut -> bytes -> bytes_mut;     (* stores through DerefMut, from 0 on *)
  put_u8 : bytes_mut -> Z -> bytes_mut;
  put_u16_le : bytes_mut -> Z -> bytes_mut;
  put_u32_le : bytes_mut -> Z -> bytes_mut
}.

Class BytesMutLaws (BM : BytesMut) := {
  bm_new_law : bm_bytes bm_new = [];
  bm_reserve_law : forall b n, 0 <= n -> bm_bytes (bm_reserve b n) = bm_bytes b /\
    Zlen (bm_bytes b) + n <= bm_capacity (bm_reserve b n);
  bm_put_slice_law : forall b s, bm_bytes (bm_put_slice b s) = bm_bytes b ++ s;
  bm_split_to_law : forall b n, 0 <= n <= Zlen (bm_bytes b) ->
    bm_bytes (fst (bm_split_to b n)) = take (Z.to_nat n) (bm_bytes b) /\
    bm_bytes (snd (bm_split_to b n)) = drop (Z.to_nat n) (bm_bytes b);
  bm_set_len_law : forall b n, 0 <= n <= bm_capacity b -> Zlen (bm_bytes (bm_set_len b n)) = n;
  bm_write_law : forall b s, (length s <= length (bm_bytes b))%nat ->
    bm_bytes (bm_write b s) = s ++ drop (length s) (bm_bytes b);
  put_u8_law : forall b n, bm_bytes (put_u8 b n) = bm_bytes b ++ le_bytes 1 n;
  put_u16_le_law : forall b n, bm_bytes (put_u16_le b n) = bm_bytes b ++ le_bytes 2 n;
  put_u32_le_law : forall b n, bm_bytes (put_u32_le b n) = bm_bytes b ++ le_bytes 4 n
}.

(** A concrete buffer, for the witnesses: the contents and the capacity. *)
Definition list_bytes_mut : BytesMut := {|
  bytes_mut := bytes * Z;
  bm_new := ([], 0);
  bm_bytes b := fst b;
  bm_capacity b := Z.max (Zlen (fst b)) (snd b);
  bm_reserve b n := (fst b, Zlen (fst b) + n);
  bm_put_slice b s := (fst b ++ s, snd b);
  bm_split_to b n := ((take (Z.to_nat n) (fst b), n), (drop (Z.to_nat n) (fst b), snd b - n));
  bm_set_len b n := (resize (Z.to_nat n) (byte_of_Z 0) (fst b), snd b);
  bm_write b s := (s ++ drop (length s) (fst b), snd b);
  put_u8 b n := (fst b ++ le_bytes 1 n, snd b);
  put_u16_le b n := (fst b ++ le_bytes 2 n, snd b);
  put_u32_le b n := (fst b ++ le_bytes 4 n, snd b)
|}.

Lemma list_bytes_mut_laws : BytesMutLaws list_bytes_mut.
Proof.
  split; try done; cbn [bm_bytes bm_set_len bm_capacity bm_reserve fst snd list_bytes_mut].
  - intros b n Hn. cbn. split; [done|lia].
  - intros b n Hn. unfold Zlen. rewrite length_resize. lia.
Qed.

(** Two byte lists of one length with one value are equal. *)
Lemma le_value_inj p q : length p = length q -> le_value p = le_value q -> p = q.
Proof.
  revert q. induction p as [|b p IH]; intros [|c q]; cbn; [done..|]. intros Hl Hv.
  pose proof (byte_to_Z_range b). pose proof (byte_to_Z_range c).
  f_equal; [|apply IH; lia].
  rewrite <- (byte_of_to_Z b), <- (byte_of_to_Z c). f_equal. lia.
Qed.
