(* ===== verification/IkcpTypes.v ===== *)
(** The control block of [kcp/ikcp.c] as [src/ffi.rs] exposes it: the constants, the
    segment [IKCPSEG], the control block [IKCPCB], the comparison helpers and
    [ikcp_create].

    A queue [IQUEUEHEAD] is the list of its segments from [head.next] on.  The pointers
    [user], [output] and [writelog] carry no protocol state; the allocated flush buffer is
    represented by its size [buffer_cap], the ack list by its entries. *)
From S2P Require Import Prelude Bytes.

(** ** Constants *)
Definition IKCP_RTO_NDL : Z := 30.
Definition IKCP_RTO_MIN : Z := 100.
Definition IKCP_RTO_DEF : Z := 200.
Definition IKCP_RTO_MAX : Z := 60000.
Definition IKCP_CMD_PUSH : Z := 81.
Definition IKCP_CMD_ACK : Z := 82.
Definition IKCP_CMD_WASK : Z := 83.
Definition IKCP_CMD_WINS : Z := 84.
Definition IKCP_ASK_SEND : Z := 1.
Definition IKCP_ASK_TELL : Z := 2.
Definition IKCP_WND_SND : Z := 32.
Definition IKCP_WND_RCV : Z := 256.
Definition IKCP_MTU_DEF : Z := 1400.
Definition IKCP_ACK_FAST : Z := 3.
Definition IKCP_INTERVAL : Z := 100.
Definition IKCP_OVERHEAD : Z := 24.
Definition IKCP_DEADLINK : Z := 20.
Definition IKCP_THRESH_INIT : Z := 2.
Definition IKCP_THRESH_MIN : Z := 2.
Definition IKCP_PROBE_INIT : Z := 7000.
Definition IKCP_PROBE_LIMIT : Z := 120000.
Definition IKCP_FASTACK_LIMIT : Z := 5.

(** ** Helpers *)
Definition _imin_ (a b : Z) : Z := if a <=? b then a else b.
Definition _imax_ (a b : Z) : Z := if a >=? b then a else b.
Definition _ibound_ (lower middle upper : Z) : Z := _imin_ (_imax_ lower middle) upper.
Definition _itimediff (later earlier : Z) : Z := i32 (later -w earlier).

(** ** Segments *)
Record IKCPSEG := mkIKCPSEG {
  seg_conv : Z;      (* u32 *)
  seg_cmd : Z;       (* u32 *)
  seg_frg : Z;       (* u32 *)
  seg_wnd : Z;       (* u32 *)
  seg_ts : Z;        (* u32 *)
  seg_sn : Z;        (* u32 *)
  seg_una : Z;       (* u32 *)
  seg_len : Z;       (* u32 *)
  seg_resendts : Z;  (* u32 *)
  seg_rto : Z;       (* u32 *)
  seg_fastack : Z;   (* u32 *)
  seg_xmit : Z;      (* u32 *)
  seg_data : bytes
}.
#[export] Instance eta_IKCPSEG : Eta IKCPSEG := fun s =>
  mkIKCPSEG (seg_conv s) (seg_cmd s) (seg_frg s) (seg_wnd s) (seg_ts s) (seg_sn s)
    (seg_una s) (seg_len s) (seg_resendts s) (seg_rto s) (seg_fastack s) (seg_xmit s)
    (seg_data s).

(** A fresh segment.  [malloc] leaves the header fields unspecified; every one of them is
    written before it is read, so their initial value is fixed to [0] here. *)
Definition ikcp_segment_new (data : bytes) : IKCPSEG :=
  mkIKCPSEG 0 0 0 0 0 0 0 0 0 0 0 0 data.

(** ** The control block *)
Record IKCPCB := mkIKCPCB {
  conv : Z; mtu : Z; mss : Z; state : Z;
  snd_una : Z; snd_nxt : Z; rcv_nxt : Z;
  ts_recent : Z; ts_lastack : Z; ssthresh : Z;
  rx_rttval : Z; rx_srtt : Z; rx_rto : Z; rx_minrto : Z;
  snd_wnd : Z; rcv_wnd : Z; rmt_wnd : Z; cwnd : Z; probe : Z;
  current : Z; interval : Z; ts_flush : Z; xmit : Z;
  nrcv_buf : Z; nsnd_buf : Z; nrcv_que : Z; nsnd_que : Z;
  nodelay : Z; updated : Z;
  ts_probe : Z; probe_wait : Z;
  dead_link : Z; incr : Z;
  snd_queue : list IKCPSEG;
  rcv_queue : list IKCPSEG;
  snd_buf : list IKCPSEG;
  rcv_buf : list IKCPSEG;
  acklist : list (Z * Z);   (* (sn, ts) *)
  ackcount : Z; ackblock : Z;
  buffer_cap : Z;           (* bytes allocated for [buffer] *)
  fastresend : Z; fastlimit : Z;
  nocwnd : Z; stream : Z;
  logmask : Z
}.
#[export] Instance eta_IKCPCB : Eta IKCPCB := fun k =>
  mkIKCPCB (conv k) (mtu k) (mss k) (state k) (snd_una k) (snd_nxt k) (rcv_nxt k)
    (ts_recent k) (ts_lastack k) (ssthresh k) (rx_rttval k) (rx_srtt k) (rx_rto k)
    (rx_minrto k) (snd_wnd k) (rcv_wnd k) (rmt_wnd k) (cwnd k) (probe k) (current k)
    (interval k) (ts_flush k) (xmit k) (nrcv_buf k) (nsnd_buf k) (nrcv_que k) (nsnd_que k)
    (nodelay k) (updated k) (ts_probe k) (probe_wait k) (dead_link k) (incr k)
    (snd_queue k) (rcv_queue k) (snd_buf k) (rcv_buf k) (acklist k) (ackcount k)
    (ackblock k) (buffer_cap k) (fastresend k) (fastlimit k) (nocwnd k) (stream k)
    (logmask k).

(** [ikcp_create]; the allocations succeed. *)
Definition ikcp_create (conv : Z) : IKCPCB := {|
  conv := conv;
  mtu := IKCP_MTU_DEF;
  mss := IKCP_MTU_DEF -w IKCP_OVERHEAD;
  state := 0;
  snd_una := 0; snd_nxt := 0; rcv_nxt := 0;
  ts_recent := 0; ts_lastack := 0;
  ssthresh := IKCP_THRESH_INIT;
  rx_rttval := 0; rx_srtt := 0;
  rx_rto := IKCP_RTO_DEF; rx_minrto := IKCP_RTO_MIN;
  snd_wnd := IKCP_WND_SND; rcv_wnd := IKCP_WND_RCV; rmt_wnd := IKCP_WND_RCV;
  cwnd := 0; probe := 0;
  current := 0; interval := IKCP_INTERVAL; ts_flush := IKCP_INTERVAL; xmit := 0;
  nrcv_buf := 0; nsnd_buf := 0; nrcv_que := 0; nsnd_que := 0;
  nodelay := 0; updated := 0;
  ts_probe := 0; probe_wait := 0;
  dead_link := IKCP_DEADLINK; incr := 0;
  snd_queue := []; rcv_queue := []; snd_buf := []; rcv_buf := [];
  acklist := []; ackcount := 0; ackblock := 0;
  buffer_cap := (IKCP_MTU_DEF +w IKCP_OVERHEAD) *w 3;
  fastresend := 0; fastlimit := IKCP_FASTACK_LIMIT;
  nocwnd := 0; stream := 0;
  logmask := 0
|}.

(** [ikcp_release]: the blocks it frees, in order.  [acklist] is a block of its own once
    [ikcp_ack_push] has made one. *)
Inductive block := Segment (seg : IKCPSEG) | BufferBlock | AckListBlock | ControlBlock.

(** One loop of [ikcp_release]: the head of the queue is taken off and deleted, until it is
    empty. *)
Fixpoint release_queue (q : list IKCPSEG) : list block :=
  match q with
  | [] => []
  | seg :: q => Segment seg :: release_queue q
  end.

Definition ikcp_release (kcp : IKCPCB) : list block :=
  release_queue (snd_buf kcp) ++ release_queue (rcv_buf kcp) ++ release_queue (snd_queue kcp) ++
  release_queue (rcv_queue kcp) ++ [BufferBlock] ++
  (if ackblock kcp =? 0 then [] else [AckListBlock]) ++ [ControlBlock].

(** [ikcp_canlog], with [writelog] telling whether there is a callback. *)
Definition ikcp_canlog (writelog : bool) (kcp : IKCPCB) (mask : Z) : bool :=
  negb (Z.land mask (logmask kcp) =? 0) && writelog.

(** ** Facts about the helpers *)
Lemma _imin__min a b : _imin_ a b = Z.min a b.
Proof. unfold _imin_. destruct (Z.leb_spec a b); lia. Qed.
Lemma _imax__max a b : _imax_ a b = Z.max a b.
Proof. unfold _imax_. rewrite Z.geb_leb. destruct (Z.leb_spec b a); lia. Qed.
Lemma _ibound__clamp lo m hi : _ibound_ lo m hi = Z.min (Z.max lo m) hi.
Proof. unfold _ibound_. by rewrite _imin__min, _imax__max. Qed.

#[export] Hint Rewrite _imin__min _imax__max _ibound__clamp : words.

(** [_itimediff] compares the positions of two counters on the 2^32 ring: as long as the
    true positions are less than 2^31 apart it is their true difference. *)
Lemma _itimediff_near a b :
  -2147483648 <= a - b < 2147483648 -> _itimediff (u32 a) (u32 b) = a - b.
Proof. unfold _itimediff. words. Qed.

Lemma _itimediff_range a b : -2147483648 <= _itimediff a b < 2147483648.
Proof. apply i32_range. Qed.

Lemma _itimediff_same a : _itimediff a a = 0.
Proof. unfold _itimediff. by rewrite Z.sub_diag. Qed.

Lemma _itimediff_u32_l a b : _itimediff (u32 a) b = _itimediff a b.
Proof. unfold _itimediff. by rewrite u32_sub_l. Qed.
Lemma _itimediff_u32_r a b : _itimediff a (u32 b) = _itimediff a b.
Proof. unfold _itimediff. by rewrite u32_sub_r. Qed.
