(* ===== verification/IkcpSend.v ===== *)
(** The user side of the control block: [ikcp_send], [ikcp_peeksize], [ikcp_recv]. *)
From S2P Require Import Prelude Bytes IkcpTypes.

(** ** [ikcp_send] *)

(** The [fragment] loop: [count] segments cut from [buffer]; [i] is the loop counter. *)
Fixpoint ikcp_send_fragment (n : nat) (kcp : IKCPCB) (buffer : bytes) (len count i : Z)
  : IKCPCB :=
  match n with
  | O => kcp
  | S n =>
      let size := if len >? i32 (mss kcp) then i32 (mss kcp) else len in
      let seg := ikcp_segment_new (take (Z.to_nat size) buffer) in
      let seg := seg <| seg_len := u32 size |> in
      let seg := seg <| seg_frg := if stream kcp =? 0 then u32 (count - i - 1) else 0 |> in
      let kcp := kcp <| snd_queue := snd_queue kcp ++ [seg] |> in
      let kcp := kcp <| nsnd_que := nsnd_que kcp +w 1 |> in
      ikcp_send_fragment n kcp (drop (Z.to_nat size) buffer) (len - size) count (i + 1)
  end.

(** The streaming-mode prologue: the tail segment of [snd_queue] is replaced by a longer
    one.  Returns the control block and what is left of [buffer] and [len]. *)
Definition ikcp_send_extend (kcp : IKCPCB) (buffer : bytes) (len : Z)
  : IKCPCB * bytes * Z :=
  match last (snd_queue kcp) with
  | Some old =>
      if seg_len old <? mss kcp then
        let capacity := i32 (mss kcp -w seg_len old) in
        let extend := if len <? capacity then len else capacity in
        let seg := ikcp_segment_new
                     (take (Z.to_nat (seg_len old)) (seg_data old)
                      ++ take (Z.to_nat extend) buffer) in
        let seg := seg <| seg_len := seg_len old +w extend |> in
        let seg := seg <| seg_frg := 0 |> in
        (kcp <| snd_queue := removelast (snd_queue kcp) ++ [seg] |>,
         drop (Z.to_nat extend) buffer, len - extend)
      else (kcp, buffer, len)
  | None => (kcp, buffer, len)
  end.

(** The number of fragments. *)
Definition ikcp_send_count (kcp : IKCPCB) (len : Z) : Z :=
  if len <=? i32 (mss kcp) then 1
  else i32 (u32 (u32 (len + mss kcp) - 1) / mss kcp).

Definition ikcp_send (kcp : IKCPCB) (buffer : bytes) (len : Z) : Z * IKCPCB :=
  if len <? 0 then (-1, kcp)
  else
    let '(kcp, buffer, len) :=
      if stream kcp =? 0 then (kcp, buffer, len)
      else ikcp_send_extend kcp buffer len in
    if negb (stream kcp =? 0) && (len <=? 0) then (0, kcp)
    else
      let count := ikcp_send_count kcp len in
      if count >=? i32 IKCP_WND_RCV then (-2, kcp)
      else
        let count := if count =? 0 then 1 else count in
        (0, ikcp_send_fragment (Z.to_nat count) kcp buffer len count 0).

(** ** [ikcp_peeksize] *)
Fixpoint ikcp_peeksize_loop (p : list IKCPSEG) (length : Z) : Z :=
  match p with
  | [] => length
  | seg :: p =>
      let length := i32 (length + seg_len seg) in
      if seg_frg seg =? 0 then length else ikcp_peeksize_loop p length
  end.

Definition ikcp_peeksize (kcp : IKCPCB) : Z :=
  match rcv_queue kcp with
  | [] => -1
  | seg :: _ =>
      if seg_frg seg =? 0 then i32 (seg_len seg)
      else if nrcv_que kcp <? seg_frg seg +w 1 then -1
      else ikcp_peeksize_loop (rcv_queue kcp) 0
  end.

(** ** [ikcp_recv] *)

(** The [merge fragment] loop over [rcv_queue]: the bytes copied, their count, and the
    segments that remain linked with [nrcv_que] when they are not only peeked at. *)
Fixpoint ikcp_recv_merge (ispeek : bool) (p : list IKCPSEG) (nque : Z) (buffer : bytes)
    (len : Z) : bytes * Z * list IKCPSEG * Z :=
  match p with
  | [] => (buffer, len, [], nque)
  | seg :: p =>
      let buffer := buffer ++ take (Z.to_nat (seg_len seg)) (seg_data seg) in
      let len := i32 (len + seg_len seg) in
      let nque' := if ispeek then nque else nque -w 1 in
      let keep := if ispeek then [seg] else [] in
      if seg_frg seg =? 0 then (buffer, len, keep ++ p, nque')
      else
        let '(buffer, len, rest, nque') := ikcp_recv_merge ispeek p nque' buffer len in
        (buffer, len, keep ++ rest, nque')
  end.

(** Move available data from [rcv_buf] to [rcv_queue]: the loop shared by [ikcp_recv]
    and [ikcp_parse_data]. *)
Fixpoint ikcp_move_rcv (p : list IKCPSEG) (kcp : IKCPCB) : IKCPCB :=
  match p with
  | [] => kcp
  | seg :: p' =>
      if (seg_sn seg =? rcv_nxt kcp) && (nrcv_que kcp <? rcv_wnd kcp) then
        let kcp := kcp <| rcv_buf := p' |> in
        let kcp := kcp <| nrcv_buf := nrcv_buf kcp -w 1 |> in
        let kcp := kcp <| rcv_queue := rcv_queue kcp ++ [seg] |> in
        let kcp := kcp <| nrcv_que := nrcv_que kcp +w 1 |> in
        let kcp := kcp <| rcv_nxt := rcv_nxt kcp +w 1 |> in
        ikcp_move_rcv p' kcp
      else kcp
  end.

(** Returns the C result, the bytes written to [buffer] and the control block. *)
Definition ikcp_recv (kcp : IKCPCB) (len : Z) : Z * bytes * IKCPCB :=
  let ispeek := len <? 0 in
  match rcv_queue kcp with
  | [] => (-1, [], kcp)
  | _ :: _ =>
      let len := if len <? 0 then i32 (- len) else len in
      let peeksize := ikcp_peeksize kcp in
      if peeksize <? 0 then (-2, [], kcp)
      else if peeksize >? len then (-3, [], kcp)
      else
        let recover := nrcv_que kcp >=? rcv_wnd kcp in
        let '(buffer, len, rest, nque) :=
          ikcp_recv_merge ispeek (rcv_queue kcp) (nrcv_que kcp) [] 0 in
        let kcp := kcp <| rcv_queue := rest |> in
        let kcp := kcp <| nrcv_que := nque |> in
        let kcp := ikcp_move_rcv (rcv_buf kcp) kcp in
        let kcp :=
          if (nrcv_que kcp <? rcv_wnd kcp) && recover
          then kcp <| probe := Z.lor (probe kcp) IKCP_ASK_TELL |> else kcp in
        (len, buffer, kcp)
  end.

(** ** Specification of the fragmentation

    [frag_segs n m msg buffer] cuts [buffer] into [n] pieces of at most [m] bytes, numbered
    [n-1 .. 0] in message mode and all [0] in stream mode. *)
Definition frag_seg (frg : Z) (data : bytes) : IKCPSEG :=
  (ikcp_segment_new data) <| seg_len := Zlen data |> <| seg_frg := frg |>.

Fixpoint frag_segs (n : nat) (m : Z) (msg : bool) (buffer : bytes) : list IKCPSEG :=
  match n with
  | O => []
  | S n => frag_seg (if msg then Z.of_nat n else 0) (take (Z.to_nat m) buffer)
           :: frag_segs n m msg (drop (Z.to_nat m) buffer)
  end.

(** The payload carried by a queue. *)
Definition seg_bytes (q : list IKCPSEG) : bytes := concat (map seg_data q).

(** A segment whose [len] is the number of its bytes. *)
Definition seg_wf (s : IKCPSEG) : Prop := seg_len s = Zlen (seg_data s).

(** A segment a sender with segment size [m] may queue. *)
Definition seg_fits (m : Z) (s : IKCPSEG) : Prop :=
  seg_wf s /\ seg_len s <= m /\ 0 <= seg_frg s < 256.

(** The shape of the segments of one message, as the receiver reassembles them: [frg]
    counts down to [0]. *)
Fixpoint message_segs (q : list IKCPSEG) : Prop :=
  match q with
  | [] => False
  | s :: q => seg_wf s /\ seg_frg s = Zlen q /\ (q = [] \/ message_segs q)
  end.

Lemma seg_bytes_app p q : seg_bytes (p ++ q) = seg_bytes p ++ seg_bytes q.
Proof. unfold seg_bytes. by rewrite map_app, concat_app. Qed.

Lemma length_frag_segs n m msg b : length (frag_segs n m msg b) = n.
Proof. revert b. induction n; intros; cbn; auto. Qed.

Lemma frag_segs_bytes n m msg b :
  0 < m -> Zlen b <= Z.of_nat n * m -> seg_bytes (frag_segs n m msg b) = b.
Proof.
  intros Hm. revert b. induction n as [|n IH]; intros b Hb.
  - destruct b; [done|]. unfold Zlen in Hb. cbn in Hb. lia.
  - cbn [frag_segs]. change (seg_bytes (?x :: ?q)) with (seg_data x ++ seg_bytes q).
    rewrite IH; [apply take_drop|]. unfold Zlen in *. rewrite length_drop. lia.
Qed.

Lemma frag_segs_wf n m msg b :
  0 < m -> (n <= 256)%nat -> Forall (seg_fits m) (frag_segs n m msg b).
Proof.
  intros Hm. revert b. induction n as [|n IH]; intros b Hn; constructor; [|apply IH; lia].
  split; [done|]. unfold frag_seg. simp_upd. unfold Zlen. rewrite length_take.
  destruct msg; lia.
Qed.

Lemma frag_segs_message n m b :
  message_segs (frag_segs (S n) m true b).
Proof.
  revert b. induction n as [|n IH]; intros b.
  - cbn [frag_segs message_segs]. split; [done|]. split; [done|]. by left.
  - remember (S n) as n' eqn:E. cbn [frag_segs message_segs]. subst n'.
    split; [done|]. split; [|right; apply IH].
    unfold frag_seg; simp_upd. unfold Zlen. by rewrite length_frag_segs.
Qed.

(** The loop computes the specification. *)
Lemma ikcp_send_fragment_spec n kcp buffer count i :
  0 < mss kcp < 2147483648 -> Zlen buffer < 4294967296 ->
  count - i = Z.of_nat n -> count < 4294967296 -> 0 <= i ->
  0 <= nsnd_que kcp < 4294967296 ->
  ikcp_send_fragment n kcp buffer (Zlen buffer) count i =
  kcp <| snd_queue := snd_queue kcp
                      ++ frag_segs n (mss kcp) (stream kcp =? 0) buffer |>
      <| nsnd_que := u32 (nsnd_que kcp + Z.of_nat n) |>.
Proof.
  revert kcp buffer i. induction n as [|n IH]; intros kcp buffer i Hm Hb Hc Hc' Hi Hq.
  - cbn [ikcp_send_fragment frag_segs]. rewrite app_nil_r, Z.add_0_r, u32_small by lia.
    by destruct kcp.
  - cbn [ikcp_send_fragment frag_segs]. rewrite (i32_small (mss kcp)) by lia.
    set (size := if _ >? _ then _ else _).
    assert (size = Z.min (Zlen buffer) (mss kcp)) as Hsize
      by (unfold size; destruct (Z.gtb_spec (Zlen buffer) (mss kcp)); lia).
    assert (take (Z.to_nat size) buffer = take (Z.to_nat (mss kcp)) buffer) as Ht.
    { rewrite Hsize. unfold Zlen. destruct (Z.min_spec (Z.of_nat (length buffer)) (mss kcp))
        as [[? ->]|[? ->]]; [|done]. rewrite !take_ge by lia. done. }
    assert (drop (Z.to_nat size) buffer = drop (Z.to_nat (mss kcp)) buffer) as Hd.
    { rewrite Hsize. unfold Zlen. destruct (Z.min_spec (Z.of_nat (length buffer)) (mss kcp))
        as [[? ->]|[? ->]]; [|done]. rewrite !drop_ge by lia. done. }
    assert (Zlen (drop (Z.to_nat (mss kcp)) buffer) = Zlen buffer - size) as Hl.
    { unfold Zlen in *. rewrite length_drop. lia. }
    rewrite Ht, Hd, <- Hl, IH; simp_upd; [|try (rewrite Hl; unfold Zlen in *); auto using u32_range; lia..].
    rewrite <- app_assoc. cbn [app].
    assert (u32 size = Zlen (take (Z.to_nat (mss kcp)) buffer)) as ->.
    { unfold Zlen in *. rewrite length_take, u32_small; lia. }
    replace (u32 (count - i - 1)) with (Z.of_nat n) by (rewrite u32_small; lia).
    rewrite u32_add_l. replace (nsnd_que kcp + 1 + Z.of_nat n)
      with (nsnd_que kcp + Z.of_nat (S n)) by lia. reflexivity.
Qed.

(** The number of fragments of a message of [len] bytes. *)
Definition frag_count (m len : Z) : Z := Z.max 1 ((len + m - 1) / m).

Lemma ikcp_send_count_spec kcp len :
  0 < mss kcp < 2147483648 -> 0 <= len < 2147483648 ->
  ikcp_send_count kcp len = frag_count (mss kcp) len.
Proof.
  intros Hm Hl. unfold ikcp_send_count, frag_count. rewrite (i32_small (mss kcp)) by lia.
  destruct (Z.leb_spec len (mss kcp)).
  - assert ((len + mss kcp - 1) / mss kcp <= 1); [|lia].
    apply Z.lt_succ_r, Z.div_lt_upper_bound; lia.
  - rewrite !u32_small by (rewrite ?u32_small; lia).
    assert (1 <= (len + mss kcp - 1) / mss kcp < 2147483648); [|rewrite i32_small; lia].
    split; [apply Z.div_le_lower_bound; lia|].
    apply Z.div_lt_upper_bound; nia.
Qed.

Lemma frag_count_le m len : 0 < m -> 0 <= len -> len <= frag_count m len * m.
Proof.
  intros Hm Hl. unfold frag_count.
  pose proof (Z.mod_pos_bound (len + m - 1) m Hm).
  pose proof (Z.div_mod (len + m - 1) m ltac:(lia)). nia.
Qed.

(** At most 255 fragments: exactly the messages of at most 255 full segments. *)
Lemma frag_count_limit m len :
  0 < m -> 0 <= len -> frag_count m len < 256 <-> len <= 255 * m.
Proof.
  intros Hm Hl. unfold frag_count.
  pose proof (Z.mod_pos_bound (len + m - 1) m Hm).
  pose proof (Z.div_mod (len + m - 1) m ltac:(lia)). nia.
Qed.

Lemma removelast_snoc {A} (q : list A) x : removelast (q ++ [x]) = q.
Proof. rewrite removelast_app by done. apply app_nil_r. Qed.

(** The room left in the tail segment of the send queue. *)
Definition tail_room (kcp : IKCPCB) : Z :=
  match last (snd_queue kcp) with
  | Some old => Z.max 0 (mss kcp - seg_len old)
  | None => 0
  end.

(** The streaming prologue moves a prefix of the buffer to the tail segment. *)
Lemma ikcp_send_extend_spec kcp b :
  Zlen b < 2147483648 -> mss kcp < 2147483648 ->
  Forall (seg_fits (mss kcp)) (snd_queue kcp) ->
  exists q, let b' := drop (Z.to_nat (tail_room kcp)) b in
    ikcp_send_extend kcp b (Zlen b) = (kcp <| snd_queue := q |>, b', Zlen b') /\
    length q = length (snd_queue kcp) /\ Forall (seg_fits (mss kcp)) q /\
    seg_bytes q = seg_bytes (snd_queue kcp) ++ take (Z.to_nat (tail_room kcp)) b.
Proof.
  intros Hb Hm Hq. unfold ikcp_send_extend, tail_room.
  destruct (last (snd_queue kcp)) as [old|] eqn:El; cycle 1.
  { exists (snd_queue kcp). rewrite drop_0, take_0, app_nil_r. by destruct kcp. }
  destruct (Z.ltb_spec (seg_len old) (mss kcp)) as [Hlt|Hge]; cycle 1.
  { rewrite Z.max_l by lia. exists (snd_queue kcp).
    rewrite drop_0, take_0, app_nil_r. by destruct kcp. }
  rewrite Z.max_r by lia.
  apply last_Some in El as [q El]. rewrite El in Hq |- *. rewrite removelast_snoc.
  apply Forall_app in Hq as [Hq [[Hw _] _]%Forall_cons].
  unfold seg_wf in Hw. assert (0 <= seg_len old) by (rewrite Hw; unfold Zlen; lia).
  rewrite (u32_small (mss kcp - _)), (i32_small (mss kcp - _)) by lia.
  set (ext := if _ <? _ then _ else _).
  assert (ext = Z.min (Zlen b) (mss kcp - seg_len old)) as Hext
    by (unfold ext; destruct (Z.ltb_spec (Zlen b) (mss kcp - seg_len old)); lia).
  rewrite (take_ge (seg_data old)) by (unfold Zlen in Hw; lia).
  assert (take (Z.to_nat ext) b = take (Z.to_nat (mss kcp - seg_len old)) b /\
          drop (Z.to_nat ext) b = drop (Z.to_nat (mss kcp - seg_len old)) b) as [Ht Hd].
  { rewrite Hext. unfold Zlen in *.
    destruct (Z.min_spec (Z.of_nat (length b)) (mss kcp - seg_len old)) as [[? ->]|[? ->]];
      [|done]. by rewrite !take_ge, !drop_ge by lia. }
  eexists. rewrite <- Hd, <- Ht.
  assert (Zlen (drop (Z.to_nat ext) b) = Zlen b - ext) as ->.
  { unfold Zlen in *. rewrite length_drop. lia. }
  split; [done|]. split; [by rewrite !length_app|]. split.
  - apply Forall_app; split; [done|]. constructor; [|done].
    unfold seg_fits, seg_wf. simp_upd.
    assert (seg_len old +w ext
            = Zlen (seg_data old ++ take (Z.to_nat ext) b)) as ->; [|split; [done|split; [|lia]]];
    unfold Zlen in *; rewrite length_app, length_take; [rewrite u32_small|]; lia.
  - rewrite !seg_bytes_app, <- !app_assoc. f_equal. unfold seg_bytes. cbn [map concat].
    simp_upd. cbn [seg_data ikcp_segment_new]. by rewrite !app_nil_r.
Qed.

(** The bytes the streaming prologue consumes. *)
Definition send_room (kcp : IKCPCB) : Z := if stream kcp =? 0 then 0 else tail_room kcp.

(** The whole call, in either mode. *)
Lemma ikcp_send_spec kcp b :
  0 < mss kcp < 2147483648 -> Zlen b < 2147483648 ->
  0 <= nsnd_que kcp < 4294967296 ->
  Forall (seg_fits (mss kcp)) (snd_queue kcp) ->
  exists q, let b' := drop (Z.to_nat (send_room kcp)) b in
    (stream kcp = 0 -> q = snd_queue kcp) /\
    length q = length (snd_queue kcp) /\ Forall (seg_fits (mss kcp)) q /\
    seg_bytes q = seg_bytes (snd_queue kcp) ++ take (Z.to_nat (send_room kcp)) b /\
    ikcp_send kcp b (Zlen b) =
      if negb (stream kcp =? 0) && (Zlen b' <=? 0) then (0, kcp <| snd_queue := q |>)
      else
        let n := frag_count (mss kcp) (Zlen b') in
        if 256 <=? n then (-2, kcp <| snd_queue := q |>)
        else (0, kcp <| snd_queue := q ++ frag_segs (Z.to_nat n) (mss kcp) (stream kcp =? 0) b' |>
                     <| nsnd_que := u32 (nsnd_que kcp + n) |>).
Proof.
  intros Hm Hb Hn Hq.
  assert (exists q, let b' := drop (Z.to_nat (send_room kcp)) b in
    (if stream kcp =? 0 then (kcp, b, Zlen b) else ikcp_send_extend kcp b (Zlen b))
      = (kcp <| snd_queue := q |>, b', Zlen b') /\
    (stream kcp = 0 -> q = snd_queue kcp) /\
    length q = length (snd_queue kcp) /\ Forall (seg_fits (mss kcp)) q /\
    seg_bytes q = seg_bytes (snd_queue kcp) ++ take (Z.to_nat (send_room kcp)) b)
    as (q & E & Hmsg & Hlen & Hfit & Hbytes).
  { unfold send_room. destruct (Z.eqb_spec (stream kcp) 0) as [Hs|Hs].
    - exists (snd_queue kcp). rewrite drop_0, take_0, app_nil_r. by destruct kcp.
    - destruct (ikcp_send_extend_spec kcp b) as (q & ? & ? & ? & ?); [lia|lia|done|].
      exists q. split_and!; done. }
  exists q. split_and!; try done. set (b' := drop _ b) in *.
  unfold ikcp_send. destruct (Z.ltb_spec (Zlen b) 0) as [?|_]; [unfold Zlen in *; lia|].
  rewrite E. cbn beta iota. simp_upd.
  destruct (negb (stream kcp =? 0) && (Zlen b' <=? 0)); [done|].
  assert (0 <= Zlen b' <= Zlen b) as Hb'.
  { unfold b', Zlen. rewrite length_drop. lia. }
  rewrite ikcp_send_count_spec by (simp_upd; lia). simp_upd.
  change (i32 IKCP_WND_RCV) with 256. cbv zeta. rewrite Z.geb_leb.
  destruct (Z.leb_spec 256 (frag_count (mss kcp) (Zlen b'))); [done|].
  destruct (Z.eqb_spec (frag_count (mss kcp) (Zlen b')) 0) as [E0|_];
    [unfold frag_count in E0; lia|].
  assert (1 <= frag_count (mss kcp) (Zlen b')) by (unfold frag_count; lia).
  rewrite ikcp_send_fragment_spec; simp_upd; try lia. rewrite Z2Nat.id by lia.
  reflexivity.
Qed.

(** ** Properties of [ikcp_send] *)

(** What [ikcp_send] needs of the control block. *)
Definition send_ok (kcp : IKCPCB) : Prop :=
  0 < mss kcp < 2147483648 /\ nsnd_que kcp = u32 (Zlen (snd_queue kcp)) /\
  Forall (seg_fits (mss kcp)) (snd_queue kcp).

(** A message (or a stream write) of [Zlen b] bytes is accepted exactly when what does not
    fit in the open tail segment needs at most 255 segments; the only other result is [-2]. *)
Theorem ikcp_send_accepts kcp b :
  send_ok kcp -> Zlen b < 2147483648 ->
  fst (ikcp_send kcp b (Zlen b)) =
    if Zlen b <=? send_room kcp + 255 * mss kcp then 0 else -2.
Proof.
  intros (Hm & Hn & Hq) Hb.
  destruct (ikcp_send_spec kcp b) as (q & _ & _ & _ & _ & ->);
    [done|done|rewrite Hn; apply u32_range|done|]. cbn zeta.
  set (b' := drop _ b).
  assert (0 <= send_room kcp) as Hr.
  { unfold send_room, tail_room. destruct (_ =? _), (last (snd_queue kcp)); lia. }
  assert (Zlen b' = Z.max 0 (Zlen b - send_room kcp)) as Hb'.
  { unfold b', Zlen. rewrite length_drop. lia. }
  pose proof (frag_count_limit (mss kcp) (Zlen b')) as Hlim.
  destruct (Z.leb_spec (Zlen b) (send_room kcp + 255 * mss kcp)),
    (negb (stream kcp =? 0) && (Zlen b' <=? 0)) eqn:E,
    (Z.leb_spec 256 (frag_count (mss kcp) (Zlen b'))); cbn [fst]; try done; lia.
Qed.

(** On success the queued bytes are the old ones followed by the whole buffer, and the queue
    stays well formed; on failure only the bytes that fit in the tail segment were queued. *)
Theorem ikcp_send_queues kcp b :
  send_ok kcp -> Zlen b < 2147483648 ->
  let '(r, kcp') := ikcp_send kcp b (Zlen b) in
  send_ok kcp' /\
  seg_bytes (snd_queue kcp') = seg_bytes (snd_queue kcp) ++
    (if r =? 0 then b else take (Z.to_nat (send_room kcp)) b).
Proof.
  intros (Hm & Hn & Hq) Hb.
  destruct (ikcp_send_spec kcp b) as (q & _ & Hlen & Hfit & Hbytes & ->);
    [done|done|rewrite Hn; apply u32_range|done|]. cbn zeta.
  set (b' := drop _ b) in *.
  destruct (negb (stream kcp =? 0) && (Zlen b' <=? 0)) eqn:E; [|destruct (Z.leb_spec 256 (frag_count (mss kcp) (Zlen b')))].
  - unfold send_ok. simp_upd. rewrite Hn. unfold Zlen. rewrite Hlen.
    split_and!; try done; try lia. rewrite Hbytes, take_ge; [done|].
    unfold b', Zlen in E. rewrite length_drop in E. lia.
  - unfold send_ok. simp_upd. rewrite Hn. unfold Zlen. rewrite Hlen. split_and!; try done; lia.
  - assert (1 <= frag_count (mss kcp) (Zlen b')) by (unfold frag_count; lia).
    unfold send_ok. simp_upd. split_and!; try lia.
    + rewrite Hn, u32_add_l. unfold Zlen. rewrite length_app, length_frag_segs, Hlen.
      f_equal. unfold Zlen in *. lia.
    + apply Forall_app; split; [done|]. apply frag_segs_wf; lia.
    + rewrite seg_bytes_app, Hbytes, <- app_assoc, frag_segs_bytes; [|lia|].
      * unfold b'. by rewrite take_drop.
      * rewrite Z2Nat.id by lia. apply frag_count_le; unfold Zlen; lia.
Qed.

(** In message mode the queue grows by the segments of one complete message. *)
Lemma ikcp_send_message_spec kcp b :
  send_ok kcp -> stream kcp = 0 -> Zlen b <= 255 * mss kcp -> Zlen b < 2147483648 ->
  exists q, ikcp_send kcp b (Zlen b) =
      (0, kcp <| snd_queue := snd_queue kcp ++ q |>
              <| nsnd_que := u32 (nsnd_que kcp + Zlen q) |>) /\
    message_segs q /\ seg_bytes q = b /\ Forall (seg_fits (mss kcp)) q /\
    Zlen q = frag_count (mss kcp) (Zlen b).
Proof.
  intros (Hm & Hn & Hq) Hs Hb Hb'.
  destruct (ikcp_send_spec kcp b) as (q & Hsame & _ & _ & _ & ->);
    [done|lia|rewrite Hn; apply u32_range|done|]. cbn zeta.
  unfold send_room. rewrite (Hsame Hs), Hs. cbn [negb Z.eqb andb]. rewrite drop_0.
  assert (1 <= frag_count (mss kcp) (Zlen b) < 256).
  { split; [unfold frag_count; lia|]. apply frag_count_limit; unfold Zlen in *; lia. }
  destruct (Z.leb_spec 256 (frag_count (mss kcp) (Zlen b))) as [?|_]; [lia|].
  destruct (Z.to_nat (frag_count (mss kcp) (Zlen b))) as [|n] eqn:En; [lia|].
  exists (frag_segs (S n) (mss kcp) true b). split_and!.
  - unfold Zlen at 2. rewrite length_frag_segs, <- En, Z2Nat.id by lia. done.
  - apply frag_segs_message.
  - rewrite frag_segs_bytes; [done|lia|]. rewrite <- En, Z2Nat.id by lia.
    apply frag_count_le; unfold Zlen; lia.
  - apply frag_segs_wf; lia.
  - unfold Zlen at 1. rewrite length_frag_segs. lia.
Qed.

(** ** Reassembly *)

(** The segments [ikcp_recv] merges: up to and including the first with [frg = 0]. *)
Fixpoint msg_prefix (q : list IKCPSEG) : list IKCPSEG * list IKCPSEG :=
  match q with
  | [] => ([], [])
  | s :: q => if seg_frg s =? 0 then ([s], q)
              else let '(m, r) := msg_prefix q in (s :: m, r)
  end.

(** The receive queue holds well-formed segments, fewer than 2^31 bytes of them, and
    [nrcv_que] counts them. *)
Definition recv_ok (kcp : IKCPCB) : Prop :=
  Forall seg_wf (rcv_queue kcp) /\ Zlen (seg_bytes (rcv_queue kcp)) < 2147483648 /\
  nrcv_que kcp = Zlen (rcv_queue kcp) /\ Zlen (rcv_queue kcp) < 4294967296.

Lemma msg_prefix_app q : q = fst (msg_prefix q) ++ snd (msg_prefix q).
Proof.
  induction q as [|s q IH]; [done|]. cbn [msg_prefix].
  destruct (_ =? _); [done|]. destruct (msg_prefix q) as [m r]. cbn in *. congruence.
Qed.

Lemma msg_prefix_message q rest :
  message_segs q -> Zlen q < 4294967296 -> msg_prefix (q ++ rest) = (q, rest).
Proof.
  induction q as [|s q IH]; [done|]. cbn [message_segs msg_prefix app].
  intros (_ & Hf & [->|Hq]) Hl; [by rewrite Hf|].
  rewrite Hf. destruct q as [|s' q]; [done|].
  destruct (Z.eqb_spec (Zlen (s' :: q)) 0) as [E|_]; [unfold Zlen in E; cbn in E; lia|].
  rewrite IH; [done..|unfold Zlen in *; cbn in *; lia].
Qed.

Lemma Zlen_seg_bytes_cons s q :
  Zlen (seg_bytes (s :: q)) = Zlen (seg_data s) + Zlen (seg_bytes q).
Proof. unfold seg_bytes, Zlen. cbn [map concat]. rewrite length_app. lia. Qed.

Lemma ikcp_peeksize_loop_spec q n :
  Forall seg_wf q -> 0 <= n -> n + Zlen (seg_bytes q) < 2147483648 ->
  ikcp_peeksize_loop q n = n + Zlen (seg_bytes (fst (msg_prefix q))).
Proof.
  intros Hq. revert n. induction Hq as [|s q Hs Hq IH]; intros n Hn Hlt.
  - cbn. unfold Zlen. cbn. lia.
  - cbn [ikcp_peeksize_loop msg_prefix]. unfold seg_wf in Hs.
    rewrite Zlen_seg_bytes_cons in Hlt. pose proof (Zlen_nonneg (seg_bytes q)).
    pose proof (Zlen_nonneg (seg_data s)).
    rewrite i32_small by lia. destruct (_ =? _).
    + cbn [fst]. rewrite Zlen_seg_bytes_cons. change (Zlen (seg_bytes [])) with 0. lia.
    + rewrite IH by lia. destruct (msg_prefix q). cbn [fst].
      rewrite Zlen_seg_bytes_cons. lia.
Qed.

Lemma ikcp_recv_merge_spec peek q nque buf n :
  Forall seg_wf q -> 0 <= n -> n + Zlen (seg_bytes q) < 2147483648 ->
  Zlen q <= nque < 4294967296 ->
  ikcp_recv_merge peek q nque buf n =
    (let '(m, r) := msg_prefix q in
     (buf ++ seg_bytes m, n + Zlen (seg_bytes m), if peek then q else r,
      if peek then nque else nque - Zlen m)).
Proof.
  intros Hq. revert nque buf n. induction Hq as [|s q Hs Hq IH]; intros nque buf n Hn Hlt Hnq.
  - cbn. unfold Zlen. cbn. rewrite app_nil_r, Z.add_0_r, Z.sub_0_r. by destruct peek.
  - cbn [ikcp_recv_merge msg_prefix]. unfold seg_wf in Hs.
    rewrite Zlen_seg_bytes_cons in Hlt. pose proof (Zlen_nonneg (seg_bytes q)).
    pose proof (Zlen_nonneg (seg_data s)). rewrite Zlen_cons in Hnq.
    pose proof (Zlen_nonneg q).
    rewrite i32_small by lia. rewrite (u32_small (nque - 1)) by lia.
    rewrite (take_ge (seg_data s)) by (unfold Zlen in Hs; lia).
    destruct (_ =? _).
    + unfold seg_bytes. cbn [map concat]. rewrite app_nil_r, Hs.
      destruct peek; done.
    + rewrite IH by (try destruct peek; lia). destruct (msg_prefix q) as [m r].
      rewrite Zlen_seg_bytes_cons, Zlen_cons, Hs.
      replace (seg_bytes (s :: m)) with (seg_data s ++ seg_bytes m) by done.
      rewrite <- app_assoc, Z.add_assoc, Z.sub_add_distr. by destruct peek.
Qed.

(** ** The move from [rcv_buf] to [rcv_queue] *)

(** The new control block when the prefix [m] of [rcv_buf] has been moved and [r] is left. *)
Definition rcv_moved (kcp : IKCPCB) (m r : list IKCPSEG) : IKCPCB :=
  kcp <| rcv_buf := r |>
      <| nrcv_buf := u32 (nrcv_buf kcp - Zlen m) |>
      <| rcv_queue := rcv_queue kcp ++ m |>
      <| nrcv_que := u32 (nrcv_que kcp + Zlen m) |>
      <| rcv_nxt := u32 (rcv_nxt kcp + Zlen m) |>.

(** The segments of a queue carry consecutive sequence numbers from [n] on. *)
Fixpoint consecutive (n : Z) (q : list IKCPSEG) : Prop :=
  match q with [] => True | s :: q => seg_sn s = u32 n /\ consecutive (n + 1) q end.

Lemma consecutive_same n q q' : map seg_sn q' = map seg_sn q -> consecutive n q -> consecutive n q'.
Proof.
  revert n q'. induction q as [|s q IH]; intros n [|s' q'] E; try done. injection E as E1 E2.
  intros [H1 H2]. split; [congruence|by apply IH].
Qed.

Lemma consecutive_u32 n q : consecutive (u32 n) q <-> consecutive n q.
Proof.
  revert n. induction q as [|s q IH]; intros n; [done|]. cbn [consecutive].
  rewrite u32_idemp, <- (IH (n + 1)), <- (IH (u32 n + 1)), u32_add_l. done.
Qed.

(** The ranges the move needs. *)
Definition move_ok (kcp : IKCPCB) : Prop :=
  0 <= nrcv_buf kcp < 4294967296 /\ 0 <= nrcv_que kcp < 4294967296 /\
  0 <= rcv_nxt kcp < 4294967296 /\ 0 <= rcv_wnd kcp < 2147483648.

Lemma ikcp_move_rcv_spec kcp :
  move_ok kcp ->
  exists m r, rcv_buf kcp = m ++ r /\ consecutive (rcv_nxt kcp) m /\
    ikcp_move_rcv (rcv_buf kcp) kcp = rcv_moved kcp m r /\
    (m = [] \/ nrcv_que kcp + Zlen m <= rcv_wnd kcp) /\
    match r with
    | [] => True
    | s :: _ => seg_sn s <> u32 (rcv_nxt kcp + Zlen m) \/ rcv_wnd kcp <= nrcv_que kcp + Zlen m
    end.
Proof.
  remember (rcv_buf kcp) as q eqn:Eq. revert kcp Eq.
  induction q as [|s q IH]; intros kcp Eq (Hb & Hq & Hn & Hw).
  - exists [], []. cbn [ikcp_move_rcv]. split_and!; try done; [|by left].
    unfold rcv_moved. change (Zlen (A := IKCPSEG) []) with 0.
    rewrite Z.sub_0_r, !Z.add_0_r, !u32_small, app_nil_r, Eq by lia. by destruct kcp.
  - cbn [ikcp_move_rcv].
    destruct (Z.eqb_spec (seg_sn s) (rcv_nxt kcp)) as [Es|Es],
      (Z.ltb_spec (nrcv_que kcp) (rcv_wnd kcp)) as [Hlt|Hge]; cbn [andb]; cycle 1.
    1-3: exists [], (s :: q); change (Zlen (A := IKCPSEG) []) with 0; split_and!; try done;
      [|by left|rewrite Z.add_0_r, u32_small by lia; auto with lia];
      unfold rcv_moved; change (Zlen (A := IKCPSEG) []) with 0;
      rewrite Z.sub_0_r, !Z.add_0_r, !u32_small, app_nil_r, Eq by lia; by destruct kcp.
    match goal with |- context [ikcp_move_rcv q ?k] => destruct (IH k)
      as (m & r & Hqq & Hc & -> & Hm & Hstop) end.
    { by simp_upd. }
    { unfold move_ok. simp_upd. u32_lia. }
    revert Hc Hm Hstop. simp_upd. rewrite (u32_small (nrcv_que kcp + 1)) by lia.
    intros Hc Hm Hstop.
    exists (s :: m), r. rewrite Zlen_cons. split_and!.
    + by rewrite Hqq.
    + split; [by rewrite Es, u32_small by lia|]. by apply consecutive_u32.
    + unfold rcv_moved. simp_upd. rewrite Zlen_cons, <- app_assoc, u32_sub_l, !u32_add_l.
      rewrite Z.sub_add_distr, !Z.add_assoc. reflexivity.
    + right. destruct Hm as [->|?]; [|lia]. change (Zlen []) with 0. lia.
    + destruct r as [|s' r]; [done|]. rewrite u32_add_l in Hstop.
      rewrite Z.add_assoc. destruct Hstop as [?|?]; [by left|right; lia].
Qed.

(** ** Properties of [ikcp_recv] *)

(** No complete message is at the head of the receive queue. *)
Definition head_incomplete (kcp : IKCPCB) : bool :=
  match rcv_queue kcp with
  | [] => true
  | s :: _ => negb (seg_frg s =? 0) && (nrcv_que kcp <? seg_frg s +w 1)
  end.

Lemma ikcp_peeksize_spec kcp :
  recv_ok kcp ->
  ikcp_peeksize kcp =
    if head_incomplete kcp then -1 else Zlen (seg_bytes (fst (msg_prefix (rcv_queue kcp)))).
Proof.
  intros (Hwf & Hlt & Hn & _). unfold ikcp_peeksize, head_incomplete.
  pose proof (ikcp_peeksize_loop_spec (rcv_queue kcp) 0 Hwf) as Hloop.
  destruct (rcv_queue kcp) as [|s q]; [done|].
  destruct (seg_frg s =? 0) eqn:Ef; cbn [negb andb].
  - apply Forall_cons in Hwf as [Hs _]. unfold seg_wf in Hs.
    rewrite Zlen_seg_bytes_cons in Hlt. pose proof (Zlen_nonneg (seg_bytes q)).
    pose proof (Zlen_nonneg (seg_data s)).
    cbn [msg_prefix]. rewrite Ef. cbn [fst]. rewrite Zlen_seg_bytes_cons, i32_small by lia.
    change (Zlen (seg_bytes [])) with 0. lia.
  - destruct (_ <? _); [done|]. rewrite Hloop by lia. lia.
Qed.

(** The control block after a successful receive, before the fast-recover probe. *)
Definition recv_taken (peek : bool) (kcp : IKCPCB) : IKCPCB :=
  let '(m, r) := msg_prefix (rcv_queue kcp) in
  let kcp := kcp <| rcv_queue := if peek then rcv_queue kcp else r |>
                 <| nrcv_que := if peek then nrcv_que kcp else nrcv_que kcp - Zlen m |> in
  ikcp_move_rcv (rcv_buf kcp) kcp.

Lemma ikcp_recv_spec kcp len :
  recv_ok kcp -> -2147483648 < len < 2147483648 ->
  ikcp_recv kcp len =
    let m := fst (msg_prefix (rcv_queue kcp)) in
    if Zlen (rcv_queue kcp) =? 0 then (-1, [], kcp)
    else if head_incomplete kcp then (-2, [], kcp)
    else if Z.abs len <? Zlen (seg_bytes m) then (-3, [], kcp)
    else
      let kcp' := recv_taken (len <? 0) kcp in
      (Zlen (seg_bytes m), seg_bytes m,
       if (nrcv_que kcp' <? rcv_wnd kcp') && (nrcv_que kcp >=? rcv_wnd kcp)
       then kcp' <| probe := Z.lor (probe kcp') IKCP_ASK_TELL |> else kcp').
Proof.
  intros Hok Hlen. pose proof Hok as (Hwf & Hlt & Hn & Hmax). unfold ikcp_recv.
  pose proof (ikcp_peeksize_spec kcp Hok) as Hpeek.
  destruct (rcv_queue kcp) as [|s q] eqn:Eq; [done|]. rewrite <- Eq in *. cbv zeta.
  destruct (Z.eqb_spec (Zlen (rcv_queue kcp)) 0) as [E0|_].
  { rewrite Eq, Zlen_cons in E0. pose proof (Zlen_nonneg q). lia. }
  rewrite Hpeek. destruct (head_incomplete kcp) eqn:Ei; [done|].
  pose proof (Zlen_nonneg (seg_bytes (fst (msg_prefix (rcv_queue kcp))))) as H0.
  destruct (Z.ltb_spec (Zlen (seg_bytes (fst (msg_prefix (rcv_queue kcp))))) 0); [lia|].
  assert ((if len <? 0 then i32 (- len) else len) = Z.abs len) as ->.
  { destruct (Z.ltb_spec len 0); [rewrite i32_small|]; lia. }
  rewrite Z.gtb_ltb. destruct (_ <? _); [done|].
  rewrite ikcp_recv_merge_spec by (try done; lia). unfold recv_taken.
  destruct (msg_prefix (rcv_queue kcp)) as [m r]. reflexivity.
Qed.

(** The C [assert(len == peeksize)] never fails, and the bytes written to the caller's buffer
    are the payload of the first message and fit in the buffer; a negative result leaves the
    control block as it was, and tells which of the three refusals it is. *)
Theorem ikcp_recv_result kcp len :
  recv_ok kcp -> -2147483648 < len < 2147483648 ->
  let '(n, buf, kcp') := ikcp_recv kcp len in
  (0 <= n -> n = ikcp_peeksize kcp /\ n = Zlen buf /\ n <= Z.abs len /\
             buf = seg_bytes (fst (msg_prefix (rcv_queue kcp)))) /\
  (n < 0 -> buf = [] /\ kcp' = kcp) /\
  (n = -1 <-> rcv_queue kcp = []) /\
  (n = -2 <-> rcv_queue kcp <> [] /\ head_incomplete kcp = true) /\
  (n = -3 <-> head_incomplete kcp = false /\ Z.abs len < ikcp_peeksize kcp) /\
  -3 <= n.
Proof.
  intros Hok Hlen. rewrite ikcp_recv_spec, ikcp_peeksize_spec by done. cbv zeta.
  set (m := fst (msg_prefix (rcv_queue kcp))). pose proof (Zlen_nonneg (seg_bytes m)).
  destruct (Z.eqb_spec (Zlen (rcv_queue kcp)) 0) as [E0|E0].
  { assert (rcv_queue kcp = []) as E by (destruct (rcv_queue kcp); [done|]; unfold Zlen in *; cbn in *; lia).
    unfold head_incomplete. rewrite E. split_and!; try done; try lia; naive_solver lia. }
  assert (rcv_queue kcp <> []) by (intros E; rewrite E in E0; done).
  destruct (head_incomplete kcp).
  { split_and!; try done; try lia; naive_solver lia. }
  destruct (Z.ltb_spec (Z.abs len) (Zlen (seg_bytes m)));
    split_and!; try done; try lia; naive_solver lia.
Qed.

(** C15: Receiving: when a complete message is at the head of the queue, a large enough buffer
    gets exactly its bytes, and the message's segments, and no others, leave the queue. *)
Theorem ikcp_recv_message kcp len q rest :
  recv_ok kcp -> move_ok kcp -> rcv_queue kcp = q ++ rest -> message_segs q ->
  Zlen (seg_bytes q) <= len < 2147483648 ->
  exists m r, rcv_buf kcp = m ++ r /\
    let '(n, buf, kcp') := ikcp_recv kcp len in
    n = Zlen buf /\ buf = seg_bytes q /\
    rcv_queue kcp' = rest ++ m /\ rcv_buf kcp' = r /\
    nrcv_que kcp' = u32 (Zlen (rest ++ m)) /\ rcv_nxt kcp' = u32 (rcv_nxt kcp + Zlen m).
Proof.
  intros Hok Hmv Eq Hq Hlen. pose proof Hok as (Hwf & Hlt & Hn & Hmax).
  rewrite Eq, Zlen_app in Hmax. pose proof (Zlen_nonneg rest).
  pose proof (msg_prefix_message q rest Hq ltac:(lia)) as Hp.
  pose proof (Zlen_nonneg (seg_bytes q)). pose proof (Zlen_nonneg q).
  rewrite ikcp_recv_spec by (try done; lia).
  unfold recv_taken. rewrite Eq, Hp. cbn [fst snd]. cbv zeta.
  destruct (Z.ltb_spec len 0); [lia|]. rewrite Z.abs_eq by lia.
  destruct (Z.ltb_spec len (Zlen (seg_bytes q))); [lia|].
  destruct q as [|s q]; [done|]. rewrite !Zlen_app, !Zlen_cons in *.
  assert (head_incomplete kcp = false) as ->.
  { unfold head_incomplete. rewrite Eq. cbn [app]. destruct Hq as (_ & -> & _).
    rewrite Hn, Eq, Zlen_app, Zlen_cons, u32_small by lia. lia. }
  destruct (Z.eqb_spec (1 + Zlen q + Zlen rest) 0); [pose proof (Zlen_nonneg q); lia|].
  match goal with |- context [ikcp_move_rcv _ ?k] =>
    destruct (ikcp_move_rcv_spec k) as (m & r & Hb & _ & Emv & _) end.
  { unfold move_ok in *. simp_upd. rewrite Hn, Eq, Zlen_app, Zlen_cons. lia. }
  revert Hb Emv. simp_upd. intros Hb ->. exists m, r. split; [done|].
  assert (nrcv_que kcp - (1 + Zlen q) + Zlen m = Zlen (rest ++ m)) as El.
  { rewrite Hn, Eq, !Zlen_app, Zlen_cons. lia. }
  destruct (_ && _); unfold rcv_moved; simp_upd; rewrite El; done.
Qed.

(** Peeking reports the same bytes and consumes nothing. *)
Theorem ikcp_recv_peek kcp len :
  recv_ok kcp -> move_ok kcp -> 0 < len < 2147483648 ->
  let '(n, buf, kcp') := ikcp_recv kcp (- len) in
  (n, buf) = fst (ikcp_recv kcp len) /\
  exists m, rcv_queue kcp' = rcv_queue kcp ++ m.
Proof.
  intros Hok Hmv Hlen. rewrite !ikcp_recv_spec by (try done; lia). cbv zeta.
  rewrite Z.abs_opp. set (p := fst (msg_prefix (rcv_queue kcp))).
  destruct (_ =? 0); [split; [done|]; exists []; by rewrite app_nil_r|].
  destruct (head_incomplete kcp); [split; [done|]; exists []; by rewrite app_nil_r|].
  destruct (_ <? _); [split; [done|]; exists []; by rewrite app_nil_r|].
  split; [done|]. unfold recv_taken. destruct (msg_prefix (rcv_queue kcp)) as [q r] eqn:Ep.
  destruct (Z.ltb_spec (- len) 0); [|lia].
  match goal with |- context [ikcp_move_rcv _ ?k] =>
    destruct (ikcp_move_rcv_spec k) as (m & r' & _ & _ & Emv & _) end.
  { unfold move_ok in *. by simp_upd. }
  revert Emv. simp_upd. intros ->. exists m.
  destruct (_ && _); unfold rcv_moved; by simp_upd.
Qed.
