(* ===== verification/IkcpInput.v ===== *)
(** The network side of the control block: [ikcp_input] and the routines it calls. *)
From S2P Require Import Prelude Bytes IkcpTypes IkcpSend.

(** ** Acknowledgements *)

(** [ikcp_update_ack]: C's [/] is [Z.quot]; [long] is 64 bits wide, so [delta] does not
    wrap, while the [int] products do. *)
Definition ikcp_update_ack (kcp : IKCPCB) (rtt : Z) : IKCPCB :=
  let kcp :=
    if rx_srtt kcp =? 0 then
      let kcp := kcp <| rx_srtt := rtt |> in
      kcp <| rx_rttval := Z.quot rtt 2 |>
    else
      let delta := i32 (rtt - rx_srtt kcp) in
      let delta := if delta <? 0 then - delta else delta in
      let kcp := kcp <| rx_rttval := i32 (Z.quot (i32 (3 * rx_rttval kcp) + delta) 4) |> in
      let kcp := kcp <| rx_srtt := Z.quot (i32 (i32 (7 * rx_srtt kcp) + rtt)) 8 |> in
      if rx_srtt kcp <? 1 then kcp <| rx_srtt := 1 |> else kcp in
  let rto := i32 (rx_srtt kcp +w _imax_ (interval kcp) (u32 (i32 (4 * rx_rttval kcp)))) in
  kcp <| rx_rto := i32 (_ibound_ (u32 (rx_minrto kcp)) (u32 rto) IKCP_RTO_MAX) |>.

Definition ikcp_shrink_buf (kcp : IKCPCB) : IKCPCB :=
  match snd_buf kcp with
  | seg :: _ => kcp <| snd_una := seg_sn seg |>
  | [] => kcp <| snd_una := snd_nxt kcp |>
  end.

(** The search loop of [ikcp_parse_ack]: [Some] of the queue without the segment [sn]. *)
Fixpoint ikcp_parse_ack_loop (p : list IKCPSEG) (sn : Z) : option (list IKCPSEG) :=
  match p with
  | [] => None
  | seg :: next =>
      if sn =? seg_sn seg then Some next
      else if _itimediff sn (seg_sn seg) <? 0 then None
      else option_map (cons seg) (ikcp_parse_ack_loop next sn)
  end.

Definition ikcp_parse_ack (kcp : IKCPCB) (sn : Z) : IKCPCB :=
  if (_itimediff sn (snd_una kcp) <? 0) || (_itimediff sn (snd_nxt kcp) >=? 0) then kcp
  else
    match ikcp_parse_ack_loop (snd_buf kcp) sn with
    | Some q =>
        let kcp := kcp <| snd_buf := q |> in
        kcp <| nsnd_buf := nsnd_buf kcp -w 1 |>
    | None => kcp
    end.

Fixpoint ikcp_parse_una_loop (p : list IKCPSEG) (kcp : IKCPCB) (una : Z) : IKCPCB :=
  match p with
  | [] => kcp
  | seg :: next =>
      if _itimediff una (seg_sn seg) >? 0 then
        let kcp := kcp <| snd_buf := next |> in
        let kcp := kcp <| nsnd_buf := nsnd_buf kcp -w 1 |> in
        ikcp_parse_una_loop next kcp una
      else kcp
  end.

Definition ikcp_parse_una (kcp : IKCPCB) (una : Z) : IKCPCB :=
  ikcp_parse_una_loop (snd_buf kcp) kcp una.

(** [IKCP_FASTACK_CONSERVE] is not defined, so [ts] is not used. *)
Fixpoint ikcp_parse_fastack_loop (p : list IKCPSEG) (sn : Z) : list IKCPSEG :=
  match p with
  | [] => []
  | seg :: next =>
      if _itimediff sn (seg_sn seg) <? 0 then seg :: next
      else
        let seg :=
          if negb (sn =? seg_sn seg)
          then seg <| seg_fastack := seg_fastack seg +w 1 |> else seg in
        seg :: ikcp_parse_fastack_loop next sn
  end.

Definition ikcp_parse_fastack (kcp : IKCPCB) (sn ts : Z) : IKCPCB :=
  if (_itimediff sn (snd_una kcp) <? 0) || (_itimediff sn (snd_nxt kcp) >=? 0) then kcp
  else kcp <| snd_buf := ikcp_parse_fastack_loop (snd_buf kcp) sn |>.

(** [for (newblock = 8; newblock < newsize; newblock <<= 1)]; twenty-eight doublings
    cover every [newsize] up to 2^31. *)
Fixpoint ack_newblock (fuel : nat) (newblock newsize : Z) : Z :=
  match fuel with
  | O => newblock
  | S fuel =>
      if newblock <? newsize then ack_newblock fuel (u32 (Z.shiftl newblock 1)) newsize
      else newblock
  end.

Definition ikcp_ack_push (kcp : IKCPCB) (sn ts : Z) : IKCPCB :=
  let newsize := ackcount kcp +w 1 in
  let kcp :=
    if newsize >? ackblock kcp
    then kcp <| ackblock := ack_newblock 28 8 newsize |> else kcp in
  let kcp := kcp <| acklist := take (Z.to_nat (ackcount kcp)) (acklist kcp) ++ [(sn, ts)] |> in
  kcp <| ackcount := ackcount kcp +w 1 |>.

(** ** Data *)

(** The search of [ikcp_parse_data] runs from the tail of [rcv_buf] towards its head; [rp]
    is the queue read in that direction.  [None] when the segment is already there,
    otherwise the reversed queue with the new segment linked in. *)
Fixpoint ikcp_parse_data_insert (rp : list IKCPSEG) (newseg : IKCPSEG)
  : option (list IKCPSEG) :=
  match rp with
  | [] => Some [newseg]
  | seg :: prev =>
      if seg_sn seg =? seg_sn newseg then None
      else if _itimediff (seg_sn newseg) (seg_sn seg) >? 0 then Some (newseg :: seg :: prev)
      else option_map (cons seg) (ikcp_parse_data_insert prev newseg)
  end.

Definition ikcp_parse_data (kcp : IKCPCB) (newseg : IKCPSEG) : IKCPCB :=
  let sn := seg_sn newseg in
  if (_itimediff sn (rcv_nxt kcp +w rcv_wnd kcp) >=? 0) || (_itimediff sn (rcv_nxt kcp) <? 0)
  then kcp
  else
    let kcp :=
      match ikcp_parse_data_insert (reverse (rcv_buf kcp)) newseg with
      | Some rq =>
          let kcp := kcp <| rcv_buf := reverse rq |> in
          kcp <| nrcv_buf := nrcv_buf kcp +w 1 |>
      | None => kcp
      end in
    ikcp_move_rcv (rcv_buf kcp) kcp.

(** ** [ikcp_input] *)

(** The segment header as the decoder leaves it in local variables. *)
Record header := mkheader {
  h_conv : Z; h_cmd : Z; h_frg : Z; h_wnd : Z; h_ts : Z; h_sn : Z; h_una : Z; h_len : Z
}.

Definition ikcp_decode_header (data : bytes) : bytes * header :=
  let '(data, conv) := ikcp_decode32u data in
  let '(data, cmd) := ikcp_decode8u data in
  let '(data, frg) := ikcp_decode8u data in
  let '(data, wnd) := ikcp_decode16u data in
  let '(data, ts) := ikcp_decode32u data in
  let '(data, sn) := ikcp_decode32u data in
  let '(data, una) := ikcp_decode32u data in
  let '(data, len) := ikcp_decode32u data in
  (data, mkheader conv cmd frg wnd ts sn una len).

(** The local variables of the loop that outlive an iteration. *)
Record input_locals := mklocals { l_flag : bool; l_maxack : Z; l_latest_ts : Z }.

Definition ikcp_input_ack (kcp : IKCPCB) (l : input_locals) (h : header)
  : IKCPCB * input_locals :=
  let kcp :=
    if _itimediff (current kcp) (h_ts h) >=? 0
    then ikcp_update_ack kcp (_itimediff (current kcp) (h_ts h)) else kcp in
  let kcp := ikcp_parse_ack kcp (h_sn h) in
  let kcp := ikcp_shrink_buf kcp in
  let l :=
    if negb (l_flag l) then mklocals true (h_sn h) (h_ts h)
    else if _itimediff (h_sn h) (l_maxack l) >? 0 then mklocals true (h_sn h) (h_ts h)
    else l in
  (kcp, l).

Definition ikcp_input_push (kcp : IKCPCB) (h : header) (data : bytes) : IKCPCB :=
  if _itimediff (h_sn h) (rcv_nxt kcp +w rcv_wnd kcp) <? 0 then
    let kcp := ikcp_ack_push kcp (h_sn h) (h_ts h) in
    if _itimediff (h_sn h) (rcv_nxt kcp) >=? 0 then
      let seg := ikcp_segment_new (take (Z.to_nat (h_len h)) data) in
      let seg := seg <| seg_conv := h_conv h |> in
      let seg := seg <| seg_cmd := h_cmd h |> in
      let seg := seg <| seg_frg := h_frg h |> in
      let seg := seg <| seg_wnd := h_wnd h |> in
      let seg := seg <| seg_ts := h_ts h |> in
      let seg := seg <| seg_sn := h_sn h |> in
      let seg := seg <| seg_una := h_una h |> in
      let seg := seg <| seg_len := h_len h |> in
      ikcp_parse_data kcp seg
    else kcp
  else kcp.

(** The [cmd] dispatch of one well-formed segment, after the window and [una] updates. *)
Definition ikcp_input_segment (kcp : IKCPCB) (l : input_locals) (h : header) (data : bytes)
  : IKCPCB * input_locals :=
  let kcp := kcp <| rmt_wnd := h_wnd h |> in
  let kcp := ikcp_parse_una kcp (h_una h) in
  let kcp := ikcp_shrink_buf kcp in
  if h_cmd h =? IKCP_CMD_ACK then ikcp_input_ack kcp l h
  else if h_cmd h =? IKCP_CMD_PUSH then (ikcp_input_push kcp h data, l)
  else if h_cmd h =? IKCP_CMD_WASK then
    (kcp <| probe := Z.lor (probe kcp) IKCP_ASK_TELL |>, l)
  else (* IKCP_CMD_WINS *) (kcp, l).

(** The [while (1)] loop: [inl] is a [return] of an error, [inr] the [break].  Every
    iteration consumes at least 24 bytes, so a fuel of the number of bytes is enough
    ([ikcp_input_loop_fuel]). *)
Fixpoint ikcp_input_loop (fuel : nat) (kcp : IKCPCB) (l : input_locals) (data : bytes)
  : (Z + input_locals) * IKCPCB :=
  match fuel with
  | O => (inr l, kcp)
  | S fuel =>
      if Zlen data <? IKCP_OVERHEAD then (inr l, kcp)
      else
        let '(data, h) := ikcp_decode_header data in
        if negb (h_conv h =? conv kcp) then (inl (-1), kcp)
        else if (Zlen data <? h_len h) || (i32 (h_len h) <? 0) then (inl (-2), kcp)
        else if negb (h_cmd h =? IKCP_CMD_PUSH) && negb (h_cmd h =? IKCP_CMD_ACK)
             && negb (h_cmd h =? IKCP_CMD_WASK) && negb (h_cmd h =? IKCP_CMD_WINS)
        then (inl (-3), kcp)
        else
          let '(kcp, l) := ikcp_input_segment kcp l h data in
          ikcp_input_loop fuel kcp l (drop (Z.to_nat (h_len h)) data)
  end.

(** The congestion-window update when [snd_una] moved forward. *)
Definition ikcp_input_cwnd (kcp : IKCPCB) : IKCPCB :=
  if cwnd kcp <? rmt_wnd kcp then
    let m := mss kcp in
    let kcp :=
      if cwnd kcp <? ssthresh kcp then
        let kcp := kcp <| cwnd := cwnd kcp +w 1 |> in
        kcp <| incr := incr kcp +w m |>
      else
        let kcp := if incr kcp <? m then kcp <| incr := m |> else kcp in
        let kcp := kcp <| incr := incr kcp +w u32 ((m *w m) / incr kcp + m / 16) |> in
        if (cwnd kcp +w 1) *w m <=? incr kcp then
          kcp <| cwnd := u32 (u32 (incr kcp + m) - 1) / (if m >? 0 then m else 1) |>
        else kcp in
    if cwnd kcp >? rmt_wnd kcp then
      let kcp := kcp <| cwnd := rmt_wnd kcp |> in
      kcp <| incr := rmt_wnd kcp *w m |>
    else kcp
  else kcp.

Definition ikcp_input (kcp : IKCPCB) (data : bytes) : Z * IKCPCB :=
  let prev_una := snd_una kcp in
  if i32 (Zlen data) <? IKCP_OVERHEAD then (-1, kcp)
  else
    match ikcp_input_loop (length data) kcp (mklocals false 0 0) data with
    | (inl err, kcp) => (err, kcp)
    | (inr l, kcp) =>
        let kcp :=
          if l_flag l then ikcp_parse_fastack kcp (l_maxack l) (l_latest_ts l) else kcp in
        let kcp :=
          if _itimediff (snd_una kcp) prev_una >? 0 then ikcp_input_cwnd kcp else kcp in
        (0, kcp)
    end.

(** ** Round-trip time *)

(** Whatever round-trip time a peer makes the endpoint measure, the retransmission timeout
    stays between the configured minimum and [IKCP_RTO_MAX]. *)
Theorem ikcp_update_ack_rto kcp rtt :
  0 <= rx_minrto kcp <= IKCP_RTO_MAX ->
  rx_minrto kcp <= rx_rto (ikcp_update_ack kcp rtt) <= IKCP_RTO_MAX.
Proof.
  unfold IKCP_RTO_MAX. intros Hmin. unfold ikcp_update_ack. cbv zeta.
  set (k := if rx_srtt kcp =? 0 then _ else _).
  assert (rx_minrto k = rx_minrto kcp) as Hk.
  { unfold k. destruct (_ =? _); [by simp_upd|]. destruct (_ <? 1); by simp_upd. }
  simp_upd. rewrite Hk, _ibound__clamp, (u32_small (rx_minrto kcp)) by lia.
  unfold IKCP_RTO_MAX. rewrite i32_small; u32_lia.
Qed.

(** ** The ack list *)
Lemma ack_newblock_covers fuel newblock newsize :
  0 < newblock -> newsize <= newblock * 2 ^ Z.of_nat fuel ->
  newblock * 2 ^ Z.of_nat fuel < 4294967296 ->
  newsize <= ack_newblock fuel newblock newsize.
Proof.
  revert newblock. induction fuel as [|fuel IH]; intros nb Hp Hle Hlt.
  - cbn [ack_newblock]. change (2 ^ Z.of_nat 0) with 1 in Hle. lia.
  - cbn [ack_newblock]. rewrite Nat2Z.inj_succ, Z.pow_succ_r in Hle, Hlt by lia.
    destruct (Z.ltb_spec nb newsize); [|lia].
    pose proof (Z.pow_pos_nonneg 2 (Z.of_nat fuel) ltac:(lia) ltac:(lia)).
    rewrite Z.shiftl_mul_pow2 by lia. change (2 ^ 1) with 2.
    rewrite u32_small by nia. apply IH; lia.
Qed.

(** The entries in use fit in the allocated block. *)
Definition ack_ok (kcp : IKCPCB) : Prop :=
  0 <= ackcount kcp <= ackblock kcp /\ ackcount kcp <= Zlen (acklist kcp).

(** [ikcp_ack_push] writes inside the block it has (re)allocated, and appends the
    acknowledgement after the ones already there. *)
Theorem ikcp_ack_push_appends kcp sn ts :
  ack_ok kcp -> ackcount kcp < 2147483648 ->
  let kcp' := ikcp_ack_push kcp sn ts in
  ack_ok kcp' /\ ackcount kcp < ackblock kcp' /\ ackcount kcp' = ackcount kcp + 1 /\
  take (Z.to_nat (ackcount kcp')) (acklist kcp') =
    take (Z.to_nat (ackcount kcp)) (acklist kcp) ++ [(sn, ts)].
Proof.
  intros ([H0 Hb] & Hl) Hlt. unfold ikcp_ack_push, ack_ok. cbv zeta.
  rewrite (u32_small (ackcount kcp + 1)) by lia.
  assert (ackcount kcp + 1 <= ack_newblock 28 8 (ackcount kcp + 1)) as Hnb
    by (apply ack_newblock_covers; lia).
  destruct (Z.gtb_spec (ackcount kcp + 1) (ackblock kcp)); simp_upd;
    rewrite (u32_small (ackcount kcp + 1)) by lia; split_and!; try lia;
    unfold Zlen in *.
  1,3: rewrite length_app, length_take; cbn [length]; lia.
  all: rewrite take_ge; [done|]; rewrite length_app, length_take; cbn [length]; lia.
Qed.

(** ** The send buffer *)

(** [off base s] is the distance of a segment from [base] on the 2^32 ring; a window is a
    queue whose distances grow and stay below [hi]. *)
Definition off (base : Z) (s : IKCPSEG) : Z := u32 (seg_sn s - base).

Definition window (base hi : Z) (q : list IKCPSEG) : Prop :=
  StronglySorted (fun a b => off base a < off base b) q /\
  Forall (fun s => off base s < hi /\ 0 <= seg_sn s < 4294967296) q.

Lemma off_range base s : 0 <= off base s < 4294967296.
Proof. apply u32_range. Qed.

(** Inside a window the circular comparison is the comparison of distances. *)
Lemma _itimediff_off base a b :
  u32 (a - base) < 2147483648 -> u32 (b - base) < 2147483648 ->
  _itimediff a b = u32 (a - base) - u32 (b - base).
Proof.
  intros Ha Hb. unfold _itimediff.
  replace (u32 (a - b)) with (u32 (u32 (a - base) - u32 (b - base))).
  - pose proof (u32_range (a - base)). pose proof (u32_range (b - base)).
    rewrite i32_u32, i32_small; lia.
  - rewrite u32_sub_l, u32_sub_r. f_equal. lia.
Qed.

Lemma off_inj base s sn :
  0 <= seg_sn s < 4294967296 -> 0 <= sn < 4294967296 ->
  off base s = u32 (sn - base) -> seg_sn s = sn.
Proof. unfold off. words. Qed.

Lemma window_nil base hi : window base hi [].
Proof. split; constructor. Qed.

Lemma window_cons base hi s q :
  window base hi (s :: q) <->
  off base s < hi /\ 0 <= seg_sn s < 4294967296 /\
  Forall (fun t => off base s < off base t) q /\ window base hi q.
Proof.
  unfold window. rewrite Forall_cons. split.
  - intros [H1 [[H2 H3] H4]]. inversion H1; subst. done.
  - intros (H1 & H2 & H3 & H4 & H5). split; [by constructor|done].
Qed.

Lemma window_app base hi p q :
  window base hi (p ++ q) <->
  window base hi p /\ window base hi q /\
  (forall a b, a ∈ p -> b ∈ q -> off base a < off base b).
Proof.
  unfold window. rewrite StronglySorted_app, Forall_app. naive_solver.
Qed.

(** Rebasing a window at a position not past its first element. *)
Lemma window_rebase base hi d q :
  0 <= d < 4294967296 -> Forall (fun s => d <= off base s) q ->
  window base hi q -> window (u32 (base + d)) (hi - d) q.
Proof.
  intros Hd Hq [Hs Hf].
  assert (forall s, d <= off base s -> off (u32 (base + d)) s = off base s - d) as Hoff.
  { intros s. unfold off. words. }
  split.
  - clear Hf. induction Hs as [|s q Hs IH Hlt]; [constructor|].
    apply Forall_cons in Hq as [Hd' Hq]. constructor; [auto|].
    rewrite Forall_forall in Hq, Hlt |- *. intros t Ht.
    rewrite !Hoff by auto. specialize (Hlt t Ht). lia.
  - rewrite Forall_forall in Hq, Hf |- *. intros s Hin.
    rewrite Hoff by auto. specialize (Hf s Hin). lia.
Qed.

(** *** Shapes: which fields each routine writes *)
Lemma ikcp_update_ack_shape kcp rtt : exists a b c,
  ikcp_update_ack kcp rtt = kcp <| rx_srtt := a |> <| rx_rttval := b |> <| rx_rto := c |>.
Proof.
  set (k := ikcp_update_ack kcp rtt). exists (rx_srtt k), (rx_rttval k), (rx_rto k).
  unfold k, ikcp_update_ack. destruct (rx_srtt kcp =? 0); [|destruct (_ <? 1)];
    destruct kcp; reflexivity.
Qed.

Lemma ikcp_shrink_buf_shape kcp :
  ikcp_shrink_buf kcp =
  kcp <| snd_una := match snd_buf kcp with [] => snd_nxt kcp | s :: _ => seg_sn s end |>.
Proof. unfold ikcp_shrink_buf. by destruct (snd_buf kcp). Qed.

Lemma ikcp_parse_una_shape kcp una :
  0 <= nsnd_buf kcp < 4294967296 ->
  exists m r, snd_buf kcp = m ++ r /\
    ikcp_parse_una kcp una =
      kcp <| snd_buf := r |> <| nsnd_buf := u32 (nsnd_buf kcp - Zlen m) |> /\
    Forall (fun s => 0 < _itimediff una (seg_sn s)) m /\
    match r with [] => True | s :: _ => _itimediff una (seg_sn s) <= 0 end.
Proof.
  unfold ikcp_parse_una. remember (snd_buf kcp) as q eqn:Eq. revert kcp Eq.
  induction q as [|s q IH]; intros kcp Eq Hn; cbn [ikcp_parse_una_loop].
  - exists [], []. change (Zlen (A := IKCPSEG) []) with 0.
    rewrite Z.sub_0_r, u32_small by lia.
    split_and!; [done|rewrite Eq; by destruct kcp|done..].
  - destruct (Z.gtb_spec (_itimediff una (seg_sn s)) 0).
    + match goal with |- context [ikcp_parse_una_loop q ?k una] =>
        destruct (IH k) as (m & r & -> & -> & Hm & Hr) end.
      { by simp_upd. } { simp_upd. u32_lia. }
      exists (s :: m), r. simp_upd. rewrite Zlen_cons, u32_sub_l, Z.sub_add_distr.
      split_and!; [done|reflexivity|by constructor|done].
    + exists [], (s :: q). change (Zlen (A := IKCPSEG) []) with 0.
      rewrite Z.sub_0_r, u32_small by lia.
      split_and!; [done|rewrite Eq; by destruct kcp|done|lia].
Qed.

Lemma ikcp_parse_ack_loop_sub q sn q' :
  ikcp_parse_ack_loop q sn = Some q' ->
  exists l s r, q = l ++ s :: r /\ q' = l ++ r /\ seg_sn s = sn.
Proof.
  revert q'. induction q as [|s q IH]; intros q'; [done|]. cbn [ikcp_parse_ack_loop].
  destruct (Z.eqb_spec sn (seg_sn s)) as [E|E].
  - intros [= <-]. by exists [], s, q.
  - destruct (_ <? 0); [done|]. destruct (ikcp_parse_ack_loop q sn) as [q1|]; [|done].
    intros [= <-]. destruct (IH q1) as (l & t & r & -> & -> & Ht); [done|].
    by exists (s :: l), t, r.
Qed.

(** *** The invariant of the send buffer

    At most 65535 segments are in flight (the peer's window is a 16-bit field); their numbers
    lie between [snd_una] and [snd_nxt] and grow; [snd_una] is the first of them. *)
Definition snd_window (kcp : IKCPCB) : Prop :=
  0 <= snd_una kcp < 4294967296 /\ 0 <= snd_nxt kcp < 4294967296 /\
  u32 (snd_nxt kcp - snd_una kcp) <= 65535 /\
  window (snd_una kcp) (u32 (snd_nxt kcp - snd_una kcp)) (snd_buf kcp) /\
  nsnd_buf kcp = Zlen (snd_buf kcp).

Definition una_is_head (kcp : IKCPCB) : Prop :=
  snd_una kcp = match snd_buf kcp with [] => snd_nxt kcp | s :: _ => seg_sn s end.

Lemma window_length base hi q : 0 <= hi -> window base hi q -> Zlen q <= hi.
Proof.
  intros Hhi [Hs Hf].
  assert (forall lo, Forall (fun s => lo <= off base s) q -> lo <= hi -> Zlen q <= hi - lo) as H.
  { induction Hs as [|s q Hs IH Hlt]; intros lo Hlo Hle; [unfold Zlen; cbn; lia|].
    apply Forall_cons in Hlo as [Hlo _]. apply Forall_cons in Hf as [[Hh _] Hf].
    rewrite Zlen_cons. specialize (IH Hf (off base s + 1)).
    enough (Zlen q <= hi - (off base s + 1)) by lia.
    apply IH; [|lia]. eapply Forall_impl; [exact Hlt|]. cbn. lia. }
  specialize (H 0). rewrite Z.sub_0_r in H. apply H; [|done].
  apply Forall_forall. intros s _. apply off_range.
Qed.

Lemma snd_window_nsnd kcp : snd_window kcp -> 0 <= nsnd_buf kcp <= 65535.
Proof.
  intros (_ & _ & Hi & Hw & ->). apply window_length in Hw; [|apply u32_range].
  pose proof (Zlen_nonneg (snd_buf kcp)). lia.
Qed.

(** [ikcp_shrink_buf] moves [snd_una] up to the first segment still in flight. *)
Lemma ikcp_shrink_buf_window kcp :
  snd_window kcp -> snd_window (ikcp_shrink_buf kcp) /\ una_is_head (ikcp_shrink_buf kcp).
Proof.
  intros (Hu & Hn & Hi & Hw & Hl). rewrite ikcp_shrink_buf_shape.
  unfold snd_window, una_is_head. simp_upd.
  destruct (snd_buf kcp) as [|s q].
  - split; [|done]. rewrite Z.sub_diag. split_and!; try done; try lia. apply window_nil.
  - split; [|done]. pose proof Hw as (Hh & Hr & Hlt & _)%window_cons.
    pose proof (off_range (snd_una kcp) s) as Ho.
    assert (seg_sn s = u32 (snd_una kcp + off (snd_una kcp) s)) as Es.
    { unfold off. rewrite u32_add_r. replace (_ + _) with (seg_sn s) by lia.
      by rewrite u32_small. }
    assert (u32 (snd_nxt kcp - seg_sn s)
            = u32 (snd_nxt kcp - snd_una kcp) - off (snd_una kcp) s) as En.
    { unfold off in *. words. }
    split_and!; try done; try lia.
    rewrite En. rewrite Es at 1. apply window_rebase; [lia| |done].
    constructor; [lia|]. eapply Forall_impl; [exact Hlt|]. cbn. lia.
Qed.

(** Dropping acknowledged segments keeps the window. *)
Lemma snd_window_drop kcp l s r :
  snd_window kcp -> snd_buf kcp = l ++ s ++ r ->
  snd_window (kcp <| snd_buf := l ++ r |> <| nsnd_buf := u32 (nsnd_buf kcp - Zlen s) |>).
Proof.
  intros Hwin E. pose proof (snd_window_nsnd kcp Hwin) as Hc.
  destruct Hwin as (Hu & Hn & Hi & Hw & Hl). unfold snd_window. simp_upd.
  rewrite E in Hw, Hl. rewrite !Zlen_app in *. apply window_app in Hw as (Hw1 & Hw & Hx).
  apply window_app in Hw as (Hw2 & Hw3 & Hy).
  pose proof (Zlen_nonneg l). pose proof (Zlen_nonneg s). pose proof (Zlen_nonneg r).
  split_and!; try lia.
  - apply window_app. split_and!; [done..|]. intros a b Ha Hb. apply Hx; [done|]. apply elem_of_app. by right.
  - rewrite u32_small; lia.
Qed.

Lemma ikcp_parse_una_window kcp una :
  snd_window kcp -> snd_window (ikcp_parse_una kcp una).
Proof.
  intros Hwin. pose proof (snd_window_nsnd kcp Hwin).
  destruct (ikcp_parse_una_shape kcp una) as (m & r & E & -> & _ & _); [lia|].
  by apply (snd_window_drop kcp [] m r).
Qed.

Lemma ikcp_parse_ack_window kcp sn :
  snd_window kcp -> snd_window (ikcp_parse_ack kcp sn).
Proof.
  intros Hwin. unfold ikcp_parse_ack. destruct (_ || _); [done|].
  destruct (ikcp_parse_ack_loop (snd_buf kcp) sn) as [q|] eqn:E; [|done].
  apply ikcp_parse_ack_loop_sub in E as (l & s & r & E & -> & _).
  simp_upd. apply (snd_window_drop kcp l [s] r); [done|]. by rewrite E.
Qed.

Lemma ikcp_parse_fastack_loop_sn q sn : map seg_sn (ikcp_parse_fastack_loop q sn) = map seg_sn q.
Proof.
  induction q as [|s q IH]; [done|]. cbn [ikcp_parse_fastack_loop].
  destruct (_ <? 0); [done|]. cbn [map]. rewrite IH. by destruct (negb _).
Qed.

(** A window only depends on the sequence numbers. *)
Lemma window_map_sn base hi q q' :
  map seg_sn q = map seg_sn q' -> window base hi q -> window base hi q'.
Proof.
  revert q'. induction q as [|s q IH]; intros [|s' q'] E; try done.
  injection E as Es Eq. rewrite !window_cons. intros (H1 & H2 & H3 & H4).
  unfold off in *. rewrite <- Es. split_and!; try done; [lia|lia| |by apply IH].
  clear - Eq H3. revert q' Eq H3. induction q as [|t q IH]; intros [|t' q'] E; try done.
  injection E as Et Eq. rewrite !Forall_cons, <- Et. naive_solver.
Qed.

Lemma ikcp_parse_fastack_shape kcp sn ts : exists q,
  ikcp_parse_fastack kcp sn ts = kcp <| snd_buf := q |> /\
  map seg_sn q = map seg_sn (snd_buf kcp).
Proof.
  unfold ikcp_parse_fastack. destruct (_ || _).
  - exists (snd_buf kcp). by destruct kcp.
  - eexists. split; [done|]. apply ikcp_parse_fastack_loop_sn.
Qed.

Lemma map_sn_length (q q' : list IKCPSEG) : map seg_sn q = map seg_sn q' -> Zlen q = Zlen q'.
Proof. intros E%(f_equal length). rewrite !length_map in E. unfold Zlen. lia. Qed.

(** Rewriting the timers of the segments in flight keeps the window. *)
Lemma snd_window_map_sn kcp q :
  map seg_sn q = map seg_sn (snd_buf kcp) ->
  snd_window kcp /\ una_is_head kcp ->
  snd_window (kcp <| snd_buf := q |>) /\ una_is_head (kcp <| snd_buf := q |>).
Proof.
  intros E ((Hu & Hn & Hi & Hw & Hl) & Hh). unfold snd_window, una_is_head in *. simp_upd.
  rewrite (map_sn_length _ _ E). split; [split_and!; try lia|].
  - by eapply window_map_sn.
  - rewrite Hh. destruct q, (snd_buf kcp); try done. by injection E as ->.
Qed.

Lemma filter_id (P : IKCPSEG -> Prop) `{forall s, Decision (P s)} q :
  Forall P q -> filter P q = q.
Proof. induction 1; [done|]. rewrite filter_cons_True by done. by f_equal. Qed.

Lemma ikcp_parse_ack_loop_filter base hi q sn :
  hi <= 2147483648 -> 0 <= sn < 4294967296 -> window base hi q -> u32 (sn - base) < hi ->
  default q (ikcp_parse_ack_loop q sn) = filter (fun s => seg_sn s <> sn) q.
Proof.
  intros Hhi Hsn. induction q as [|s q IH]; [done|]. intros Hw Hso.
  apply window_cons in Hw as (Hs & Hr & Hlt & Hw). cbn [ikcp_parse_ack_loop].
  destruct (Z.eqb_spec sn (seg_sn s)) as [E|E].
  - rewrite filter_cons_False by (intros F; done). cbn [default]. symmetry.
    apply filter_id. eapply Forall_impl; [exact Hlt|]. cbn. intros t Ht Et.
    unfold off in Ht. rewrite Et, E in Ht. lia.
  - rewrite filter_cons_True by done.
    rewrite (_itimediff_off base) by (unfold off in Hs; lia). fold (off base s).
    destruct (Z.ltb_spec (u32 (sn - base) - off base s) 0).
    + cbn [default]. f_equal. symmetry. apply filter_id.
      eapply Forall_impl; [exact Hlt|]. cbn. intros t Ht Et.
      unfold off in Ht at 2. rewrite Et in Ht. lia.
    + specialize (IH Hw Hso). destruct (ikcp_parse_ack_loop q sn); cbn [option_map default] in *;
        by rewrite IH at 1.
Qed.

(** An acknowledgement removes exactly the segment it names, if that is in flight. *)
Theorem ikcp_parse_ack_filter kcp sn :
  snd_window kcp -> 0 <= sn < 4294967296 ->
  snd_buf (ikcp_parse_ack kcp sn) = filter (fun s => seg_sn s <> sn) (snd_buf kcp).
Proof.
  intros (Hu & Hn & Hi & Hw & _) Hsn. unfold ikcp_parse_ack.
  set (hi := u32 (snd_nxt kcp - snd_una kcp)) in *.
  pose proof (u32_range (snd_nxt kcp - snd_una kcp)).
  assert (forall x, u32 (x - snd_una kcp) < 2147483648 ->
    _itimediff x (snd_una kcp) = u32 (x - snd_una kcp) /\
    _itimediff x (snd_nxt kcp) = u32 (x - snd_una kcp) - hi) as Hd.
  { intros x Hx. split; rewrite (_itimediff_off (snd_una kcp));
      rewrite ?Z.sub_diag; change (u32 0) with 0; fold hi; lia. }
  destruct (_ || _) eqn:G.
  - symmetry. apply filter_id. destruct Hw as [_ Hf].
    eapply Forall_impl; [exact Hf|]. cbn. intros s [Hs _] Es.
    unfold off in Hs. rewrite Es in Hs. destruct (Hd sn ltac:(lia)) as [E1 E2].
    pose proof (u32_range (sn - snd_una kcp)). lia.
  - assert (u32 (sn - snd_una kcp) < hi) as Hso.
    { destruct (Z.ltb_spec (u32 (sn - snd_una kcp)) 2147483648) as [Hx|Hx].
      - destruct (Hd sn Hx) as [E1 E2]. lia.
      - exfalso. assert (_itimediff sn (snd_una kcp) < 0); [|lia].
        unfold _itimediff. clear - Hx. words. }
    pose proof (ikcp_parse_ack_loop_filter (snd_una kcp) hi (snd_buf kcp) sn) as L.
    destruct (ikcp_parse_ack_loop (snd_buf kcp) sn) as [q|]; simp_upd; apply L; auto; lia.
Qed.

(** A cumulative acknowledgement from a peer that is not more than half the ring ahead
    removes exactly the segments numbered before it. *)
Theorem ikcp_parse_una_filter kcp una :
  snd_window kcp -> u32 (una - snd_una kcp) < 2147483648 ->
  snd_buf (ikcp_parse_una kcp una) =
  filter (fun s => u32 (una - snd_una kcp) <= off (snd_una kcp) s) (snd_buf kcp).
Proof.
  intros Hwin Hx. pose proof (snd_window_nsnd kcp Hwin).
  destruct (ikcp_parse_una_shape kcp una) as (m & r & E & -> & Hm & Hr); [lia|].
  destruct Hwin as (_ & _ & Hi & Hw & _). rewrite E in Hw |- *. simp_upd.
  apply window_app in Hw as (Hwm & Hwr & _).
  assert (forall s, off (snd_una kcp) s < u32 (snd_nxt kcp - snd_una kcp) ->
    _itimediff una (seg_sn s) = u32 (una - snd_una kcp) - off (snd_una kcp) s) as Hd.
  { intros s Hs. unfold off in *. rewrite (_itimediff_off (snd_una kcp)); lia. }
  rewrite filter_app. replace (filter _ m) with (@nil IKCPSEG).
  - symmetry. apply filter_id. destruct r as [|s r]; [done|].
    apply window_cons in Hwr as (Hs & _ & Hlt & _). rewrite Hd in Hr by done.
    constructor; [lia|]. eapply Forall_impl; [exact Hlt|]. cbn. lia.
  - clear E Hr. induction Hm as [|s m Hs Hm IH]; [done|].
    apply window_cons in Hwm as (Hs' & _ & _ & Hwm). rewrite Hd in Hs by done.
    rewrite filter_cons_False by lia. auto.
Qed.

(** ** The receive side *)

(** The receive buffer is a window of well-formed segments from [rcv_nxt] on; the queue holds
    well-formed segments; the counters count.  Nothing is assumed of the numbers' order of
    arrival. *)
Definition rcv_window (kcp : IKCPCB) : Prop :=
  0 <= rcv_nxt kcp < 4294967296 /\ 0 < rcv_wnd kcp < 2147483648 /\
  window (rcv_nxt kcp) 2147483648 (rcv_buf kcp) /\
  nrcv_buf kcp = Zlen (rcv_buf kcp) /\
  nrcv_que kcp = Zlen (rcv_queue kcp) /\ Zlen (rcv_queue kcp) < 2147483648 /\
  Forall seg_wf (rcv_buf kcp) /\ Forall seg_wf (rcv_queue kcp).

Lemma rcv_window_move_ok kcp : rcv_window kcp -> move_ok kcp.
Proof.
  intros (Hn & Hwn & Hw & Hb & Hq & Hl & _). apply window_length in Hw; [|lia].
  pose proof (Zlen_nonneg (rcv_buf kcp)). pose proof (Zlen_nonneg (rcv_queue kcp)).
  unfold move_ok. lia.
Qed.

Lemma consecutive_app n p q :
  consecutive n (p ++ q) <-> consecutive n p /\ consecutive (n + Zlen p) q.
Proof.
  revert n. induction p as [|s p IH]; intros n; cbn [app consecutive].
  - change (Zlen (A := IKCPSEG) []) with 0. rewrite Z.add_0_r. naive_solver.
  - rewrite IH, Zlen_cons, Z.add_assoc. naive_solver.
Qed.

(** What follows a consecutive prefix of a window lies past it. *)
Lemma window_after base hi m r :
  window base hi (m ++ r) -> 0 <= hi <= 2147483648 -> consecutive base m ->
  Forall (fun s => Zlen m <= off base s) r.
Proof.
  intros Hw Hhi Hc. pose proof Hw as Hw'. apply window_app in Hw as (Hwm & Hwr & Hx).
  apply window_length in Hwm as Hm; [|lia].
  destruct m as [|x m _] using rev_ind.
  { apply Forall_forall. intros s _. apply off_range. }
  apply consecutive_app in Hc as [_ [Hc _]]. rewrite Zlen_app in *.
  change (Zlen [x]) with 1 in *. pose proof (Zlen_nonneg m).
  apply Forall_forall. intros s Hs. specialize (Hx x s).
  rewrite elem_of_app, list_elem_of_singleton in Hx. specialize (Hx (or_intror eq_refl) Hs).
  unfold off in Hx at 1. rewrite Hc, u32_sub_l in Hx.
  replace (base + Zlen m - base) with (Zlen m) in Hx by lia. rewrite u32_small in Hx; lia.
Qed.

Lemma window_weaken base hi hi' q : hi <= hi' -> window base hi q -> window base hi' q.
Proof. intros H [Hs Hf]. split; [done|]. eapply Forall_impl; [exact Hf|]. cbn. lia. Qed.

(** Moving available segments keeps the receive side well formed. *)
Lemma ikcp_move_rcv_window kcp :
  rcv_window kcp ->
  exists m r, rcv_buf kcp = m ++ r /\ consecutive (rcv_nxt kcp) m /\
    ikcp_move_rcv (rcv_buf kcp) kcp = rcv_moved kcp m r /\ rcv_window (rcv_moved kcp m r).
Proof.
  intros Hok. pose proof (rcv_window_move_ok kcp Hok) as Hmv.
  destruct (ikcp_move_rcv_spec kcp Hmv) as (m & r & E & Hc & Em & Hle & _).
  exists m, r. split_and!; try done.
  destruct Hok as (Hn & Hwn & Hw & Hb & Hq & Hl & Hfb & Hfq).
  pose proof (window_length _ 2147483648 _ ltac:(lia) Hw) as Hlen.
  rewrite E in Hw, Hfb, Hlen, Hb.
  pose proof (window_after _ 2147483648 _ _ Hw ltac:(lia) Hc) as Ha.
  apply window_app in Hw as (_ & Hw & _). apply Forall_app in Hfb as [Hfm Hfr].
  rewrite Zlen_app in Hb, Hlen. pose proof (Zlen_nonneg m). pose proof (Zlen_nonneg r).
  pose proof (Zlen_nonneg (rcv_queue kcp)).
  assert (Zlen (rcv_queue kcp) + Zlen m < 2147483648) as Hsum.
  { destruct Hle as [->|?]; [change (Zlen (A := IKCPSEG) []) with 0|]; lia. }
  unfold rcv_window, rcv_moved. simp_upd. rewrite !Zlen_app.
  split_and!; try lia; try (apply Forall_app; done); try done.
  - apply u32_range.
  - apply u32_range.
  - apply (window_weaken _ (2147483648 - Zlen m)); [lia|]. apply window_rebase; [lia|done|done].
  - rewrite u32_small; lia.
  - rewrite u32_small; lia.
Qed.

(** The search of [ikcp_parse_data] finds the only place that keeps the buffer ordered, and
    recognises a segment that is already there. *)
Lemma ikcp_parse_data_insert_spec base hi q new :
  window base hi q -> hi <= 2147483648 ->
  off base new < hi -> 0 <= seg_sn new < 4294967296 ->
  match ikcp_parse_data_insert (reverse q) new with
  | None => exists s, s ∈ q /\ seg_sn s = seg_sn new
  | Some rq => exists l r, q = l ++ r /\ reverse rq = l ++ new :: r /\
                           window base hi (l ++ new :: r)
  end.
Proof.
  intros Hw Hhi Hnew Hr.
  induction q as [|s q IH] using rev_ind; intros; cbn [reverse rev_append].
  { cbn. exists [], []. split_and!; [done..|]. apply window_cons.
    split_and!; try lia; [done|apply window_nil]. }
  rewrite reverse_snoc. cbn [ikcp_parse_data_insert].
  destruct (Z.eqb_spec (seg_sn s) (seg_sn new)) as [E|E].
  { exists s. rewrite elem_of_app, list_elem_of_singleton. auto. }
  pose proof Hw as Hw'. apply window_app in Hw as (Hwq & Hws & Hx).
  apply window_cons in Hws as (Hs & Hsr & _ & _).
  rewrite (_itimediff_off base) by (unfold off in *; lia).
  fold (off base new) (off base s).
  destruct (Z.gtb_spec (off base new - off base s) 0).
  - exists (q ++ [s]), []. rewrite !reverse_cons, reverse_involutive, app_nil_r, <- app_assoc.
    split_and!; [done..|]. rewrite app_assoc. apply window_app. split_and!.
    + done.
    + apply window_cons. split_and!; try lia; [done|apply window_nil].
    + intros a b Ha Hb. apply list_elem_of_singleton in Hb as ->.
      apply elem_of_app in Ha as [Ha|Ha].
      * specialize (Hx a s Ha). rewrite list_elem_of_singleton in Hx. specialize (Hx eq_refl). lia.
      * apply list_elem_of_singleton in Ha as ->. lia.
  - specialize (IH Hwq). destruct (ikcp_parse_data_insert (reverse q) new) as [rq|];
      cbn [option_map].
    + destruct IH as (l & r & -> & Hrq & Hw). exists l, (r ++ [s]).
      rewrite reverse_cons, Hrq, <- !app_assoc. split_and!; [done..|].
      change (l ++ new :: r ++ [s]) with (l ++ (new :: r) ++ [s]).
      rewrite app_assoc. apply window_app. split_and!; [done| |].
      * apply window_cons. split_and!; try lia; [done|apply window_nil].
      * intros a b Ha Hb. apply list_elem_of_singleton in Hb as ->.
        rewrite elem_of_app, elem_of_cons in Ha.
        assert (off base new <> off base s) as Hne.
        { intros F. apply E. symmetry. apply (off_inj base); [done|done|].
          by rewrite F. }
        destruct Ha as [Ha|[->|Ha]]; [|lia|];
          apply Hx; rewrite ?elem_of_app, ?list_elem_of_singleton; auto.
    + destruct IH as (t & Ht & Et). exists t. rewrite elem_of_app. auto.
Qed.

(** The receive buffer with the new segment at its place. *)
Definition data_inserted (kcp : IKCPCB) (new : IKCPSEG) : IKCPCB :=
  match ikcp_parse_data_insert (reverse (rcv_buf kcp)) new with
  | Some rq => kcp <| rcv_buf := reverse rq |> <| nrcv_buf := nrcv_buf kcp +w 1 |>
  | None => kcp
  end.

Lemma data_inserted_spec kcp new :
  rcv_window kcp -> seg_wf new -> 0 <= seg_sn new < 4294967296 ->
  off (rcv_nxt kcp) new < 2147483648 ->
  exists q n, data_inserted kcp new = kcp <| rcv_buf := q |> <| nrcv_buf := n |> /\
    rcv_window (data_inserted kcp new) /\
    forall s, s ∈ q <-> s ∈ rcv_buf kcp \/ (s = new /\ seg_sn new ∉ map seg_sn (rcv_buf kcp)).
Proof.
  intros Hok Hwf Hsn Hoff. unfold data_inserted.
  pose proof Hok as (Hn & Hwn & Hw & Hb & Hq & Hl & Hfb & Hfq).
  pose proof (ikcp_parse_data_insert_spec _ _ _ _ Hw ltac:(lia) Hoff Hsn) as Hins.
  destruct (ikcp_parse_data_insert (reverse (rcv_buf kcp)) new) as [rq|].
  - destruct Hins as (l & r & E & -> & Hw'). exists (l ++ new :: r), (nrcv_buf kcp +w 1).
    assert (Zlen (l ++ new :: r) = nrcv_buf kcp + 1) as Hlen.
    { rewrite Hb, E, !Zlen_app, Zlen_cons. lia. }
    pose proof (window_length _ 2147483648 _ ltac:(lia) Hw') as Hmax.
    split_and!; [done| |].
    { unfold rcv_window. simp_upd. pose proof (Zlen_nonneg (rcv_buf kcp)).
      rewrite E in Hfb. apply Forall_app in Hfb as [Hfl Hfr].
      split_and!; try done; try lia; [rewrite u32_small; lia|].
      apply Forall_app; split; [done|by constructor]. }
    intros s. rewrite E, map_app, !elem_of_app, elem_of_cons.
    assert (~ (seg_sn new ∈ map seg_sn l \/ seg_sn new ∈ map seg_sn r)) as Hnew; [|tauto].
    apply window_app in Hw' as (_ & Hw2 & Hx). apply window_cons in Hw2 as (_ & _ & Hlt & _).
    rewrite !list_elem_of_fmap. unfold off in Hx, Hlt.
    intros [(t & Et & Ht)|(t & Et & Ht)].
    + specialize (Hx t new Ht). rewrite Et in Hx. rewrite elem_of_cons in Hx.
      specialize (Hx (or_introl eq_refl)). lia.
    + rewrite Forall_forall in Hlt. specialize (Hlt t Ht). rewrite Et in Hlt. lia.
  - destruct Hins as (t & Ht & Et). exists (rcv_buf kcp), (nrcv_buf kcp).
    split_and!; [by destruct kcp|done|]. intros s. split; [by left|]. intros [?|[_ F]]; [done|].
    exfalso. apply F. rewrite list_elem_of_fmap. eauto.
Qed.

(** [ikcp_parse_data] on a segment inside the window. *)
Lemma ikcp_parse_data_eq kcp new :
  ikcp_parse_data kcp new = kcp \/
  off (rcv_nxt kcp) new < 2147483648 /\
  ikcp_parse_data kcp new =
    ikcp_move_rcv (rcv_buf (data_inserted kcp new)) (data_inserted kcp new).
Proof.
  unfold ikcp_parse_data. destruct (_ || _) eqn:G; [by left|right].
  apply orb_false_iff in G as [_ G]. split.
  - unfold off. revert G. unfold _itimediff. clear. intros. words.
  - unfold data_inserted. by destruct (ikcp_parse_data_insert _ _).
Qed.

(** The two tests of [ikcp_parse_data] say that the segment is outside the window. *)
Lemma outside_window kcp new :
  rcv_window kcp ->
  (_itimediff (seg_sn new) (rcv_nxt kcp +w rcv_wnd kcp) >=? 0) ||
  (_itimediff (seg_sn new) (rcv_nxt kcp) <? 0) = (rcv_wnd kcp <=? off (rcv_nxt kcp) new).
Proof.
  intros (Hn & Hw & _). unfold _itimediff, off. apply eq_bool_prop_intro.
  rewrite orb_True, !Is_true_true, Z.geb_le, Z.ltb_lt, Z.leb_le. words.
Qed.

(** [ikcp_parse_data] in full: outside the window nothing happens; inside it the buffer is [q],
    with the new segment at its place, of which the longest part [m] there is room for moves. *)
Lemma ikcp_parse_data_spec kcp new :
  rcv_window kcp -> seg_wf new -> 0 <= seg_sn new < 4294967296 ->
  (rcv_wnd kcp <= off (rcv_nxt kcp) new -> ikcp_parse_data kcp new = kcp) /\
  (off (rcv_nxt kcp) new < rcv_wnd kcp ->
   exists q n m r, let k := kcp <| rcv_buf := q |> <| nrcv_buf := n |> in
    ikcp_parse_data kcp new = rcv_moved k m r /\ rcv_window k /\ q = m ++ r /\
    consecutive (rcv_nxt kcp) m /\ rcv_window (rcv_moved k m r) /\
    (forall s, s ∈ q <-> s ∈ rcv_buf kcp \/ (s = new /\ seg_sn new ∉ map seg_sn (rcv_buf kcp))) /\
    (m = [] \/ Zlen (rcv_queue kcp) + Zlen m <= rcv_wnd kcp) /\
    match r with
    | [] => True
    | s :: _ => seg_sn s <> u32 (rcv_nxt kcp + Zlen m) \/ rcv_wnd kcp <= Zlen (rcv_queue kcp) + Zlen m
    end).
Proof.
  intros Hok Hwf Hsn. pose proof (outside_window kcp new Hok) as Ho. pose proof Hok as (_ & Hwn & _).
  split; intros Hin.
  { unfold ikcp_parse_data. rewrite Ho. by destruct (Z.leb_spec (rcv_wnd kcp) (off (rcv_nxt kcp) new)); [|lia]. }
  assert (ikcp_parse_data kcp new = ikcp_move_rcv (rcv_buf (data_inserted kcp new)) (data_inserted kcp new)) as ->.
  { unfold ikcp_parse_data, data_inserted. rewrite Ho.
    destruct (Z.leb_spec (rcv_wnd kcp) (off (rcv_nxt kcp) new)); [lia|]. by destruct (ikcp_parse_data_insert _ _). }
  destruct (data_inserted_spec kcp new Hok Hwf Hsn ltac:(lia)) as (q & n & Ek & Hk & Hq).
  destruct (ikcp_move_rcv_window _ Hk) as (m & r & Em & Hc & Emv & Hk').
  destruct (ikcp_move_rcv_spec _ (rcv_window_move_ok _ Hk)) as (m' & r' & Em' & Hc' & Emv' & Hm & Hr).
  pose proof Hk as (_ & _ & _ & _ & Hque & _).
  assert (m' = m /\ r' = r) as [-> ->].
  { rewrite Emv in Emv'. apply (f_equal rcv_buf) in Emv'. unfold rcv_moved in Emv'. simp_upd. subst r'.
    rewrite Em in Em'. by apply app_inv_tail in Em' as ->. }
  rewrite Ek in *. simp_upd. rewrite Hque in *. exists q, n, m, r. split_and!; done.
Qed.

Lemma ikcp_parse_data_shape kcp new :
  rcv_window kcp -> seg_wf new -> 0 <= seg_sn new < 4294967296 ->
  ikcp_parse_data kcp new = kcp \/
  exists q n m r, let k := kcp <| rcv_buf := q |> <| nrcv_buf := n |> in
    ikcp_parse_data kcp new = rcv_moved k m r /\ rcv_window k /\ q = m ++ r /\
    consecutive (rcv_nxt kcp) m /\ rcv_window (rcv_moved k m r) /\
    forall s, s ∈ q <-> s ∈ rcv_buf kcp \/ (s = new /\ seg_sn new ∉ map seg_sn (rcv_buf kcp)).
Proof.
  intros Hok Hwf Hsn. destruct (ikcp_parse_data_eq kcp new) as [E|[Hoff ->]]; [by left|right].
  destruct (data_inserted_spec kcp new Hok Hwf Hsn Hoff) as (q & n & Ek & Hk & Hq).
  destruct (ikcp_move_rcv_window _ Hk) as (m & r & Em & Hc & Emv & Hk').
  rewrite Ek in *. simp_upd. exists q, n, m, r. done.
Qed.

(** ** The whole of [ikcp_input] *)

(** What holds of the control block between any two calls. *)
Definition kcp_inv (kcp : IKCPCB) : Prop :=
  send_ok kcp /\ snd_window kcp /\ una_is_head kcp /\ rcv_window kcp /\
  0 <= rmt_wnd kcp <= 65535 /\ IKCP_RTO_NDL <= rx_minrto kcp <= IKCP_RTO_MIN /\
  IKCP_RTO_NDL <= rx_rto kcp <= IKCP_RTO_MAX.

Definition header_ok (h : header) : Prop :=
  0 <= h_conv h < 4294967296 /\ 0 <= h_cmd h < 256 /\ 0 <= h_frg h < 256 /\
  0 <= h_wnd h < 65536 /\ 0 <= h_ts h < 4294967296 /\ 0 <= h_sn h < 4294967296 /\
  0 <= h_una h < 4294967296 /\ 0 <= h_len h < 4294967296.

Lemma ikcp_decode_header_ok data :
  fst (ikcp_decode_header data) = drop 24 data /\ header_ok (snd (ikcp_decode_header data)).
Proof.
  unfold ikcp_decode_header, ikcp_decode32u, ikcp_decode16u, ikcp_decode8u, header_ok.
  cbn [fst snd h_conv h_cmd h_frg h_wnd h_ts h_sn h_una h_len].
  rewrite !drop_drop. split; [done|].
  split_and!; first [apply u32_range | apply u16_range | apply byte_to_Z_range].
Qed.

(** The invariant without the send window, which the acknowledgement code breaks and repairs. *)
Definition kcp_inv_rest (kcp : IKCPCB) : Prop :=
  send_ok kcp /\ rcv_window kcp /\
  0 <= rmt_wnd kcp <= 65535 /\ IKCP_RTO_NDL <= rx_minrto kcp <= IKCP_RTO_MIN /\
  IKCP_RTO_NDL <= rx_rto kcp <= IKCP_RTO_MAX.

Lemma kcp_inv_split kcp :
  kcp_inv kcp <-> kcp_inv_rest kcp /\ snd_window kcp /\ una_is_head kcp.
Proof. unfold kcp_inv, kcp_inv_rest. tauto. Qed.

Lemma ikcp_update_ack_inv kcp rtt :
  kcp_inv_rest kcp -> snd_window kcp ->
  kcp_inv_rest (ikcp_update_ack kcp rtt) /\ snd_window (ikcp_update_ack kcp rtt).
Proof.
  intros (Hsend & Hrcv & Hwnd & Hmin & Hrto) Hwin.
  unfold kcp_inv_rest, IKCP_RTO_MAX, IKCP_RTO_MIN, IKCP_RTO_NDL in *.
  pose proof (ikcp_update_ack_rto kcp rtt) as Hb. unfold IKCP_RTO_MAX in Hb.
  destruct (ikcp_update_ack_shape kcp rtt) as (a & b & c & E). rewrite E in *.
  revert Hb. simp_upd. intros Hb. split_and!; try done; lia.
Qed.

Lemma ikcp_parse_ack_shape kcp sn : exists q n,
  ikcp_parse_ack kcp sn = kcp <| snd_buf := q |> <| nsnd_buf := n |>.
Proof.
  unfold ikcp_parse_ack.
  assert (exists q n, kcp = kcp <| snd_buf := q |> <| nsnd_buf := n |>) as Hsame.
  { exists (snd_buf kcp), (nsnd_buf kcp). by destruct kcp. }
  destruct (_ || _); [done|].
  destruct (ikcp_parse_ack_loop (snd_buf kcp) sn) as [q|]; [|done].
  exists q, (nsnd_buf kcp -w 1). by simp_upd.
Qed.

(** Acknowledge, then move [snd_una]: the pair of calls [ikcp_input] makes. *)
Lemma ikcp_shrink_inv kcp :
  kcp_inv_rest kcp -> snd_window kcp -> kcp_inv (ikcp_shrink_buf kcp).
Proof.
  intros Hrest Hwin. apply kcp_inv_split.
  split; [|by apply ikcp_shrink_buf_window].
  rewrite ikcp_shrink_buf_shape. by simp_upd.
Qed.

Lemma ikcp_input_ack_inv kcp l h :
  kcp_inv kcp -> kcp_inv (fst (ikcp_input_ack kcp l h)).
Proof.
  intros (Hrest & Hwin & _)%kcp_inv_split. unfold ikcp_input_ack. cbn [fst].
  set (k := if _ >=? 0 then _ else _).
  assert (kcp_inv_rest k /\ snd_window k) as [Hrest' Hwin'].
  { unfold k. destruct (_ >=? 0); [|done]. by apply ikcp_update_ack_inv. }
  apply ikcp_shrink_inv; [|by apply ikcp_parse_ack_window].
  destruct (ikcp_parse_ack_shape k (h_sn h)) as (q & n & ->). by simp_upd.
Qed.

Lemma ikcp_ack_push_inv kcp sn ts : kcp_inv kcp -> kcp_inv (ikcp_ack_push kcp sn ts).
Proof. intros H. unfold ikcp_ack_push. destruct (_ >? _); by simp_upd. Qed.

Lemma ikcp_parse_data_inv kcp new :
  kcp_inv kcp -> seg_wf new -> 0 <= seg_sn new < 4294967296 ->
  kcp_inv (ikcp_parse_data kcp new).
Proof.
  intros Hinv Hwf Hsn. pose proof Hinv as (Hsend & Hwin & Hh & Hrcv & Hrest).
  destruct (ikcp_parse_data_shape kcp new Hrcv Hwf Hsn)
    as [->|(q & n & m & r & -> & _ & _ & _ & Hrcv' & _)]; [done|].
  unfold kcp_inv. split_and!; [| | |exact Hrcv'|..]; unfold rcv_moved; simp_upd; tauto.
Qed.

Lemma ikcp_input_segment_inv kcp l h data :
  kcp_inv kcp -> header_ok h -> h_len h <= Zlen data ->
  kcp_inv (fst (ikcp_input_segment kcp l h data)).
Proof.
  intros (Hrest & Hwin & _)%kcp_inv_split Hh Hlen. unfold ikcp_input_segment.
  pose proof Hh as (_ & _ & _ & Hwnd & _ & Hsn & _ & Hl).
  set (k0 := kcp <| rmt_wnd := h_wnd h |>).
  assert (kcp_inv_rest k0 /\ snd_window k0) as [Hrest0 Hwin0].
  { unfold k0. split; [|by simp_upd]. unfold kcp_inv_rest in *. simp_upd.
    destruct Hrest as (? & ? & _ & ? & ?). split_and!; try tauto; lia. }
  assert (kcp_inv (ikcp_shrink_buf (ikcp_parse_una k0 (h_una h)))) as Hk.
  { apply ikcp_shrink_inv; [|by apply ikcp_parse_una_window].
    pose proof (snd_window_nsnd k0 Hwin0).
    destruct (ikcp_parse_una_shape k0 (h_una h)) as (m & r & _ & -> & _); [lia|].
    by simp_upd. }
  set (k := ikcp_shrink_buf _) in *. clearbody k.
  destruct (_ =? _); [by apply ikcp_input_ack_inv|].
  destruct (_ =? _); cbn [fst].
  - unfold ikcp_input_push. destruct (_ <? 0); [|done].
    pose proof (ikcp_ack_push_inv k (h_sn h) (h_ts h) Hk) as Hk'.
    destruct (_ >=? 0); [|done]. apply ikcp_parse_data_inv; [done| |by simp_upd].
    unfold seg_wf. simp_upd. cbn [seg_data ikcp_segment_new].
    unfold Zlen in *. rewrite length_take. lia.
  - destruct (_ =? _); cbn [fst]; [|done]. by simp_upd.
Qed.

Lemma ikcp_input_loop_inv fuel kcp l data :
  kcp_inv kcp -> kcp_inv (snd (ikcp_input_loop fuel kcp l data)).
Proof.
  revert kcp l data. induction fuel as [|fuel IH]; intros kcp l data Hk; [done|].
  cbn [ikcp_input_loop]. destruct (_ <? _); [done|].
  pose proof (ikcp_decode_header_ok data) as [_ Hh].
  destruct (ikcp_decode_header data) as [rest h]. cbn [snd] in Hh.
  destruct (negb _); [done|]. destruct (_ || _) eqn:G; [done|]. destruct (_ && _); [done|].
  pose proof (ikcp_input_segment_inv kcp l h rest Hk Hh ltac:(lia)) as Hk'.
  destruct (ikcp_input_segment kcp l h rest) as [k' l']. by apply IH.
Qed.

Ltac case_ifs :=
  repeat match goal with |- context [if ?b then _ else _] => destruct b end.

Lemma ikcp_input_cwnd_inv kcp : kcp_inv kcp -> kcp_inv (ikcp_input_cwnd kcp).
Proof. intros H. unfold ikcp_input_cwnd. cbv zeta. case_ifs; by simp_upd. Qed.

Lemma ikcp_parse_fastack_inv kcp sn ts : kcp_inv kcp -> kcp_inv (ikcp_parse_fastack kcp sn ts).
Proof.
  intros (Hrest & Hwin)%kcp_inv_split.
  destruct (ikcp_parse_fastack_shape kcp sn ts) as (q & -> & E).
  apply kcp_inv_split. split; [by simp_upd|]. by apply snd_window_map_sn.
Qed.

(** Whatever bytes arrive, and whatever the result, the invariant is kept. *)
Theorem ikcp_input_inv kcp data : kcp_inv kcp -> kcp_inv (snd (ikcp_input kcp data)).
Proof.
  intros Hk. unfold ikcp_input. destruct (_ <? _); [done|].
  pose proof (ikcp_input_loop_inv (length data) kcp (mklocals false 0 0) data Hk) as Hk'.
  destruct (ikcp_input_loop _ _ _ _) as [[e|l] k]; cbn [snd] in *; [done|].
  set (k' := if l_flag l then _ else _).
  assert (kcp_inv k') by (unfold k'; destruct (l_flag l); auto using ikcp_parse_fastack_inv).
  destruct (_ >? 0); auto using ikcp_input_cwnd_inv.
Qed.

(** The fuel of the loop is no restriction: any two amounts that cover the data agree. *)
Theorem ikcp_input_loop_fuel f1 f2 kcp l data :
  (length data <= f1)%nat -> (length data <= f2)%nat ->
  ikcp_input_loop f1 kcp l data = ikcp_input_loop f2 kcp l data.
Proof.
  revert f2 kcp l data. induction f1 as [|f1 IH]; intros f2 kcp l data H1 H2.
  - assert (data = []) as -> by (destruct data; [done|cbn in H1; lia]).
    by destruct f2.
  - destruct f2 as [|f2].
    { by assert (data = []) as -> by (destruct data; [done|cbn in H2; lia]). }
    cbn [ikcp_input_loop]. destruct (Z.ltb_spec (Zlen data) IKCP_OVERHEAD) as [?|Hge]; [done|].
    pose proof (ikcp_decode_header_ok data) as [Hd _].
    destruct (ikcp_decode_header data) as [rest h]. cbn [fst] in Hd. subst rest.
    destruct (negb _); [done|]. destruct (_ || _); [done|]. destruct (_ && _); [done|].
    destruct (ikcp_input_segment _ _ _ _) as [k' l'].
    unfold IKCP_OVERHEAD, Zlen in Hge.
    apply IH; rewrite !length_drop; lia.
Qed.

(** A packet whose first segment is refused leaves the control block untouched, and the
    result names the reason: too short or another conversation, a bad length, an unknown
    command. *)
Theorem ikcp_input_rejects kcp data :
  Zlen data < 2147483648 ->
  let h := snd (ikcp_decode_header data) in
  (Zlen data < 24 \/ h_conv h <> conv kcp -> ikcp_input kcp data = (-1, kcp)) /\
  (24 <= Zlen data -> h_conv h = conv kcp ->
   Zlen data - 24 < h_len h \/ 2147483648 <= h_len h -> ikcp_input kcp data = (-2, kcp)) /\
  (24 <= Zlen data -> h_conv h = conv kcp -> h_len h <= Zlen data - 24 ->
   ~ (81 <= h_cmd h <= 84) -> ikcp_input kcp data = (-3, kcp)).
Proof.
  intros Hlt. cbv zeta. unfold ikcp_input. pose proof (Zlen_nonneg data).
  rewrite i32_small by lia. change IKCP_OVERHEAD with 24.
  destruct (Z.ltb_spec (Zlen data) 24) as [Hs|Hs]; [split_and!; [done|lia..]|].
  pose proof (ikcp_decode_header_ok data) as [Hd (_ & Hc & _ & _ & _ & _ & _ & Hl)].
  destruct data as [|b data]; [unfold Zlen in Hs; cbn in Hs; lia|]. cbn [length ikcp_input_loop].
  set (data' := b :: data) in *. change IKCP_OVERHEAD with 24.
  destruct (Z.ltb_spec (Zlen data') 24); [lia|].
  destruct (ikcp_decode_header data') as [rest h]. cbn [fst snd] in *.
  assert (Zlen rest = Zlen data' - 24) as Hr.
  { subst rest. unfold Zlen in *. rewrite length_drop. lia. }
  unfold IKCP_CMD_PUSH, IKCP_CMD_ACK, IKCP_CMD_WASK, IKCP_CMD_WINS.
  destruct (Z.eqb_spec (h_conv h) (conv kcp)); cbn [negb];
    [|split_and!; [done|lia..]].
  destruct ((Zlen rest <? h_len h) || (i32 (h_len h) <? 0)) eqn:E2.
  { split_and!; [lia|done|]. intros _ _ Hle. exfalso.
    rewrite i32_small in E2; lia. }
  split_and!; [lia| |].
  - intros _ _ Hbad. exfalso. destruct Hbad as [Hb|Hb]; [lia|].
    assert (i32 (h_len h) < 0); [|lia]. clear - Hl Hb. words.
  - intros _ _ _ Hcmd. destruct (_ && _) eqn:E3; [done|lia].
Qed.

(** The results of [ikcp_input]. *)
Theorem ikcp_input_results kcp data :
  fst (ikcp_input kcp data) ∈ [0; -1; -2; -3].
Proof.
  assert (forall fuel k l d e, fst (ikcp_input_loop fuel k l d) = inl e -> e ∈ [-1; -2; -3]) as Hl.
  { induction fuel as [|fuel IH]; intros k l d e; [done|]. cbn [ikcp_input_loop].
    destruct (_ <? _); [done|]. destruct (ikcp_decode_header d) as [rest h].
    destruct (negb _); [intros [= <-]; set_solver|].
    destruct (_ || _); [intros [= <-]; set_solver|].
    destruct (_ && _); [intros [= <-]; set_solver|].
    destruct (ikcp_input_segment _ _ _ _). apply IH. }
  unfold ikcp_input. destruct (_ <? _); [set_solver|].
  specialize (Hl (length data) kcp (mklocals false 0 0) data).
  destruct (ikcp_input_loop _ _ _ _) as [[e|l] k]; cbn [fst] in *; [|set_solver].
  specialize (Hl e eq_refl). set_solver.
Qed.
