(* ===== verification/IkcpFlush.v ===== *)
(** The timer side of the control block: [ikcp_flush], [ikcp_update], [ikcp_check], and the
    option setters. *)
From S2P Require Import Prelude Bytes IkcpTypes IkcpSend IkcpInput.

(** ** [ikcp_encode_seg] *)
Definition ikcp_encode_seg (ptr : bytes) (seg : IKCPSEG) : bytes :=
  let ptr := ikcp_encode32u ptr (seg_conv seg) in
  let ptr := ikcp_encode8u ptr (u8 (seg_cmd seg)) in
  let ptr := ikcp_encode8u ptr (u8 (seg_frg seg)) in
  let ptr := ikcp_encode16u ptr (u16 (seg_wnd seg)) in
  let ptr := ikcp_encode32u ptr (seg_ts seg) in
  let ptr := ikcp_encode32u ptr (seg_sn seg) in
  let ptr := ikcp_encode32u ptr (seg_una seg) in
  let ptr := ikcp_encode32u ptr (seg_len seg) in
  ptr.

Definition ikcp_wnd_unused (kcp : IKCPCB) : Z :=
  if nrcv_que kcp <? rcv_wnd kcp then i32 (rcv_wnd kcp -w nrcv_que kcp) else 0.

(** ** The output buffer

    [w_ptr] is what has been written between [buffer] and [ptr], [w_out] the packets handed
    to the [output] callback so far, oldest first. *)
Record writer := mkwriter { w_ptr : bytes; w_out : list bytes }.
#[export] Instance eta_writer : Eta writer := fun w => mkwriter (w_ptr w) (w_out w).

(** [ikcp_output] on the contents of the buffer. *)
Definition ikcp_output (w : writer) : writer :=
  if Zlen (w_ptr w) =? 0 then w
  else w <| w_out := w_out w ++ [w_ptr w] |>.

(** [if (size + need > mtu) { ikcp_output(kcp, buffer, size); ptr = buffer; }] *)
Definition flush_room (mtu need : Z) (w : writer) : writer :=
  if i32 (i32 (Zlen (w_ptr w)) + need) >? i32 mtu
  then (ikcp_output w) <| w_ptr := [] |> else w.

Definition flush_put (seg : IKCPSEG) (w : writer) : writer :=
  w <| w_ptr := ikcp_encode_seg (w_ptr w) seg |>.

(** ** [ikcp_flush] *)

(** Flush acknowledges: [seg] is the local header, its [sn] and [ts] come from the list. *)
Fixpoint flush_acks (mtu : Z) (acks : list (Z * Z)) (seg : IKCPSEG) (w : writer)
  : IKCPSEG * writer :=
  match acks with
  | [] => (seg, w)
  | (sn, ts) :: acks =>
      let w := flush_room mtu IKCP_OVERHEAD w in
      let seg := seg <| seg_sn := sn |> in
      let seg := seg <| seg_ts := ts |> in
      flush_acks mtu acks seg (flush_put seg w)
  end.

(** Probe window size (if remote window size equals zero). *)
Definition flush_probe_wnd (kcp : IKCPCB) : IKCPCB :=
  if rmt_wnd kcp =? 0 then
    if probe_wait kcp =? 0 then
      let kcp := kcp <| probe_wait := IKCP_PROBE_INIT |> in
      kcp <| ts_probe := current kcp +w probe_wait kcp |>
    else if _itimediff (current kcp) (ts_probe kcp) >=? 0 then
      let kcp :=
        if probe_wait kcp <? IKCP_PROBE_INIT
        then kcp <| probe_wait := IKCP_PROBE_INIT |> else kcp in
      let kcp := kcp <| probe_wait := probe_wait kcp +w probe_wait kcp / 2 |> in
      let kcp :=
        if probe_wait kcp >? IKCP_PROBE_LIMIT
        then kcp <| probe_wait := IKCP_PROBE_LIMIT |> else kcp in
      let kcp := kcp <| ts_probe := current kcp +w probe_wait kcp |> in
      kcp <| probe := Z.lor (probe kcp) IKCP_ASK_SEND |>
    else kcp
  else
    let kcp := kcp <| ts_probe := 0 |> in
    kcp <| probe_wait := 0 |>.

(** Flush window probing commands. *)
Definition flush_probe_cmd (kcp : IKCPCB) (ask cmd : Z) (seg : IKCPSEG) (w : writer)
  : IKCPSEG * writer :=
  if negb (Z.land (probe kcp) ask =? 0) then
    let seg := seg <| seg_cmd := cmd |> in
    (seg, flush_put seg (flush_room (mtu kcp) IKCP_OVERHEAD w))
  else (seg, w).

Definition flush_cwnd (kcp : IKCPCB) : Z :=
  let c := _imin_ (snd_wnd kcp) (rmt_wnd kcp) in
  if nocwnd kcp =? 0 then _imin_ (cwnd kcp) c else c.

(** Move data from [snd_queue] to [snd_buf]. *)
Fixpoint flush_move (q : list IKCPSEG) (kcp : IKCPCB) (cw wnd : Z) : IKCPCB :=
  match q with
  | [] => kcp
  | newseg :: q' =>
      if _itimediff (snd_nxt kcp) (snd_una kcp +w cw) <? 0 then
        let newseg := newseg <| seg_conv := conv kcp |> in
        let newseg := newseg <| seg_cmd := IKCP_CMD_PUSH |> in
        let newseg := newseg <| seg_wnd := wnd |> in
        let newseg := newseg <| seg_ts := current kcp |> in
        let newseg := newseg <| seg_sn := snd_nxt kcp |> in
        let newseg := newseg <| seg_una := rcv_nxt kcp |> in
        let newseg := newseg <| seg_resendts := current kcp |> in
        let newseg := newseg <| seg_rto := u32 (rx_rto kcp) |> in
        let newseg := newseg <| seg_fastack := 0 |> in
        let newseg := newseg <| seg_xmit := 0 |> in
        let kcp := kcp <| snd_queue := q' |> in
        let kcp := kcp <| snd_buf := snd_buf kcp ++ [newseg] |> in
        let kcp := kcp <| nsnd_que := nsnd_que kcp -w 1 |> in
        let kcp := kcp <| nsnd_buf := nsnd_buf kcp +w 1 |> in
        let kcp := kcp <| snd_nxt := snd_nxt kcp +w 1 |> in
        flush_move q' kcp cw wnd
      else kcp
  end.

Definition flush_resent (kcp : IKCPCB) : Z :=
  if fastresend kcp >? 0 then u32 (fastresend kcp) else 0xffffffff.

Definition flush_rtomin (kcp : IKCPCB) : Z :=
  if nodelay kcp =? 0 then u32 (Z.shiftr (rx_rto kcp) 3) else 0.

(** Why a segment is transmitted in this flush, if it is. *)
Inductive send_reason := First | Timeout | FastResend.
#[export] Instance send_reason_eq_dec : EqDecision send_reason.
Proof. solve_decision. Defined.

Definition flush_reason (kcp : IKCPCB) (segment : IKCPSEG) : option send_reason :=
  if seg_xmit segment =? 0 then Some First
  else if _itimediff (current kcp) (seg_resendts segment) >=? 0 then Some Timeout
  else if seg_fastack segment >=? flush_resent kcp then
    if (i32 (seg_xmit segment) <=? fastlimit kcp) || (fastlimit kcp <=? 0)
    then Some FastResend else None
  else None.

(** The three branches that decide [needsend] and update the segment's timers. *)
Definition flush_mark (kcp : IKCPCB) (reason : send_reason) (segment : IKCPSEG) : IKCPSEG :=
  let segment := segment <| seg_xmit := seg_xmit segment +w 1 |> in
  match reason with
  | First =>
      let segment := segment <| seg_rto := u32 (rx_rto kcp) |> in
      segment <| seg_resendts := current kcp +w seg_rto segment +w flush_rtomin kcp |>
  | Timeout =>
      let segment :=
        if nodelay kcp =? 0 then
          segment <| seg_rto := seg_rto segment
                                +w _imax_ (seg_rto segment) (u32 (rx_rto kcp)) |>
        else
          let step := if nodelay kcp <? 2 then i32 (seg_rto segment) else rx_rto kcp in
          segment <| seg_rto := seg_rto segment +w Z.quot step 2 |> in
      segment <| seg_resendts := current kcp +w seg_rto segment |>
  | FastResend =>
      let segment := segment <| seg_fastack := 0 |> in
      segment <| seg_resendts := current kcp +w seg_rto segment |>
  end.

(** The locals and the fields of [kcp] the data loop writes. *)
Record flush_acc := mkacc {
  fa_w : writer; fa_xmit : Z; fa_state : Z; fa_change : Z; fa_lost : bool
}.
#[export] Instance eta_flush_acc : Eta flush_acc := fun a =>
  mkacc (fa_w a) (fa_xmit a) (fa_state a) (fa_change a) (fa_lost a).

(** The [if (needsend)] block. *)
Definition flush_send (kcp : IKCPCB) (wnd : Z) (segment : IKCPSEG) (a : flush_acc)
  : IKCPSEG * flush_acc :=
  let segment := segment <| seg_ts := current kcp |> in
  let segment := segment <| seg_wnd := wnd |> in
  let segment := segment <| seg_una := rcv_nxt kcp |> in
  let need := i32 (IKCP_OVERHEAD +w seg_len segment) in
  let w := flush_put segment (flush_room (mtu kcp) need (fa_w a)) in
  let w := if seg_len segment >? 0
           then w <| w_ptr := w_ptr w ++ take (Z.to_nat (seg_len segment)) (seg_data segment) |>
           else w in
  let a := a <| fa_w := w |> in
  let a := if seg_xmit segment >=? dead_link kcp
           then a <| fa_state := U32_MAX |> else a in
  (segment, a).

(** One turn of the data loop. *)
Definition flush_segment (kcp : IKCPCB) (wnd : Z) (segment : IKCPSEG) (a : flush_acc)
  : IKCPSEG * flush_acc :=
  match flush_reason kcp segment with
  | None => (segment, a)
  | Some reason =>
      let segment := flush_mark kcp reason segment in
      let a :=
        match reason with
        | First => a
        | Timeout => a <| fa_xmit := fa_xmit a +w 1 |> <| fa_lost := true |>
        | FastResend => a <| fa_change := i32 (fa_change a + 1) |>
        end in
      flush_send kcp wnd segment a
  end.

Fixpoint flush_data (p : list IKCPSEG) (kcp : IKCPCB) (wnd : Z) (a : flush_acc)
  : list IKCPSEG * flush_acc :=
  match p with
  | [] => ([], a)
  | segment :: p =>
      let '(segment, a) := flush_segment kcp wnd segment a in
      let '(p, a) := flush_data p kcp wnd a in
      (segment :: p, a)
  end.

(** Update [ssthresh] and the congestion window. *)
Definition flush_ssthresh (kcp : IKCPCB) (change : Z) (lost : bool) (cw resent : Z)
  : IKCPCB :=
  let at_least_min k :=
    if ssthresh k <? IKCP_THRESH_MIN then k <| ssthresh := IKCP_THRESH_MIN |> else k in
  let kcp :=
    if negb (change =? 0) then
      let inflight := snd_nxt kcp -w snd_una kcp in
      let kcp := at_least_min (kcp <| ssthresh := inflight / 2 |>) in
      let kcp := kcp <| cwnd := ssthresh kcp +w resent |> in
      kcp <| incr := cwnd kcp *w mss kcp |>
    else kcp in
  let kcp :=
    if lost then
      let kcp := at_least_min (kcp <| ssthresh := cw / 2 |>) in
      let kcp := kcp <| cwnd := 1 |> in
      kcp <| incr := mss kcp |>
    else kcp in
  if cwnd kcp <? 1 then
    let kcp := kcp <| cwnd := 1 |> in
    kcp <| incr := mss kcp |>
  else kcp.

(** The local segment [seg] the control packets are encoded from. *)
Definition flush_seg (kcp : IKCPCB) : IKCPSEG :=
  let seg := ikcp_segment_new [] in
  let seg := seg <| seg_conv := conv kcp |> in
  let seg := seg <| seg_cmd := IKCP_CMD_ACK |> in
  let seg := seg <| seg_frg := 0 |> in
  let seg := seg <| seg_wnd := u32 (ikcp_wnd_unused kcp) |> in
  let seg := seg <| seg_una := rcv_nxt kcp |> in
  let seg := seg <| seg_len := 0 |> in
  let seg := seg <| seg_sn := 0 |> in
  seg <| seg_ts := 0 |>.

(** The control packets: acknowledges and window probes. *)
Definition flush_control (kcp : IKCPCB) : IKCPCB * IKCPSEG * writer :=
  let seg := flush_seg kcp in
  let '(seg, w) :=
    flush_acks (mtu kcp) (take (Z.to_nat (ackcount kcp)) (acklist kcp)) seg (mkwriter [] []) in
  let kcp := kcp <| ackcount := 0 |> in
  let kcp := flush_probe_wnd kcp in
  let '(seg, w) := flush_probe_cmd kcp IKCP_ASK_SEND IKCP_CMD_WASK seg w in
  let '(seg, w) := flush_probe_cmd kcp IKCP_ASK_TELL IKCP_CMD_WINS seg w in
  let kcp := kcp <| probe := 0 |> in
  (kcp, seg, w).

(** Returns the control block and the packets given to the [output] callback, in order. *)
Definition ikcp_flush (kcp : IKCPCB) : IKCPCB * list bytes :=
  if updated kcp =? 0 then (kcp, [])
  else
    let '(kcp, seg, w) := flush_control kcp in
    let cw := flush_cwnd kcp in
    let kcp := flush_move (snd_queue kcp) kcp cw (seg_wnd seg) in
    let '(buf, a) :=
      flush_data (snd_buf kcp) kcp (seg_wnd seg) (mkacc w (xmit kcp) (state kcp) 0 false) in
    let kcp := kcp <| snd_buf := buf |> in
    let kcp := kcp <| xmit := fa_xmit a |> in
    let kcp := kcp <| state := fa_state a |> in
    let w := ikcp_output (fa_w a) in
    (flush_ssthresh kcp (fa_change a) (fa_lost a) cw (flush_resent kcp), w_out w).

(** ** [ikcp_update] and [ikcp_check] *)
Definition ikcp_update (kcp : IKCPCB) (now : Z) : IKCPCB * list bytes :=
  let kcp := kcp <| current := now |> in
  let kcp :=
    if updated kcp =? 0 then
      let kcp := kcp <| updated := 1 |> in
      kcp <| ts_flush := current kcp |>
    else kcp in
  let slap := _itimediff (current kcp) (ts_flush kcp) in
  let '(kcp, slap) :=
    if (slap >=? 10000) || (slap <? -10000)
    then (kcp <| ts_flush := current kcp |>, 0) else (kcp, slap) in
  if slap >=? 0 then
    let kcp := kcp <| ts_flush := ts_flush kcp +w interval kcp |> in
    let kcp :=
      if _itimediff (current kcp) (ts_flush kcp) >=? 0
      then kcp <| ts_flush := current kcp +w interval kcp |> else kcp in
    ikcp_flush kcp
  else (kcp, []).

(** The scan of [snd_buf]: [None] is the early [return current]. *)
Fixpoint ikcp_check_loop (p : list IKCPSEG) (now tm_packet : Z) : option Z :=
  match p with
  | [] => Some tm_packet
  | seg :: p =>
      let diff := _itimediff (seg_resendts seg) now in
      if diff <=? 0 then None
      else ikcp_check_loop p now (if diff <? tm_packet then diff else tm_packet)
  end.

Definition ikcp_check (kcp : IKCPCB) (now : Z) : Z :=
  if updated kcp =? 0 then now
  else
    let ts := ts_flush kcp in
    let ts :=
      if (_itimediff now ts >=? 10000) || (_itimediff now ts <? -10000) then now else ts in
    if _itimediff now ts >=? 0 then now
    else
      let tm_flush := _itimediff ts now in
      match ikcp_check_loop (snd_buf kcp) now 0x7fffffff with
      | None => now
      | Some tm_packet =>
          let minimal := u32 (if tm_packet <? tm_flush then tm_packet else tm_flush) in
          let minimal := if minimal >=? interval kcp then interval kcp else minimal in
          now +w minimal
      end.

(** ** Options *)

(** [malloc_ok] is the outcome of the buffer's allocation. *)
Definition ikcp_setmtu (malloc_ok : bool) (kcp : IKCPCB) (m : Z) : Z * IKCPCB :=
  if (m <? 50) || (m <? i32 IKCP_OVERHEAD) then (-1, kcp)
  else if negb malloc_ok then (-2, kcp)
  else
    let kcp := kcp <| mtu := u32 m |> in
    let kcp := kcp <| mss := mtu kcp -w IKCP_OVERHEAD |> in
    let kcp := kcp <| buffer_cap := u32 (u32 m + IKCP_OVERHEAD) *w 3 |> in
    (0, kcp).

Definition ikcp_interval (kcp : IKCPCB) (iv : Z) : IKCPCB :=
  let iv := if iv >? 5000 then 5000 else if iv <? 10 then 10 else iv in
  kcp <| interval := iv |>.

Definition ikcp_nodelay (kcp : IKCPCB) (nd iv resend nc : Z) : IKCPCB :=
  let kcp :=
    if nd >=? 0 then
      let kcp := kcp <| nodelay := nd |> in
      if negb (nd =? 0) then kcp <| rx_minrto := IKCP_RTO_NDL |>
      else kcp <| rx_minrto := IKCP_RTO_MIN |>
    else kcp in
  let kcp :=
    if iv >=? 0 then
      let iv := if iv >? 5000 then 5000 else if iv <? 10 then 10 else iv in
      kcp <| interval := iv |>
    else kcp in
  let kcp := if resend >=? 0 then kcp <| fastresend := resend |> else kcp in
  if nc >=? 0 then kcp <| nocwnd := nc |> else kcp.

Definition ikcp_wndsize (kcp : IKCPCB) (sndwnd rcvwnd : Z) : IKCPCB :=
  let kcp := if sndwnd >? 0 then kcp <| snd_wnd := sndwnd |> else kcp in
  if rcvwnd >? 0 then kcp <| rcv_wnd := _imax_ rcvwnd IKCP_WND_RCV |> else kcp.

Definition ikcp_waitsnd (kcp : IKCPCB) : Z := i32 (nsnd_buf kcp +w nsnd_que kcp).

(** ** Packets

    [wire s] is a segment on the wire: 24 header bytes and the payload.  A packet is a
    concatenation of whole segments. *)
Definition wire (s : IKCPSEG) : bytes :=
  ikcp_encode_seg [] s ++ take (Z.to_nat (seg_len s)) (seg_data s).

Definition packet (g : list IKCPSEG) : bytes := concat (map wire g).

(** The writer holds the segments [segs], in order, in packets of at most [m] bytes. *)
Definition packed (m : Z) (w : writer) (segs : list IKCPSEG) : Prop :=
  exists gs g, w_out w = map packet gs /\ w_ptr w = packet g /\ segs = concat gs ++ g /\
    Forall (fun g => g <> [] /\ Zlen (packet g) <= m) gs /\ Zlen (packet g) <= m.

Lemma ikcp_encode_seg_acc p s : ikcp_encode_seg p s = p ++ ikcp_encode_seg [] s.
Proof.
  unfold ikcp_encode_seg, ikcp_encode32u, ikcp_encode16u, ikcp_encode8u.
  by rewrite <- !app_assoc.
Qed.

Lemma length_ikcp_encode_seg s : Zlen (ikcp_encode_seg [] s) = 24.
Proof. done. Qed.

Lemma Zlen_wire s : seg_wf s -> Zlen (wire s) = 24 + seg_len s.
Proof.
  intros Hs. unfold wire, seg_wf in *.
  rewrite Zlen_app, length_ikcp_encode_seg, take_ge by (unfold Zlen in Hs; lia). lia.
Qed.

Lemma packet_app g h : packet (g ++ h) = packet g ++ packet h.
Proof. unfold packet. by rewrite map_app, concat_app. Qed.

Lemma packet_singleton s : packet [s] = wire s.
Proof. unfold packet. cbn. by rewrite app_nil_r. Qed.

Lemma packet_nil g : packet g = [] -> g = [].
Proof. by destruct g. Qed.

Lemma packed_nil m : 0 <= m -> packed m (mkwriter [] []) [].
Proof. intros Hm. exists [], []. split_and!; try done. Qed.

(** Making room, then writing one segment. *)
Lemma packed_put m w segs s :
  24 <= m < 1073741824 -> Zlen (wire s) <= m -> packed m w segs ->
  packed m ((flush_room m (Zlen (wire s)) w)
              <| w_ptr := w_ptr (flush_room m (Zlen (wire s)) w) ++ wire s |>) (segs ++ [s]).
Proof.
  intros Hm Hs (gs & g & Ho & Hp & -> & Hgs & Hg). unfold flush_room.
  pose proof (Zlen_nonneg (packet g)). pose proof (Zlen_nonneg (wire s)).
  rewrite Hp, !i32_small by (rewrite ?i32_small; lia).
  destruct (Z.gtb_spec (Zlen (packet g) + Zlen (wire s)) m) as [Hfull|Hfit].
  - unfold ikcp_output. rewrite Hp. destruct (Z.eqb_spec (Zlen (packet g)) 0); [lia|].
    exists (gs ++ [g]), [s]. simp_upd. rewrite Ho, ?Hp, map_app. cbn [map]. rewrite packet_singleton.
    split_and!; try done.
    + by rewrite concat_app; cbn; rewrite app_nil_r.
    + apply Forall_app; split; [done|]. constructor; [|done]. split; [|done]. by intros ->.
  - exists gs, (g ++ [s]). simp_upd. rewrite ?Hp, packet_app, packet_singleton.
    split_and!; try done; [by rewrite app_assoc|]. rewrite Zlen_app. lia.
Qed.

(** Handing over the last packet. *)
Lemma packed_output m w segs :
  packed m w segs ->
  exists gs, w_out (ikcp_output w) = map packet gs /\ concat gs = segs /\
    Forall (fun g => g <> [] /\ Zlen (packet g) <= m) gs.
Proof.
  intros (gs & g & Ho & Hp & -> & Hgs & Hg). unfold ikcp_output. rewrite Hp.
  destruct (Z.eqb_spec (Zlen (packet g)) 0) as [E|E].
  - exists gs. split_and!; try done. destruct g; [by rewrite app_nil_r|].
    unfold packet, Zlen in E. cbn in E. lia.
  - exists (gs ++ [g]). simp_upd. rewrite Ho, map_app, concat_app. cbn. rewrite app_nil_r.
    split_and!; try done. apply Forall_app; split; [done|]. constructor; [|done].
    split; [|done]. by intros ->.
Qed.

(** ** What a flush sends *)

(** The acknowledgement segments, and the header left in the local [seg] after them. *)
Definition ack_segs (seg : IKCPSEG) (acks : list (Z * Z)) : list IKCPSEG :=
  map (fun a => seg <| seg_sn := fst a |> <| seg_ts := snd a |>) acks.

Definition flush_control_segs (kcp : IKCPCB) : list IKCPSEG :=
  let acks := ack_segs (flush_seg kcp) (take (Z.to_nat (ackcount kcp)) (acklist kcp)) in
  let seg := default (flush_seg kcp) (last acks) in
  let ask := probe (flush_probe_wnd kcp) in
  acks
  ++ (if negb (Z.land ask IKCP_ASK_SEND =? 0) then [seg <| seg_cmd := IKCP_CMD_WASK |>] else [])
  ++ (if negb (Z.land ask IKCP_ASK_TELL =? 0) then [seg <| seg_cmd := IKCP_CMD_WINS |>] else []).

(** A data segment as it is transmitted. *)
Definition flush_sent (kcp : IKCPCB) (wnd : Z) (reason : send_reason) (s : IKCPSEG) : IKCPSEG :=
  (flush_mark kcp reason s) <| seg_ts := current kcp |> <| seg_wnd := wnd |>
                            <| seg_una := rcv_nxt kcp |>.

Definition flush_data_segs (kcp : IKCPCB) (wnd : Z) (q : list IKCPSEG) : list IKCPSEG :=
  concat (map (fun s => match flush_reason kcp s with
                        | Some r => [flush_sent kcp wnd r s] | None => [] end) q).

(** The control block when the data loop starts. *)
Definition flush_wnd (kcp : IKCPCB) : Z := u32 (ikcp_wnd_unused kcp).
Definition flush_moved (kcp : IKCPCB) : IKCPCB :=
  let k := (flush_probe_wnd (kcp <| ackcount := 0 |>)) <| probe := 0 |> in
  flush_move (snd_queue k) k (flush_cwnd k) (flush_wnd kcp).

Lemma flush_acks_spec m acks seg w segs :
  24 <= m < 1073741824 -> seg_len seg = 0 -> seg_data seg = [] -> packed m w segs ->
  exists w', flush_acks m acks seg w = (default seg (last (ack_segs seg acks)), w') /\
    packed m w' (segs ++ ack_segs seg acks).
Proof.
  intros Hm. revert seg w segs. induction acks as [|[sn ts] acks IH]; intros seg w segs Hl Hd Hw.
  - exists w. cbn. by rewrite app_nil_r.
  - cbn [flush_acks]. set (seg1 := seg <| seg_sn := sn |> <| seg_ts := ts |>).
    assert (wire seg1 = ikcp_encode_seg [] seg1) as Ew.
    { unfold wire, seg1. simp_upd. by rewrite Hl, Hd, take_nil, app_nil_r. }
    assert (Zlen (wire seg1) = 24) as El by (by rewrite Ew).
    pose proof (packed_put m w segs seg1 Hm ltac:(lia) Hw) as Hp. rewrite El in Hp.
    destruct (IH seg1 (flush_put seg1 (flush_room m IKCP_OVERHEAD w)) (segs ++ [seg1]))
      as (w' & E & Hw').
    { unfold seg1. by simp_upd. } { unfold seg1. by simp_upd. }
    { unfold flush_put. rewrite ikcp_encode_seg_acc, <- Ew. exact Hp. }
    exists w'. rewrite E. rewrite <- app_assoc in Hw'.
    assert (ack_segs seg1 acks = ack_segs seg acks) as Ea.
    { unfold ack_segs. apply map_ext. intros [a b]. unfold seg1. by destruct seg. }
    rewrite Ea in *. split; [|exact Hw']. f_equal.
    change (ack_segs seg ((sn, ts) :: acks)) with (seg1 :: ack_segs seg acks).
    destruct (ack_segs seg acks) as [|x l]; [done|]. rewrite last_cons_cons.
    destruct (last (x :: l)) eqn:F; [done|]. by apply last_None in F.
Qed.

Lemma flush_probe_cmd_spec kcp ask cmd seg w segs :
  24 <= mtu kcp < 1073741824 -> seg_len seg = 0 -> seg_data seg = [] ->
  packed (mtu kcp) w segs ->
  let on := negb (Z.land (probe kcp) ask =? 0) in
  let seg' := if on then seg <| seg_cmd := cmd |> else seg in
  exists w', flush_probe_cmd kcp ask cmd seg w = (seg', w') /\
    packed (mtu kcp) w' (segs ++ if on then [seg'] else []).
Proof.
  intros Hm Hl Hd Hw. cbv zeta. unfold flush_probe_cmd. destruct (negb _).
  - set (seg1 := seg <| seg_cmd := cmd |>).
    assert (wire seg1 = ikcp_encode_seg [] seg1) as Ew.
    { unfold wire, seg1. simp_upd. by rewrite Hl, Hd, take_nil, app_nil_r. }
    assert (Zlen (wire seg1) = 24) as El by (by rewrite Ew).
    pose proof (packed_put _ w segs seg1 Hm ltac:(lia) Hw) as Hp. rewrite El in Hp.
    eexists. split; [done|]. unfold flush_put. rewrite ikcp_encode_seg_acc, <- Ew. exact Hp.
  - exists w. by rewrite app_nil_r.
Qed.

Lemma ack_segs_last seg acks :
  seg_len seg = 0 -> seg_data seg = [] ->
  seg_len (default seg (last (ack_segs seg acks))) = 0 /\
  seg_data (default seg (last (ack_segs seg acks))) = [] /\
  seg_wnd (default seg (last (ack_segs seg acks))) = seg_wnd seg.
Proof.
  intros Hl Hd. destruct (last (ack_segs seg acks)) as [s|] eqn:E; [|done]. cbn [default].
  apply last_Some in E as [l E]. unfold ack_segs in E.
  assert (s ∈ map (fun a => seg <| seg_sn := fst a |> <| seg_ts := snd a |>) acks) as Hs
    by (rewrite E; set_solver).
  apply list_elem_of_fmap in Hs as (a & -> & _). by simp_upd.
Qed.

Lemma flush_control_spec kcp :
  24 <= mtu kcp < 1073741824 ->
  exists seg w,
    flush_control kcp = ((flush_probe_wnd (kcp <| ackcount := 0 |>)) <| probe := 0 |>, seg, w) /\
    seg_wnd seg = flush_wnd kcp /\ packed (mtu kcp) w (flush_control_segs kcp).
Proof.
  intros Hm. unfold flush_control.
  set (acks := take _ _). set (s0 := flush_seg kcp).
  assert (seg_len s0 = 0 /\ seg_data s0 = [] /\ seg_wnd s0 = flush_wnd kcp) as (Hl0 & Hd0 & Hw0).
  { unfold s0, flush_seg. by simp_upd. }
  destruct (flush_acks_spec (mtu kcp) acks s0 (mkwriter [] []) [] Hm Hl0 Hd0) as (w1 & -> & Hw1).
  { by apply packed_nil; lia. }
  destruct (ack_segs_last s0 acks Hl0 Hd0) as (Hl1 & Hd1 & Hwnd1).
  set (s1 := default s0 _) in *. cbn beta iota.
  set (k := flush_probe_wnd _).
  assert (mtu k = mtu kcp /\ probe k = probe (flush_probe_wnd kcp)) as [Em Ep].
  { unfold k, flush_probe_wnd. simp_upd. cbv zeta. case_ifs; by simp_upd. }
  destruct (flush_probe_cmd_spec k IKCP_ASK_SEND IKCP_CMD_WASK s1 w1 ([] ++ ack_segs s0 acks))
    as (w2 & -> & Hw2); [by rewrite Em|done|done|by rewrite Em|].
  match goal with |- context [flush_probe_cmd k IKCP_ASK_TELL _ ?x w2] => set (s2 := x) in * end.
  assert (seg_len s2 = 0 /\ seg_data s2 = [] /\ seg_wnd s2 = seg_wnd s1) as (Hl2 & Hd2 & Hwnd2).
  { unfold s2. case_ifs; by simp_upd. }
  destruct (flush_probe_cmd_spec k IKCP_ASK_TELL IKCP_CMD_WINS s2 w2
      ([] ++ ack_segs s0 acks ++ if negb (Z.land (probe k) IKCP_ASK_SEND =? 0) then [s2] else []))
    as (w3 & -> & Hw3); [by rewrite Em|done|done|by rewrite app_assoc|].
  eexists _, w3. split; [done|]. split.
  { case_ifs; simp_upd; congruence. }
  rewrite Em in Hw3. cbn [app] in Hw3. rewrite <- app_assoc in Hw3.
  unfold flush_control_segs. fold acks s0 s1. rewrite <- Ep. unfold s2 in Hw3.
  destruct (negb (Z.land (probe k) IKCP_ASK_SEND =? 0)),
    (negb (Z.land (probe k) IKCP_ASK_TELL =? 0)); exact Hw3.
Qed.

Lemma flush_segment_spec kcp wnd s a segs :
  24 <= mtu kcp < 1073741824 -> seg_wf s -> seg_len s + 24 <= mtu kcp ->
  packed (mtu kcp) (fa_w a) segs ->
  let '(s', a') := flush_segment kcp wnd s a in
  packed (mtu kcp) (fa_w a') (segs ++ match flush_reason kcp s with
                                      | Some r => [flush_sent kcp wnd r s] | None => [] end) /\
  s' = match flush_reason kcp s with Some r => flush_sent kcp wnd r s | None => s end.
Proof.
  intros Hm Hwf Hlen Hw. unfold flush_segment.
  destruct (flush_reason kcp s) as [r|]; [|by rewrite app_nil_r].
  match goal with |- context [flush_send kcp wnd _ ?x] => set (a1 := x) end.
  assert (fa_w a1 = fa_w a) as Ea by (unfold a1; destruct r; by simp_upd).
  unfold flush_send. fold (flush_sent kcp wnd r s).
  assert (seg_len (flush_sent kcp wnd r s) = seg_len s /\
          seg_data (flush_sent kcp wnd r s) = seg_data s) as [El Ed].
  { unfold flush_sent, flush_mark. destruct r; cbv zeta; case_ifs; by simp_upd. }
  set (t := flush_sent kcp wnd r s) in *.
  assert (seg_wf t) as Hwt by (unfold seg_wf in *; congruence).
  pose proof (Zlen_wire t Hwt) as Hz. rewrite El in Hz.
  unfold seg_wf in Hwf. pose proof (Zlen_nonneg (seg_data s)).
  assert (i32 (IKCP_OVERHEAD +w seg_len t) = Zlen (wire t)) as ->.
  { unfold IKCP_OVERHEAD. rewrite El, Hz, u32_small, i32_small; lia. }
  pose proof (packed_put _ _ _ t Hm ltac:(lia) Hw) as Hp. rewrite Ea.
  set (w0 := flush_room (mtu kcp) (Zlen (wire t)) (fa_w a)) in *.
  split; [|done]. set (w1 := if seg_len t >? 0 then _ else _).
  assert (w1 = w0 <| w_ptr := w_ptr w0 ++ wire t |>) as Ew.
  { unfold w1, flush_put, wire. rewrite ikcp_encode_seg_acc.
    destruct (Z.gtb_spec (seg_len t) 0).
    - simp_upd. by rewrite <- app_assoc.
    - replace (Z.to_nat (seg_len t)) with 0%nat by lia. by rewrite take_0, app_nil_r. }
  destruct (_ >=? _); simp_upd; by rewrite Ew.
Qed.

Lemma flush_data_spec kcp wnd q a segs :
  24 <= mtu kcp < 1073741824 ->
  Forall (fun s => seg_wf s /\ seg_len s + 24 <= mtu kcp) q ->
  packed (mtu kcp) (fa_w a) segs ->
  let '(q', a') := flush_data q kcp wnd a in
  packed (mtu kcp) (fa_w a') (segs ++ flush_data_segs kcp wnd q) /\
  q' = map (fun s => match flush_reason kcp s with
                     | Some r => flush_sent kcp wnd r s | None => s end) q.
Proof.
  intros Hm Hq. revert a segs. induction Hq as [|s q [Hwf Hlen] Hq IH]; intros a segs Hw.
  - cbn. by rewrite app_nil_r.
  - cbn [flush_data]. pose proof (flush_segment_spec kcp wnd s a segs Hm Hwf Hlen Hw) as Hs.
    destruct (flush_segment kcp wnd s a) as [s' a']. destruct Hs as [Hw' ->].
    specialize (IH a' _ Hw'). destruct (flush_data q kcp wnd a') as [q' a''].
    destruct IH as [Hw'' ->]. split; [|done].
    unfold flush_data_segs. cbn [map concat]. by rewrite app_assoc.
Qed.
