(* ===== verification/IkcpFlushSpec.v ===== *)
(** What [ikcp_flush], [ikcp_update] and [ikcp_check] guarantee: the packets a flush emits,
    the segments it admits to the send window, and the timers. *)
From S2P Require Import Prelude Bytes IkcpTypes IkcpSend IkcpInput IkcpFlush.

(** ** Admission to the send window *)

(** A queued segment as it enters [snd_buf] with sequence number [sn]. *)
Definition seg_moved (kcp : IKCPCB) (wnd sn : Z) (s : IKCPSEG) : IKCPSEG :=
  s <| seg_conv := conv kcp |> <| seg_cmd := IKCP_CMD_PUSH |> <| seg_wnd := wnd |>
    <| seg_ts := current kcp |> <| seg_sn := sn |> <| seg_una := rcv_nxt kcp |>
    <| seg_resendts := current kcp |> <| seg_rto := u32 (rx_rto kcp) |>
    <| seg_fastack := 0 |> <| seg_xmit := 0 |>.

Fixpoint segs_moved (kcp : IKCPCB) (wnd sn : Z) (q : list IKCPSEG) : list IKCPSEG :=
  match q with
  | [] => []
  | s :: q => seg_moved kcp wnd sn s :: segs_moved kcp wnd (u32 (sn + 1)) q
  end.

Lemma segs_moved_ext k k' wnd sn q :
  conv k' = conv k -> current k' = current k -> rcv_nxt k' = rcv_nxt k ->
  rx_rto k' = rx_rto k -> segs_moved k' wnd sn q = segs_moved k wnd sn q.
Proof.
  intros E1 E2 E3 E4. revert sn. induction q as [|s q IH]; intros sn; [done|].
  cbn [segs_moved]. unfold seg_moved. by rewrite IH, E1, E2, E3, E4.
Qed.

(** The control block after [n] segments have moved. *)
Definition snd_moved (kcp : IKCPCB) (wnd : Z) (n : nat) : IKCPCB :=
  kcp <| snd_queue := drop n (snd_queue kcp) |>
      <| snd_buf := snd_buf kcp ++ segs_moved kcp wnd (snd_nxt kcp) (take n (snd_queue kcp)) |>
      <| nsnd_que := u32 (nsnd_que kcp - Z.of_nat n) |>
      <| nsnd_buf := u32 (nsnd_buf kcp + Z.of_nat n) |>
      <| snd_nxt := u32 (snd_nxt kcp + Z.of_nat n) |>.

(** How many segments may move when [cw] is the window: what is free of it. *)
Definition move_count (kcp : IKCPCB) (cw : Z) : nat :=
  Z.to_nat (Z.min (Zlen (snd_queue kcp)) (cw - u32 (snd_nxt kcp - snd_una kcp))).

Definition snd_counts_ok (kcp : IKCPCB) : Prop :=
  0 <= nsnd_que kcp < 4294967296 /\ 0 <= nsnd_buf kcp < 4294967296 /\
  0 <= snd_nxt kcp < 4294967296 /\ 0 <= snd_una kcp < 4294967296.

Lemma snd_moved_0 kcp wnd : snd_counts_ok kcp -> snd_moved kcp wnd 0 = kcp.
Proof.
  intros (Hq & Hb & Hn & Hu). unfold snd_moved.
  rewrite take_0, drop_0, app_nil_r, Z.sub_0_r, !Z.add_0_r, !u32_small by lia. by destruct kcp.
Qed.

Lemma _itimediff_window kcp cw :
  0 <= cw < 2147483648 -> u32 (snd_nxt kcp - snd_una kcp) < 2147483648 ->
  _itimediff (snd_nxt kcp) (snd_una kcp +w cw) = u32 (snd_nxt kcp - snd_una kcp) - cw.
Proof.
  intros Hc Hd.
  assert (u32 ((snd_una kcp +w cw) - snd_una kcp) = cw) as E.
  { rewrite u32_sub_l. replace (_ - _) with cw by lia. apply u32_small. lia. }
  rewrite (_itimediff_off (snd_una kcp)), E; lia.
Qed.

(** The loop moves exactly as many segments as the window admits. *)
Lemma flush_move_spec kcp cw wnd :
  snd_counts_ok kcp -> 0 <= cw <= 65535 -> u32 (snd_nxt kcp - snd_una kcp) <= 65535 ->
  flush_move (snd_queue kcp) kcp cw wnd = snd_moved kcp wnd (move_count kcp cw).
Proof.
  remember (snd_queue kcp) as q eqn:Eq. revert kcp Eq.
  induction q as [|s q IH]; intros kcp Eq Hok Hc Hd; unfold move_count; rewrite <- Eq.
  - cbn [flush_move]. change (Zlen []) with 0.
    replace (Z.to_nat _) with 0%nat by lia. by rewrite snd_moved_0.
  - cbn [flush_move]. rewrite Zlen_cons. pose proof (Zlen_nonneg q).
    rewrite _itimediff_window by lia.
    destruct (Z.ltb_spec (u32 (snd_nxt kcp - snd_una kcp) - cw) 0); cycle 1.
    { replace (Z.to_nat _) with 0%nat by lia. by rewrite snd_moved_0. }
    destruct Hok as (Hq & Hb & Hn & Hu).
    match goal with |- flush_move q ?k _ _ = _ => set (k1 := k) end.
    assert (u32 (u32 (snd_nxt kcp + 1) - snd_una kcp) = u32 (snd_nxt kcp - snd_una kcp) + 1)
      as Ed.
    { rewrite u32_sub_l. replace (snd_nxt kcp + 1 - snd_una kcp)
        with (snd_nxt kcp - snd_una kcp + 1) by lia.
      pose proof (u32_range (snd_nxt kcp - snd_una kcp)).
      rewrite <- u32_add_l. apply u32_small. lia. }
    rewrite IH; try done; unfold k1; simp_upd; try lia.
    2: { unfold snd_counts_ok. simp_upd. auto using u32_range. }
    unfold move_count. simp_upd. rewrite Ed.
    replace (Z.to_nat (Z.min (1 + _) _))
      with (S (Z.to_nat (Z.min (Zlen q) (cw - (u32 (snd_nxt kcp - snd_una kcp) + 1)))))
      by lia.
    set (n := Z.to_nat _). unfold snd_moved. simp_upd. rewrite <- Eq. cbn [take drop segs_moved].
    rewrite <- app_assoc, !u32_add_l, u32_sub_l, <- !Z.add_assoc, <- Z.sub_add_distr.
    replace (1 + Z.of_nat n) with (Z.of_nat (S n)) by lia.
    rewrite (segs_moved_ext kcp) by (by simp_upd). reflexivity.
Qed.

(** ** Invariant of the sending side *)

(** A segment of the send buffer: its header is the one of a data segment of conversation [cv]. *)
Definition seg_sent (m cv : Z) (s : IKCPSEG) : Prop :=
  seg_fits m s /\ seg_conv s = cv /\ seg_cmd s = IKCP_CMD_PUSH.

Definition flush_ok (kcp : IKCPCB) : Prop :=
  50 <= mtu kcp < 1073741824 /\ mss kcp = mtu kcp - 24 /\
  Forall (seg_sent (mss kcp) (conv kcp)) (snd_buf kcp) /\ 0 <= cwnd kcp /\ 0 <= snd_wnd kcp /\
  10 <= interval kcp <= 5000.

Definition kcp_ok (kcp : IKCPCB) : Prop := kcp_inv kcp /\ flush_ok kcp.

Lemma kcp_inv_counts kcp : kcp_inv kcp -> snd_counts_ok kcp.
Proof.
  intros ((_ & Hq & _) & Hw & _). pose proof (snd_window_nsnd kcp Hw).
  unfold snd_window in Hw. unfold snd_counts_ok. rewrite Hq.
  pose proof (u32_range (Zlen (snd_queue kcp))). lia.
Qed.

(** The control block the admission loop starts from. *)
Definition flush_probed (kcp : IKCPCB) : IKCPCB :=
  (flush_probe_wnd (kcp <| ackcount := 0 |>)) <| probe := 0 |>.

Lemma flush_probe_wnd_shape kcp : exists a b c,
  flush_probe_wnd kcp = kcp <| ts_probe := a |> <| probe_wait := b |> <| probe := c |>.
Proof.
  unfold flush_probe_wnd. destruct (_ =? 0).
  - destruct (_ =? 0); [|destruct (_ >=? 0)].
    + exists (current kcp +w IKCP_PROBE_INIT), IKCP_PROBE_INIT, (probe kcp). by destruct kcp.
    + cbv zeta.
      match goal with |- context [(if ?b then kcp <| probe_wait := ?v |> else kcp)] =>
        assert (exists w, (if b then kcp <| probe_wait := v |> else kcp)
                          = kcp <| probe_wait := w |>) as [w1 ->]
          by (destruct b; [by eexists|exists (probe_wait kcp); by destruct kcp]) end.
      simp_upd. set (w2 := _ +w _ / 2).
      exists (current kcp +w (if w2 >? IKCP_PROBE_LIMIT then IKCP_PROBE_LIMIT else w2)),
        (if w2 >? IKCP_PROBE_LIMIT then IKCP_PROBE_LIMIT else w2),
        (Z.lor (probe kcp) IKCP_ASK_SEND).
      destruct (_ >? _); simp_upd; by destruct kcp.
    + exists (ts_probe kcp), (probe_wait kcp), (probe kcp). by destruct kcp.
  - exists 0, 0, (probe kcp). by destruct kcp.
Qed.

Lemma upd_probe_twice (kcp : IKCPCB) c v : kcp <| probe := c |> <| probe := v |> = kcp <| probe := v |>.
Proof. reflexivity. Qed.

Lemma flush_probed_shape kcp : exists a b,
  flush_probed kcp = kcp <| ackcount := 0 |> <| ts_probe := a |> <| probe_wait := b |>
                         <| probe := 0 |>.
Proof.
  unfold flush_probed. destruct (flush_probe_wnd_shape (kcp <| ackcount := 0 |>))
    as (a & b & c & ->). exists a, b. apply upd_probe_twice.
Qed.

Lemma flush_cwnd_bound kcp :
  0 <= rmt_wnd kcp <= 65535 -> 0 <= cwnd kcp -> 0 <= snd_wnd kcp ->
  0 <= flush_cwnd kcp <= rmt_wnd kcp /\ flush_cwnd kcp <= snd_wnd kcp.
Proof.
  intros Hr Hc Hs. unfold flush_cwnd. cbv zeta. rewrite !_imin__min. destruct (_ =? 0); lia.
Qed.

(** The window of segments in flight that a flush of [kcp] admits. *)
Definition flush_window (kcp : IKCPCB) : Z := flush_cwnd (flush_probed kcp).

(** What the admission needs of the sending side. *)
Definition admits (kcp : IKCPCB) : Prop :=
  snd_counts_ok kcp /\ u32 (snd_nxt kcp - snd_una kcp) <= 65535 /\ 0 <= rmt_wnd kcp <= 65535 /\
  0 <= cwnd kcp /\ 0 <= snd_wnd kcp.

Lemma kcp_ok_admits kcp : kcp_ok kcp -> admits kcp.
Proof.
  intros (Hi & Hf). pose proof (kcp_inv_counts kcp Hi) as Hc.
  destruct Hi as (_ & (_ & _ & Hd & _) & _ & _ & Hr & _). destruct Hf as (_ & _ & _ & Hw & Hs & _). done.
Qed.

Lemma flush_admits kcp :
  admits kcp ->
  flush_moved kcp =
    snd_moved (flush_probed kcp) (flush_wnd kcp) (move_count kcp (flush_window kcp)) /\
  0 <= flush_window kcp <= rmt_wnd kcp /\ flush_window kcp <= snd_wnd kcp.
Proof.
  intros (Hc & Hd & Hr & Hw & Hs). unfold flush_moved, flush_window. fold (flush_probed kcp).
  destruct (flush_probed_shape kcp) as (a & b & E).
  pose proof (flush_cwnd_bound (flush_probed kcp)) as Hb.
  assert (move_count kcp = move_count (flush_probed kcp)) as -> by (rewrite E; by simp_upd).
  rewrite flush_move_spec; rewrite ?E in *; revert Hb; simp_upd; intros Hb;
    specialize (Hb Hr Hw Hs); try done; lia.
Qed.

Lemma flush_moved_eq kcp :
  kcp_ok kcp ->
  flush_moved kcp =
    snd_moved (flush_probed kcp) (flush_wnd kcp) (move_count kcp (flush_window kcp)) /\
  0 <= flush_window kcp <= rmt_wnd kcp /\ flush_window kcp <= snd_wnd kcp.
Proof. intros Hok. by apply flush_admits, kcp_ok_admits. Qed.

(** Probing changes nothing the window depends on. *)
Lemma flush_window_eq kcp : flush_window kcp = flush_cwnd kcp.
Proof. unfold flush_window. destruct (flush_probed_shape kcp) as (a & b & ->). reflexivity. Qed.

(** ** The data loop *)

(** A segment of [snd_buf] after the loop has visited it. *)
Definition flush_visit (kcp : IKCPCB) (wnd : Z) (s : IKCPSEG) : IKCPSEG :=
  match flush_reason kcp s with Some r => flush_sent kcp wnd r s | None => s end.

Lemma flush_data_fst kcp wnd q a : fst (flush_data q kcp wnd a) = map (flush_visit kcp wnd) q.
Proof.
  revert a. induction q as [|s q IH]; intros a; [done|]. cbn [flush_data map].
  assert (fst (flush_segment kcp wnd s a) = flush_visit kcp wnd s) as E.
  { unfold flush_segment, flush_visit. by destruct (flush_reason kcp s). }
  destruct (flush_segment kcp wnd s a) as [s' a']. cbn [fst] in E. subst s'.
  specialize (IH a'). destruct (flush_data q kcp wnd a') as [q' a'']. cbn [fst] in *. congruence.
Qed.

(** The visit only touches the header's times, the window and the retransmission fields. *)
Lemma flush_visit_frame kcp wnd s :
  seg_sn (flush_visit kcp wnd s) = seg_sn s /\ seg_len (flush_visit kcp wnd s) = seg_len s /\
  seg_data (flush_visit kcp wnd s) = seg_data s /\ seg_frg (flush_visit kcp wnd s) = seg_frg s /\
  seg_conv (flush_visit kcp wnd s) = seg_conv s /\ seg_cmd (flush_visit kcp wnd s) = seg_cmd s.
Proof.
  unfold flush_visit, flush_sent, flush_mark. destruct (flush_reason kcp s) as [[]|]; cbv zeta;
    case_ifs; by simp_upd.
Qed.

Lemma flush_visit_sent kcp wnd m cv s : seg_sent m cv s -> seg_sent m cv (flush_visit kcp wnd s).
Proof.
  destruct (flush_visit_frame kcp wnd s) as (_ & El & Ed & Ef & Ec & Em).
  unfold seg_sent, seg_fits, seg_wf. by rewrite El, Ed, Ef, Ec, Em.
Qed.

Lemma flush_visit_sn kcp wnd q : map seg_sn (map (flush_visit kcp wnd) q) = map seg_sn q.
Proof. rewrite map_map. apply map_ext. intros s. apply flush_visit_frame. Qed.

(** The congestion update writes [ssthresh], [cwnd] and [incr] only. *)
Definition with_cc (kcp : IKCPCB) (ss cw inc : Z) : IKCPCB :=
  kcp <| ssthresh := ss |> <| cwnd := cw |> <| incr := inc |>.

Lemma with_cc_id kcp : with_cc kcp (ssthresh kcp) (cwnd kcp) (incr kcp) = kcp.
Proof. by destruct kcp. Qed.
Lemma with_cc_ssthresh kcp ss cw inc v : (with_cc kcp ss cw inc) <| ssthresh := v |> = with_cc kcp v cw inc.
Proof. reflexivity. Qed.
Lemma with_cc_cwnd kcp ss cw inc v : (with_cc kcp ss cw inc) <| cwnd := v |> = with_cc kcp ss v inc.
Proof. reflexivity. Qed.
Lemma with_cc_incr kcp ss cw inc v : (with_cc kcp ss cw inc) <| incr := v |> = with_cc kcp ss cw v.
Proof. reflexivity. Qed.
Create Rewrite HintDb with_cc.
#[export] Hint Rewrite with_cc_ssthresh with_cc_cwnd with_cc_incr : with_cc.

Lemma flush_ssthresh_shape kcp change lost cw resent : exists ss c inc,
  flush_ssthresh kcp change lost cw resent = with_cc kcp ss c inc /\ 1 <= c.
Proof.
  enough (forall ss c inc, exists ss' c' inc',
      flush_ssthresh (with_cc kcp ss c inc) change lost cw resent = with_cc kcp ss' c' inc' /\
      1 <= c') as H.
  { specialize (H (ssthresh kcp) (cwnd kcp) (incr kcp)). by rewrite with_cc_id in H. }
  intros ss c inc. unfold flush_ssthresh. cbv zeta.
  destruct (negb (change =? 0)), lost; autorewrite with with_cc;
    repeat match goal with
    | |- context [if ssthresh ?k <? ?m then _ else _] => destruct (ssthresh k <? m)
    end; autorewrite with with_cc;
    match goal with |- context [cwnd ?k <? 1] => destruct (Z.ltb_spec (cwnd k) 1) end;
    autorewrite with with_cc; eexists _, _, _; (split; [reflexivity|]); try lia; assumption.
Qed.

(** ** The whole flush *)

Lemma ikcp_flush_decompose kcp :
  50 <= mtu kcp < 1073741824 -> updated kcp <> 0 ->
  exists w, packed (mtu kcp) w (flush_control_segs kcp) /\
    let k := flush_moved kcp in
    let '(buf, a) :=
      flush_data (snd_buf k) k (flush_wnd kcp) (mkacc w (xmit k) (state k) 0 false) in
    exists ss cw inc, 1 <= cw /\
      ikcp_flush kcp =
        (with_cc (k <| snd_buf := buf |> <| xmit := fa_xmit a |> <| state := fa_state a |>)
           ss cw inc,
         w_out (ikcp_output (fa_w a))).
Proof.
  intros Hm Hu. unfold ikcp_flush. destruct (Z.eqb_spec (updated kcp) 0); [done|].
  destruct (flush_control_spec kcp) as (seg & w & -> & Hs & Hw); [lia|].
  exists w. split; [done|]. cbv zeta. rewrite Hs. fold (flush_probed kcp).
  unfold flush_moved. fold (flush_probed kcp).
  destruct (flush_data _ _ _ _) as [buf a].
  match goal with |- context [flush_ssthresh ?k ?c ?l ?w ?r] =>
    destruct (flush_ssthresh_shape k c l w r) as (ss & cw & inc & -> & Hcw) end.
  by exists ss, cw, inc.
Qed.

Lemma segs_moved_spec kcp wnd sn q :
  0 <= sn < 4294967296 -> Forall (seg_fits (mss kcp)) q ->
  Forall (seg_sent (mss kcp) (conv kcp)) (segs_moved kcp wnd sn q) /\
  consecutive sn (segs_moved kcp wnd sn q) /\
  Zlen (segs_moved kcp wnd sn q) = Zlen q /\
  seg_bytes (segs_moved kcp wnd sn q) = seg_bytes q /\
  map seg_frg (segs_moved kcp wnd sn q) = map seg_frg q.
Proof.
  intros Hsn Hq. revert sn Hsn. induction Hq as [|s q Hs Hq IH]; intros sn Hsn; [done|].
  destruct (IH (u32 (sn + 1)) (u32_range _)) as (H1 & H2 & H3 & H4 & H5).
  cbn [segs_moved consecutive map]. rewrite !Zlen_cons. split_and!.
  - constructor; [|done]. unfold seg_sent, seg_fits, seg_wf, seg_moved in *. by simp_upd.
  - unfold seg_moved. simp_upd. by rewrite u32_small.
  - by apply consecutive_u32.
  - lia.
  - unfold seg_bytes in *. cbn [map concat]. by rewrite H4.
  - by rewrite H5.
Qed.

Lemma seg_sent_flush m cv s : seg_sent (m - 24) cv s -> seg_wf s /\ seg_len s + 24 <= m.
Proof. intros [(H1 & H2 & _) _]. split; [done|lia]. Qed.

Lemma snd_moved_fields k wnd n :
  snd_buf (snd_moved k wnd n) = snd_buf k ++ segs_moved k wnd (snd_nxt k) (take n (snd_queue k)) /\
  snd_queue (snd_moved k wnd n) = drop n (snd_queue k) /\
  snd_nxt (snd_moved k wnd n) = u32 (snd_nxt k + Z.of_nat n) /\
  mtu (snd_moved k wnd n) = mtu k /\ mss (snd_moved k wnd n) = mss k /\
  conv (snd_moved k wnd n) = conv k.
Proof. split_and!; reflexivity. Qed.

Lemma flush_probed_fields kcp :
  snd_buf (flush_probed kcp) = snd_buf kcp /\ snd_queue (flush_probed kcp) = snd_queue kcp /\
  snd_nxt (flush_probed kcp) = snd_nxt kcp /\ mtu (flush_probed kcp) = mtu kcp /\
  mss (flush_probed kcp) = mss kcp /\ conv (flush_probed kcp) = conv kcp.
Proof. destruct (flush_probed_shape kcp) as (a & b & ->). by simp_upd. Qed.

(** The segments a flush admits. *)
Definition flush_admitted (kcp : IKCPCB) : list IKCPSEG :=
  segs_moved (flush_probed kcp) (flush_wnd kcp) (snd_nxt kcp)
    (take (move_count kcp (flush_window kcp)) (snd_queue kcp)).

Lemma flush_moved_buf kcp :
  kcp_ok kcp ->
  snd_buf (flush_moved kcp) = snd_buf kcp ++ flush_admitted kcp /\
  snd_queue (flush_moved kcp) = drop (move_count kcp (flush_window kcp)) (snd_queue kcp) /\
  snd_nxt (flush_moved kcp) = u32 (snd_nxt kcp + Z.of_nat (move_count kcp (flush_window kcp))) /\
  mtu (flush_moved kcp) = mtu kcp /\ mss (flush_moved kcp) = mss kcp /\
  conv (flush_moved kcp) = conv kcp.
Proof.
  intros Hok. destruct (flush_moved_eq kcp Hok) as [-> _]. unfold flush_admitted.
  generalize (move_count kcp (flush_window kcp)). intros n.
  destruct (snd_moved_fields (flush_probed kcp) (flush_wnd kcp) n) as (-> & -> & -> & -> & -> & ->).
  destruct (flush_probed_fields kcp) as (-> & -> & -> & -> & -> & ->). done.
Qed.

Lemma flush_admitted_spec kcp :
  kcp_ok kcp ->
  let q := take (move_count kcp (flush_window kcp)) (snd_queue kcp) in
  Forall (seg_sent (mss kcp) (conv kcp)) (flush_admitted kcp) /\
  consecutive (snd_nxt kcp) (flush_admitted kcp) /\
  Zlen (flush_admitted kcp) = Zlen q /\ seg_bytes (flush_admitted kcp) = seg_bytes q /\
  map seg_frg (flush_admitted kcp) = map seg_frg q.
Proof.
  intros ((Hs & Hw & _) & _). unfold flush_admitted.
  destruct (flush_probed_fields kcp) as (_ & _ & _ & _ & E & Ec). rewrite <- E, <- Ec.
  apply segs_moved_spec; [apply Hw|]. rewrite E. apply Forall_take, Hs.
Qed.

(** Every packet a flush hands to the output callback is a sequence of whole segments of at
    most [mtu] bytes, and together they are: one acknowledgement per pending entry, the window
    probes asked for, and the data segments that are new, timed out or due for a fast resend,
    in the order of the send buffer. *)
Theorem ikcp_flush_packets kcp :
  kcp_ok kcp -> updated kcp <> 0 ->
  exists gs, snd (ikcp_flush kcp) = map packet gs /\
    Forall (fun g => g <> [] /\ Zlen (packet g) <= mtu kcp) gs /\
    concat gs = flush_control_segs kcp
      ++ flush_data_segs (flush_moved kcp) (flush_wnd kcp) (snd_buf (flush_moved kcp)).
Proof.
  intros Hok Hu. pose proof Hok as (_ & Hm & Hmss & Hf & _).
  destruct (ikcp_flush_decompose kcp Hm Hu) as (w & Hw & Hfl). cbv zeta in Hfl.
  destruct (flush_moved_buf kcp Hok) as (Eb & _ & _ & Em & _).
  assert (Forall (fun s => seg_wf s /\ seg_len s + 24 <= mtu kcp) (snd_buf (flush_moved kcp)))
    as Hfits.
  { rewrite Eb. destruct (flush_admitted_spec kcp Hok) as (Hn & _).
    rewrite Hmss in *. apply Forall_app.
    split; (eapply Forall_impl; [eassumption|apply seg_sent_flush]). }
  set (a0 := mkacc _ _ _ _ _) in Hfl.
  assert (packed (mtu (flush_moved kcp)) (fa_w a0) (flush_control_segs kcp)) as Hw0 by (by rewrite Em).
  rewrite <- Em in Hfits, Hm.
  assert (24 <= mtu (flush_moved kcp) < 1073741824) as Hm' by lia.
  pose proof (flush_data_spec _ (flush_wnd kcp) _ a0 _ Hm' Hfits Hw0) as Hd.
  destruct (flush_data _ _ _ _) as [buf a]. destruct Hd as [Hd _].
  destruct Hfl as (ss & cw & inc & _ & ->).
  destruct (packed_output _ _ _ Hd) as (gs & E & Hc & Hg). rewrite Em in Hg.
  by exists gs.
Qed.

Lemma window_consecutive base d q :
  consecutive (base + d) q -> 0 <= d -> d + Zlen q < 4294967296 ->
  window base (d + Zlen q) q /\ Forall (fun s => d <= off base s) q.
Proof.
  revert d. induction q as [|s q IH]; intros d Hc Hd Hl; [split; [split|]; constructor|].
  destruct Hc as [Es Hc]. rewrite Zlen_cons in *. pose proof (Zlen_nonneg q).
  replace (base + d + 1) with (base + (d + 1)) in Hc by lia.
  destruct (IH (d + 1) Hc) as [Hw Hf]; [lia..|].
  assert (off base s = d) as Eo.
  { unfold off. rewrite Es, u32_sub_l. replace (base + d - base) with d by lia.
    apply u32_small. lia. }
  split.
  - rewrite window_cons, Eo. replace (d + (1 + Zlen q)) with (d + 1 + Zlen q) by lia.
    split_and!; [lia|rewrite Es; apply u32_range..| |done].
    eapply Forall_impl; [exact Hf|]. cbn. lia.
  - constructor; [lia|]. eapply Forall_impl; [exact Hf|]. cbn. lia.
Qed.

(** How far a flush advances [snd_nxt]: up to the window, never beyond what is queued. *)
Lemma move_count_spec kcp :
  kcp_ok kcp ->
  let n := Z.of_nat (move_count kcp (flush_window kcp)) in
  let d := u32 (snd_nxt kcp - snd_una kcp) in
  n <= Zlen (snd_queue kcp) /\ d + n <= Z.max d (flush_window kcp) /\
  u32 (u32 (snd_nxt kcp + n) - snd_una kcp) = d + n /\ d + n <= 65535.
Proof.
  intros Hok. cbv zeta. destruct (flush_moved_eq kcp Hok) as (_ & Hc & _).
  destruct Hok as ((_ & (_ & _ & Hd & _) & _ & _ & Hr & _) & _).
  unfold move_count. set (cw := flush_window kcp) in *. clearbody cw.
  pose proof (u32_range (snd_nxt kcp - snd_una kcp)). pose proof (Zlen_nonneg (snd_queue kcp)).
  set (d := u32 (snd_nxt kcp - snd_una kcp)) in *.
  split_and!; [lia|lia| |lia].
  rewrite u32_sub_l, Z.add_sub_swap, <- u32_add_l. fold d.
  rewrite u32_small; lia.
Qed.

(** The send window after the admission. *)
Lemma flush_window_inv kcp :
  kcp_ok kcp ->
  window (snd_una kcp) (u32 (snd_nxt (flush_moved kcp) - snd_una kcp)) (snd_buf (flush_moved kcp)).
Proof.
  intros Hok. destruct (flush_moved_buf kcp Hok) as (-> & _ & -> & _).
  destruct (move_count_spec kcp Hok) as (Hn & _ & -> & Hle).
  destruct (flush_admitted_spec kcp Hok) as (_ & Hc & Hl & _).
  pose proof Hok as ((_ & (Hu & Hx & Hd & Hw & _) & _) & _).
  pose proof (u32_range (snd_nxt kcp - snd_una kcp)).
  set (d := u32 (snd_nxt kcp - snd_una kcp)) in *. set (n := move_count _ _) in *.
  assert (Zlen (take n (snd_queue kcp)) = Z.of_nat n) as El.
  { unfold Zlen in *. rewrite length_take. lia. }
  destruct (window_consecutive (snd_una kcp) d (flush_admitted kcp)) as [Hwn Hfn]; [|lia|lia|].
  { apply consecutive_u32. replace (u32 (snd_una kcp + d)) with (snd_nxt kcp); [done|].
    unfold d. rewrite u32_add_r.
    replace (snd_una kcp + (snd_nxt kcp - snd_una kcp)) with (snd_nxt kcp) by lia.
    by rewrite u32_small. }
  rewrite Hl, El in Hwn. apply window_app. split_and!.
  - eapply window_weaken; [|exact Hw]. lia.
  - exact Hwn.
  - intros a b Ha Hb. destruct Hw as [_ Hw].
    rewrite Forall_forall in Hw, Hfn. specialize (Hw a Ha). specialize (Hfn b Hb). lia.
Qed.

(** The control block after a flush, up to the congestion state. *)
Lemma ikcp_flush_shape kcp :
  kcp_ok kcp -> updated kcp <> 0 ->
  exists x st ss cw inc, 1 <= cw /\
    fst (ikcp_flush kcp) =
      with_cc ((flush_moved kcp)
        <| snd_buf := map (flush_visit (flush_moved kcp) (flush_wnd kcp))
                        (snd_buf kcp ++ flush_admitted kcp) |>
        <| xmit := x |> <| state := st |>) ss cw inc.
Proof.
  intros Hok Hu. pose proof Hok as (_ & Hm & _).
  destruct (ikcp_flush_decompose kcp Hm Hu) as (w & _ & Hfl). cbv zeta in Hfl.
  pose proof (flush_data_fst (flush_moved kcp) (flush_wnd kcp) (snd_buf (flush_moved kcp))
    (mkacc w (xmit (flush_moved kcp)) (state (flush_moved kcp)) 0 false)) as Eb.
  destruct (flush_data _ _ _ _) as [buf a]. cbn [fst] in Eb. subst buf.
  destruct Hfl as (ss & cw & inc & Hcw & ->). cbn [fst].
  destruct (flush_moved_buf kcp Hok) as [-> _].
  exists (fa_xmit a), (fa_state a), ss, cw, inc. done.
Qed.

(** What the flush leaves alone. *)
Lemma flush_moved_frame kcp :
  kcp_ok kcp ->
  rcv_window (flush_moved kcp) = rcv_window kcp /\ rmt_wnd (flush_moved kcp) = rmt_wnd kcp /\
  rx_minrto (flush_moved kcp) = rx_minrto kcp /\ rx_rto (flush_moved kcp) = rx_rto kcp /\
  snd_una (flush_moved kcp) = snd_una kcp /\ snd_wnd (flush_moved kcp) = snd_wnd kcp /\
  cwnd (flush_moved kcp) = cwnd kcp /\ interval (flush_moved kcp) = interval kcp /\
  nsnd_que (flush_moved kcp) = u32 (nsnd_que kcp - Z.of_nat (move_count kcp (flush_window kcp))) /\
  nsnd_buf (flush_moved kcp) = u32 (nsnd_buf kcp + Z.of_nat (move_count kcp (flush_window kcp))).
Proof.
  intros Hok. destruct (flush_moved_eq kcp Hok) as [-> _].
  generalize (move_count kcp (flush_window kcp)), (flush_wnd kcp). intros n wnd.
  destruct (flush_probed_shape kcp) as (a & b & ->).
  split_and!; reflexivity.
Qed.

Lemma flush_moved_ok kcp : kcp_ok kcp -> kcp_ok (flush_moved kcp).
Proof.
  intros Hok. pose proof (flush_window_inv kcp Hok) as Hwin.
  destruct (move_count_spec kcp Hok) as (Hn & _ & Hd & Hle).
  destruct (flush_admitted_spec kcp Hok) as (Hfit & Hc & Hl & _).
  destruct (flush_moved_frame kcp Hok) as (Er & Erw & Emr & Ert & Eu & Esw & Ecw & Ei & Eq & Eb).
  destruct (flush_moved_buf kcp Hok) as (Esb & Esq & Enx & Em & Ems & Ecv).
  destruct Hok as (((Hms & Hnq & Hsq) & Hsw & Hh & Hrest) & Hf).
  pose proof (snd_window_nsnd kcp Hsw) as Hnn. destruct Hsw as (Hu0 & Hn0 & Hd0 & _ & Hnb).
  set (n := move_count _ _) in *. set (fk := flush_moved kcp) in *. clearbody fk.
  pose proof (u32_range (snd_nxt kcp - snd_una kcp)).
  assert (Zlen (take n (snd_queue kcp)) = Z.of_nat n) as El.
  { unfold Zlen in *. rewrite length_take. lia. }
  apply window_length in Hwin as Hlen; [|apply u32_range].
  rewrite Esb, Zlen_app, Hl, El, Enx, Hd in Hlen.
  split; [split; [|split; [|split]]|].
  - unfold send_ok. rewrite Ems, Eq, Esq, Hnq, u32_sub_l. split; [done|split].
    + f_equal. unfold Zlen in *. rewrite length_drop. lia.
    + by apply Forall_drop.
  - unfold snd_window. rewrite Eu, Eb, Esb, Zlen_app, Hl, El, Hnb.
    rewrite Esb in Hwin. rewrite Enx in *.
    split; [done|split; [apply u32_range|split; [lia|split; [done|]]]]. apply u32_small. lia.
  - unfold una_is_head in *. rewrite Esb, Eu, Enx. destruct (snd_buf kcp); [|done].
    cbn [app]. rewrite Hh. destruct (flush_admitted kcp) as [|s q].
    + change (Zlen []) with 0 in Hl. replace (Z.of_nat n) with 0 by lia.
      rewrite Z.add_0_r, u32_small; [done|exact Hn0].
    + destruct Hc as [-> _]. rewrite u32_small; [done|exact Hn0].
  - rewrite Er, Erw, Emr, Ert. exact Hrest.
  - unfold flush_ok in *. rewrite Em, Ems, Esb, Esw, Ecw, Ei, Ecv. rewrite Forall_app. tauto.
Qed.

Lemma kcp_ok_cc k x st ss cw inc :
  kcp_ok k -> 0 <= cw -> kcp_ok (with_cc (k <| xmit := x |> <| state := st |>) ss cw inc).
Proof.
  unfold kcp_ok, kcp_inv, flush_ok. intros [Hi (Hm & Hs & Hf & _ & Hw)] Hcw.
  unfold with_cc. simp_upd. done.
Qed.

Lemma kcp_ok_visit k k' wnd :
  kcp_ok k -> kcp_ok (k <| snd_buf := map (flush_visit k' wnd) (snd_buf k) |>).
Proof.
  unfold kcp_ok, kcp_inv, flush_ok. intros [(Hsnd & Hwin & Hh & Hrest) (Hm & Hs & Hf & Hw)].
  destruct (snd_window_map_sn k (map (flush_visit k' wnd) (snd_buf k)))
    as [Hwin' Hh']; [apply flush_visit_sn|done|].
  simp_upd. split; [done|]. split; [done|split; [done|split; [|done]]].
  apply Forall_map. eapply Forall_impl; [exact Hf|]. intros s. apply flush_visit_sent.
Qed.

(** A flush keeps the invariant. *)
Lemma ikcp_flush_ok kcp : kcp_ok kcp -> kcp_ok (fst (ikcp_flush kcp)).
Proof.
  intros Hok. destruct (decide (updated kcp = 0)) as [E|Hu].
  { unfold ikcp_flush. by rewrite E. }
  destruct (ikcp_flush_shape kcp Hok Hu) as (x & st & ss & cw & inc & Hcw & ->).
  destruct (flush_moved_buf kcp Hok) as [<- _].
  apply kcp_ok_cc; [|lia]. apply kcp_ok_visit, flush_moved_ok, Hok.
Qed.

(** ** Segments too long for a packet

    A packet is sent before a segment that does not fit is put, never instead of it: a segment
    longer than a packet goes out as it is. *)
Definition oversize (n : Z) (w : writer) : Prop :=
  n < Zlen (w_ptr w) \/ Exists (fun p => n < Zlen p) (w_out w).

Lemma oversize_output n w : 0 <= n -> oversize n w -> Exists (fun p => n < Zlen p) (w_out (ikcp_output w)).
Proof.
  intros Hn H. unfold ikcp_output. destruct (Z.eqb_spec (Zlen (w_ptr w)) 0) as [E|_].
  - destruct H as [H|H]; [lia|done].
  - simp_upd. apply Exists_app. destruct H as [H|H]; [right; by left|by left].
Qed.

Lemma oversize_room n m need w : 0 <= n -> oversize n w -> oversize n (flush_room m need w).
Proof.
  intros Hn H. unfold flush_room. destruct (_ >? _); [|done]. right. by apply oversize_output.
Qed.

Lemma Zlen_put seg w : Zlen (w_ptr (flush_put seg w)) = Zlen (w_ptr w) + 24.
Proof.
  unfold flush_put. simp_upd. rewrite ikcp_encode_seg_acc, Zlen_app, length_ikcp_encode_seg. lia.
Qed.

Lemma oversize_send n kcp wnd s a :
  0 <= n -> seg_wf s -> oversize n (fa_w a) \/ n < 24 + seg_len s ->
  oversize n (fa_w (snd (flush_send kcp wnd s a))).
Proof.
  intros Hn Hwf H. unfold flush_send. cbn [snd]. unfold seg_wf in Hwf.
  match goal with |- context [flush_put ?s1 (flush_room ?m ?nd ?w)] =>
    assert (oversize n (flush_room m nd w) \/ n < 24 + seg_len s) as H1
      by (destruct H; [left; by apply oversize_room|by right]);
    pose proof (Zlen_put s1 (flush_room m nd w)) as Hp; revert Hp H1; generalize (flush_room m nd w);
    intros w1 Hp H1; pose proof (Zlen_nonneg (w_ptr w1)) as H0;
    assert (w_out (flush_put s1 w1) = w_out w1) as Eo by done;
    revert Hp Eo; generalize (flush_put s1 w1) end.
  intros w2 Hp Eo. simp_upd. pose proof (Zlen_nonneg (seg_data s)).
  assert (oversize n (if seg_len s >? 0
    then w2 <| w_ptr := w_ptr w2 ++ take (Z.to_nat (seg_len s)) (seg_data s) |> else w2)) as Hw.
  { unfold oversize. destruct (Z.gtb_spec (seg_len s) 0); simp_upd; rewrite Eo.
    - rewrite Zlen_app, take_ge by (unfold Zlen in *; lia).
      destruct H1 as [[H1|H1]|H1]; [left; lia|by right|left; lia].
    - destruct H1 as [[H1|H1]|H1]; [left; lia|by right|left; lia]. }
  by destruct (_ >=? _).
Qed.

Lemma flush_mark_wf kcp r s : seg_wf s -> seg_wf (flush_mark kcp r s) /\ seg_len (flush_mark kcp r s) = seg_len s.
Proof. unfold seg_wf, flush_mark. cbv zeta. destruct r; case_ifs; by simp_upd. Qed.

Lemma oversize_segment n kcp wnd s a :
  0 <= n -> seg_wf s -> oversize n (fa_w a) \/ (flush_reason kcp s <> None /\ n < 24 + seg_len s) ->
  oversize n (fa_w (snd (flush_segment kcp wnd s a))).
Proof.
  intros Hn Hwf H. unfold flush_segment. destruct (flush_reason kcp s) as [r|].
  - destruct (flush_mark_wf kcp r s Hwf) as [Hw El]. apply oversize_send; [done|done|]. rewrite El.
    destruct H as [H|[_ H]]; [left; by destruct r|by right].
  - by destruct H as [|[? _]].
Qed.

Lemma oversize_data n kcp wnd q a :
  0 <= n -> Forall seg_wf q ->
  oversize n (fa_w a) \/ Exists (fun s => flush_reason kcp s <> None /\ n < 24 + seg_len s) q ->
  oversize n (fa_w (snd (flush_data q kcp wnd a))).
Proof.
  intros Hn Hq. revert a. induction Hq as [|s q Hs Hq IH]; intros a H.
  { destruct H as [|H]; [done|by inversion H]. }
  cbn [flush_data]. pose proof (oversize_segment n kcp wnd s a Hn Hs) as Hone.
  destruct (flush_segment kcp wnd s a) as [s' a']. cbn [snd] in Hone. specialize (IH a').
  destruct (flush_data q kcp wnd a') as [q' a'']. cbn [snd] in *. apply IH.
  destruct H as [H|[H|H]%Exists_cons]; [left; auto..|by right].
Qed.

Lemma segs_moved_wf kcp wnd sn q : Forall seg_wf q -> Forall seg_wf (segs_moved kcp wnd sn q).
Proof.
  intros Hq. revert sn. induction Hq as [|s q Hs _ IH]; intros sn; cbn [segs_moved]; constructor; [exact Hs|done].
Qed.

(** The first queued segment goes out with a flush that has room for it in the window. *)
Lemma flush_long_segment kcp s q n :
  admits kcp -> 50 <= mtu kcp < 1073741824 -> updated kcp <> 0 ->
  Forall seg_wf (snd_buf kcp) -> Forall seg_wf (snd_queue kcp) -> snd_queue kcp = s :: q ->
  u32 (snd_nxt kcp - snd_una kcp) < flush_cwnd kcp -> 0 <= n < 24 + seg_len s ->
  exists p, p ∈ snd (ikcp_flush kcp) /\ n < Zlen p.
Proof.
  intros Ha Hm Hu Hb Hq Eq Hroom Hn.
  destruct (ikcp_flush_decompose kcp Hm Hu) as (w & _ & Hfl). cbv zeta in Hfl.
  destruct (flush_admits kcp Ha) as [Emv _]. rewrite flush_window_eq in Emv.
  destruct (snd_moved_fields (flush_probed kcp) (flush_wnd kcp) (move_count kcp (flush_cwnd kcp))) as (Eb & _).
  destruct (flush_probed_fields kcp) as (Eb1 & Eq1 & _ & _ & _ & _).
  rewrite <- Emv, Eb1, Eq1 in Eb.
  assert (exists j, move_count kcp (flush_cwnd kcp) = Datatypes.S j) as [j Ej].
  { unfold move_count. rewrite Eq, Zlen_cons. pose proof (Zlen_nonneg q).
    exists (Z.to_nat (Z.min (1 + Zlen q) (flush_cwnd kcp - u32 (snd_nxt kcp - snd_una kcp)) - 1)). lia. }
  pose proof (oversize_data n (flush_moved kcp) (flush_wnd kcp) (snd_buf (flush_moved kcp))
    (mkacc w (xmit (flush_moved kcp)) (state (flush_moved kcp)) 0 false) (proj1 Hn)) as Hover.
  destruct (flush_data _ _ _ _) as [buf a]. destruct Hfl as (ss & cw & inc & _ & ->). cbn [snd] in *.
  apply Exists_exists, oversize_output; [lia|]. apply Hover; rewrite Eb, Ej.
  - apply Forall_app. split; [done|]. by apply segs_moved_wf, Forall_take.
  - right. apply Exists_app. right. rewrite Eq. cbn [take segs_moved]. left. split; [done|]. apply Hn.
Qed.
