(* ===== verification/IkcpTimer.v ===== *)
(** [ikcp_update] against [ikcp_check], and the option setters. *)
From S2P Require Import Prelude Bytes IkcpTypes IkcpSend IkcpInput IkcpFlush IkcpFlushSpec.

(** ** [ikcp_check] *)

Lemma ikcp_check_loop_spec q now tm r :
  ikcp_check_loop q now tm = Some r ->
  r <= tm /\ Forall (fun s => r <= _itimediff (seg_resendts s) now) q /\
  (0 < tm -> 0 < r).
Proof.
  revert tm. induction q as [|s q IH]; intros tm; cbn [ikcp_check_loop].
  - intros [= ->]. split_and!; [lia|constructor|done].
  - destruct (Z.leb_spec (_itimediff (seg_resendts s) now) 0); [done|].
    intros (H1 & H2 & H3)%IH. destruct (Z.ltb_spec (_itimediff (seg_resendts s) now) tm).
    + split_and!; [lia|constructor; [lia|done]|lia].
    + split_and!; [lia|constructor; [lia|done]|lia].
Qed.

(** The interval between [now] and the time [ikcp_check] returns. *)
Definition check_wait (kcp : IKCPCB) (now : Z) : Z := u32 (ikcp_check kcp now - now).

(** Advancing the clock by less than a positive difference keeps it positive. *)
Lemma _itimediff_advance t now e :
  0 <= e < _itimediff t now -> _itimediff (now +w e) t = e - _itimediff t now.
Proof.
  intros He. unfold _itimediff in *.
  pose proof (i32_range (t -w now)).
  assert (t -w now = i32 (t -w now)) as E.
  { unfold i32 in *. u32_lia. }
  assert (u32 ((now +w e) - t) = u32 (e - i32 (t -w now))) as ->.
  { rewrite <- E, u32_sub_l, u32_sub_r. f_equal. lia. }
  rewrite i32_u32, i32_small; lia.
Qed.

Definition timer_ok (kcp : IKCPCB) : Prop := 0 <= interval kcp <= 5000.

Lemma _itimediff_antisym a b :
  -2147483648 < _itimediff a b -> _itimediff b a = - _itimediff a b.
Proof. unfold _itimediff. words. Qed.

(** When [ikcp_check] finds nothing due, the wait is bounded by the interval, by the time to the
    next flush and by every retransmission timer. *)
Lemma ikcp_check_wait kcp now :
  timer_ok kcp -> 0 < check_wait kcp now ->
  updated kcp <> 0 /\ check_wait kcp now <= interval kcp /\
  check_wait kcp now <= _itimediff (ts_flush kcp) now <= 10000 /\
  Forall (fun s => check_wait kcp now <= _itimediff (seg_resendts s) now) (snd_buf kcp).
Proof.
  intros Ht. unfold check_wait, ikcp_check.
  assert (u32 (now - now) = 0) as Ez by (by rewrite Z.sub_diag).
  destruct (Z.eqb_spec (updated kcp) 0); [lia|].
  destruct (_ || _) eqn:Eb.
  { rewrite _itimediff_same. cbn. lia. }
  destruct (Z.geb_spec (_itimediff now (ts_flush kcp)) 0) as [|Hneg]; [lia|].
  assert (-10000 <= _itimediff now (ts_flush kcp)) as Hlow by lia. clear Eb.
  pose proof (_itimediff_antisym now (ts_flush kcp) ltac:(lia)) as Ea.
  destruct (ikcp_check_loop _ _ _) as [tm|] eqn:El; [|lia].
  apply ikcp_check_loop_spec in El as (Htm & Hf & Hpos). specialize (Hpos ltac:(lia)).
  set (m := if _ <? _ then _ else _).
  assert (m = Z.min tm (_itimediff (ts_flush kcp) now)) as ->.
  { unfold m. destruct (Z.ltb_spec tm (_itimediff (ts_flush kcp) now)); lia. }
  rewrite (u32_small (Z.min _ _)) by lia. set (m := if _ >=? _ then _ else _).
  assert (m = Z.min (interval kcp) (Z.min tm (_itimediff (ts_flush kcp) now))) as Em.
  { unfold m. destruct (Z.geb_spec (Z.min tm (_itimediff (ts_flush kcp) now)) (interval kcp)); lia. }
  rewrite u32_sub_l. replace (now + m - now) with m by lia. unfold timer_ok in Ht.
  rewrite u32_small by lia. intros Hm. split_and!; try lia; try done.
  eapply Forall_impl; [exact Hf|]. cbn. lia.
Qed.

(** The time [ikcp_check] gives is at most one interval away; at any moment before it,
    [ikcp_update] sends nothing and changes nothing but the clock, and no retransmission timer of
    the send buffer has expired. *)
Theorem ikcp_check_idle kcp now e :
  timer_ok kcp -> 0 <= e < check_wait kcp now ->
  check_wait kcp now <= interval kcp /\
  ikcp_update kcp (now +w e) = (kcp <| current := now +w e |>, []) /\
  Forall (fun s => _itimediff (now +w e) (seg_resendts s) < 0) (snd_buf kcp).
Proof.
  intros Ht He. destruct (ikcp_check_wait kcp now Ht) as (Hu & Hi & [Hw Hmax] & Hf); [lia|].
  split; [done|]. split.
  - unfold ikcp_update. simp_upd. destruct (Z.eqb_spec (updated kcp) 0); [done|].
    simp_upd. rewrite _itimediff_advance by lia.
    destruct (_ || _) eqn:Eb; [lia|].
    destruct (Z.geb_spec (e - _itimediff (ts_flush kcp) now) 0); [lia|done].
  - eapply Forall_impl; [exact Hf|]. cbn. intros s Hs. rewrite _itimediff_advance; lia.
Qed.

(** ** A retransmission that is due before the next flush

    [ikcp_check] returns the current time as soon as a segment is due, but [ikcp_update] sends
    only when [ts_flush] is reached. *)
Lemma ikcp_check_loop_due q now tm :
  Exists (fun s => _itimediff (seg_resendts s) now <= 0) q -> ikcp_check_loop q now tm = None.
Proof.
  intros H. revert tm. induction H as [s q Hs|s q _ IH]; intros tm; cbn [ikcp_check_loop].
  - by destruct (Z.leb_spec (_itimediff (seg_resendts s) now) 0); [|lia].
  - destruct (_ <=? 0); [done|]. apply IH.
Qed.

Lemma ikcp_check_overdue kcp now :
  updated kcp <> 0 -> -10000 <= _itimediff now (ts_flush kcp) < 0 ->
  Exists (fun s => _itimediff (seg_resendts s) now <= 0) (snd_buf kcp) ->
  ikcp_check kcp now = now /\ ikcp_update kcp now = (kcp <| current := now |>, []).
Proof.
  intros Hu Ht Hs. unfold ikcp_check, ikcp_update. simp_upd.
  destruct (Z.eqb_spec (updated kcp) 0); [done|]. simp_upd.
  destruct (_ || _) eqn:Eb; [lia|].
  destruct (Z.geb_spec (_itimediff now (ts_flush kcp)) 0); [lia|].
  by rewrite ikcp_check_loop_due.
Qed.
