(* ===== verification/IkcpInv.v ===== *)
(** The invariant of the control block: every operation of the protocol core keeps [kcp_ok],
    so it holds in every state a program can reach through the API. *)
From stdpp Require Import relations.
From S2P Require Import Prelude Bytes IkcpTypes IkcpSend IkcpInput IkcpFlush IkcpFlushSpec.

(** ** The sending side seen from [ikcp_input]

    Receiving a packet never changes the limits of the sending side and never adds a segment
    to the send buffer. *)
Definition snd_frame (k k' : IKCPCB) : Prop :=
  mtu k' = mtu k /\ mss k' = mss k /\ snd_wnd k' = snd_wnd k /\ cwnd k' = cwnd k /\
  snd_queue k' = snd_queue k /\ interval k' = interval k /\ conv k' = conv k /\
  snd_nxt k' = snd_nxt k /\ stream k' = stream k /\
  forall P : IKCPSEG -> Prop,
    (forall s n, P s -> P (s <| seg_fastack := n |>)) ->
    Forall P (snd_buf k) -> Forall P (snd_buf k').

#[export] Instance snd_frame_preorder : PreOrder snd_frame.
Proof.
  split.
  - intros k. by split_and!.
  - intros k1 k2 k3 (E1 & E2 & E3 & E4 & E5 & E6 & E7 & E8 & E9 & H1)
      (F1 & F2 & F3 & F4 & F5 & F6 & F7 & F8 & F9 & H2).
    split_and!; [congruence..|]. intros P HP H. by apply H2, H1.
Qed.

Lemma snd_frame_update_ack k rtt : snd_frame k (ikcp_update_ack k rtt).
Proof.
  destruct (ikcp_update_ack_shape k rtt) as (a & b & c & ->).
  unfold snd_frame. simp_upd. by split_and!.
Qed.

Lemma snd_frame_shrink k : snd_frame k (ikcp_shrink_buf k).
Proof.
  rewrite ikcp_shrink_buf_shape. unfold snd_frame. simp_upd.
  by split_and!.
Qed.

Lemma snd_frame_parse_una k una : snd_frame k (ikcp_parse_una k una).
Proof.
  unfold ikcp_parse_una. remember (snd_buf k) as q eqn:Eq. revert k Eq.
  induction q as [|s q IH]; intros k Eq; cbn [ikcp_parse_una_loop]; [done|].
  destruct (_ >? 0); [|done].
  etransitivity; [|apply IH; by simp_upd]. unfold snd_frame. simp_upd.
  split_and!; try done. intros P _. rewrite <- Eq. by intros [_ H]%Forall_cons.
Qed.

Lemma snd_frame_parse_ack k sn : snd_frame k (ikcp_parse_ack k sn).
Proof.
  unfold ikcp_parse_ack. destruct (_ || _); [done|].
  destruct (ikcp_parse_ack_loop (snd_buf k) sn) as [q|] eqn:E; [|done].
  apply ikcp_parse_ack_loop_sub in E as (l & s & r & E & -> & _).
  unfold snd_frame. simp_upd. split_and!; try done. intros P _. rewrite E, !Forall_app.
  by intros [H1 [_ H2]%Forall_cons].
Qed.

Lemma snd_frame_fastack k sn ts : snd_frame k (ikcp_parse_fastack k sn ts).
Proof.
  unfold ikcp_parse_fastack. destruct (_ || _); [done|].
  unfold snd_frame. simp_upd. split_and!; try done. intros P HP.
  induction 1 as [|s q Hs Hq IH]; cbn [ikcp_parse_fastack_loop]; [done|].
  destruct (_ <? 0); [by constructor|]. constructor; [|done].
  destruct (negb _); [by apply HP|done].
Qed.

Lemma snd_frame_ack_push k sn ts : snd_frame k (ikcp_ack_push k sn ts).
Proof.
  unfold ikcp_ack_push. unfold snd_frame. destruct (_ >? _); simp_upd;
    by split_and!.
Qed.

Lemma snd_frame_move_rcv q k : snd_frame k (ikcp_move_rcv q k).
Proof.
  revert k. induction q as [|s q IH]; intros k; [done|]. cbn [ikcp_move_rcv].
  destruct (_ && _); [|done]. etransitivity; [|apply IH].
  unfold snd_frame. simp_upd. by split_and!.
Qed.

Lemma snd_frame_parse_data k new : snd_frame k (ikcp_parse_data k new).
Proof.
  unfold ikcp_parse_data. destruct (_ || _); [done|].
  etransitivity; [|apply snd_frame_move_rcv].
  destruct (ikcp_parse_data_insert _ _); [|done].
  unfold snd_frame. simp_upd. by split_and!.
Qed.

Lemma snd_frame_input_segment k l h data : snd_frame k (fst (ikcp_input_segment k l h data)).
Proof.
  unfold ikcp_input_segment, ikcp_input_ack, ikcp_input_push.
  set (k0 := k <| rmt_wnd := h_wnd h |>).
  assert (snd_frame k k0) as H0 by (unfold snd_frame, k0; simp_upd; by split_and!).
  assert (snd_frame k (ikcp_shrink_buf (ikcp_parse_una k0 (h_una h)))) as H1.
  { etransitivity; [exact H0|]. etransitivity; [apply snd_frame_parse_una|apply snd_frame_shrink]. }
  revert H1. generalize (ikcp_shrink_buf (ikcp_parse_una k0 (h_una h))). intros k1 H1.
  etransitivity; [exact H1|]. clear.
  destruct (_ =? _); cbn [fst].
  { etransitivity; [|apply snd_frame_shrink]. etransitivity; [|apply snd_frame_parse_ack].
    destruct (_ >=? 0); [apply snd_frame_update_ack|done]. }
  destruct (_ =? _); cbn [fst].
  { destruct (_ <? 0); [|done]. destruct (_ >=? 0); [|apply snd_frame_ack_push].
    etransitivity; [apply snd_frame_ack_push|apply snd_frame_parse_data]. }
  destruct (_ =? _); cbn [fst]; [|done]. unfold snd_frame. simp_upd. by split_and!.
Qed.

Lemma snd_frame_input_loop fuel k l data : snd_frame k (snd (ikcp_input_loop fuel k l data)).
Proof.
  revert k l data. induction fuel as [|fuel IH]; intros k l data; [done|].
  cbn [ikcp_input_loop]. destruct (_ <? _); [done|].
  destruct (ikcp_decode_header data) as [rest h].
  destruct (negb _); [done|]. destruct (_ || _); [done|]. destruct (_ && _); [done|].
  pose proof (snd_frame_input_segment k l h rest) as Hs.
  destruct (ikcp_input_segment k l h rest) as [k' l']. cbn [fst] in Hs.
  etransitivity; [exact Hs|apply IH].
Qed.

(** The congestion update of [ikcp_input] writes [cwnd] and [incr] only, and keeps [cwnd]
    nonnegative. *)
Definition cwnd_frame (k k' : IKCPCB) : Prop :=
  exists c i, k' = k <| cwnd := c |> <| incr := i |> /\ (0 <= cwnd k -> 0 <= rmt_wnd k -> 0 <= c).

Lemma cwnd_frame_incr k k' i : cwnd_frame k k' -> cwnd_frame k (k' <| incr := i |>).
Proof. intros (c & i' & -> & Hc). by exists c, i. Qed.

Lemma cwnd_frame_cwnd k k' c :
  cwnd_frame k k' -> (0 <= rmt_wnd k -> 0 <= c) -> cwnd_frame k (k' <| cwnd := c |>).
Proof. intros (c' & i & -> & _) Hc. exists c, i. split; [done|auto]. Qed.

Lemma ikcp_input_cwnd_frame k : cwnd_frame k (ikcp_input_cwnd k).
Proof.
  assert (cwnd_frame k k) as H0 by (exists (cwnd k), (incr k); by destruct k).
  unfold ikcp_input_cwnd. cbv zeta. destruct (_ <? _); [|done].
  match goal with |- cwnd_frame k (if _ then ?x <| cwnd := _ |> <| incr := _ |> else _) =>
    assert (cwnd_frame k x) as H1 end.
  { destruct (_ <? ssthresh k).
    - apply cwnd_frame_incr, cwnd_frame_cwnd; [done|intros _; apply u32_range].
    - match goal with |- cwnd_frame k (if _ then ?x <| cwnd := _ |> else _) =>
        assert (cwnd_frame k x) as H1 by
          (apply cwnd_frame_incr; destruct (_ <? _); [by apply cwnd_frame_incr|done]) end.
      destruct (_ <=? _); [|done]. apply cwnd_frame_cwnd; [done|]. intros _.
      apply Z.div_pos; [apply u32_range|]. destruct (Z.gtb_spec (mss k) 0); lia. }
  match goal with |- cwnd_frame k (if _ then ?x <| cwnd := _ |> <| incr := _ |> else _) =>
    revert H1; generalize x; intros k1 H1 end.
  destruct (_ >? _); [|exact H1]. apply cwnd_frame_incr, cwnd_frame_cwnd; [exact H1|].
  destruct H1 as (c & i & -> & _). by simp_upd.
Qed.

(** The limits do not depend on the conversation number of the control block, only on that of
    the segments in flight. *)
Definition flush_ok_conv (cv : Z) (k : IKCPCB) : Prop := flush_ok (k <| conv := cv |>).

Lemma flush_ok_conv_same k : flush_ok_conv (conv k) k <-> flush_ok k.
Proof. unfold flush_ok_conv, flush_ok. by simp_upd. Qed.

Lemma snd_frame_flush_conv cv k k' : snd_frame k k' -> flush_ok_conv cv k -> flush_ok_conv cv k'.
Proof.
  unfold flush_ok_conv, flush_ok. simp_upd.
  intros (E1 & E2 & E3 & E4 & _ & E5 & _ & _ & _ & H) (Hm & Hs & Hf & Hc & Hw & Hi).
  rewrite E1, E2, E3, E4, E5. split_and!; try done; try lia.
  apply H; [|done]. intros s n. unfold seg_sent, seg_fits, seg_wf. by simp_upd.
Qed.

Lemma snd_frame_flush_ok k k' : snd_frame k k' -> flush_ok k -> flush_ok k'.
Proof.
  intros Hk Hf. apply (proj1 (flush_ok_conv_same _)).
  pose proof Hk as (_ & _ & _ & _ & _ & _ & -> & _).
  by apply (snd_frame_flush_conv _ k), (proj2 (flush_ok_conv_same k)).
Qed.

Lemma ikcp_input_flush_ok cv k data :
  kcp_inv k -> flush_ok_conv cv k -> flush_ok_conv cv (snd (ikcp_input k data)).
Proof.
  intros Hi Hf. unfold ikcp_input. destruct (_ <? _); [done|].
  pose proof (snd_frame_input_loop (length data) k (mklocals false 0 0) data) as Hl.
  pose proof (ikcp_input_loop_inv (length data) k (mklocals false 0 0) data Hi) as Hi'.
  destruct (ikcp_input_loop _ _ _ _) as [[e|l] k']; cbn [snd] in *;
    [by eapply snd_frame_flush_conv|].
  set (k2 := if l_flag l then _ else _).
  assert (snd_frame k k2 /\ kcp_inv k2) as [Hf2 Hi2].
  { unfold k2. destruct (l_flag l); [|done]. split; [|by apply ikcp_parse_fastack_inv].
    etransitivity; [exact Hl|apply snd_frame_fastack]. }
  pose proof (snd_frame_flush_conv _ _ _ Hf2 Hf) as Hok. destruct (_ >? 0); [|done].
  destruct Hi2 as (_ & _ & _ & _ & Hr & _). destruct Hok as (Hm & Hs & Hb & Hc & Hw).
  destruct (ikcp_input_cwnd_frame k2) as (c & i & -> & Hc').
  unfold flush_ok_conv, flush_ok in *. simp_upd. split_and!; try done; lia.
Qed.

(** ** The other operations *)

Lemma ikcp_input_conv k data : conv (snd (ikcp_input k data)) = conv k.
Proof.
  unfold ikcp_input. destruct (_ <? _); [done|].
  pose proof (snd_frame_input_loop (length data) k (mklocals false 0 0) data) as Hl.
  destruct (ikcp_input_loop _ _ _ _) as [[e|l] k']; cbn [snd] in *; [apply Hl|].
  set (k2 := if l_flag l then _ else _).
  assert (snd_frame k k2) as (_ & _ & _ & _ & _ & _ & <- & _).
  { unfold k2. destruct (l_flag l); [|done]. etransitivity; [exact Hl|apply snd_frame_fastack]. }
  destruct (_ >? 0); [|done].
  by destruct (ikcp_input_cwnd_frame k2) as (c & i & -> & _).
Qed.

(** Whatever bytes arrive, the invariant is kept. *)
Lemma ikcp_input_ok k data : kcp_ok k -> kcp_ok (snd (ikcp_input k data)).
Proof.
  intros [Hi Hf]. split; [by apply ikcp_input_inv|].
  apply (proj2 (flush_ok_conv_same k)) in Hf. apply (proj1 (flush_ok_conv_same _)).
  rewrite ikcp_input_conv. by apply ikcp_input_flush_ok.
Qed.

Lemma ikcp_create_ok conv : kcp_ok (ikcp_create conv).
Proof.
  unfold kcp_ok, kcp_inv, flush_ok, send_ok, snd_window, una_is_head, rcv_window, window.
  cbn. split_and!; try done; try constructor.
Qed.

Lemma ikcp_send_ok k b : kcp_ok k -> Zlen b < 2147483648 -> kcp_ok (snd (ikcp_send k b (Zlen b))).
Proof.
  intros [(Hs & Hi) Hf] Hb. pose proof (ikcp_send_queues k b Hs Hb) as Hq.
  destruct Hs as (Hm & Hn & Hfit).
  destruct (ikcp_send_spec k b Hm Hb) as (q & _ & _ & _ & _ & E);
    [rewrite Hn; apply u32_range|done|]. cbv zeta in E. rewrite E in *. clear E.
  destruct (_ && _); [|destruct (_ <=? _)]; destruct Hq as [Hs _]; cbn [snd];
    (split; [split; [exact Hs|by simp_upd]|by simp_upd]).
Qed.

Lemma ikcp_recv_merge_rest peek q nque buf n :
  Zlen q <= nque < 4294967296 ->
  let '(_, _, rest, nque') := ikcp_recv_merge peek q nque buf n in
  rest = (if peek then q else snd (msg_prefix q)) /\
  nque' = if peek then nque else nque - Zlen (fst (msg_prefix q)).
Proof.
  revert nque buf n. induction q as [|s q IH]; intros nque buf n Hn; cbn [ikcp_recv_merge msg_prefix].
  - destruct peek; [done|]. cbn [fst snd]. change (Zlen []) with 0. split; [done|lia].
  - rewrite Zlen_cons in Hn. pose proof (Zlen_nonneg q).
    destruct (_ =? _); cbn [fst snd].
    + destruct peek; [done|]. rewrite u32_small by lia. split; [done|]. by rewrite Zlen_cons.
    + match goal with |- context [ikcp_recv_merge peek q ?a ?b ?c] =>
        specialize (IH a b c); destruct (ikcp_recv_merge peek q a b c) as [[[b' n'] rest] nq] end.
      destruct IH as [-> ->]; [destruct peek; [lia|rewrite u32_small; lia]|].
      destruct (msg_prefix q) as [m r]. cbn [fst snd]. rewrite Zlen_cons.
      destruct peek; [done|]. split; [done|]. rewrite u32_small; lia.
Qed.

Lemma msg_prefix_snd_app q : exists m, q = m ++ snd (msg_prefix q) /\ m = fst (msg_prefix q).
Proof. exists (fst (msg_prefix q)). split; [apply msg_prefix_app|done]. Qed.

Lemma kcp_ok_rcv k q n :
  kcp_ok k -> rcv_window (k <| rcv_queue := q |> <| nrcv_que := n |>) ->
  kcp_ok (k <| rcv_queue := q |> <| nrcv_que := n |>).
Proof.
  unfold kcp_ok, kcp_inv, flush_ok. intros [(Hs & Hw & Hh & _ & Hr) Hf] Hrcv. simp_upd.
  exact (conj (conj Hs (conj Hw (conj Hh (conj Hrcv Hr)))) Hf).
Qed.

Lemma kcp_ok_move k : kcp_ok k -> kcp_ok (ikcp_move_rcv (rcv_buf k) k).
Proof.
  intros [(Hs & Hw & Hh & Hrcv & Hr) Hf].
  pose proof (snd_frame_move_rcv (rcv_buf k) k) as Hfr.
  destruct (ikcp_move_rcv_window k Hrcv) as (m & r & _ & _ & E & Hrcv').
  split; [|by eapply snd_frame_flush_ok]. rewrite E.
  unfold kcp_inv, rcv_moved in *. simp_upd.
  exact (conj Hs (conj Hw (conj Hh (conj Hrcv' Hr)))).
Qed.

Lemma ikcp_recv_ok k len : kcp_ok k -> kcp_ok (snd (ikcp_recv k len)).
Proof.
  intros Hok. unfold ikcp_recv. destruct (rcv_queue k) as [|s q] eqn:Eq; [done|].
  rewrite <- Eq. cbv zeta. clear s q Eq.
  destruct (_ <? 0); [done|]. destruct (_ >? _); [done|].
  pose proof Hok as [(_ & _ & _ & (_ & _ & _ & _ & Hn & Hl & _ & Hf) & _) _].
  pose proof (ikcp_recv_merge_rest (len <? 0) (rcv_queue k) (nrcv_que k) [] 0 ltac:(lia)) as Hm.
  destruct (ikcp_recv_merge _ _ _ _ _) as [[[buf n] rest] nq]. destruct Hm as [-> ->].
  set (k1 := k <| rcv_queue := _ |> <| nrcv_que := _ |>).
  assert (kcp_ok k1) as Hk1.
  { apply kcp_ok_rcv; [done|]. pose proof Hok as [(_ & _ & _ & Hw & _) _].
    unfold rcv_window in *. simp_upd. destruct (_ <? 0); [done|].
    destruct (msg_prefix_snd_app (rcv_queue k)) as (m & E & <-).
    rewrite E in Hn, Hl, Hf. rewrite Zlen_app in Hn, Hl. apply Forall_app in Hf as [_ Hf].
    pose proof (Zlen_nonneg m). pose proof (Zlen_nonneg (snd (msg_prefix (rcv_queue k)))).
    destruct Hw as (H1 & H2 & H3 & H4 & H5 & H6 & H7 & H8). split_and!; try done; lia. }
  apply kcp_ok_move in Hk1. cbn [snd].
  destruct (_ && _); [|done]. revert Hk1. generalize (ikcp_move_rcv (rcv_buf k1) k1).
  unfold kcp_ok, kcp_inv, flush_ok. intros k2 Hk2. by simp_upd.
Qed.

Ltac kcp_fields := unfold kcp_ok, kcp_inv, flush_ok in *; simp_upd.

(** [ikcp_update] is the clock and at most one flush; after it the control block is started. *)
Definition with_clock (k : IKCPCB) (now u ts : Z) : IKCPCB :=
  k <| current := now |> <| updated := u |> <| ts_flush := ts |>.

Lemma ikcp_update_cases k now : exists u ts, u <> 0 /\
  (ikcp_update k now = ikcp_flush (with_clock k now u ts) \/
   ikcp_update k now = (with_clock k now u ts, [])).
Proof.
  unfold ikcp_update. simp_upd.
  set (k2 := if updated k =? 0 then _ else _).
  assert (exists u ts, u <> 0 /\ k2 = with_clock k now u ts) as (u & ts & Hu & ->).
  { unfold k2. destruct (Z.eqb_spec (updated k) 0); [by exists 1, now|].
    exists (updated k), (ts_flush k). split; [done|]. by destruct k. }
  set (slap := _itimediff _ _). clearbody slap.
  enough (forall k3 slap, (exists u ts, u <> 0 /\ k3 = with_clock k now u ts) -> exists u ts,
    u <> 0 /\ ((if slap >=? 0 then
      let k4 := k3 <| ts_flush := ts_flush k3 +w interval k3 |> in
      ikcp_flush (if _itimediff (current k4) (ts_flush k4) >=? 0
                  then k4 <| ts_flush := current k4 +w interval k4 |> else k4)
    else (k3, [])) = ikcp_flush (with_clock k now u ts) \/
    (if slap >=? 0 then
      let k4 := k3 <| ts_flush := ts_flush k3 +w interval k3 |> in
      ikcp_flush (if _itimediff (current k4) (ts_flush k4) >=? 0
                  then k4 <| ts_flush := current k4 +w interval k4 |> else k4)
    else (k3, [])) = (with_clock k now u ts, []))) as H
    by (destruct (_ || _); apply H; eexists _, _; (split; [exact Hu|reflexivity])).
  clear. intros k3 slap (u & ts & Hu & ->).
  destruct (_ >=? 0); [|by eexists _, _; split; [exact Hu|right]].
  cbv zeta. destruct (_ >=? 0); eexists _, _; (split; [exact Hu|]); left; reflexivity.
Qed.

Lemma kcp_ok_clock k now u ts : kcp_ok k -> kcp_ok (with_clock k now u ts).
Proof. unfold with_clock. by kcp_fields. Qed.

Lemma ikcp_update_ok k now : kcp_ok k -> kcp_ok (fst (ikcp_update k now)).
Proof.
  intros Hok. destruct (ikcp_update_cases k now) as (u & ts & _ & [-> | ->]).
  - by apply ikcp_flush_ok, kcp_ok_clock.
  - by apply kcp_ok_clock.
Qed.

Lemma ikcp_setmtu_ok malloc_ok k m :
  kcp_ok k -> m < 1073741824 ->
  Forall (fun s => seg_len s + 24 <= m) (snd_queue k ++ snd_buf k) ->
  kcp_ok (snd (ikcp_setmtu malloc_ok k m)).
Proof.
  intros Hok Hm Hfit. unfold ikcp_setmtu. destruct (_ || _) eqn:G; [done|].
  destruct (negb malloc_ok); [done|]. cbn [snd].
  apply Forall_app in Hfit as [Hq Hb]. unfold kcp_ok, kcp_inv, flush_ok, send_ok in *.
  destruct Hok as [((Hms & Hn & Hsq) & Hw & Hh & Hrcv & Hr1 & Hr2 & Hr3) (_ & _ & Hsb & Hf)].
  unfold IKCP_OVERHEAD. simp_upd. rewrite !u32_small by (rewrite ?u32_small; lia).
  split_and!; try done; try lia.
  - rewrite Forall_forall in *. intros s Hs. specialize (Hsq s Hs). specialize (Hq s Hs).
    unfold seg_fits in *. split_and!; try apply Hsq; lia.
  - rewrite Forall_forall in *. intros s Hs. specialize (Hsb s Hs). specialize (Hb s Hs).
    unfold seg_sent, seg_fits in *. split_and!; try apply Hsb; lia.
Qed.

Lemma ikcp_interval_ok k iv : kcp_ok k -> kcp_ok (ikcp_interval k iv).
Proof.
  intros H. unfold ikcp_interval. cbv zeta. kcp_fields.
  destruct H as [Hi (H1 & H2 & H3 & H4 & H5 & _)].
  split; [done|]. split_and!; try done; destruct (Z.gtb_spec iv 5000), (Z.ltb_spec iv 10); lia.
Qed.

Lemma ikcp_nodelay_ok k nd iv resend nc : kcp_ok k -> kcp_ok (ikcp_nodelay k nd iv resend nc).
Proof.
  intros H. unfold ikcp_nodelay. cbv zeta.
  set (k1 := if nd >=? 0 then _ else _).
  assert (kcp_ok k1) as H1.
  { unfold k1. destruct (nd >=? 0); [|done]. unfold IKCP_RTO_NDL, IKCP_RTO_MIN in *.
    destruct (negb _); kcp_fields; unfold IKCP_RTO_NDL, IKCP_RTO_MIN in *; intuition lia. }
  clearbody k1. set (k2 := if iv >=? 0 then _ else _).
  assert (kcp_ok k2) as H2.
  { unfold k2. destruct (iv >=? 0); [|done]. apply (ikcp_interval_ok _ iv H1). }
  clearbody k2. destruct (resend >=? 0), (nc >=? 0); kcp_fields; done.
Qed.

Lemma ikcp_wndsize_ok k s r :
  kcp_ok k -> s < 2147483648 -> r < 2147483648 -> kcp_ok (ikcp_wndsize k s r).
Proof.
  intros H Hs Hr. unfold ikcp_wndsize. cbv zeta.
  set (k1 := if s >? 0 then _ else _).
  assert (kcp_ok k1) as H1.
  { unfold k1. destruct (Z.gtb_spec s 0); [|done]. kcp_fields. intuition lia. }
  clearbody k1. destruct (Z.gtb_spec r 0); [|done].
  rewrite _imax__max. unfold kcp_ok, kcp_inv, flush_ok, rcv_window, IKCP_WND_RCV in *.
  simp_upd. intuition lia.
Qed.

(** ** Reachability *)

(** The calls of the API, and when a program may make them: lengths are C [int]s, and the mtu is
    not made smaller than what is already queued. *)
Inductive kcp_op : Type :=
| OpSend (b : bytes)
| OpRecv (len : Z)
| OpInput (data : bytes)
| OpUpdate (now : Z)
| OpFlush
| OpSetMtu (malloc_ok : bool) (m : Z)
| OpInterval (iv : Z)
| OpNodelay (nd iv resend nc : Z)
| OpWndsize (sndwnd rcvwnd : Z).

Definition kcp_exec (op : kcp_op) (k : IKCPCB) : IKCPCB :=
  match op with
  | OpSend b => snd (ikcp_send k b (Zlen b))
  | OpRecv len => snd (ikcp_recv k len)
  | OpInput data => snd (ikcp_input k data)
  | OpUpdate now => fst (ikcp_update k now)
  | OpFlush => fst (ikcp_flush k)
  | OpSetMtu malloc_ok m => snd (ikcp_setmtu malloc_ok k m)
  | OpInterval iv => ikcp_interval k iv
  | OpNodelay nd iv resend nc => ikcp_nodelay k nd iv resend nc
  | OpWndsize s r => ikcp_wndsize k s r
  end.

Definition op_allowed (op : kcp_op) (k : IKCPCB) : Prop :=
  match op with
  | OpSend b => Zlen b < 2147483648
  | OpSetMtu _ m =>
      m < 1073741824 /\ Forall (fun s => seg_len s + 24 <= m) (snd_queue k ++ snd_buf k)
  | OpWndsize s r => s < 2147483648 /\ r < 2147483648
  | _ => True
  end.

Inductive kcp_step : IKCPCB -> IKCPCB -> Prop :=
| kcp_step_op op k : op_allowed op k -> kcp_step k (kcp_exec op k).

Lemma kcp_step_ok k k' : kcp_step k k' -> kcp_ok k -> kcp_ok k'.
Proof.
  intros [[] k0 Ha] Hk; cbn [kcp_exec op_allowed] in *.
  - by apply ikcp_send_ok.
  - by apply ikcp_recv_ok.
  - by apply ikcp_input_ok.
  - by apply ikcp_update_ok.
  - by apply ikcp_flush_ok.
  - destruct Ha. by apply ikcp_setmtu_ok.
  - by apply ikcp_interval_ok.
  - by apply ikcp_nodelay_ok.
  - destruct Ha. by apply ikcp_wndsize_ok.
Qed.

(** C9: Every state reachable from [ikcp_create] through the API, with whatever bytes the network
    delivers, satisfies the invariant. *)
Theorem kcp_reachable_ok conv k : rtc kcp_step (ikcp_create conv) k -> kcp_ok k.
Proof.
  intros H. pose proof (ikcp_create_ok conv) as Hc. induction H as [|k1 k2 k3 Hs _ IH]; [done|].
  apply IH. by eapply kcp_step_ok.
Qed.
