(* ===== verification/Wire.v ===== *)
(** The wire format: decoding a header inverts [ikcp_encode_seg], and feeding [ikcp_input] a
    packet processes exactly the segments the packet was built from, in order. *)
From S2P Require Import Prelude Bytes IkcpTypes IkcpSend IkcpInput IkcpFlush IkcpFlushSpec.
From S2P Require Import IkcpInv.

(** The header a segment is sent with. *)
Definition seg_header (s : IKCPSEG) : header :=
  mkheader (u32 (seg_conv s)) (u8 (seg_cmd s)) (u8 (seg_frg s)) (u16 (seg_wnd s))
    (u32 (seg_ts s)) (u32 (seg_sn s)) (u32 (seg_una s)) (u32 (seg_len s)).

Lemma ikcp_decode_encode_seg s q :
  ikcp_decode_header (ikcp_encode_seg [] s ++ q) = (q, seg_header s).
Proof.
  unfold ikcp_encode_seg. cbv zeta.
  rewrite (ikcp_encode32u_acc _ (seg_len s)), (ikcp_encode32u_acc _ (seg_una s)),
    (ikcp_encode32u_acc _ (seg_sn s)), (ikcp_encode32u_acc _ (seg_ts s)),
    (ikcp_encode16u_acc _ (u16 (seg_wnd s))), (ikcp_encode8u_acc _ (u8 (seg_frg s))),
    (ikcp_encode8u_acc _ (u8 (seg_cmd s))), <- !app_assoc.
  unfold ikcp_decode_header. rewrite ikcp_decode32u_app, !ikcp_decode8u_app, ikcp_decode16u_app.
  rewrite !ikcp_decode32u_app. unfold seg_header. by rewrite !u8_idemp, u16_idemp.
Qed.

(** ** Packets *)

(** What the receiver of conversation [cv] accepts: its conversation number, one of the four
    commands, a length that matches the payload and is positive as an [int]. *)
Definition seg_accept (cv : Z) (s : IKCPSEG) : Prop :=
  u32 (seg_conv s) = cv /\
  u8 (seg_cmd s) ∈ [IKCP_CMD_PUSH; IKCP_CMD_ACK; IKCP_CMD_WASK; IKCP_CMD_WINS] /\
  seg_wf s /\ seg_len s < 2147483648.

(** The effect of one received segment on the control block and the loop's locals. *)
Definition receive_seg (st : IKCPCB * input_locals) (s : IKCPSEG) : IKCPCB * input_locals :=
  ikcp_input_segment (fst st) (snd st) (seg_header s) (seg_data s).

Lemma take_app_Zlen (d rest : bytes) n : n = Zlen d -> take (Z.to_nat n) (d ++ rest) = d.
Proof. intros ->. unfold Zlen. rewrite Nat2Z.id. by rewrite take_app_length. Qed.

Lemma drop_app_Zlen (d rest : bytes) n : n = Zlen d -> drop (Z.to_nat n) (d ++ rest) = rest.
Proof. intros ->. unfold Zlen. rewrite Nat2Z.id. by rewrite drop_app_length. Qed.

Lemma ikcp_input_segment_data k l h d rest :
  h_len h = Zlen d -> ikcp_input_segment k l h (d ++ rest) = ikcp_input_segment k l h d.
Proof.
  intros Hl. unfold ikcp_input_segment, ikcp_input_push.
  rewrite (take_app_Zlen d rest (h_len h) Hl), (take_ge d) by (unfold Zlen in Hl; lia). done.
Qed.

(** The loop on a packet is the fold over its segments. *)
Lemma ikcp_input_loop_packet g fuel k l :
  Forall (seg_accept (conv k)) g -> (length g < fuel)%nat ->
  let '(k', l') := fold_left receive_seg g (k, l) in
  ikcp_input_loop fuel k l (packet g) = (inr l', k').
Proof.
  revert fuel k l. induction g as [|s g IH]; intros fuel k l Hg Hf.
  - cbn [fold_left]. destruct fuel; [lia|]. done.
  - apply Forall_cons in Hg as [(Hc & Hcmd & Hwf & Hlen) Hg].
    destruct fuel as [|fuel]; [cbn in Hf; lia|]. unfold seg_wf in Hwf.
    pose proof (Zlen_nonneg (seg_data s)).
    change (packet (s :: g)) with (wire s ++ packet g). unfold wire. cbn [ikcp_input_loop fold_left].
    rewrite (take_ge (seg_data s)) by (unfold Zlen in Hwf; lia).
    rewrite <- app_assoc, Zlen_app, length_ikcp_encode_seg.
    destruct (Z.ltb_spec (24 + Zlen (seg_data s ++ packet g)) IKCP_OVERHEAD).
    { pose proof (Zlen_nonneg (seg_data s ++ packet g)). unfold IKCP_OVERHEAD in *. lia. }
    rewrite ikcp_decode_encode_seg. cbn [seg_header h_conv h_cmd h_len].
    rewrite Hc, Z.eqb_refl. cbn [negb]. rewrite (u32_small (seg_len s)) by lia.
    rewrite i32_small by lia. rewrite Zlen_app.
    pose proof (Zlen_nonneg (packet g)).
    destruct (_ || _) eqn:G1; [lia|]. clear G1.
    destruct (_ && _) eqn:G2.
    { exfalso. revert Hcmd G2. rewrite !elem_of_cons, elem_of_nil.
      unfold IKCP_CMD_PUSH, IKCP_CMD_ACK, IKCP_CMD_WASK, IKCP_CMD_WINS. intros. lia. }
    clear G2. unfold receive_seg at 2. cbn [fst snd].
    rewrite ikcp_input_segment_data by (cbn; rewrite u32_small; lia).
    rewrite drop_app_Zlen by done.
    pose proof (snd_frame_input_segment k l (seg_header s) (seg_data s))
      as (_ & _ & _ & _ & _ & _ & Ec & _).
    destruct (ikcp_input_segment _ _ _ _) as [k1 l1]. cbn [fst] in Ec.
    apply IH; [by rewrite Ec|cbn in Hf; lia].
Qed.

(** [ikcp_input] on a packet, as a function of the segments it was built from. *)
Definition receive_packet (k : IKCPCB) (g : list IKCPSEG) : IKCPCB :=
  let '(k1, l) := fold_left receive_seg g (k, mklocals false 0 0) in
  let k2 := if l_flag l then ikcp_parse_fastack k1 (l_maxack l) (l_latest_ts l) else k1 in
  if _itimediff (snd_una k2) (snd_una k) >? 0 then ikcp_input_cwnd k2 else k2.

Lemma length_packet g : (24 * length g <= length (packet g))%nat.
Proof.
  induction g as [|s g IH]; [done|]. change (packet (s :: g)) with (wire s ++ packet g).
  rewrite length_app. unfold wire. rewrite length_app. cbn [length].
  pose proof (length_ikcp_encode_seg s) as H. unfold Zlen in H. lia.
Qed.

Lemma ikcp_input_packet_eq k g :
  g <> [] -> Zlen (packet g) < 2147483648 -> Forall (seg_accept (conv k)) g ->
  ikcp_input k (packet g) = (0, receive_packet k g).
Proof.
  intros Hg Hl Ha. pose proof (length_packet g) as Hp. unfold ikcp_input, receive_packet.
  assert (1 <= length g)%nat as Hg1 by (destruct g; [done|cbn; lia]).
  unfold Zlen in *. rewrite i32_small by lia. unfold IKCP_OVERHEAD.
  destruct (Z.ltb_spec (Z.of_nat (length (packet g))) 24); [lia|].
  pose proof (ikcp_input_loop_packet g (length (packet g)) k (mklocals false 0 0) Ha ltac:(lia)) as H1.
  destruct (fold_left receive_seg g (k, mklocals false 0 0)) as [k1 l]. by rewrite H1.
Qed.

(** ** What a flush puts on the wire is accepted *)

Lemma flush_seg_accept k cmd sn ts :
  0 <= conv k < 4294967296 ->
  cmd ∈ [IKCP_CMD_ACK; IKCP_CMD_WASK; IKCP_CMD_WINS] ->
  seg_accept (conv k) ((flush_seg k) <| seg_sn := sn |> <| seg_ts := ts |> <| seg_cmd := cmd |>).
Proof.
  intros Hc Hcmd. unfold seg_accept, seg_wf, flush_seg. simp_upd. cbn [seg_data ikcp_segment_new].
  split_and!; [by apply u32_small| |done|done].
  rewrite !elem_of_cons, elem_of_nil in *. destruct Hcmd as [->|[->|[->|[]]]]; cbn; auto.
Qed.

(** The header left by the acknowledgements differs from the initial one in [sn] and [ts]. *)
Lemma ack_segs_elem seg acks s :
  s ∈ ack_segs seg acks -> exists sn ts, s = seg <| seg_sn := sn |> <| seg_ts := ts |>.
Proof. unfold ack_segs. intros ([sn ts] & -> & _)%list_elem_of_fmap. by exists sn, ts. Qed.

Lemma ack_segs_default seg acks :
  exists sn ts, default seg (last (ack_segs seg acks)) = seg <| seg_sn := sn |> <| seg_ts := ts |>.
Proof.
  destruct (last (ack_segs seg acks)) as [s|] eqn:E; cbn [default].
  - apply last_Some in E as [l E]. apply (ack_segs_elem seg acks). rewrite E. set_solver.
  - exists (seg_sn seg), (seg_ts seg). by destruct seg.
Qed.

Lemma flush_control_accept k :
  0 <= conv k < 4294967296 -> Forall (seg_accept (conv k)) (flush_control_segs k).
Proof.
  intros Hc. unfold flush_control_segs. rewrite !Forall_app. set (s0 := flush_seg k).
  assert (forall sn ts, s0 <| seg_sn := sn |> <| seg_ts := ts |> =
    s0 <| seg_sn := sn |> <| seg_ts := ts |> <| seg_cmd := IKCP_CMD_ACK |>) as Hack by done.
  split_and!.
  - apply Forall_forall. intros s (sn & ts & ->)%ack_segs_elem. rewrite Hack.
    apply flush_seg_accept; [done|set_solver].
  - destruct (ack_segs_default s0 (take (Z.to_nat (ackcount k)) (acklist k))) as (sn & ts & ->).
    destruct (negb _); constructor; [|done]. apply flush_seg_accept; [done|set_solver].
  - destruct (ack_segs_default s0 (take (Z.to_nat (ackcount k)) (acklist k))) as (sn & ts & ->).
    destruct (negb _); constructor; [|done]. apply flush_seg_accept; [done|set_solver].
Qed.

Lemma flush_data_sent k wnd q m cv :
  Forall (seg_sent m cv) q -> Forall (seg_sent m cv) (flush_data_segs k wnd q).
Proof.
  intros Hq. unfold flush_data_segs. apply Forall_concat, Forall_map.
  eapply Forall_impl; [exact Hq|]. intros s Hs. cbn.
  pose proof (flush_visit_sent k wnd m cv s Hs) as Hv. unfold flush_visit in Hv.
  destruct (flush_reason k s); [by constructor|done].
Qed.

Lemma seg_sent_accept m cv s :
  0 <= cv < 4294967296 -> m < 2147483648 -> seg_sent m cv s -> seg_accept cv s.
Proof.
  unfold seg_accept. intros Hcv Hm ((Hwf & Hlen & _) & -> & ->).
  split_and!; [by apply u32_small|set_solver|done|lia].
Qed.

(** Every segment a flush emits is one the peer accepts. *)
Lemma flush_packets_accept a :
  kcp_ok a -> 0 <= conv a < 4294967296 ->
  Forall (seg_accept (conv a)) (flush_control_segs a
    ++ flush_data_segs (flush_moved a) (flush_wnd a) (snd_buf (flush_moved a))).
Proof.
  intros Hok Hc. pose proof (flush_moved_ok a Hok) as (_ & _ & _ & Hs & _).
  pose proof Hok as (_ & Hm & Hmss & _).
  destruct (flush_moved_buf a Hok) as (_ & _ & _ & Em & Ems & Ec). rewrite Ems, Ec in Hs.
  apply Forall_app. split; [by apply flush_control_accept|].
  eapply Forall_impl; [apply flush_data_sent, Hs|]. intros s. apply seg_sent_accept; lia.
Qed.

(** C12: Every packet a flush emits is accepted by an endpoint of the same conversation: the result
    is 0 and the packet's segments are processed, one by one, in order. *)
Theorem flush_input_accepted a b :
  kcp_ok a -> 0 <= conv a < 4294967296 -> conv b = conv a ->
  exists gs, snd (ikcp_flush a) = map packet gs /\
    Forall (fun g => ikcp_input b (packet g) = (0, receive_packet b g)) gs.
Proof.
  intros Hok Hc Hb. destruct (decide (updated a = 0)) as [E|Hu].
  { exists []. unfold ikcp_flush. by rewrite E. }
  destruct (ikcp_flush_packets a Hok Hu) as (gs & E & Hg & Hcat). exists gs. split; [done|].
  pose proof Hok as (_ & Hm & _).
  pose proof (flush_packets_accept a Hok Hc) as Hall. rewrite <- Hcat in Hall.
  clear E Hcat. induction Hg as [|g gs [Hne Hle] Hg IH]; [done|].
  cbn [concat] in Hall. apply Forall_app in Hall as [H1 H2]. constructor; [|by apply IH].
  apply ikcp_input_packet_eq; [done|lia|by rewrite Hb].
Qed.
