(* ===== verification/Delivery.v ===== *)
(** The two halves of delivery: every data segment a writer emits carries its entry of the
    stream of segments admitted so far, and a receiver that is fed such segments puts that
    stream, and nothing else, in order. *)
From stdpp Require Import relations.
From S2P Require Import Prelude Bytes IkcpTypes IkcpSend IkcpInput IkcpFlush IkcpFlushSpec.
From S2P Require Import IkcpInv Wire.

(** ** The stream of segments

    The sender numbers its data segments 0, 1, 2, ... without bound; the wire carries the
    number modulo 2^32.  An entry is what the receiver keeps of a segment. *)
Definition entry : Type := Z * bytes.
Definition seg_entry (s : IKCPSEG) : entry := (seg_frg s, seg_data s).
Definition entry_bytes (l : list entry) : bytes := concat (map snd l).

Lemma entry_bytes_app l l' : entry_bytes (l ++ l') = entry_bytes l ++ entry_bytes l'.
Proof. unfold entry_bytes. by rewrite map_app, concat_app. Qed.

Lemma entry_bytes_segs q : entry_bytes (map seg_entry q) = seg_bytes q.
Proof. unfold entry_bytes, seg_bytes. by rewrite map_map. Qed.

(** [s] carries the entry number [i] of the stream [S]. *)
Definition carries (S : list entry) (s : IKCPSEG) (i : Z) : Prop :=
  0 <= i < Zlen S /\ seg_sn s = u32 i /\ S !! Z.to_nat i = Some (seg_entry s).

(** A segment of the stream that is less than half the number ring old. *)
Definition genuine (S : list entry) (s : IKCPSEG) : Prop :=
  exists i, carries S s i /\ Zlen S - 2147483648 < i.

(** ** The receiver

    [got] is what the program has read, [R] the number of segments put in order so far. *)
Record tracks (S : list entry) (R : Z) (got : list entry) (k : IKCPCB) : Prop := {
  tr_nxt : rcv_nxt k = u32 R;
  tr_range : 0 <= R <= Zlen S /\ Zlen S - R < 2147483648;
  tr_prefix : got ++ map seg_entry (rcv_queue k) = take (Z.to_nat R) S;
  tr_buf : Forall (genuine S) (rcv_buf k)
}.

(** Consecutive genuine segments from [R] on carry the entries from [R] on. *)
Lemma consecutive_carries S R q :
  0 <= R <= Zlen S -> Zlen S - R < 2147483648 ->
  consecutive R q -> Forall (genuine S) q ->
  map seg_entry q = take (length q) (drop (Z.to_nat R) S) /\ (q <> [] -> R + Zlen q <= Zlen S).
Proof.
  intros HR Hlen. revert R HR Hlen. induction q as [|s q IH]; intros R HR Hlen Hc Hg; [done|].
  destruct Hc as [Es Hc]. apply Forall_cons in Hg as [(i & ((Hi & Ei & Hs) & Hold)) Hg].
  rewrite Zlen_cons in *. pose proof (Zlen_nonneg q).
  assert (i = R) as ->. { apply u32_inj_near; [|congruence]. lia. }
  destruct (IH (R + 1)) as [E Hle]; [lia|lia|done|done|].
  split.
  - cbn [map length]. rewrite (drop_S _ _ _ Hs). cbn [take].
    replace (Z.to_nat (R + 1)) with (Datatypes.S (Z.to_nat R)) in E by lia. by rewrite E.
  - intros _. destruct q as [|t q]; [unfold Zlen at 1; cbn; lia|].
    specialize (Hle ltac:(done)). lia.
Qed.

(** Moving a consecutive prefix of the receive buffer to the queue. *)
Lemma tracks_moved S R got k m r :
  tracks S R got k -> rcv_buf k = m ++ r -> consecutive (rcv_nxt k) m ->
  tracks S (R + Zlen m) got (rcv_moved k m r).
Proof.
  intros [Hn [HR Hd] Hp Hb] E Hc.
  rewrite E in Hb. apply Forall_app in Hb as [Hbm Hbr].
  rewrite Hn in Hc. apply (proj1 (consecutive_u32 _ _)) in Hc.
  destruct (consecutive_carries S R m ltac:(lia) Hd Hc Hbm) as [Em Hle].
  pose proof (Zlen_nonneg m).
  assert (R + Zlen m <= Zlen S) as Hle'.
  { destruct m as [|s m]; [unfold Zlen at 1; cbn; lia|]. by apply Hle. }
  split; unfold rcv_moved; simp_upd.
  - by rewrite Hn, u32_add_l.
  - lia.
  - rewrite map_app, app_assoc, Hp, Em. replace (Z.to_nat (R + Zlen m))
      with (Z.to_nat R + length m)%nat by (unfold Zlen; lia). by rewrite take_take_drop.
  - done.
Qed.

(** One data segment. *)
Lemma tracks_parse_data S R got k new :
  rcv_window k -> tracks S R got k -> seg_wf new -> genuine S new ->
  exists R', tracks S R' got (ikcp_parse_data k new).
Proof.
  intros Hw Ht Hwf Hg. pose proof Hg as (i & (_ & Ei & _) & _).
  destruct (ikcp_parse_data_shape k new Hw Hwf) as [->|(q & n & m & r & H)];
    [rewrite Ei; apply u32_range|by exists R|].
  cbv zeta in H. destruct H as (-> & Hwk & Eq & Hc & _ & Hel).
  set (k1 := k <| rcv_buf := q |> <| nrcv_buf := n |>) in *.
  assert (tracks S R got k1) as Ht1.
  { destruct Ht as [H1 H2 H3 H4]. split; unfold k1; simp_upd; try done.
    apply Forall_forall. intros s Hs. apply Hel in Hs as [Hs|[-> _]]; [|done].
    rewrite Forall_forall in H4. by apply H4. }
  exists (R + Zlen m). apply tracks_moved; [done| |]; unfold k1; by simp_upd.
Qed.

(** ** What the other routines leave alone *)
Definition rcv_same (k k' : IKCPCB) : Prop :=
  rcv_nxt k' = rcv_nxt k /\ rcv_queue k' = rcv_queue k /\ rcv_buf k' = rcv_buf k.

#[export] Instance rcv_same_preorder : PreOrder rcv_same.
Proof.
  split; [done|]. intros k1 k2 k3 (E1 & E2 & E3) (F1 & F2 & F3).
  unfold rcv_same. rewrite F1, F2, F3. done.
Qed.

Lemma tracks_same S R got k k' : rcv_same k k' -> tracks S R got k -> tracks S R got k'.
Proof. intros (E1 & E2 & E3) [H1 H2 H3 H4]. split; by rewrite ?E1, ?E2, ?E3. Qed.

Lemma rcv_same_update_ack k rtt : rcv_same k (ikcp_update_ack k rtt).
Proof. by destruct (ikcp_update_ack_shape k rtt) as (a & b & c & ->). Qed.

Lemma rcv_same_shrink k : rcv_same k (ikcp_shrink_buf k).
Proof. by rewrite ikcp_shrink_buf_shape. Qed.

Lemma rcv_same_parse_una k una : rcv_same k (ikcp_parse_una k una).
Proof.
  unfold ikcp_parse_una. generalize (snd_buf k). intros q. revert k.
  induction q as [|s q IH]; intros k; cbn [ikcp_parse_una_loop]; [done|].
  destruct (_ >? 0); [|done]. etransitivity; [|apply IH]. done.
Qed.

Lemma rcv_same_parse_ack k sn : rcv_same k (ikcp_parse_ack k sn).
Proof. by destruct (ikcp_parse_ack_shape k sn) as (q & n & ->). Qed.

Lemma rcv_same_fastack k sn ts : rcv_same k (ikcp_parse_fastack k sn ts).
Proof. by destruct (ikcp_parse_fastack_shape k sn ts) as (q & -> & _). Qed.

Lemma rcv_same_ack_push k sn ts : rcv_same k (ikcp_ack_push k sn ts).
Proof. unfold ikcp_ack_push. by destruct (_ >? _). Qed.

Lemma rcv_same_input_ack k l h : rcv_same k (fst (ikcp_input_ack k l h)).
Proof.
  unfold ikcp_input_ack. cbn [fst]. etransitivity; [|apply rcv_same_shrink].
  etransitivity; [|apply rcv_same_parse_ack]. destruct (_ >=? 0); [|done].
  apply rcv_same_update_ack.
Qed.

(** ** Packets with genuine data segments

    [decode_packet] is the list of headers and payloads the loop of [ikcp_input] reads. *)
Fixpoint decode_packet (fuel : nat) (data : bytes) : list (header * bytes) :=
  match fuel with
  | O => []
  | Datatypes.S fuel =>
      if Zlen data <? IKCP_OVERHEAD then []
      else
        let '(data, h) := ikcp_decode_header data in
        if (Zlen data <? h_len h) || (i32 (h_len h) <? 0) then []
        else (h, take (Z.to_nat (h_len h)) data)
             :: decode_packet fuel (drop (Z.to_nat (h_len h)) data)
  end.

(** Whatever else a packet says, its data segments are segments of the stream, from number
    [lo] on. *)
Definition honest_seg (lo : Z) (S : list entry) (hd : header * bytes) : Prop :=
  h_cmd (fst hd) = IKCP_CMD_PUSH ->
  exists i, 0 <= i < Zlen S /\ lo <= i /\ h_sn (fst hd) = u32 i /\
    S !! Z.to_nat i = Some (h_frg (fst hd), snd hd).
Definition honest (lo : Z) (S : list entry) (data : bytes) : Prop :=
  Forall (honest_seg lo S) (decode_packet (length data) data).

Lemma tracks_input_segment S R got k l h data :
  kcp_inv k -> tracks S R got k -> header_ok h -> h_len h <= Zlen data ->
  honest_seg (Zlen S - 2147483647) S (h, take (Z.to_nat (h_len h)) data) ->
  exists R', tracks S R' got (fst (ikcp_input_segment k l h data)).
Proof.
  intros Hinv Ht Hh Hlen Hhon.
  pose proof Hh as (_ & _ & _ & _ & _ & _ & _ & Hl). unfold ikcp_input_segment.
  set (k0 := k <| rmt_wnd := h_wnd h |>).
  assert (rcv_same k (ikcp_shrink_buf (ikcp_parse_una k0 (h_una h)))) as Hsame.
  { etransitivity; [|apply rcv_same_shrink]. etransitivity; [|apply rcv_same_parse_una]. done. }
  assert (kcp_inv (ikcp_shrink_buf (ikcp_parse_una k0 (h_una h)))) as Hk.
  { pose proof (ikcp_input_segment_inv k l (mkheader 0 0 0 (h_wnd h) 0 0 (h_una h) 0) [])
      as H. apply H; [done| |done].
    destruct Hh as (_ & _ & _ & ? & _ & _ & ? & _). unfold header_ok. cbn. lia. }
  pose proof (tracks_same _ _ _ _ _ Hsame Ht) as Ht'. clear Hsame Hinv Ht.
  revert Hk Ht'. generalize (ikcp_shrink_buf (ikcp_parse_una k0 (h_una h))). clear k k0.
  intros k Hk Ht. destruct (_ =? _).
  { exists R. eapply tracks_same; [apply rcv_same_input_ack|done]. }
  destruct (Z.eqb_spec (h_cmd h) IKCP_CMD_PUSH) as [Ec|_]; cbn [fst].
  - unfold ikcp_input_push. destruct (_ <? 0); [|by exists R].
    assert (tracks S R got (ikcp_ack_push k (h_sn h) (h_ts h))) as Ht'
      by (eapply tracks_same; [apply rcv_same_ack_push|done]).
    destruct (_ >=? 0); [|by exists R].
    destruct (ikcp_ack_push_inv k (h_sn h) (h_ts h) Hk) as (_ & _ & _ & Hw & _).
    apply (tracks_parse_data S R); [exact Hw|exact Ht'|..].
    + unfold seg_wf. simp_upd. cbn [seg_data ikcp_segment_new].
      unfold Zlen in *. rewrite length_take. lia.
    + destruct (Hhon Ec) as (i & Hi & Hold & Esn & Es). exists i.
      split; [|lia]. split; [done|]. unfold seg_entry. by simp_upd.
  - exists R. destruct (_ =? _); cbn [fst]; [|done]. by apply (tracks_same _ _ _ k).
Qed.

Lemma tracks_input_loop S got fuel R k l data :
  kcp_inv k -> tracks S R got k -> Forall (honest_seg (Zlen S - 2147483647) S) (decode_packet fuel data) ->
  exists R', tracks S R' got (snd (ikcp_input_loop fuel k l data)).
Proof.
  revert R k l data. induction fuel as [|fuel IH]; intros R k l data Hk Ht Hd; [by exists R|].
  cbn [ikcp_input_loop decode_packet] in *. destruct (_ <? _); [by exists R|].
  pose proof (ikcp_decode_header_ok data) as [_ Hh].
  destruct (ikcp_decode_header data) as [rest h]. cbn [snd] in Hh.
  destruct (negb _); [by exists R|].
  destruct (_ || _) eqn:G; [by exists R|]. apply Forall_cons in Hd as [Hd1 Hd].
  destruct (_ && _); [by exists R|].
  pose proof (ikcp_input_segment_inv k l h rest Hk Hh ltac:(lia)) as Hk'.
  destruct (tracks_input_segment S R got k l h rest Hk Ht Hh ltac:(lia) Hd1) as [R1 Ht'].
  destruct (ikcp_input_segment k l h rest) as [k' l']. by eapply IH.
Qed.

Lemma rcv_same_cwnd k : rcv_same k (ikcp_input_cwnd k).
Proof. by destruct (ikcp_input_cwnd_frame k) as (c & i & -> & _). Qed.

(** Receiving a packet whose data segments are genuine keeps the order. *)
Lemma tracks_input S R got k data :
  kcp_inv k -> tracks S R got k -> honest (Zlen S - 2147483647) S data ->
  exists R', tracks S R' got (snd (ikcp_input k data)).
Proof.
  intros Hk Ht Hd. unfold ikcp_input. destruct (_ <? _); [by exists R|].
  destruct (tracks_input_loop S got _ R k (mklocals false 0 0) data Hk Ht Hd) as [R' Ht'].
  destruct (ikcp_input_loop _ _ _ _) as [[e|l] k1]; cbn [snd] in *; [by exists R'|].
  exists R'. set (k2 := if l_flag l then _ else _).
  assert (tracks S R' got k2) as H2.
  { unfold k2. destruct (l_flag l); [|done]. eapply tracks_same; [apply rcv_same_fastack|done]. }
  destruct (_ >? 0); [|done]. eapply tracks_same; [apply rcv_same_cwnd|done].
Qed.

(** ** Reading *)

Lemma tracks_recv_taken S R got k (peek : bool) :
  rcv_window k -> tracks S R got k ->
  exists R', tracks S R'
    (got ++ if peek then [] else map seg_entry (fst (msg_prefix (rcv_queue k)))) (recv_taken peek k).
Proof.
  intros Hw Ht. unfold recv_taken. pose proof (msg_prefix_app (rcv_queue k)) as Eq.
  destruct (msg_prefix (rcv_queue k)) as [m r]. cbn [fst snd] in *.
  set (k1 := k <| rcv_queue := if peek then rcv_queue k else r |>
               <| nrcv_que := if peek then nrcv_que k else nrcv_que k - Zlen m |>).
  assert (move_ok k1) as Hm.
  { pose proof (rcv_window_move_ok k Hw) as (H1 & H2 & H3 & H4).
    destruct Hw as (_ & _ & _ & _ & Hn & Hl & _). unfold move_ok, k1. simp_upd.
    rewrite Eq, Zlen_app in Hn. pose proof (Zlen_nonneg m). pose proof (Zlen_nonneg r).
    destruct peek; lia. }
  assert (tracks S R (got ++ if peek then [] else map seg_entry m) k1) as Ht1.
  { destruct Ht as [H1 H2 H3 H4]. split; unfold k1; simp_upd; try done.
    rewrite <- H3, Eq, map_app, <- app_assoc. destruct peek; [|done].
    by rewrite map_app. }
  destruct (ikcp_move_rcv_spec k1 Hm) as (m' & r' & E & Hc & Emv & _).
  change (rcv_buf k) with (rcv_buf k1) in *. cbv zeta. fold k1. rewrite Emv.
  exists (R + Zlen m'). by apply tracks_moved.
Qed.

(** A read returns the payload of the entries it takes off the stream; a refused or peeking
    read takes none. *)
Lemma tracks_recv S R got k len :
  rcv_window k -> recv_ok k -> -2147483648 < len < 2147483648 -> tracks S R got k ->
  let '(n, buf, k') := ikcp_recv k len in
  exists R', tracks S R'
      (got ++ if (n <? 0) || (len <? 0) then []
              else map seg_entry (fst (msg_prefix (rcv_queue k)))) k' /\
    (0 <= n -> buf = seg_bytes (fst (msg_prefix (rcv_queue k))) /\ head_incomplete k = false).
Proof.
  intros Hw Hok Hlen Ht. rewrite (ikcp_recv_spec k len Hok Hlen). cbv zeta.
  assert (forall c b, c < 0 -> exists R', tracks S R'
      (got ++ if (c <? 0) || (len <? 0) then []
              else map seg_entry (fst (msg_prefix (rcv_queue k)))) k /\
    (0 <= c -> b = seg_bytes (fst (msg_prefix (rcv_queue k))) /\ head_incomplete k = false)) as Hrej.
  { intros c b Hc. exists R. destruct (Z.ltb_spec c 0); [|lia]. cbn [orb].
    rewrite app_nil_r. split; [done|lia]. }
  destruct (_ =? 0); [by apply Hrej|]. destruct (head_incomplete k); [by apply Hrej|].
  destruct (Z.abs len <? _); [by apply Hrej|].
  destruct (tracks_recv_taken S R got k (len <? 0) Hw Ht) as [R' Ht'].
  exists R'. split; [|done].
  destruct (Z.ltb_spec (Zlen (seg_bytes (fst (msg_prefix (rcv_queue k))))) 0) as [F|_].
  { pose proof (Zlen_nonneg (seg_bytes (fst (msg_prefix (rcv_queue k))))). lia. }
  cbn [orb]. destruct (_ && _); [|done]. by apply (tracks_same _ _ _ (recv_taken (len <? 0) k)).
Qed.

(** ** The sender

    [S] is the stream admitted so far; what is in flight carries one of its last 65535
    entries. *)
Definition recent (S : list entry) (s : IKCPSEG) : Prop :=
  exists i, carries S s i /\ Zlen S - 65535 <= i.
Record emits (S : list entry) (k : IKCPCB) : Prop := {
  em_nxt : snd_nxt k = u32 (Zlen S);
  em_buf : Forall (recent S) (snd_buf k)
}.

Lemma carries_app S T s i : carries S s i -> carries (S ++ T) s i.
Proof.
  intros (Hi & E & Hs). split; [|split; [done|]].
  - rewrite Zlen_app. pose proof (Zlen_nonneg T). lia.
  - apply lookup_app_l_Some, Hs.
Qed.

Lemma recent_entry S s s' :
  seg_sn s' = seg_sn s -> seg_entry s' = seg_entry s -> recent S s -> recent S s'.
Proof. intros E1 E2 (i & Hc & Hi). exists i. unfold carries in *. by rewrite E1, E2. Qed.

(** Segments numbered consecutively from the end of the stream extend it. *)
Lemma consecutive_extends S q :
  consecutive (Zlen S) q ->
  Forall (fun s => exists i, carries (S ++ map seg_entry q) s i /\ Zlen S <= i) q.
Proof.
  revert S. induction q as [|s q IH]; intros S Hc; [constructor|]. destruct Hc as [Es Hc].
  pose proof (Zlen_nonneg S). cbn [map].
  replace (S ++ seg_entry s :: map seg_entry q) with ((S ++ [seg_entry s]) ++ map seg_entry q)
    by (by rewrite <- app_assoc).
  constructor.
  - exists (Zlen S). split; [|lia]. apply carries_app. split; [|split; [done|]].
    + rewrite Zlen_app. change (Zlen [seg_entry s]) with 1. lia.
    + unfold Zlen. rewrite Nat2Z.id. by apply list_lookup_middle.
  - specialize (IH (S ++ [seg_entry s])). rewrite Zlen_app in IH.
    change (Zlen [seg_entry s]) with 1 in IH. specialize (IH Hc).
    eapply Forall_impl; [exact IH|]. intros t (i & Ht & Hi). exists i. split; [done|lia].
Qed.

Lemma map_seg_entry_moved k wnd sn q : map seg_entry (segs_moved k wnd sn q) = map seg_entry q.
Proof.
  revert sn. induction q as [|s q IH]; intros sn; [done|]. cbn [segs_moved map].
  rewrite IH. reflexivity.
Qed.

(** The stream after a flush. *)
Definition flushed (S : list entry) (k : IKCPCB) : list entry :=
  S ++ map seg_entry (flush_admitted k).

(** What is in the send buffer when the data loop starts. *)
Lemma emits_moved S k : kcp_ok k -> emits S k -> emits (flushed S k) (flush_moved k).
Proof.
  intros Hok [Hn Hb]. pose proof (flush_window_inv k Hok) as Hw.
  destruct (flush_moved_buf k Hok) as (Eb & _ & En & _).
  destruct (move_count_spec k Hok) as (Hcnt & _ & Hd & Hle).
  destruct (flush_admitted_spec k Hok) as (_ & Hc & Hl & _).
  set (n := move_count _ _) in *. set (fk := flush_moved k) in *. clearbody fk.
  assert (Zlen (take n (snd_queue k)) = Z.of_nat n) as El.
  { unfold Zlen in *. rewrite length_take. lia. }
  assert (Zlen (flushed S k) = Zlen S + Z.of_nat n) as ElS.
  { unfold flushed. rewrite Zlen_app. unfold Zlen at 2. rewrite length_map. unfold Zlen in *. lia. }
  pose proof (u32_range (snd_nxt k - snd_una k)).
  split; [by rewrite En, Hn, ElS, u32_add_l|].
  assert (Forall (fun s => exists i, carries (flushed S k) s i /\ Zlen S - 65535 <= i) (snd_buf fk))
    as Hall.
  { rewrite Eb. apply Forall_app. split.
    - eapply Forall_impl; [exact Hb|]. intros s (i & Hi & Hold). exists i.
      split; [by apply carries_app|done].
    - rewrite Hn in Hc. apply (proj1 (consecutive_u32 _ _)) in Hc.
      eapply Forall_impl; [apply consecutive_extends, Hc|]. intros s (i & Hi & Hge).
      exists i. split; [done|lia]. }
  destruct Hw as [_ Hw]. apply Forall_forall. intros s Hs.
  rewrite Forall_forall in Hall, Hw. destruct (Hall s Hs) as (i & Hi & Hold).
  exists i. split; [done|]. destruct (Hw s Hs) as [Hoff _]. destruct Hi as (Hi & Es & _).
  rewrite En, Hd in Hoff. unfold off in Hoff. rewrite Es in Hoff.
  assert (u32 (Zlen (flushed S k) - i)
          = u32 (snd_nxt k - snd_una k) + Z.of_nat n - u32 (u32 i - snd_una k)) as Eu.
  { rewrite ElS, Hn in *. clear - Hoff Hle. pose proof (u32_range (u32 i - snd_una k)).
    rewrite <- (u32_small (u32 (u32 (Zlen S) - snd_una k) + Z.of_nat n - u32 (u32 i - snd_una k)))
      by lia.
    unfold u32. Z.div_mod_to_equations. lia. }
  pose proof (u32_range (u32 i - snd_una k)).
  assert (Zlen (flushed S k) - i
          = u32 (snd_nxt k - snd_una k) + Z.of_nat n - u32 (u32 i - snd_una k)) as Ed; [|lia].
  apply u32_inj_near; [lia|]. rewrite Eu. symmetry. apply u32_small. lia.
Qed.

(** ** Packets of the sender *)

Lemma decode_packet_wire g fuel cv :
  Forall (seg_accept cv) g -> (length g < fuel)%nat ->
  decode_packet fuel (packet g) = map (fun s => (seg_header s, seg_data s)) g.
Proof.
  revert fuel. induction g as [|s g IH]; intros fuel Hg Hf.
  - destruct fuel; [lia|]. done.
  - apply Forall_cons in Hg as [(_ & _ & Hwf & Hlen) Hg].
    destruct fuel as [|fuel]; [cbn in Hf; lia|]. unfold seg_wf in Hwf.
    pose proof (Zlen_nonneg (seg_data s)). pose proof (Zlen_nonneg (packet g)).
    change (packet (s :: g)) with (wire s ++ packet g). unfold wire. cbn [decode_packet map].
    rewrite (take_ge (seg_data s)) by (unfold Zlen in Hwf; lia).
    rewrite <- app_assoc, !Zlen_app, length_ikcp_encode_seg. unfold IKCP_OVERHEAD.
    destruct (Z.ltb_spec (24 + (Zlen (seg_data s) + Zlen (packet g))) 24); [lia|].
    rewrite ikcp_decode_encode_seg. cbn [seg_header h_len].
    rewrite (u32_small (seg_len s)) by lia. rewrite i32_small, Zlen_app by lia.
    destruct (_ || _) eqn:G1; [lia|].
    rewrite take_app_Zlen, drop_app_Zlen by done. f_equal. apply IH; [done|cbn in Hf; lia].
Qed.

Lemma honest_seg_weaken lo lo' S T hd :
  lo' <= lo -> honest_seg lo S hd -> honest_seg lo' (S ++ T) hd.
Proof.
  intros Hlo H Hc. destruct (H Hc) as (i & Hi & Hge & E & Hs). exists i.
  rewrite Zlen_app. pose proof (Zlen_nonneg T).
  split; [lia|split; [lia|split; [done|by apply lookup_app_l_Some]]].
Qed.

Lemma honest_weaken lo lo' S T data : lo' <= lo -> honest lo S data -> honest lo' (S ++ T) data.
Proof.
  intros Hlo H. eapply Forall_impl; [exact H|]. intros hd. by apply honest_seg_weaken.
Qed.

Lemma recent_honest_seg m cv S s :
  seg_sent m cv s -> recent S s -> honest_seg (Zlen S - 65535) S (seg_header s, seg_data s).
Proof.
  intros ((_ & _ & Hfrg) & _) (i & (Hi & Es & HS) & Hold) _. exists i.
  unfold seg_header. cbn [fst snd h_sn h_frg]. rewrite Es, u32_idemp, u8_small by done. done.
Qed.

Lemma flush_control_honest lo S k : Forall (fun s => honest_seg lo S (seg_header s, seg_data s))
  (flush_control_segs k).
Proof.
  unfold flush_control_segs. rewrite !Forall_app. set (s0 := flush_seg k).
  assert (forall sn ts, seg_cmd (s0 <| seg_sn := sn |> <| seg_ts := ts |>) = IKCP_CMD_ACK)
    as Hack by done.
  split_and!.
  - apply Forall_forall. intros s (sn & ts & ->)%ack_segs_elem. by intros F.
  - destruct (negb _); constructor; [|done]. by intros F.
  - destruct (negb _); constructor; [|done]. by intros F.
Qed.

Lemma flush_data_recent k S wnd q :
  Forall (recent S) q -> Forall (recent S) (flush_data_segs k wnd q).
Proof.
  intros Hq. unfold flush_data_segs. apply Forall_concat, Forall_map.
  eapply Forall_impl; [exact Hq|]. intros s Hs. cbn.
  destruct (flush_visit_frame k wnd s) as (En & _ & Ed & Ef & _). unfold flush_visit in En, Ed, Ef.
  destruct (flush_reason k s); [|done]. constructor; [|done].
  eapply recent_entry; [exact En| |exact Hs]. unfold seg_entry. by rewrite Ed, Ef.
Qed.

Lemma emits_visit S k k' wnd x st ss cw inc :
  emits S k ->
  emits S (with_cc (k <| snd_buf := map (flush_visit k' wnd) (snd_buf k) |>
                      <| xmit := x |> <| state := st |>) ss cw inc).
Proof.
  intros [Hn Hb]. unfold with_cc. split; simp_upd; [exact Hn|].
  apply Forall_map. eapply Forall_impl; [exact Hb|]. intros s Hs. cbn.
  destruct (flush_visit_frame k' wnd s) as (En & _ & Ed & Ef & _).
  eapply recent_entry; [exact En| |exact Hs]. unfold seg_entry. by rewrite Ed, Ef.
Qed.

(** Every segment a flush emits is in the stream. *)
Lemma flush_segs_honest S k :
  kcp_ok k -> emits S k ->
  Forall (fun s => honest_seg (Zlen (flushed S k) - 65535) (flushed S k) (seg_header s, seg_data s))
    (flush_control_segs k
     ++ flush_data_segs (flush_moved k) (flush_wnd k) (snd_buf (flush_moved k))).
Proof.
  intros Hok He. pose proof (emits_moved S k Hok He) as [_ Hb].
  pose proof (flush_moved_ok k Hok) as (_ & _ & _ & Hs & _).
  apply Forall_app. split; [apply flush_control_honest|].
  pose proof (flush_data_sent (flush_moved k) (flush_wnd k) _ _ _ Hs) as H1.
  pose proof (flush_data_recent (flush_moved k) _ (flush_wnd k) _ Hb) as H2.
  apply Forall_forall. intros s Hin. rewrite Forall_forall in H1, H2.
  eapply recent_honest_seg; [by apply H1|by apply H2].
Qed.

Lemma flush_packets_honest S k :
  kcp_ok k -> 0 <= conv k < 4294967296 -> emits S k -> updated k <> 0 ->
  Forall (honest (Zlen (flushed S k) - 65535) (flushed S k)) (snd (ikcp_flush k)).
Proof.
  intros Hok Hcv He Hu. destruct (ikcp_flush_packets k Hok Hu) as (gs & -> & Hg & Hcat).
  pose proof (flush_packets_accept k Hok Hcv) as Ha. pose proof (flush_segs_honest S k Hok He) as Hh.
  rewrite <- Hcat in Ha, Hh. clear - Hg Ha Hh. apply Forall_map.
  induction Hg as [|g gs [Hne _] Hg IH]; [done|]. cbn [concat] in Ha, Hh.
  apply Forall_app in Ha as [Ha1 Ha2]. apply Forall_app in Hh as [Hh1 Hh2].
  constructor; [|by apply IH]. unfold honest.
  rewrite (decode_packet_wire g _ (conv k)); [by apply Forall_map|done|].
  pose proof (length_packet g). destruct g; [done|]. cbn [length] in *. lia.
Qed.

(** A flush keeps the sender's stream in order. *)
Lemma emits_flush S k :
  kcp_ok k -> 0 <= conv k < 4294967296 -> emits S k ->
  let S' := if updated k =? 0 then S else flushed S k in
  emits S' (fst (ikcp_flush k)) /\
  Forall (honest (Zlen S' - 65535) S') (snd (ikcp_flush k)).
Proof.
  intros Hok Hcv He. cbv zeta. destruct (Z.eqb_spec (updated k) 0) as [E|Hu].
  { unfold ikcp_flush. rewrite E. cbn [Z.eqb fst snd]. done. }
  split; [|by apply flush_packets_honest].
  destruct (ikcp_flush_shape k Hok Hu) as (x & st & ss & cw & inc & _ & ->).
  destruct (flush_moved_buf k Hok) as [<- _].
  by apply emits_visit, emits_moved.
Qed.

(** ** What each call leaves alone *)

(** Calls that do not touch the sending side's queue nor its numbering. *)
Definition snd_keep (k k' : IKCPCB) : Prop :=
  snd_nxt k' = snd_nxt k /\ snd_queue k' = snd_queue k /\ stream k' = stream k /\
  conv k' = conv k /\
  forall P : IKCPSEG -> Prop,
    (forall s n, P s -> P (s <| seg_fastack := n |>)) ->
    Forall P (snd_buf k) -> Forall P (snd_buf k').

Lemma snd_frame_keep k k' : snd_frame k k' -> snd_keep k k'.
Proof. intros (_ & _ & _ & _ & E1 & _ & E4 & E2 & E3 & H). done. Qed.

Lemma snd_keep_input k data : snd_keep k (snd (ikcp_input k data)).
Proof.
  unfold ikcp_input. destruct (_ <? _); [done|].
  pose proof (snd_frame_input_loop (length data) k (mklocals false 0 0) data) as Hl.
  destruct (ikcp_input_loop _ _ _ _) as [[e|l] k']; cbn [snd] in *; [by apply snd_frame_keep|].
  set (k2 := if l_flag l then _ else _).
  assert (snd_frame k k2) as H2.
  { unfold k2. destruct (l_flag l); [|done]. etransitivity; [exact Hl|apply snd_frame_fastack]. }
  apply snd_frame_keep in H2. destruct (_ >? 0); [|done].
  destruct (ikcp_input_cwnd_frame k2) as (c & i & -> & _). exact H2.
Qed.

Lemma snd_keep_recv k len : snd_keep k (snd (ikcp_recv k len)).
Proof.
  unfold ikcp_recv. destruct (rcv_queue k); [done|]. cbv zeta.
  destruct (_ <? 0); [done|]. destruct (_ >? _); [done|].
  destruct (ikcp_recv_merge _ _ _ _ _) as [[[buf n] rest] nq]. cbn [snd].
  match goal with |- context [ikcp_move_rcv ?q ?k1] =>
    pose proof (snd_frame_keep _ _ (snd_frame_move_rcv q k1)) as H end.
  by destruct (_ && _).
Qed.

Lemma emits_keep S k k' : snd_keep k k' -> emits S k -> emits S k'.
Proof.
  intros (E & _ & _ & _ & H) [Hn Hb]. split; [by rewrite E|]. apply H; [|done].
  intros s n. by apply recent_entry.
Qed.

Lemma ikcp_nodelay_frame k nd iv resend nc :
  snd_keep k (ikcp_nodelay k nd iv resend nc) /\ rcv_same k (ikcp_nodelay k nd iv resend nc).
Proof.
  unfold ikcp_nodelay. cbv zeta.
  destruct (nd >=? 0), (negb (nd =? 0)), (iv >=? 0), (resend >=? 0), (nc >=? 0); done.
Qed.

Lemma ikcp_wndsize_frame k s r :
  snd_keep k (ikcp_wndsize k s r) /\ rcv_same k (ikcp_wndsize k s r).
Proof. unfold ikcp_wndsize. cbv zeta. by destruct (s >? 0), (r >? 0). Qed.

Lemma ikcp_setmtu_frame k b m :
  snd_keep k (snd (ikcp_setmtu b k m)) /\ rcv_same k (snd (ikcp_setmtu b k m)).
Proof. unfold ikcp_setmtu. destruct (_ || _); [done|]. by destruct (negb b). Qed.

Lemma rcv_same_flush k : kcp_ok k -> rcv_same k (fst (ikcp_flush k)).
Proof.
  intros Hok. destruct (decide (updated k = 0)) as [E|Hu].
  { unfold ikcp_flush. by rewrite E. }
  destruct (ikcp_flush_shape k Hok Hu) as (x & st & ss & cw & inc & _ & ->).
  destruct (flush_moved_eq k Hok) as [-> _].
  destruct (flush_probed_shape k) as (a & b & ->). done.
Qed.

Lemma rcv_same_send k b : kcp_ok k -> Zlen b < 2147483648 -> rcv_same k (snd (ikcp_send k b (Zlen b))).
Proof.
  intros [((Hm & Hn & Hfit) & _) _] Hb.
  destruct (ikcp_send_spec k b Hm Hb) as (q & _ & _ & _ & _ & E);
    [rewrite Hn; apply u32_range|done|]. cbv zeta in E. rewrite E. clear E.
  destruct (_ && _); [done|]. by destruct (_ <=? _).
Qed.

Lemma emits_send S k b :
  kcp_ok k -> Zlen b < 2147483648 -> emits S k -> emits S (snd (ikcp_send k b (Zlen b))).
Proof.
  intros [((Hm & Hn & Hfit) & _) _] Hb [H1 H2].
  destruct (ikcp_send_spec k b Hm Hb) as (q & _ & _ & _ & _ & E);
    [rewrite Hn; apply u32_range|done|]. cbv zeta in E. rewrite E. clear E.
  destruct (_ && _); [done|]. by destruct (_ <=? _).
Qed.

(** ** One call at the sender *)

Definition kcp_packets (op : kcp_op) (k : IKCPCB) : list bytes :=
  match op with
  | OpUpdate now => snd (ikcp_update k now)
  | OpFlush => snd (ikcp_flush k)
  | _ => []
  end.

(** The entries a call moves from the send queue to the stream. *)
Definition moved_entries (k k' : IKCPCB) : list entry :=
  map seg_entry (take (length (snd_queue k) - length (snd_queue k')) (snd_queue k)).

(** What is admitted or queued. *)
Definition pending (S : list entry) (k : IKCPCB) : list entry := S ++ map seg_entry (snd_queue k).

Lemma moved_entries_same k k' : snd_queue k' = snd_queue k -> moved_entries k k' = [].
Proof. intros E. unfold moved_entries. by rewrite E, Nat.sub_diag, take_0. Qed.

Lemma flush_queue k :
  kcp_ok k -> updated k <> 0 ->
  map seg_entry (flush_admitted k) = moved_entries k (fst (ikcp_flush k)) /\
  snd_queue k = take (move_count k (flush_window k)) (snd_queue k) ++ snd_queue (fst (ikcp_flush k)) /\
  map seg_entry (flush_admitted k)
    = map seg_entry (take (move_count k (flush_window k)) (snd_queue k)).
Proof.
  intros Hok Hu. destruct (ikcp_flush_shape k Hok Hu) as (x & st & ss & cw & inc & _ & ->).
  destruct (move_count_spec k Hok) as (Hcnt & _).
  assert (snd_queue (with_cc ((flush_moved k)
    <| snd_buf := map (flush_visit (flush_moved k) (flush_wnd k)) (snd_buf k ++ flush_admitted k) |>
    <| xmit := x |> <| state := st |>) ss cw inc) = drop (move_count k (flush_window k)) (snd_queue k))
    as Eq by (destruct (flush_moved_buf k Hok) as (_ & <- & _); reflexivity).
  unfold moved_entries. rewrite Eq, take_drop.
  unfold flush_admitted. rewrite map_seg_entry_moved.
  rewrite length_drop. replace (length (snd_queue k) - (length (snd_queue k) - _))%nat
    with (move_count k (flush_window k)) by (unfold Zlen in Hcnt; lia). done.
Qed.

Lemma flush_exec S k :
  kcp_ok k -> 0 <= conv k < 4294967296 -> emits S k ->
  let k' := fst (ikcp_flush k) in let S' := S ++ moved_entries k k' in
  emits S' k' /\ Forall (honest (Zlen S' - 65535) S') (snd (ikcp_flush k)) /\
  pending S' k' = pending S k.
Proof.
  intros Hok Hcv He. cbv zeta. pose proof (emits_flush S k Hok Hcv He) as Hf. cbv zeta in Hf.
  destruct (Z.eqb_spec (updated k) 0) as [E|Hu].
  - unfold ikcp_flush in *. rewrite E in *. cbn [Z.eqb fst snd] in *.
    rewrite moved_entries_same, app_nil_r by done. destruct Hf. done.
  - destruct (flush_queue k Hok Hu) as (Em & Eq & Ea). rewrite <- Em.
    destruct Hf as [Hf1 Hf2]. split; [exact Hf1|]. split; [exact Hf2|].
    unfold pending. rewrite Ea, <- app_assoc, <- map_app, <- Eq. done.
Qed.

(** What the program has written, as the protocol took it: a refused write in stream mode
    leaves behind the bytes that filled the tail segment. *)
Definition written (op : kcp_op) (k : IKCPCB) : list bytes :=
  match op with
  | OpSend b =>
      if fst (ikcp_send k b (Zlen b)) =? 0 then [b]
      else if stream k =? 0 then [] else [take (Z.to_nat (send_room k)) b]
  | _ => []
  end.

(** The entries of one message: [frg] counts down to 0 and fits its byte. *)
Fixpoint message_entries (l : list entry) : Prop :=
  match l with
  | [] => False
  | e :: l => fst e = Zlen l /\ Zlen l < 256 /\ (l = [] \/ message_entries l)
  end.

Lemma message_segs_entries m q :
  Forall (seg_fits m) q -> message_segs q -> message_entries (map seg_entry q).
Proof.
  induction 1 as [|s q (_ & _ & Hs) Hf IH]; [done|]. cbn [message_segs message_entries map].
  intros (_ & Ef & Hq). unfold Zlen in *. rewrite length_map. unfold seg_entry at 1. cbn [fst].
  split; [lia|split; [lia|]]. destruct Hq as [->|Hq]; [by left|right; auto].
Qed.

Lemma message_entries_segs q :
  Forall seg_wf q -> message_entries (map seg_entry q) -> message_segs q.
Proof.
  induction 1 as [|s q Hs Hf IH]; [done|]. cbn [message_segs message_entries map].
  unfold seg_entry at 1. unfold Zlen. rewrite length_map. cbn [fst]. intros (Ef & _ & Hq).
  split_and!; [done|done|]. destruct Hq as [Hq|Hq]; [|right; auto].
  left. by destruct q.
Qed.

Lemma send_pending S k b :
  kcp_ok k -> Zlen b < 2147483648 ->
  let k' := snd (ikcp_send k b (Zlen b)) in
  entry_bytes (pending S k') = entry_bytes (pending S k) ++ concat (written (OpSend b) k) /\
  stream k' = stream k /\
  (stream k = 0 -> exists M, pending S k' = pending S k ++ concat M /\
     Forall message_entries M /\ map entry_bytes M = written (OpSend b) k).
Proof.
  intros Hok Hb. cbv zeta. pose proof Hok as [(Hs & _) _]. unfold written.
  pose proof (ikcp_send_accepts k b Hs Hb) as Ha. pose proof (ikcp_send_queues k b Hs Hb) as Hq.
  assert (stream (snd (ikcp_send k b (Zlen b))) = stream k) as Est.
  { destruct Hs as (Hm & Hn & Hfit).
    destruct (ikcp_send_spec k b Hm Hb) as (q & _ & _ & _ & _ & E);
      [rewrite Hn; apply u32_range|done|]. cbv zeta in E. rewrite E.
    destruct (_ && _); [reflexivity|]. destruct (256 <=? _); reflexivity. }
  split; [|split; [exact Est|]].
  - unfold pending. rewrite !entry_bytes_app, !entry_bytes_segs, <- app_assoc. f_equal.
    destruct (ikcp_send k b (Zlen b)) as [r k']. cbn [fst snd] in *. destruct Hq as [_ ->].
    f_equal. destruct (r =? 0); [by rewrite concat_cons, app_nil_r|]. unfold send_room.
    destruct (stream k =? 0); [done|]. by rewrite concat_cons, app_nil_r.
  - intros E0. unfold send_room in *. rewrite E0 in *. cbn [Z.eqb] in *. rewrite Z.add_0_l in Ha.
    destruct (Z.leb_spec (Zlen b) (255 * mss k)) as [Hle|Hgt]; rewrite Ha; cbn [Z.eqb].
    + destruct (ikcp_send_message_spec k b Hs E0 Hle Hb) as (q & E & Hmsg & Hbq & Hqf & _).
      exists [map seg_entry q]. rewrite E. cbn [snd]. unfold pending. simp_upd.
      rewrite map_app, app_assoc. cbn [concat map]. rewrite app_nil_r, entry_bytes_segs, Hbq.
      split_and!; [done| |done]. constructor; [by eapply message_segs_entries|constructor].
    + exists []. cbn [concat map]. rewrite app_nil_r. split_and!; [|constructor|done].
      destruct Hs as (Hm & Hn & Hfit).
      destruct (ikcp_send_spec k b Hm Hb) as (q & Hsame & _ & _ & _ & E);
        [rewrite Hn; apply u32_range|done|]. cbv zeta in E. unfold pending.
      rewrite E, E0 in Ha. rewrite E, E0. cbn [negb andb Z.eqb] in *.
      revert Ha. destruct (256 <=? frag_count _ _); [|done]. intros _. cbn [snd]. simp_upd.
      by rewrite (Hsame E0).
Qed.

Lemma moved_entries_send k b :
  kcp_ok k -> Zlen b < 2147483648 -> moved_entries k (snd (ikcp_send k b (Zlen b))) = [].
Proof.
  intros [((Hm & Hn & Hfit) & _) _] Hb.
  destruct (ikcp_send_spec k b Hm Hb) as (q & _ & Hl & _ & _ & E);
    [rewrite Hn; apply u32_range|done|]. cbv zeta in E. rewrite E. unfold moved_entries.
  match goal with |- map _ (take ?n _) = _ => replace n with 0%nat; [done|] end.
  destruct (_ && _); [|destruct (256 <=? _)]; cbn [snd]; simp_upd; [lia|lia|].
  rewrite length_app. lia.
Qed.

(** A call at the sender other than a write. *)
Definition sender_step (S : list entry) (k k' : IKCPCB) (ps : list bytes) : Prop :=
  let S' := S ++ moved_entries k k' in
  emits S' k' /\ Forall (honest (Zlen S' - 65535) S') ps /\ pending S' k' = pending S k.

Lemma sender_step_keep S k k' : snd_keep k k' -> emits S k -> sender_step S k k' [].
Proof.
  intros Hk He. pose proof Hk as (_ & Eq & _). unfold sender_step.
  rewrite moved_entries_same, app_nil_r by done.
  split; [by eapply emits_keep|]. unfold pending. by rewrite Eq.
Qed.

Lemma sender_step_flush S k k1 :
  kcp_ok k1 -> 0 <= conv k1 < 4294967296 -> snd_queue k1 = snd_queue k -> emits S k1 ->
  sender_step S k (fst (ikcp_flush k1)) (snd (ikcp_flush k1)).
Proof.
  intros Hok Hcv Eq He. unfold sender_step, pending, moved_entries. rewrite <- Eq.
  by apply flush_exec.
Qed.

Lemma sender_step_update S k now :
  kcp_ok k -> 0 <= conv k < 4294967296 -> emits S k ->
  sender_step S k (fst (ikcp_update k now)) (snd (ikcp_update k now)).
Proof.
  intros Hok Hcv He. destruct (ikcp_update_cases k now) as (u & ts & _ & [-> | ->]).
  - apply sender_step_flush; [by apply kcp_ok_clock|done|done|]. by destruct He.
  - by apply sender_step_keep.
Qed.

Lemma exec_other S k op :
  kcp_ok k -> 0 <= conv k < 4294967296 -> emits S k ->
  (forall b, op <> OpSend b) -> sender_step S k (kcp_exec op k) (kcp_packets op k).
Proof.
  intros Hok Hcv He Hop. destruct op; cbn [kcp_exec kcp_packets].
  - by destruct (Hop b).
  - apply sender_step_keep; [apply snd_keep_recv|done].
  - apply sender_step_keep; [apply snd_keep_input|done].
  - by apply sender_step_update.
  - by apply sender_step_flush.
  - apply sender_step_keep; [apply ikcp_setmtu_frame|done].
  - by apply sender_step_keep.
  - apply sender_step_keep; [apply ikcp_nodelay_frame|done].
  - apply sender_step_keep; [apply ikcp_wndsize_frame|done].
Qed.

(** One call at the sender: the stream, the packets and the program's writes stay in step. *)
Lemma exec_sender S k op :
  kcp_ok k -> op_allowed op k -> 0 <= conv k < 4294967296 -> emits S k ->
  let k' := kcp_exec op k in let S' := S ++ moved_entries k k' in
  emits S' k' /\ Forall (honest (Zlen S' - 65535) S') (kcp_packets op k) /\
  entry_bytes (pending S' k') = entry_bytes (pending S k) ++ concat (written op k) /\
  (stream k = 0 -> exists M, pending S' k' = pending S k ++ concat M /\
     Forall message_entries M /\ map entry_bytes M = written op k).
Proof.
  intros Hok Ha Hcv He. cbv zeta.
  assert ((exists b, op = OpSend b) \/ ((forall b, op <> OpSend b) /\ written op k = []))
    as [[b ->]|[Hop ->]] by (destruct op; [left; by eexists|by right..]).
  - cbn [kcp_exec op_allowed kcp_packets] in *. rewrite moved_entries_send, app_nil_r by done.
    destruct (send_pending S k b Hok Ha) as (E1 & _ & E3).
    split; [by apply emits_send|]. split; [constructor|]. done.
  - destruct (exec_other S k op Hok Hcv He Hop) as (H1 & H2 & H3).
    split; [exact H1|]. split; [exact H2|]. rewrite H3. cbn [concat]. rewrite app_nil_r.
    split; [done|]. intros _. exists []. cbn [concat map]. by rewrite app_nil_r.
Qed.

(** No call changes the conversation number or the mode. *)
Definition static_same (k k' : IKCPCB) : Prop := conv k' = conv k /\ stream k' = stream k.

Lemma static_flush k : kcp_ok k -> static_same k (fst (ikcp_flush k)).
Proof.
  intros Hok. destruct (decide (updated k = 0)) as [E|Hu].
  { unfold ikcp_flush. by rewrite E. }
  destruct (ikcp_flush_shape k Hok Hu) as (x & st & ss & cw & inc & _ & ->).
  destruct (flush_moved_eq k Hok) as [-> _].
  destruct (flush_probed_shape k) as (a & b & ->). done.
Qed.

Lemma static_send k b :
  kcp_ok k -> Zlen b < 2147483648 -> static_same k (snd (ikcp_send k b (Zlen b))).
Proof.
  intros [((Hm & Hn & Hfit) & _) _] Hb.
  destruct (ikcp_send_spec k b Hm Hb) as (q & _ & _ & _ & _ & E);
    [rewrite Hn; apply u32_range|done|]. cbv zeta in E. rewrite E. clear E.
  destruct (_ && _); [done|]. by destruct (256 <=? _).
Qed.

Lemma snd_keep_static k k' : snd_keep k k' -> static_same k k'.
Proof. intros (_ & _ & E1 & E2 & _). done. Qed.

Lemma exec_static k op : kcp_ok k -> op_allowed op k -> static_same k (kcp_exec op k).
Proof.
  intros Hok Ha. destruct op; cbn [kcp_exec op_allowed] in *.
  - by apply static_send.
  - apply snd_keep_static, snd_keep_recv.
  - apply snd_keep_static, snd_keep_input.
  - destruct (ikcp_update_cases k now) as (u & ts & _ & [-> | ->]); [|done].
    apply (static_flush (with_clock k now u ts)). by apply kcp_ok_clock.
  - by apply static_flush.
  - apply snd_keep_static, ikcp_setmtu_frame.
  - done.
  - apply snd_keep_static, ikcp_nodelay_frame.
  - apply snd_keep_static, ikcp_wndsize_frame.
Qed.

(** A call at the receiver other than [ikcp_recv] and [ikcp_input] leaves the receive side. *)
Lemma exec_receiver k op :
  kcp_ok k -> op_allowed op k ->
  (forall len, op <> OpRecv len) -> (forall data, op <> OpInput data) ->
  rcv_same k (kcp_exec op k).
Proof.
  intros Hok Ha Hr Hi. destruct op; cbn [kcp_exec op_allowed] in *.
  - by apply rcv_same_send.
  - by destruct (Hr len).
  - by destruct (Hi data).
  - destruct (ikcp_update_cases k now) as (u & ts & _ & [-> | ->]); [|done].
    apply (rcv_same_flush (with_clock k now u ts)). by apply kcp_ok_clock.
  - by apply rcv_same_flush.
  - apply ikcp_setmtu_frame.
  - done.
  - apply ikcp_nodelay_frame.
  - apply ikcp_wndsize_frame.
Qed.
