(* ===== verification/Network.v ===== *)
(** Two endpoints and a network: the transition system and its delivery theorems. *)
From stdpp Require Import relations.
From S2P Require Import Prelude Bytes IkcpTypes IkcpSend IkcpInput IkcpFlush IkcpFlushSpec.
From S2P Require Import IkcpInv Wire Delivery.

(** [s_a] writes, [s_b] reads.  The network [s_net] is every packet [s_a] ever emitted, each
    with the length of the stream at that time; it is never emptied, so a packet may be
    delivered late, out of order, many times or never.  [s_stream] and [s_got] are the
    segments admitted and the segments read; [s_in] and [s_out] the writes and the reads. *)
Record sys := mksys {
  s_a : IKCPCB; s_b : IKCPCB;
  s_stream : list entry; s_got : list entry;
  s_net : list (Z * bytes);
  s_in : list bytes; s_out : list bytes
}.

Definition sys_call_a (op : kcp_op) (s : sys) : sys :=
  let a' := kcp_exec op (s_a s) in
  let stream' := s_stream s ++ moved_entries (s_a s) a' in
  mksys a' (s_b s) stream' (s_got s)
    (s_net s ++ map (fun p => (Zlen stream', p)) (kcp_packets op (s_a s)))
    (s_in s ++ written op (s_a s)) (s_out s).

Definition sys_call_b (op : kcp_op) (s : sys) : sys :=
  mksys (s_a s) (kcp_exec op (s_b s)) (s_stream s) (s_got s) (s_net s) (s_in s) (s_out s).

Definition sys_read (len : Z) (s : sys) : sys :=
  let '(n, buf, b') := ikcp_recv (s_b s) len in
  let taken := negb ((n <? 0) || (len <? 0)) in
  mksys (s_a s) b' (s_stream s)
    (s_got s ++ if taken then map seg_entry (fst (msg_prefix (rcv_queue (s_b s)))) else [])
    (s_net s) (s_in s) (s_out s ++ if taken then [buf] else []).

(** What the writer has admitted beyond what the reader has put in order. *)
Definition lead (s : sys) (stream' : list entry) : Z :=
  Zlen stream' - (Zlen (s_got s) + Zlen (rcv_queue (s_b s))).

(** The endpoints make any call of the API.  The network delivers any packet it holds that is
    younger than 2^31 - 65536 segments, and the writer is never 2^31 segments ahead: segment
    numbers are modulo 2^32, and these are the conditions under which they identify a
    segment. *)
Inductive sys_step : sys -> sys -> Prop :=
| step_a op s :
    op_allowed op (s_a s) -> lead s (s_stream (sys_call_a op s)) < 2147483648 ->
    sys_step s (sys_call_a op s)
| step_b op s :
    op_allowed op (s_b s) ->
    (forall len, op <> OpRecv len) -> (forall data, op <> OpInput data) ->
    sys_step s (sys_call_b op s)
| step_deliver n p s :
    (n, p) ∈ s_net s -> Zlen (s_stream s) - n < 2147483648 - 65536 ->
    sys_step s (sys_call_b (OpInput p) s)
| step_read len s :
    -2147483648 < len < 2147483648 -> Zlen (seg_bytes (rcv_queue (s_b s))) < 2147483648 ->
    sys_step s (sys_read len s).

(** Fresh endpoints, configured in any way. *)
Definition sys_start (a b : IKCPCB) : sys := mksys a b [] [] [] [] [].
Definition fresh (k : IKCPCB) : Prop :=
  kcp_ok k /\ 0 <= conv k < 4294967296 /\ snd_nxt k = 0 /\ snd_buf k = [] /\ snd_queue k = [] /\
  rcv_nxt k = 0 /\ rcv_buf k = [] /\ rcv_queue k = [].

(** ** The invariant of the system *)
Record sys_inv (s : sys) : Prop := {
  si_a : kcp_ok (s_a s);
  si_conv : 0 <= conv (s_a s) < 4294967296;
  si_b : kcp_ok (s_b s);
  si_emits : emits (s_stream s) (s_a s);
  si_tracks : exists R, tracks (s_stream s) R (s_got s) (s_b s);
  si_net : Forall (fun np => fst np <= Zlen (s_stream s) /\
                             honest (fst np - 65535) (s_stream s) (snd np)) (s_net s);
  si_in : entry_bytes (pending (s_stream s) (s_a s)) = concat (s_in s);
  si_out : entry_bytes (s_got s) = concat (s_out s)
}.

Lemma sys_inv_start a b : fresh a -> fresh b -> sys_inv (sys_start a b).
Proof.
  intros (Ha & Hc & Hn & Hb & Hq & _) (Hbo & _ & _ & _ & _ & Hrn & Hrb & Hrq).
  split; cbn; try done.
  - split; [by rewrite Hn|by rewrite Hb].
  - exists 0. split; [by rewrite Hrn|done|by rewrite Hrq|by rewrite Hrb].
  - unfold pending. by rewrite Hq.
Qed.

(** The number of segments in order is what was read and what is queued. *)
Lemma tracks_count S R got k : tracks S R got k -> R = Zlen got + Zlen (rcv_queue k).
Proof.
  intros [_ [HR _] Hp _]. apply (f_equal length) in Hp.
  rewrite length_app, length_map, length_take in Hp. unfold Zlen in *. lia.
Qed.

(** The stream grows under the receiver. *)
Lemma tracks_grow S T R got k :
  rcv_window k -> tracks S R got k -> Zlen (S ++ T) - R < 2147483648 -> tracks (S ++ T) R got k.
Proof.
  intros Hw [H1 [H2 H3] H4 H5] Hlen. rewrite Zlen_app in Hlen. pose proof (Zlen_nonneg T).
  split; rewrite ?Zlen_app; try done; try lia.
  - rewrite H4. unfold Zlen in *. rewrite take_app_le by lia. done.
  - destruct Hw as (_ & _ & [_ Hw] & _). apply Forall_forall. intros s Hs.
    rewrite Forall_forall in H5, Hw. destruct (H5 s Hs) as (i & Hi & Hold).
    destruct (Hw s Hs) as [Hoff _]. exists i. split; [by apply carries_app|].
    destruct Hi as (Hi & Es & _). unfold off in Hoff. rewrite Es, H1, u32_sub_l, u32_sub_r in Hoff.
    rewrite Zlen_app. assert (0 <= i - R); [|lia].
    destruct (Z.le_gt_cases 0 (i - R)) as [|Hneg]; [done|]. exfalso.
    unfold u32 in Hoff. Z.div_mod_to_equations. lia.
Qed.

Lemma sys_inv_call_a op s :
  sys_inv s -> op_allowed op (s_a s) -> lead s (s_stream (sys_call_a op s)) < 2147483648 ->
  sys_inv (sys_call_a op s).
Proof.
  intros [Ha Hcv Hb He (R & Ht) Hnet Hin Hout] Hop Hlead.
  destruct (exec_sender (s_stream s) (s_a s) op Ha Hop Hcv He) as (H1 & H2 & H3 & _).
  unfold lead in Hlead. rewrite <- (tracks_count _ _ _ _ Ht) in Hlead.
  destruct (exec_static (s_a s) op Ha Hop) as [Ec _].
  unfold sys_call_a in *. cbn [s_stream] in Hlead.
  set (a' := kcp_exec op (s_a s)) in *. set (T := moved_entries (s_a s) a') in *.
  split; cbn [s_a s_b s_stream s_got s_net s_in s_out]; try done.
  - by eapply kcp_step_ok; [apply kcp_step_op|].
  - by rewrite Ec.
  - exists R. destruct Hb as [(_ & _ & _ & Hw & _) _]. by apply tracks_grow.
  - apply Forall_app. split.
    + eapply Forall_impl; [exact Hnet|]. intros [n p] [Hn Hp]. cbn [fst snd] in *.
      rewrite Zlen_app. pose proof (Zlen_nonneg T). split; [lia|]. by eapply honest_weaken; [|exact Hp].
    + apply Forall_map. eapply Forall_impl; [exact H2|]. intros p Hp. cbn [fst snd]. done.
  - rewrite H3, concat_app. by rewrite Hin.
Qed.

Lemma sys_inv_call_b op s :
  sys_inv s -> kcp_ok (kcp_exec op (s_b s)) ->
  (exists R, tracks (s_stream s) R (s_got s) (kcp_exec op (s_b s))) -> sys_inv (sys_call_b op s).
Proof. intros [Ha Hcv Hb He Ht Hnet Hin Hout] Hb' Ht'. by split. Qed.

Lemma sys_inv_read len s :
  sys_inv s -> -2147483648 < len < 2147483648 ->
  Zlen (seg_bytes (rcv_queue (s_b s))) < 2147483648 -> sys_inv (sys_read len s).
Proof.
  intros [Ha Hcv Hb He (R & Ht) Hnet Hin Hout] Hlen Hbytes.
  pose proof Hb as [(_ & _ & _ & Hw & _) _].
  assert (recv_ok (s_b s)) as Hrok.
  { destruct Hw as (_ & _ & _ & _ & Hn & Hl & _ & Hf). unfold recv_ok. split_and!; try done. lia. }
  pose proof (tracks_recv _ R _ _ len Hw Hrok Hlen Ht) as Hr.
  pose proof (ikcp_recv_ok (s_b s) len Hb) as Hb'. unfold sys_read.
  destruct (ikcp_recv (s_b s) len) as [[n buf] b']. cbn [snd] in Hb'.
  destruct Hr as (R' & Ht' & Hbuf).
  split; cbn [s_a s_b s_stream s_got s_net s_in s_out]; try done.
  - exists R'. by destruct (_ || _).
  - destruct (Z.ltb_spec n 0), (Z.ltb_spec len 0); cbn [orb negb];
      rewrite ?app_nil_r; try done.
    destruct (Hbuf ltac:(lia)) as [-> _].
    rewrite entry_bytes_app, concat_app, Hout, entry_bytes_segs. cbn [concat].
    by rewrite app_nil_r.
Qed.

Lemma sys_inv_step s s' : sys_step s s' -> sys_inv s -> sys_inv s'.
Proof.
  intros Hs Hi. pose proof Hi as [Ha Hcv Hb He (R & Ht) Hnet Hin Hout].
  destruct Hs as [op s Hop Hl|op s Hop Hr Hn|n p s Hnp Hage|len s Hlen Hbytes].
  - by apply sys_inv_call_a.
  - apply sys_inv_call_b; [done|by eapply kcp_step_ok; [apply kcp_step_op|]|].
    exists R. eapply tracks_same; [by apply exec_receiver|done].
  - apply sys_inv_call_b; [done|by eapply kcp_step_ok; [apply (kcp_step_op (OpInput p))|]|].
    rewrite Forall_forall in Hnet. destruct (Hnet _ Hnp) as [_ Hp]. cbn [fst snd] in Hp.
    apply (tracks_input _ R); [apply Hb|done|].
    rewrite <- (app_nil_r (s_stream s)) at 2. eapply honest_weaken; [|exact Hp]. lia.
  - by apply sys_inv_read.
Qed.

Lemma sys_inv_reachable s s' : rtc sys_step s s' -> sys_inv s -> sys_inv s'.
Proof. induction 1 as [|s1 s2 s3 Hs _ IH]; [done|]. intros Hi. by eapply IH, sys_inv_step. Qed.

Lemma sys_inv_prefix s : sys_inv s -> concat (s_out s) `prefix_of` concat (s_in s).
Proof.
  intros [_ _ _ _ (R & [_ _ Hp _]) _ Hin Hout]. rewrite <- Hout, <- Hin. unfold pending.
  exists (entry_bytes (map seg_entry (rcv_queue (s_b s)) ++ drop (Z.to_nat R) (s_stream s)
                       ++ map seg_entry (snd_queue (s_a s)))).
  rewrite <- entry_bytes_app, !app_assoc, Hp, take_drop. done.
Qed.

(** C4: Whatever the network does, the bytes read are a prefix of the bytes written: nothing is
    lost, repeated, reordered or made up. *)
Theorem stream_delivery a b s :
  fresh a -> fresh b -> rtc sys_step (sys_start a b) s ->
  concat (s_out s) `prefix_of` concat (s_in s).
Proof. intros Ha Hb Hs. by eapply sys_inv_prefix, sys_inv_reachable, sys_inv_start. Qed.

(** ** Message mode *)

(** A complete head of the receive queue is the next message of the stream. *)
Lemma next_message k rest Ms :
  Forall seg_wf (rcv_queue k) -> nrcv_que k = Zlen (rcv_queue k) -> head_incomplete k = false ->
  map seg_entry (rcv_queue k) ++ rest = concat Ms -> Forall message_entries Ms ->
  exists m Ms', Ms = m :: Ms' /\ map seg_entry (fst (msg_prefix (rcv_queue k))) = m.
Proof.
  intros Hwf Hn Hh E HM. unfold head_incomplete in Hh.
  destruct (rcv_queue k) as [|s q] eqn:Eq; [done|].
  destruct Ms as [|m Ms]; [done|]. exists m, Ms. split; [done|].
  apply Forall_cons in HM as [Hm HM]. destruct m as [|e l]; [done|].
  cbn [concat map app] in E. injection E as Ee El. pose proof Hm as (Hf & Hmax & _).
  assert (length l <= length q)%nat as Hlen.
  { rewrite <- Ee in Hf. unfold seg_entry in Hf. cbn [fst] in Hf. rewrite Hf, Hn in Hh.
    unfold Zlen in *. cbn [length] in Hh. destruct (Z.eqb_spec (Z.of_nat (length l)) 0); [lia|].
    rewrite u32_small in Hh by lia. cbn [negb andb] in Hh. lia. }
  assert (map seg_entry (s :: take (length l) q) = e :: l) as Em.
  { cbn [map]. rewrite Ee. f_equal. rewrite <- firstn_map.
    apply (f_equal (take (length l))) in El. rewrite take_app_le in El by (by rewrite length_map).
    by rewrite El, take_app_length. }
  rewrite <- (take_drop (length l) q), app_comm_cons, msg_prefix_message; [exact Em| |].
  - apply message_entries_segs; [|by rewrite Em].
    apply Forall_cons in Hwf as [Hs Hq]. constructor; [done|by apply Forall_take].
  - apply (f_equal length) in Em. rewrite length_map in Em. unfold Zlen in *.
    rewrite Em. cbn [length]. lia.
Qed.

Definition msg_inv (s : sys) : Prop :=
  exists M j, (j <= length M)%nat /\ pending (s_stream s) (s_a s) = concat M /\
    Forall message_entries M /\ s_in s = map entry_bytes M /\
    s_got s = concat (take j M) /\ s_out s = map entry_bytes (take j M).

Lemma msg_inv_read len s :
  sys_inv s -> msg_inv s -> -2147483648 < len < 2147483648 ->
  Zlen (seg_bytes (rcv_queue (s_b s))) < 2147483648 -> msg_inv (sys_read len s).
Proof.
  intros [Ha Hcv Hb He (R & Ht) Hnet Hin Hout] (M & j & Hj & Hp & HM & Hi & Hg & Ho) Hlen Hbytes.
  pose proof Hb as [(_ & _ & _ & Hw & _) _].
  pose proof Hw as (_ & _ & _ & _ & Hn & Hl & _ & Hf).
  assert (recv_ok (s_b s)) as Hrok by (unfold recv_ok; split_and!; try done; lia).
  pose proof (tracks_recv _ R _ _ len Hw Hrok Hlen Ht) as Hr. unfold sys_read.
  destruct (ikcp_recv (s_b s) len) as [[n buf] b']. destruct Hr as (R' & _ & Hbuf).
  destruct (Z.ltb_spec n 0), (Z.ltb_spec len 0); cbn [orb negb];
    try (exists M, j; cbn [s_a s_stream s_in s_got s_out]; by rewrite !app_nil_r).
  destruct (Hbuf ltac:(lia)) as [-> Hh]. destruct Ht as [_ _ Htp _].
  assert (map seg_entry (rcv_queue (s_b s)) ++ drop (Z.to_nat R) (s_stream s)
            ++ map seg_entry (snd_queue (s_a s)) = concat (drop j M)) as Erest.
  { apply (app_inv_head (s_got s)). rewrite !app_assoc, Htp, take_drop, Hg.
    rewrite <- concat_app, take_drop. exact Hp. }
  destruct (next_message (s_b s) _ (drop j M) Hf Hn Hh Erest) as (m & Ms & Em & Eq);
    [by apply Forall_drop|].
  assert (take (Datatypes.S j) M = take j M ++ [m]) as Et.
  { apply take_S_r. rewrite <- (Nat.add_0_r j), <- lookup_drop, Em. done. }
  exists M, (Datatypes.S j). cbn [s_a s_stream s_in s_got s_out]. rewrite Et, Eq.
  split_and!; try done.
  - assert (length (drop j M) <> 0)%nat by (by rewrite Em). rewrite length_drop in *. lia.
  - rewrite concat_app, Hg. cbn [concat]. by rewrite app_nil_r.
  - rewrite map_app, Ho. cbn [map]. by rewrite <- Eq, entry_bytes_segs.
Qed.

Lemma msg_inv_call_a op s :
  sys_inv s -> msg_inv s -> stream (s_a s) = 0 -> op_allowed op (s_a s) ->
  msg_inv (sys_call_a op s).
Proof.
  intros [Ha Hcv Hb He _ _ _ _] (M & j & Hj & Hp & HM & Hi & Hg & Ho) Hst Hop.
  destruct (exec_sender (s_stream s) (s_a s) op Ha Hop Hcv He) as (_ & _ & _ & Hm).
  destruct (Hm Hst) as (M' & Hp' & HM' & Hw).
  exists (M ++ M'), j. unfold sys_call_a. cbn [s_a s_stream s_in s_got s_out].
  rewrite length_app, concat_app, map_app, take_app_le, Hp', Hp, Hi, Hw by lia.
  split_and!; try done; [lia|]. by apply Forall_app.
Qed.

Lemma msg_inv_step s s' :
  sys_step s s' -> sys_inv s -> stream (s_a s) = 0 -> msg_inv s ->
  msg_inv s' /\ stream (s_a s') = 0.
Proof.
  intros Hs Hi Hst Hm.
  destruct Hs as [op s Hop Hl|op s Hop Hr Hn|n p s Hnp Hage|len s Hlen Hbytes].
  - split; [by apply msg_inv_call_a|].
    destruct (exec_static (s_a s) op (si_a s Hi) Hop) as [_ E]. cbn [sys_call_a s_a]. by rewrite E.
  - done.
  - done.
  - split; [by apply msg_inv_read|]. unfold sys_read.
    by destruct (ikcp_recv (s_b s) len) as [[n buf] b'].
Qed.

Lemma msg_inv_start a b : fresh a -> msg_inv (sys_start a b).
Proof.
  intros (_ & _ & _ & _ & Hq & _). exists [], 0%nat.
  cbn [sys_start s_a s_stream s_in s_got s_out]. unfold pending. by rewrite Hq.
Qed.

Lemma msg_inv_reachable s s' :
  rtc sys_step s s' -> sys_inv s -> stream (s_a s) = 0 -> msg_inv s -> msg_inv s'.
Proof.
  induction 1 as [|s1 s2 s3 Hs _ IH]; [done|]. intros Hi Hst Hm.
  destruct (msg_inv_step s1 s2 Hs Hi Hst Hm) as [Hm' Hst']. apply IH; [|done|done].
  by eapply sys_inv_step.
Qed.

Lemma msg_inv_prefix s : msg_inv s -> s_out s `prefix_of` s_in s.
Proof.
  intros (M & j & _ & _ & _ & -> & _ & ->). exists (map entry_bytes (drop j M)).
  by rewrite <- map_app, take_drop.
Qed.

(** In message mode the messages read are a prefix of the messages written: boundaries are
    kept too. *)
Theorem message_delivery a b s :
  fresh a -> fresh b -> stream a = 0 -> rtc sys_step (sys_start a b) s ->
  s_out s `prefix_of` s_in s.
Proof.
  intros Ha Hb Hst Hs. apply msg_inv_prefix. eapply msg_inv_reachable; [exact Hs| |done|].
  - by apply sys_inv_start.
  - by apply msg_inv_start.
Qed.
