(* ===== verification/Fifo.v ===== *)
(** What the protocol core promises, as an abstract machine: a queue.  The two endpoints and the
    network refine it, at the level of bytes and, in message mode, of messages. *)
From stdpp Require Import relations.
From S2P Require Import Prelude Bytes IkcpTypes IkcpSend IkcpInput IkcpFlush IkcpFlushSpec.
From S2P Require Import IkcpInv Wire Delivery Network.

(** What can be seen of the two endpoints: a write that is accepted, and a read. *)
Inductive visible := Put (b : bytes) | Get (b : bytes).

(** ** The queue *)
Section Queue.
Context {A : Type} (items : bytes -> list A).

Inductive fifo_step : list A -> visible -> list A -> Prop :=
| fifo_put q b : fifo_step q (Put b) (q ++ items b)
| fifo_get q b : fifo_step (items b ++ q) (Get b) q.

Inductive fifo_run : list A -> list visible -> list A -> Prop :=
| fifo_run_nil q : fifo_run q [] q
| fifo_run_cons q e q1 tr q2 : fifo_step q e q1 -> fifo_run q1 tr q2 -> fifo_run q (e :: tr) q2.

Lemma fifo_run_app q tr q1 tr' q2 :
  fifo_run q tr q1 -> fifo_run q1 tr' q2 -> fifo_run q (tr ++ tr') q2.
Proof. induction 1; [done|]. intros H2. econstructor; [done|auto]. Qed.

Definition all_items (bs : list bytes) : list A := concat (map items bs).

Lemma all_items_app l r : all_items (l ++ r) = all_items l ++ all_items r.
Proof. unfold all_items. by rewrite map_app, concat_app. Qed.

Lemma fifo_puts ws q : fifo_run q (map Put ws) (q ++ all_items ws).
Proof.
  revert q. induction ws as [|w ws IH]; intros q.
  - cbn. rewrite app_nil_r. constructor.
  - cbn [map]. econstructor; [apply fifo_put|]. unfold all_items. cbn [map concat].
    rewrite app_assoc. apply IH.
Qed.

Lemma fifo_gets rs q : fifo_run (all_items rs ++ q) (map Get rs) q.
Proof.
  induction rs as [|r rs IH]; [constructor|]. unfold all_items. cbn [map concat].
  rewrite <- app_assoc. econstructor; [apply fifo_get|apply IH].
Qed.

(** The queue holds what was written and not read. *)
Definition holds (s : sys) (q : list A) : Prop :=
  all_items (s_in s) = all_items (s_out s) ++ q.

(** A step that keeps what is read a prefix of what is written is a step of the queue. *)
Lemma fifo_simulates s s' q ws rs :
  holds s q -> s_in s' = s_in s ++ ws -> s_out s' = s_out s ++ rs ->
  all_items (s_out s') `prefix_of` all_items (s_in s') ->
  exists q', fifo_run q (map Put ws ++ map Get rs) q' /\ holds s' q'.
Proof.
  unfold holds. intros Hq Ei Eo (q' & Hp). exists q'. split; [|exact Hp].
  rewrite Ei, Eo, !all_items_app, Hq, <- !app_assoc in Hp. apply app_inv_head in Hp.
  eapply fifo_run_app; [apply fifo_puts|]. rewrite Hp. apply fifo_gets.
Qed.
End Queue.

(** ** The runs of the system, with what can be seen of them *)
Inductive sys_run : sys -> list visible -> sys -> Prop :=
| sys_run_nil s : sys_run s [] s
| sys_run_cons s1 s2 s3 ws rs tr :
    sys_step s1 s2 -> s_in s2 = s_in s1 ++ ws -> s_out s2 = s_out s1 ++ rs ->
    sys_run s2 tr s3 -> sys_run s1 (map Put ws ++ map Get rs ++ tr) s3.

(** Every run can be seen. *)
Lemma sys_run_exists s s' : rtc sys_step s s' -> exists tr, sys_run s tr s'.
Proof.
  induction 1 as [s|s1 s2 s3 Hs _ (tr & IH)]; [exists []; constructor|].
  assert (exists ws rs, s_in s2 = s_in s1 ++ ws /\ s_out s2 = s_out s1 ++ rs) as (ws & rs & Ei & Eo).
  { destruct Hs as [op s Hop Hl|op s Hop Hr Hn|n p s Hnp Hage|len s Hlen Hbytes].
    - exists (written op (s_a s)), []. by rewrite app_nil_r.
    - exists [], []. by rewrite !app_nil_r.
    - exists [], []. by rewrite !app_nil_r.
    - unfold sys_read. destruct (ikcp_recv (s_b s) len) as [[n buf] b'].
      eexists [], _. rewrite app_nil_r. done. }
  eexists. by eapply sys_run_cons.
Qed.

Lemma run_refines {A} (items : bytes -> list A) (P : sys -> Prop) s tr s' :
  (forall s1 s2, sys_step s1 s2 -> P s1 -> P s2) ->
  (forall s1, P s1 -> all_items items (s_out s1) `prefix_of` all_items items (s_in s1)) ->
  sys_run s tr s' -> P s -> forall q, holds items s q ->
  exists q', fifo_run items q tr q' /\ holds items s' q'.
Proof.
  intros Hstep Hpre Hrun. induction Hrun as [s|s1 s2 s3 ws rs tr Hs Ei Eo _ IH]; intros HP q Hq.
  { exists q. split; [constructor|done]. }
  assert (P s2) as HP2 by eauto.
  destruct (fifo_simulates items s1 s2 q ws rs Hq Ei Eo (Hpre _ HP2)) as (q1 & Hr1 & Hq1).
  destruct (IH HP2 q1 Hq1) as (q2 & Hr2 & Hq2). exists q2. split; [|done].
  rewrite app_assoc. by eapply fifo_run_app.
Qed.

Lemma all_items_id bs : all_items (fun b : bytes => b) bs = concat bs.
Proof. unfold all_items. by rewrite map_id. Qed.

Lemma all_items_single (bs : list bytes) : all_items (fun b => [b]) bs = bs.
Proof. unfold all_items. induction bs as [|b bs IH]; [done|]. cbn. by f_equal. Qed.

(** C3: refinement: whatever can be seen of the two endpoints, on any network, is a behaviour
    of a queue of bytes, and in message mode of a queue of messages. *)
Theorem network_refines_fifo a b tr s :
  fresh a -> fresh b -> sys_run (sys_start a b) tr s ->
  (exists q, fifo_run (fun m => m) [] tr q) /\
  (stream a = 0 -> exists q, fifo_run (fun m => [m]) [] tr q).
Proof.
  intros Ha Hb Hr. pose proof (sys_inv_start a b Ha Hb) as Hi. split.
  - destruct (run_refines (fun m => m) sys_inv _ _ _ ltac:(eauto using sys_inv_step)
      ltac:(intros s1 H1; rewrite !all_items_id; by apply sys_inv_prefix) Hr Hi [] eq_refl)
      as (q & Hq & _). by exists q.
  - intros Hst.
    destruct (run_refines (fun m => [m])
      (fun s1 => sys_inv s1 /\ stream (s_a s1) = 0 /\ msg_inv s1) _ _ _
      ltac:(intros s1 s2 Hs (H1 & H2 & H3);
        destruct (msg_inv_step s1 s2 Hs H1 H2 H3); eauto using sys_inv_step)
      ltac:(intros s1 (_ & _ & H3); rewrite !all_items_single; by apply msg_inv_prefix) Hr
      (conj Hi (conj Hst (msg_inv_start a b Ha))) [] eq_refl) as (q & Hq & _). by exists q.
Qed.
