(* ===== verification/Progress.v ===== *)
(** Progress: when the segment the reader waits for is due, a flush of the writer carries it, and
    a reader that has room puts it in order. *)
From S2P Require Import Prelude Bytes IkcpTypes IkcpSend IkcpInput IkcpFlush IkcpFlushSpec.
From S2P Require Import IkcpInv Wire Delivery.

(** ** What an input leaves alone in the receiver *)
Definition rcv_kept (k k' : IKCPCB) : Prop := rcv_same k k' /\ rcv_wnd k' = rcv_wnd k.

#[export] Instance rcv_kept_preorder : PreOrder rcv_kept.
Proof.
  split; [by split|]. intros k1 k2 k3 [H1 E1] [H2 E2]. split; [by transitivity k2|congruence].
Qed.

Lemma rcv_kept_update_ack k rtt : rcv_kept k (ikcp_update_ack k rtt).
Proof. split; [apply rcv_same_update_ack|]. by destruct (ikcp_update_ack_shape k rtt) as (a & b & c & ->). Qed.

Lemma rcv_kept_shrink k : rcv_kept k (ikcp_shrink_buf k).
Proof. split; [apply rcv_same_shrink|]. by rewrite ikcp_shrink_buf_shape. Qed.

Lemma rcv_kept_parse_una k una : rcv_kept k (ikcp_parse_una k una).
Proof.
  split; [apply rcv_same_parse_una|]. unfold ikcp_parse_una. generalize (snd_buf k). intros q.
  revert k. induction q as [|s q IH]; intros k; cbn [ikcp_parse_una_loop]; [done|].
  destruct (_ >? 0); [|done]. by rewrite IH.
Qed.

Lemma rcv_kept_parse_ack k sn : rcv_kept k (ikcp_parse_ack k sn).
Proof. split; [apply rcv_same_parse_ack|]. by destruct (ikcp_parse_ack_shape k sn) as (q & n & ->). Qed.

Lemma rcv_kept_fastack k sn ts : rcv_kept k (ikcp_parse_fastack k sn ts).
Proof. split; [apply rcv_same_fastack|]. by destruct (ikcp_parse_fastack_shape k sn ts) as (q & -> & _). Qed.

Lemma rcv_kept_ack_push k sn ts : rcv_kept k (ikcp_ack_push k sn ts).
Proof. split; [apply rcv_same_ack_push|]. unfold ikcp_ack_push. by destruct (_ >? _). Qed.

Lemma rcv_kept_cwnd k : rcv_kept k (ikcp_input_cwnd k).
Proof. split; [apply rcv_same_cwnd|]. by destruct (ikcp_input_cwnd_frame k) as (c & i & -> & _). Qed.

Lemma rcv_kept_input_ack k l h : rcv_kept k (fst (ikcp_input_ack k l h)).
Proof.
  unfold ikcp_input_ack. cbn [fst]. etransitivity; [|apply rcv_kept_shrink].
  etransitivity; [|apply rcv_kept_parse_ack]. destruct (_ >=? 0); [|done].
  apply rcv_kept_update_ack.
Qed.

(** ** A segment at the front *)

Lemma off_zero base s : 0 <= seg_sn s < 4294967296 -> 0 <= base < 4294967296 ->
  off base s = 0 <-> seg_sn s = base.
Proof. unfold off. intros. split; [|intros ->; by rewrite Z.sub_diag]. words. Qed.

(** When the segment that follows the last one delivered is in the buffer, and the queue has
    room, it moves. *)
Lemma ikcp_move_rcv_front k s :
  rcv_window k -> s ∈ rcv_buf k -> seg_sn s = rcv_nxt k -> nrcv_que k < rcv_wnd k ->
  exists m r, ikcp_move_rcv (rcv_buf k) k = rcv_moved k m r /\ m <> [].
Proof.
  intros Hok Hin Es Hroom. pose proof Hok as (Hn & Hwn & Hw & _).
  destruct (ikcp_move_rcv_spec k (rcv_window_move_ok k Hok)) as (m & r & E & _ & Em & _ & Hr).
  exists m, r. split; [exact Em|]. intros ->. cbn [app] in E. subst r.
  destruct (rcv_buf k) as [|h q]; [by apply not_elem_of_nil in Hin|].
  change (Zlen []) with 0 in Hr. rewrite Z.add_0_r in Hr. rewrite u32_small in Hr by lia.
  destruct Hr as [Hr|Hr]; [|lia]. apply window_cons in Hw as (_ & Hh & Hlt & Hw).
  apply elem_of_cons in Hin as [->|Hin]; [done|]. rewrite Forall_forall in Hlt.
  destruct Hw as [_ Hw]. rewrite Forall_forall in Hw. destruct (Hw s Hin) as [_ Hs].
  specialize (Hlt s Hin). apply (off_zero (rcv_nxt k) s Hs Hn) in Es.
  pose proof (off_range (rcv_nxt k) h). lia.
Qed.

(** The queue only grows, and by what is put in order; it does grow when the segment waited for
    comes and there is room. *)
Definition grows (must : bool) (k k' : IKCPCB) : Prop :=
  rcv_wnd k' = rcv_wnd k /\
  exists m, rcv_queue k' = rcv_queue k ++ m /\ rcv_nxt k' = u32 (rcv_nxt k + Zlen m) /\
    (must = true -> m <> []).

Definition wanted (k : IKCPCB) (sn : Z) : bool :=
  (sn =? rcv_nxt k) && (nrcv_que k <? rcv_wnd k).

Lemma grows_kept k k' : 0 <= rcv_nxt k < 4294967296 -> rcv_kept k k' -> grows false k k'.
Proof.
  intros Hn [(E1 & E2 & _) E3]. split; [done|]. exists []. rewrite app_nil_r. change (Zlen []) with 0.
  rewrite Z.add_0_r, u32_small by done. done.
Qed.

Lemma grows_trans a b k1 k2 k3 : grows a k1 k2 -> grows b k2 k3 -> grows (a || b) k1 k3.
Proof.
  intros [E1 (m1 & Q1 & N1 & M1)] [E2 (m2 & Q2 & N2 & M2)]. split; [congruence|].
  exists (m1 ++ m2). rewrite Q2, Q1, N2, N1, app_assoc, Zlen_app, u32_add_l, Z.add_assoc.
  split_and!; [done|done|]. intros H E. apply app_eq_nil in E as [-> ->].
  by destruct a, b; [apply M1|apply M1|apply M2|].
Qed.

Lemma ikcp_parse_data_grows k new :
  rcv_window k -> seg_wf new -> 0 <= seg_sn new < 4294967296 ->
  grows (wanted k (seg_sn new)) k (ikcp_parse_data k new).
Proof.
  intros Hok Hwf Hsn. pose proof Hok as (Hn & Hwn & _).
  destruct (wanted k (seg_sn new)) eqn:Hw.
  - unfold wanted in Hw. apply andb_prop in Hw as [Hw1 Hw2]. apply Z.eqb_eq in Hw1.
    apply Z.ltb_lt in Hw2.
    assert (off (rcv_nxt k) new < 2147483648) as Hoff.
    { assert (off (rcv_nxt k) new = 0) as -> by (by apply off_zero). lia. }
    assert (ikcp_parse_data k new = ikcp_move_rcv (rcv_buf (data_inserted k new)) (data_inserted k new)) as ->.
    { unfold ikcp_parse_data, data_inserted, _itimediff. destruct (_ || _) eqn:G; [|by destruct (ikcp_parse_data_insert _ _)].
      exfalso. rewrite Hw1 in G. revert G Hwn Hn. clear. intros. words. }
    destruct (data_inserted_spec k new Hok Hwf Hsn Hoff) as (q & n & Ek & Hk & Hq).
    assert (exists s, s ∈ q /\ seg_sn s = rcv_nxt k) as (s & Hin & Es).
    { destruct (decide (seg_sn new ∈ map seg_sn (rcv_buf k))) as [Hd|Hd].
      - apply list_elem_of_fmap in Hd as (s & E & Hs). exists s. split; [apply Hq; by left|congruence].
      - exists new. split; [apply Hq; by right|done]. }
    destruct (ikcp_move_rcv_front (data_inserted k new) s Hk) as (m & r & -> & Hm);
      rewrite Ek in *; simp_upd; try done.
    split; [done|]. exists m. unfold rcv_moved. by simp_upd.
  - destruct (ikcp_parse_data_shape k new Hok Hwf Hsn) as [->|(q & n & m & r & Hs)].
    + by apply grows_kept.
    + cbv zeta in Hs. destruct Hs as (-> & _). split; [done|]. exists m. unfold rcv_moved. by simp_upd.
Qed.

Lemma wanted_kept k k' sn :
  kcp_inv k -> kcp_inv k' -> rcv_kept k k' -> wanted k' sn = wanted k sn.
Proof.
  intros (_ & _ & _ & (_ & _ & _ & _ & H1 & _) & _) (_ & _ & _ & (_ & _ & _ & _ & H2 & _) & _)
    [(E1 & E2 & _) E3].
  unfold wanted. by rewrite E1, E3, H1, H2, E2.
Qed.

Lemma ikcp_input_push_grows k h data :
  kcp_inv k -> header_ok h -> h_len h <= Zlen data ->
  grows (wanted k (h_sn h)) k (ikcp_input_push k h data).
Proof.
  intros Hk Hh Hlen. pose proof Hk as (_ & _ & _ & (Hn & Hwn & _) & _).
  pose proof Hh as (_ & _ & _ & _ & _ & Hsn & _ & Hl).
  pose proof (rcv_kept_ack_push k (h_sn h) (h_ts h)) as Hkept.
  pose proof (ikcp_ack_push_inv k (h_sn h) (h_ts h) Hk) as Hk'.
  pose proof (grows_kept _ _ Hn Hkept) as Hg. unfold ikcp_input_push.
  destruct (wanted k (h_sn h)) eqn:Ew.
  - pose proof (wanted_kept _ _ (h_sn h) Hk Hk' Hkept) as Ew'. rewrite Ew in Ew'.
    unfold wanted in Ew. apply andb_prop in Ew as [Es _]. apply Z.eqb_eq in Es.
    destruct (_ <? 0) eqn:G1; cycle 1.
    { exfalso. rewrite Es in G1. revert G1 Hwn Hn. unfold _itimediff. clear. intros. words. }
    destruct Hkept as [(En & _) _]. rewrite En, Es, _itimediff_same. cbn [Z.geb Z.compare].
    eapply (grows_trans false true); [exact Hg|].
    pose proof Hk' as (_ & _ & _ & Hw' & _). rewrite <- Ew', Es. apply ikcp_parse_data_grows.
    + exact Hw'.
    + unfold seg_wf. simp_upd. cbn [seg_data ikcp_segment_new].
      unfold Zlen in *. rewrite length_take. lia.
    + simp_upd. lia.
  - destruct (_ <? 0); [|by apply grows_kept]. destruct (_ >=? 0); [|exact Hg].
    pose proof (wanted_kept _ _ (h_sn h) Hk Hk' Hkept) as Ew'. rewrite Ew in Ew'.
    eapply (grows_trans false false); [exact Hg|]. rewrite <- Ew'.
    pose proof Hk' as (_ & _ & _ & Hw' & _). apply ikcp_parse_data_grows.
    + exact Hw'.
    + unfold seg_wf. simp_upd. cbn [seg_data ikcp_segment_new].
      unfold Zlen in *. rewrite length_take. lia.
    + simp_upd. lia.
Qed.

Definition wants (k : IKCPCB) (h : header) : bool :=
  (h_cmd h =? IKCP_CMD_PUSH) && wanted k (h_sn h).

Lemma ikcp_input_segment_grows k l h data :
  kcp_inv k -> header_ok h -> h_len h <= Zlen data ->
  grows (wants k h) k (fst (ikcp_input_segment k l h data)).
Proof.
  intros Hk Hh Hlen. unfold ikcp_input_segment.
  set (k0 := k <| rmt_wnd := h_wnd h |>).
  set (k1 := ikcp_shrink_buf (ikcp_parse_una k0 (h_una h))).
  assert (rcv_kept k k1) as Hkept.
  { unfold k1. etransitivity; [|apply rcv_kept_shrink]. etransitivity; [|apply rcv_kept_parse_una]. done. }
  assert (kcp_inv k1) as Hk1.
  { pose proof (ikcp_input_segment_inv k l (mkheader 0 0 0 (h_wnd h) 0 0 (h_una h) 0) [])
      as H. apply H; [done| |done].
    destruct Hh as (_ & _ & _ & ? & _ & _ & ? & _). unfold header_ok. cbn. lia. }
  pose proof Hk as (_ & _ & _ & (Hn & _) & _). pose proof (grows_kept _ _ Hn Hkept) as Hg.
  pose proof Hk1 as (_ & _ & _ & (Hn1 & _) & _).
  unfold wants. rewrite <- (wanted_kept k k1 (h_sn h) Hk Hk1 Hkept). clearbody k1. clear Hkept.
  destruct (Z.eqb_spec (h_cmd h) IKCP_CMD_ACK) as [->|_].
  { cbn [Z.eqb]. change (IKCP_CMD_ACK =? IKCP_CMD_PUSH) with false. cbn [andb].
    eapply (grows_trans false false); [exact Hg|]. apply grows_kept; [done|apply rcv_kept_input_ack]. }
  destruct (Z.eqb_spec (h_cmd h) IKCP_CMD_PUSH) as [Ec|_]; cbn [fst andb].
  - eapply (grows_trans false); [exact Hg|]. by apply ikcp_input_push_grows.
  - destruct (_ =? _); cbn [fst]; [|done].
    eapply (grows_trans false false); [exact Hg|]. apply grows_kept; [done|by split].
Qed.

(** ** A packet *)

Lemma seg_header_ok s : header_ok (seg_header s).
Proof.
  unfold header_ok, seg_header. cbn.
  split_and!; first [apply u32_range|apply u8_range|apply u16_range].
Qed.

Lemma grows_weaken a k k' : grows true k k' -> grows a k k'.
Proof. intros [E (m & Q & N & M)]. split; [done|]. exists m. split_and!; try done. intros _. by apply M. Qed.

(** Either the queue has grown, or the same segments are wanted as before. *)
Lemma grows_wants must k k' :
  kcp_inv k -> kcp_inv k' -> grows must k k' ->
  grows true k k' \/ (must = false /\ forall h, wants k' h = wants k h).
Proof.
  intros (_ & _ & _ & (Hn0 & _ & _ & _ & Q0 & _) & _) (_ & _ & _ & (_ & _ & _ & _ & Q & _) & _)
    [E (m & Eq & En & M)].
  destruct (decide (m = [])) as [->|Hm]; [right|left].
  - split; [destruct must; [by destruct M|done]|]. intros h. unfold wants, wanted.
    rewrite app_nil_r in Eq. change (Zlen []) with 0 in En.
    rewrite Z.add_0_r, u32_small in En by done. by rewrite En, E, Q, Q0, Eq.
  - split; [done|]. by exists m.
Qed.

(** The queue grows if any segment of a sequence is wanted at its start. *)
Lemma receive_segs_grows g k l :
  kcp_inv k -> Forall (seg_accept (conv k)) g ->
  let k' := fst (fold_left receive_seg g (k, l)) in
  grows (existsb (fun s => wants k (seg_header s)) g) k k' /\ kcp_inv k' /\ conv k' = conv k.
Proof.
  cbv zeta. revert k l. induction g as [|s g IH]; intros k l Hk Hg; cbn [fold_left existsb].
  { pose proof Hk as (_ & _ & _ & (Hn & _) & _). split_and!; [by apply grows_kept|done|done]. }
  apply Forall_cons in Hg as [(Hc & Hcmd & Hwf & Hlen) Hg].
  assert (h_len (seg_header s) <= Zlen (seg_data s)) as Hl.
  { unfold seg_wf in Hwf. pose proof (Zlen_nonneg (seg_data s)). cbn. rewrite u32_small; lia. }
  pose proof (ikcp_input_segment_grows k l _ _ Hk (seg_header_ok s) Hl) as H1.
  pose proof (ikcp_input_segment_inv k l _ _ Hk (seg_header_ok s) Hl) as Hk1.
  pose proof (snd_frame_input_segment k l (seg_header s) (seg_data s)) as (_ & _ & _ & _ & _ & _ & Ec & _).
  change (receive_seg (k, l) s) with (ikcp_input_segment k l (seg_header s) (seg_data s)).
  destruct (ikcp_input_segment k l (seg_header s) (seg_data s)) as [k1 l1]. cbn [fst] in *.
  rewrite <- Ec in Hg. destruct (IH k1 l1 Hk1 Hg) as (H2 & Hk2 & Ec2).
  split_and!; [|done|congruence].
  destruct (grows_wants _ _ _ Hk Hk1 H1) as [Ht|[E Hw]].
  - apply grows_weaken. by apply (grows_trans true _ _ _ _ Ht H2).
  - assert (existsb (fun s => wants k1 (seg_header s)) g = existsb (fun s => wants k (seg_header s)) g)
      as <- by (clear - Hw; induction g as [|t g IH]; [done|]; cbn; by rewrite Hw, IH).
    rewrite E in *. by apply (grows_trans false _ _ _ _ H1 H2).
Qed.

Lemma receive_packet_grows k g :
  kcp_inv k -> Forall (seg_accept (conv k)) g ->
  grows (existsb (fun s => wants k (seg_header s)) g) k (receive_packet k g) /\
  kcp_inv (receive_packet k g) /\ conv (receive_packet k g) = conv k.
Proof.
  intros Hk Hg. destruct (receive_segs_grows g k (mklocals false 0 0) Hk Hg) as (H1 & Hk1 & Ec).
  unfold receive_packet. destruct (fold_left receive_seg g (k, mklocals false 0 0)) as [k1 l].
  cbn [fst] in *. set (k2 := if l_flag l then _ else k1).
  assert (rcv_kept k1 k2 /\ kcp_inv k2 /\ conv k2 = conv k1) as (H2 & Hk2 & Ec2).
  { unfold k2. destruct (l_flag l); [|done]. split_and!; [apply rcv_kept_fastack|by apply ikcp_parse_fastack_inv|].
    by destruct (snd_frame_fastack k1 (l_maxack l) (l_latest_ts l)) as (_ & _ & _ & _ & _ & _ & ? & _). }
  clearbody k2.
  assert (forall k3, rcv_kept k2 k3 ->
    grows (existsb (fun s => wants k (seg_header s)) g) k k3) as Hlast.
  { intros k3 H3. pose proof Hk1 as (_ & _ & _ & (Hn1 & _) & _). rewrite <- (orb_false_r (existsb _ g)).
    eapply grows_trans; [exact H1|]. apply grows_kept; [done|]. by transitivity k2. }
  destruct (_ >? 0).
  - split_and!; [apply Hlast, rcv_kept_cwnd|by apply ikcp_input_cwnd_inv|].
    destruct (ikcp_input_cwnd_frame k2) as (c & i & -> & _). simp_upd. congruence.
  - split_and!; [by apply Hlast|done|congruence].
Qed.

(** ** A whole flush *)

(** The packets of a flush, delivered in order. *)
Definition deliver (ps : list bytes) (k : IKCPCB) : IKCPCB :=
  fold_left (fun k p => snd (ikcp_input k p)) ps k.

Lemma deliver_grows gs k :
  kcp_inv k -> Forall (fun g => g <> [] /\ Zlen (packet g) < 2147483648) gs ->
  Forall (seg_accept (conv k)) (concat gs) ->
  grows (existsb (fun s => wants k (seg_header s)) (concat gs)) k (deliver (map packet gs) k).
Proof.
  unfold deliver. revert k. induction gs as [|g gs IH]; intros k Hk Hgs Ha; cbn [map fold_left concat].
  { pose proof Hk as (_ & _ & _ & (Hn & _) & _). by apply grows_kept. }
  apply Forall_cons in Hgs as [[Hne Hlen] Hgs]. cbn [concat] in Ha. apply Forall_app in Ha as [Ha1 Ha2].
  rewrite ikcp_input_packet_eq by done. cbn [snd].
  destruct (receive_packet_grows k g Hk Ha1) as (H1 & Hk1 & Ec).
  rewrite <- Ec in Ha2. specialize (IH _ Hk1 Hgs Ha2). rewrite existsb_app.
  destruct (grows_wants _ _ _ Hk Hk1 H1) as [Ht|[E Hw]].
  - apply grows_weaken. by apply (grows_trans true _ _ _ _ Ht IH).
  - assert (existsb (fun s => wants (receive_packet k g) (seg_header s)) (concat gs)
      = existsb (fun s => wants k (seg_header s)) (concat gs)) as <-
      by (generalize (concat gs); intros q; clear - Hw; induction q as [|t q IH]; [done|]; cbn; by rewrite Hw, IH).
    rewrite E in *. by apply (grows_trans false _ _ _ _ H1 IH).
Qed.

(** A segment that is due is among the data segments of the flush. *)
Lemma due_segment_sent k wnd q s :
  s ∈ q -> is_Some (flush_reason k s) ->
  exists s', s' ∈ flush_data_segs k wnd q /\ seg_sn s' = seg_sn s /\ seg_cmd s' = seg_cmd s.
Proof.
  intros Hin [r Hr]. exists (flush_visit k wnd s).
  destruct (flush_visit_frame k wnd s) as (E1 & _ & _ & _ & _ & E2). split_and!; [|done|done].
  unfold flush_data_segs. apply list_elem_of_In, in_concat.
  exists [flush_sent k wnd r s]. unfold flush_visit. rewrite Hr. split; [|by left].
  apply in_map_iff. exists s. rewrite Hr. split; [done|]. by apply list_elem_of_In.
Qed.

(** Progress: if the segment the reader waits for is in flight, or just admitted, and is due,
    then one flush of the writer, delivered, gives a reader that has room at least one more
    segment in order. *)
Theorem flush_progress a b s :
  kcp_ok a -> 0 <= conv a < 4294967296 -> updated a <> 0 ->
  kcp_inv b -> conv b = conv a -> nrcv_que b < rcv_wnd b ->
  s ∈ snd_buf (flush_moved a) -> seg_sn s = rcv_nxt b -> is_Some (flush_reason (flush_moved a) s) ->
  exists m, m <> [] /\ rcv_queue (deliver (snd (ikcp_flush a)) b) = rcv_queue b ++ m /\
    rcv_nxt (deliver (snd (ikcp_flush a)) b) = u32 (rcv_nxt b + Zlen m).
Proof.
  intros Ha Hc Hu Hb Ecv Hroom Hin Esn Hdue.
  destruct (ikcp_flush_packets a Ha Hu) as (gs & -> & Hg & Hcat).
  pose proof (flush_packets_accept a Ha Hc) as Hall. rewrite <- Hcat, <- Ecv in Hall.
  pose proof Ha as (_ & Hm & _).
  assert (Forall (fun g => g <> [] /\ Zlen (packet g) < 2147483648) gs) as Hg'.
  { eapply Forall_impl; [exact Hg|]. cbn. intros g [H1 H2]. split; [done|lia]. }
  pose proof (deliver_grows gs b Hb Hg' Hall) as Hgrow.
  destruct (due_segment_sent (flush_moved a) (flush_wnd a) _ s Hin Hdue) as (s' & Hs' & E1 & E2).
  assert (existsb (fun s => wants b (seg_header s)) (concat gs) = true) as Hex.
  { apply existsb_exists. exists s'. rewrite Hcat. split; [apply list_elem_of_In, elem_of_app; by right|].
    pose proof (flush_moved_ok a Ha) as (_ & _ & _ & Hsent & _).
    rewrite Forall_forall in Hsent. destruct (Hsent s Hin) as (_ & _ & Ecmd).
    pose proof Hb as (_ & _ & _ & (Hn & _) & _).
    unfold wants, wanted, seg_header. cbn [h_cmd h_sn]. rewrite E1, E2, Ecmd, Esn, u32_small by done.
    rewrite Z.eqb_refl. cbn. lia. }
  rewrite Hex in Hgrow. destruct Hgrow as [_ (m & E & En & Hne)]. exists m. split_and!; [by apply Hne|done|done].
Qed.
