(* ===== verification/Exchange.v ===== *)
(** One exchange between two fresh endpoints: the first segment of one is admitted, sent,
    received in order and acknowledged by whatever the other sends next. *)
From S2P Require Import Prelude Bytes IkcpTypes IkcpSend IkcpInput IkcpFlush IkcpFlushSpec.
From S2P Require Import IkcpInv Wire Delivery Progress.

(** ** What an input does to the sending side *)

(** Fields of the sender that only the segment header may change. *)
Definition ctl_kept (k k' : IKCPCB) : Prop := updated k' = updated k /\ rmt_wnd k' = rmt_wnd k.

#[export] Instance ctl_kept_preorder : PreOrder ctl_kept.
Proof. split; [done|]. intros k1 k2 k3 [E1 E2] [F1 F2]. split; congruence. Qed.

Lemma ctl_kept_parse_una k una : ctl_kept k (ikcp_parse_una k una).
Proof.
  unfold ikcp_parse_una. generalize (snd_buf k). intros q. revert k.
  induction q as [|s q IH]; intros k; cbn [ikcp_parse_una_loop]; [done|].
  destruct (_ >? 0); [|done]. etransitivity; [|apply IH]. done.
Qed.

Lemma ctl_kept_shrink k : ctl_kept k (ikcp_shrink_buf k).
Proof. by rewrite ikcp_shrink_buf_shape. Qed.

Lemma ctl_kept_move_rcv q k : ctl_kept k (ikcp_move_rcv q k).
Proof.
  revert k. induction q as [|s q IH]; intros k; [done|]. cbn [ikcp_move_rcv].
  destruct (_ && _); [|done]. etransitivity; [|apply IH]. done.
Qed.

Lemma ctl_kept_push k h data : ctl_kept k (ikcp_input_push k h data).
Proof.
  unfold ikcp_input_push. destruct (_ <? 0); [|done].
  assert (ctl_kept k (ikcp_ack_push k (h_sn h) (h_ts h))) as H1
    by (unfold ikcp_ack_push; by destruct (_ >? _)).
  destruct (_ >=? 0); [|done]. etransitivity; [exact H1|].
  unfold ikcp_parse_data. destruct (_ || _); [done|].
  etransitivity; [|apply ctl_kept_move_rcv]. by destruct (ikcp_parse_data_insert _ _).
Qed.

Lemma ctl_kept_ack k l h : ctl_kept k (fst (ikcp_input_ack k l h)).
Proof.
  unfold ikcp_input_ack. cbn [fst]. etransitivity; [|apply ctl_kept_shrink].
  set (k1 := if _ >=? 0 then _ else _). assert (ctl_kept k k1) as H1.
  { unfold k1. destruct (_ >=? 0); [|done].
    by destruct (ikcp_update_ack_shape k (_itimediff (current k) (h_ts h))) as (a & b & c & ->). }
  etransitivity; [exact H1|]. by destruct (ikcp_parse_ack_shape k1 (h_sn h)) as (q & n & ->).
Qed.

(** A segment whose [una] is the next number acknowledges everything in flight. *)
Record settled (k : IKCPCB) (wnd : Z) (k' : IKCPCB) : Prop := {
  st_inv : kcp_inv k';
  st_buf : snd_buf k' = [];
  st_frame : snd_frame (k <| cwnd := cwnd k' |>) k';
  st_upd : updated k' = updated k;
  st_rmt : rmt_wnd k' = wnd
}.

Lemma settled_una k wnd k' : settled k wnd k' -> snd_una k' = snd_nxt k'.
Proof. intros [(_ & _ & Hh & _) E _ _ _]. unfold una_is_head in Hh. by rewrite E in Hh. Qed.

Lemma snd_frame_nil k k' : snd_frame k k' -> snd_buf k = [] -> snd_buf k' = [].
Proof.
  intros (_ & _ & _ & _ & _ & _ & _ & _ & _ & H) E. specialize (H (fun _ => False) ltac:(done)).
  rewrite E in H. destruct (snd_buf k'); [done|]. specialize (H (Forall_nil_2 _)). by inversion H.
Qed.

Lemma parse_una_all k : kcp_inv k -> snd_buf (ikcp_parse_una k (snd_nxt k)) = [].
Proof.
  intros (_ & Hw & _). pose proof Hw as (_ & _ & Hd & [_ Hq] & _).
  rewrite ikcp_parse_una_filter by (done || lia).
  induction (snd_buf k) as [|s q IH]; [done|]. apply Forall_cons in Hq as [[Hs _] Hq].
  rewrite filter_cons, decide_False by lia. by apply IH.
Qed.

(** What every segment does first: the peer's window and its [una]. *)
Definition acked (k : IKCPCB) (h : header) : IKCPCB :=
  ikcp_shrink_buf (ikcp_parse_una (k <| rmt_wnd := h_wnd h |>) (h_una h)).

Lemma acked_ctl k h : updated (acked k h) = updated k /\ rmt_wnd (acked k h) = h_wnd h.
Proof.
  unfold acked. destruct (ctl_kept_shrink (ikcp_parse_una (k <| rmt_wnd := h_wnd h |>) (h_una h)))
    as [-> ->].
  by destruct (ctl_kept_parse_una (k <| rmt_wnd := h_wnd h |>) (h_una h)) as [-> ->].
Qed.

Lemma dispatch_kept k l h data :
  ctl_kept (acked k h) (fst (ikcp_input_segment k l h data)) /\
  snd_frame (acked k h) (fst (ikcp_input_segment k l h data)).
Proof.
  unfold ikcp_input_segment. fold (acked k h). generalize (acked k h). clear k. intros k.
  destruct (_ =? _); cbn [fst]; [|destruct (_ =? _); cbn [fst]].
  - split; [apply ctl_kept_ack|]. unfold ikcp_input_ack. cbn [fst].
    etransitivity; [|apply snd_frame_shrink]. etransitivity; [|apply snd_frame_parse_ack].
    destruct (_ >=? 0); [apply snd_frame_update_ack|done].
  - split; [apply ctl_kept_push|]. unfold ikcp_input_push.
    destruct (_ <? 0); [|done]. destruct (_ >=? 0); [|apply snd_frame_ack_push].
    etransitivity; [apply snd_frame_ack_push|apply snd_frame_parse_data].
  - destruct (_ =? _); cbn [fst]; [|done]. split; [done|]. unfold snd_frame. simp_upd. by split_and!.
Qed.

Lemma segment_settles k l h data :
  kcp_inv k -> header_ok h -> h_len h <= Zlen data -> h_una h = snd_nxt k ->
  let k' := fst (ikcp_input_segment k l h data) in
  settled k (h_wnd h) k' /\ cwnd k' = cwnd k.
Proof.
  intros Hk Hh Hl Hu. cbv zeta. pose proof (snd_frame_input_segment k l h data) as Hf.
  pose proof (ikcp_input_segment_inv k l h data Hk Hh Hl) as Hi.
  destruct (dispatch_kept k l h data) as [[E1 E2] Hd]. destruct (acked_ctl k h) as [F1 F2].
  assert (snd_buf (acked k h) = []) as Hnil.
  { unfold acked. rewrite ikcp_shrink_buf_shape. simp_upd. rewrite Hu.
    set (k0 := k <| rmt_wnd := h_wnd h |>). change (snd_nxt k) with (snd_nxt k0).
    apply parse_una_all. unfold k0. clear k0.
    destruct Hk as (H1 & H2 & H3 & H4 & H5 & H6). destruct Hh as (_ & _ & _ & Hw & _).
    unfold kcp_inv. simp_upd. split_and!; try done; lia. }
  assert (cwnd (fst (ikcp_input_segment k l h data)) = cwnd k) as Ec by apply Hf.
  split; [|exact Ec]. split; [exact Hi|by apply (snd_frame_nil (acked k h))| |congruence|congruence].
  rewrite Ec. replace (k <| cwnd := cwnd k |>) with k by (by destruct k). exact Hf.
Qed.

Lemma settled_trans k1 k2 k3 w1 w2 : settled k1 w1 k2 -> settled k2 w2 k3 -> settled k1 w2 k3.
Proof.
  intros [_ _ F1 U1 _] [I2 B2 F2 U2 R2]. split; [done|done| |congruence|done].
  destruct F1 as (A1 & A2 & A3 & _ & A5 & A6 & A7 & A8 & A9 & A10).
  destruct F2 as (B1' & B2' & B3 & _ & B5 & B6 & B7 & B8 & B9 & B10). simp_upd.
  unfold snd_frame. simp_upd. split_and!; [congruence..|]. rewrite B2. intros; constructor.
Qed.

Lemma settled_nxt k w k' : settled k w k' -> snd_nxt k' = snd_nxt k.
Proof. intros [_ _ (_ & _ & _ & _ & _ & _ & _ & E & _) _ _]. exact E. Qed.

Lemma settled_conv k w k' : settled k w k' -> conv k' = conv k.
Proof. intros [_ _ (_ & _ & _ & _ & _ & _ & E & _) _ _]. exact E. Qed.

(** ** Packets whose segments all carry the same acknowledgement and window *)
Definition stamped (cv wnd una : Z) (s : IKCPSEG) : Prop :=
  seg_accept cv s /\ h_wnd (seg_header s) = wnd /\ h_una (seg_header s) = una.

Lemma segs_settle g k l wnd :
  g <> [] -> kcp_inv k -> Forall (stamped (conv k) wnd (snd_nxt k)) g ->
  let k' := fst (fold_left receive_seg g (k, l)) in settled k wnd k' /\ cwnd k' = cwnd k.
Proof.
  cbv zeta. revert k l. induction g as [|s g IH]; intros k l Hg Hk Hs; [done|]. clear Hg.
  apply Forall_cons in Hs as [((Hc & Hcmd & Hwf & Hlen) & Hw & Hu) Hs]. cbn [fold_left].
  assert (h_len (seg_header s) <= Zlen (seg_data s)) as Hl.
  { unfold seg_wf in Hwf. pose proof (Zlen_nonneg (seg_data s)). cbn. rewrite u32_small; lia. }
  destruct (segment_settles k l (seg_header s) (seg_data s) Hk (seg_header_ok s) Hl Hu) as [H1 C1].
  rewrite Hw in H1. change (receive_seg (k, l) s) with (ikcp_input_segment k l (seg_header s) (seg_data s)).
  destruct (ikcp_input_segment k l (seg_header s) (seg_data s)) as [k1 l1]. cbn [fst] in *.
  destruct (decide (g = [])) as [->|Hg]; [done|].
  rewrite <- (settled_conv _ _ _ H1), <- (settled_nxt _ _ _ H1) in Hs.
  destruct (IH k1 l1 Hg (st_inv _ _ _ H1) Hs) as [H2 C2].
  split; [by eapply settled_trans|congruence].
Qed.

Lemma settled_fastack k w k' sn ts : settled k w k' -> settled k w (ikcp_parse_fastack k' sn ts).
Proof.
  intros [I B F U R].
  assert (snd_frame (k <| cwnd := cwnd (ikcp_parse_fastack k' sn ts) |>) (ikcp_parse_fastack k' sn ts))
    as F'.
  { pose proof (snd_frame_fastack k' sn ts) as Hf. pose proof Hf as (_ & _ & _ & -> & _).
    by transitivity k'. }
  split; [by apply ikcp_parse_fastack_inv| |done|..].
  - by apply (snd_frame_nil k'); [apply snd_frame_fastack|].
  - by destruct (ikcp_parse_fastack_shape k' sn ts) as (q & -> & _).
  - by destruct (ikcp_parse_fastack_shape k' sn ts) as (q & -> & _).
Qed.

Lemma settled_cwnd k w k' : settled k w k' -> settled k w (ikcp_input_cwnd k').
Proof.
  intros [I B F U R]. split; [by apply ikcp_input_cwnd_inv|..];
    destruct (ikcp_input_cwnd_frame k') as (c & i & -> & _); try done.
  destruct F as (A1 & A2 & A3 & _ & A5 & A6 & A7 & A8 & A9 & A10). simp_upd.
  unfold snd_frame. simp_upd. split_and!; done.
Qed.

Lemma packet_settles k g wnd :
  g <> [] -> kcp_inv k -> Forall (stamped (conv k) wnd (snd_nxt k)) g ->
  settled k wnd (receive_packet k g) /\ (snd_buf k = [] -> cwnd (receive_packet k g) = cwnd k).
Proof.
  intros Hg Hk Hs. destruct (segs_settle g k (mklocals false 0 0) wnd Hg Hk Hs) as [H1 C1].
  unfold receive_packet. destruct (fold_left receive_seg g (k, mklocals false 0 0)) as [k1 l].
  cbn [fst] in *. set (k2 := if l_flag l then _ else k1).
  assert (settled k wnd k2 /\ cwnd k2 = cwnd k1) as [H2 C2].
  { unfold k2. destruct (l_flag l); [|done]. split; [by apply settled_fastack|].
    apply (snd_frame_fastack k1 (l_maxack l) (l_latest_ts l)). }
  clearbody k2. split; [destruct (_ >? 0); [by apply settled_cwnd|done]|].
  intros E. assert (snd_una k = snd_nxt k) as Eu.
  { destruct Hk as (_ & _ & Hh & _). unfold una_is_head in Hh. by rewrite E in Hh. }
  rewrite (settled_una _ _ _ H2), (settled_nxt _ _ _ H2), Eu, _itimediff_same. cbn. congruence.
Qed.

(** A batch of packets, as the segments they are made of. *)
Definition sound_packets (gs : list (list IKCPSEG)) : Prop :=
  Forall (fun g => g <> [] /\ Zlen (packet g) < 2147483648) gs.

Lemma stamped_accept cv wnd una g : Forall (stamped cv wnd una) g -> Forall (seg_accept cv) g.
Proof. intros H. eapply Forall_impl; [exact H|]. by intros s [Hs _]. Qed.

Lemma deliver_settles gs k wnd :
  gs <> [] -> kcp_inv k -> sound_packets gs ->
  Forall (stamped (conv k) wnd (snd_nxt k)) (concat gs) ->
  let k' := deliver (map packet gs) k in
  settled k wnd k' /\ (snd_buf k = [] -> cwnd k' = cwnd k).
Proof.
  cbv zeta. unfold deliver. revert k. induction gs as [|g gs IH]; intros k Hne Hk Hgs Hs; [done|].
  clear Hne. apply Forall_cons in Hgs as [[Hg Hl] Hgs]. cbn [concat map fold_left] in *.
  apply Forall_app in Hs as [Hs1 Hs2].
  rewrite ikcp_input_packet_eq by (try done; by eapply stamped_accept). cbn [snd].
  destruct (packet_settles k g wnd Hg Hk Hs1) as [H1 C1].
  destruct (decide (gs = [])) as [->|Hne]; [done|].
  rewrite <- (settled_conv _ _ _ H1), <- (settled_nxt _ _ _ H1) in Hs2.
  destruct (IH _ Hne (st_inv _ _ _ H1) Hgs Hs2) as [H2 C2].
  split; [by eapply settled_trans|]. intros E. rewrite C2 by apply H1. by apply C1.
Qed.

(** ** The receiving side of the exchange *)

(** The first segment of the stream is among the segments. *)
Definition has_first (gs : list (list IKCPSEG)) : Prop :=
  Exists (fun s => h_cmd (seg_header s) = IKCP_CMD_PUSH /\ h_sn (seg_header s) = 0) (concat gs).

Lemma tracks_deliver S gs k R :
  kcp_inv k -> tracks S R [] k -> Forall (honest (Zlen S - 2147483647) S) (map packet gs) ->
  exists R', tracks S R' [] (deliver (map packet gs) k).
Proof.
  unfold deliver. revert k R. induction gs as [|g gs IH]; intros k R Hk Ht Hh; [by exists R|].
  cbn [map fold_left] in *. apply Forall_cons in Hh as [H1 Hh].
  destruct (tracks_input S R [] k (packet g) Hk Ht H1) as [R1 Ht1].
  by apply (IH _ R1); [apply ikcp_input_inv| |].
Qed.

(** A lower bound on the numbers may be lowered. *)
Lemma honest_lower lo lo' S ps :
  lo' <= lo -> Forall (honest lo S) ps -> Forall (honest lo' S) ps.
Proof.
  intros Hl H. eapply Forall_impl; [exact H|]. intros p Hp. unfold honest.
  pose proof (honest_weaken lo lo' S [] p Hl Hp) as Hw. by rewrite app_nil_r in Hw.
Qed.

(** A receiver with nothing in it puts a stream of one segment in order. *)
Definition rcv_fresh (k : IKCPCB) : Prop := rcv_nxt k = 0 /\ rcv_queue k = [] /\ rcv_buf k = [].

Lemma rcv_fresh_same k k' : rcv_same k k' -> rcv_fresh k -> rcv_fresh k'.
Proof. intros (E1 & E2 & E3) (F1 & F2 & F3). unfold rcv_fresh. by rewrite E1, E2, E3. Qed.

Lemma deliver_first e gs k :
  kcp_inv k -> rcv_fresh k -> sound_packets gs -> Forall (seg_accept (conv k)) (concat gs) ->
  Forall (honest (-65535) [e]) (map packet gs) -> has_first gs ->
  let k' := deliver (map packet gs) k in
  exists s, rcv_queue k' = [s] /\ seg_entry s = e /\ rcv_nxt k' = 1 /\ tracks [e] 1 [] k'.
Proof.
  intros Hk (En & Eq & Eb) Hgs Ha Hh Hf. cbv zeta.
  assert (tracks [e] 0 [] k) as Ht.
  { split; rewrite ?En, ?Eq, ?Eb; [done| |done|constructor]. change (Zlen [e]) with 1. lia. }
  assert (Forall (honest (Zlen [e] - 2147483647) [e]) (map packet gs)) as Hh'.
  { by apply (honest_lower (-65535)). }
  destruct (tracks_deliver [e] gs k 0 Hk Ht Hh') as [R Ht'].
  pose proof (deliver_grows gs k Hk Hgs Ha) as Hg.
  assert (existsb (fun s => wants k (seg_header s)) (concat gs) = true) as Hw.
  { apply existsb_exists. unfold has_first in Hf. apply Exists_exists in Hf as (s & Hin & E1 & E2).
    exists s. split; [by apply list_elem_of_In|]. unfold wants, wanted. rewrite E1, E2, En.
    destruct Hk as (_ & _ & _ & (_ & Hwn & _ & _ & Hn & _) & _). rewrite Hn, Eq.
    change (Zlen []) with 0. cbn. lia. }
  rewrite Hw in Hg. destruct Hg as (_ & m & Em & _ & Hm). specialize (Hm eq_refl).
  rewrite Eq in Em. cbn [app] in Em. pose proof Ht' as [Hn [HR _] Hp _].
  rewrite Em in Hp |- *. cbn [app] in Hp. change (Zlen [e]) with 1 in HR.
  assert (R = 1) as ->.
  { destruct (decide (R = 0)) as [->|]; [|lia]. by destruct m. }
  destruct m as [|s [|s' m]]; [done| |done]. exists s. split; [done|].
  cbn in Hp. by injection Hp as <-.
Qed.

(** ** The sending side of the exchange *)

(** Everything sent so far is in flight, and a flush may admit at least one segment. *)
Record outbox (S : list entry) (k : IKCPCB) : Prop := {
  ob_ok : kcp_ok k;
  ob_conv : 0 <= conv k < 4294967296;
  ob_upd : updated k <> 0;
  ob_open : 1 <= cwnd k /\ 1 <= snd_wnd k /\ 1 <= rmt_wnd k;
  ob_emits : emits S k;
  ob_una : snd_una k = 0
}.

Lemma outbox_window S k : outbox S k -> 1 <= flush_window k.
Proof.
  intros [_ _ _ (H1 & H2 & H3) _ _]. unfold flush_window.
  destruct (flush_probed_shape k) as (a & b & ->). unfold flush_cwnd. cbv zeta.
  rewrite !_imin__min. simp_upd. destruct (_ =? 0); lia.
Qed.

Lemma flush_moved_rcv_nxt k : kcp_ok k -> rcv_nxt (flush_moved k) = rcv_nxt k.
Proof.
  intros Hok. destruct (flush_moved_eq k Hok) as [-> _].
  generalize (move_count k (flush_window k)), (flush_wnd k). intros n w.
  by destruct (flush_probed_shape k) as (a & b & ->).
Qed.

(** Every segment of a flush carries the window and the acknowledgement of the moment. *)
Lemma flush_stamped k :
  kcp_ok k -> 0 <= conv k < 4294967296 ->
  Forall (stamped (conv k) (u16 (flush_wnd k)) (rcv_nxt k))
    (flush_control_segs k
     ++ flush_data_segs (flush_moved k) (flush_wnd k) (snd_buf (flush_moved k))).
Proof.
  intros Hok Hc. pose proof (flush_packets_accept k Hok Hc) as Ha.
  pose proof (flush_moved_rcv_nxt k Hok) as Er.
  assert (0 <= rcv_nxt k < 4294967296) as Hn by (destruct Hok as [(_ & _ & _ & (H & _) & _) _]; exact H).
  assert (Forall (fun s => seg_wnd s = flush_wnd k /\ seg_una s = rcv_nxt k)
    (flush_control_segs k
     ++ flush_data_segs (flush_moved k) (flush_wnd k) (snd_buf (flush_moved k)))) as Hs.
  { apply Forall_app. split.
    - unfold flush_control_segs. set (s0 := flush_seg k).
      destruct (ack_segs_default s0 (take (Z.to_nat (ackcount k)) (acklist k))) as (sn & ts & ->).
      rewrite !Forall_app. split_and!.
      + apply Forall_forall. by intros s (sn' & ts' & ->)%ack_segs_elem.
      + destruct (negb _); by repeat constructor.
      + destruct (negb _); by repeat constructor.
    - unfold flush_data_segs. apply Forall_concat, Forall_map, Forall_true. intros s. cbn.
      destruct (flush_reason _ s) as [r|]; [|constructor]. constructor; [|constructor].
      split; [reflexivity|exact Er]. }
  clear Er.
  apply Forall_forall. intros s Hin. rewrite Forall_forall in Ha, Hs.
  destruct (Hs s Hin) as [E1 E2]. split; [by apply Ha|]. unfold seg_header. cbn.
  by rewrite E1, E2, u32_small.
Qed.

(** What a call put on the wire. *)
Record emission (cv wnd una : Z) (S : list entry) (gs : list (list IKCPSEG)) : Prop := {
  em_sound : sound_packets gs;
  em_stamp : Forall (stamped cv wnd una) (concat gs);
  em_honest : Forall (honest (-65535) S) (map packet gs)
}.

Lemma emission_nil cv wnd una S : emission cv wnd una S [].
Proof. split; constructor. Qed.

Lemma emission_app cv wnd una S gs gs' :
  emission cv wnd una S gs -> emission cv wnd una S gs' -> emission cv wnd una S (gs ++ gs').
Proof.
  intros [A1 A2 A3] [B1 B2 B3]. split.
  - by apply Forall_app.
  - rewrite concat_app. by apply Forall_app.
  - rewrite map_app. by apply Forall_app.
Qed.

Lemma has_first_app gs gs' : has_first gs \/ has_first gs' -> has_first (gs ++ gs').
Proof. unfold has_first. rewrite concat_app, Exists_app. done. Qed.

Lemma has_first_nonempty gs : has_first gs -> gs <> [].
Proof. intros H ->. by apply Exists_nil in H. Qed.

Lemma emission_weaken cv wnd una S T gs :
  emission cv wnd una S gs -> emission cv wnd una (S ++ T) gs.
Proof.
  intros [H1 H2 H3]. split; [done|done|]. eapply Forall_impl; [exact H3|].
  intros p. by apply honest_weaken.
Qed.

(** Fields a flush keeps; the congestion window is at least one after it. *)
Lemma flush_ctl k :
  kcp_ok k -> updated k <> 0 ->
  let k' := fst (ikcp_flush k) in
  updated k' = updated k /\ 1 <= cwnd k' /\ snd_wnd k' = snd_wnd k /\ rmt_wnd k' = rmt_wnd k /\
  snd_una k' = snd_una k /\ rcv_wnd k' = rcv_wnd k /\ mtu k' = mtu k.
Proof.
  intros Hok Hu. cbv zeta.
  destruct (ikcp_flush_shape k Hok Hu) as (x & st & ss & cw & inc & Hcw & ->).
  destruct (flush_moved_frame k Hok) as (_ & F1 & _ & _ & F2 & F3 & _).
  destruct (flush_moved_buf k Hok) as (_ & _ & _ & F6 & _).
  assert (updated (flush_moved k) = updated k /\ rcv_wnd (flush_moved k) = rcv_wnd k) as [F4 F5].
  { destruct (flush_moved_eq k Hok) as [-> _].
    generalize (move_count k (flush_window k)), (flush_wnd k). intros n w.
    by destruct (flush_probed_shape k) as (a & b & ->). }
  generalize dependent (flush_moved k). intros fk F1 F2 F3 F6 F4 F5.
  generalize (flush_visit fk (flush_wnd k)). intros f. unfold with_cc. simp_upd.
  rewrite F1, F2, F3, F4, F5, F6. done.
Qed.

(** One flush; the congestion window may still be closed before it. *)
Lemma outbox_flush_any S k :
  kcp_ok k -> 0 <= conv k < 4294967296 -> updated k <> 0 -> 1 <= snd_wnd k -> 1 <= rmt_wnd k ->
  emits S k -> snd_una k = 0 ->
  let k' := fst (ikcp_flush k) in let S' := S ++ moved_entries k k' in
  outbox S' k' /\ rcv_kept k k' /\
  exists gs, snd (ikcp_flush k) = map packet gs /\
    emission (conv k) (u16 (flush_wnd k)) (rcv_nxt k) S' gs /\
    concat gs = flush_control_segs k
      ++ flush_data_segs (flush_moved k) (flush_wnd k) (snd_buf (flush_moved k)).
Proof.
  intros Hok Hc Hu Hsw Hrw He Hun. cbv zeta.
  destruct (flush_exec S k Hok Hc He) as (He' & Hh & _). cbv zeta in *.
  pose proof (ikcp_flush_ok k Hok) as Hok'. pose proof (rcv_same_flush k Hok) as Hr.
  destruct (static_flush k Hok) as [Ec _]. destruct (flush_ctl k Hok Hu) as (G1 & G2 & G3 & G4 & G5 & G6 & _).
  set (S' := S ++ moved_entries k (fst (ikcp_flush k))) in *. clearbody S'.
  destruct (ikcp_flush_packets k Hok Hu) as (gs & Eps & Hg & Hcat). rewrite Eps in *.
  split; [split; [done|by rewrite Ec|congruence|lia|done|congruence]|]. split; [done|].
  exists gs. split; [done|]. split; [|done]. split.
  - eapply Forall_impl; [exact Hg|]. cbn. intros g [H1 H2]. destruct Hok as (_ & Hm & _). split; [done|lia].
  - rewrite Hcat. by apply flush_stamped.
  - apply (honest_lower (Zlen S' - 65535)); [|done]. pose proof (Zlen_nonneg S'). lia.
Qed.

Lemma outbox_flush S k :
  outbox S k ->
  let k' := fst (ikcp_flush k) in let S' := S ++ moved_entries k k' in
  outbox S' k' /\ rcv_kept k k' /\
  exists gs, snd (ikcp_flush k) = map packet gs /\
    emission (conv k) (u16 (flush_wnd k)) (rcv_nxt k) S' gs /\
    concat gs = flush_control_segs k
      ++ flush_data_segs (flush_moved k) (flush_wnd k) (snd_buf (flush_moved k)).
Proof. intros [H1 H2 H3 (_ & H4 & H5) H6 H7]. by apply outbox_flush_any. Qed.

Lemma flush_wnd_kept k k' :
  kcp_inv k -> kcp_inv k' -> rcv_kept k k' -> flush_wnd k' = flush_wnd k.
Proof.
  intros (_ & _ & _ & (_ & _ & _ & _ & H1 & _) & _) (_ & _ & _ & (_ & _ & _ & _ & H2 & _) & _)
    [(_ & E & _) Ew].
  unfold flush_wnd, ikcp_wnd_unused. by rewrite H1, H2, E, Ew.
Qed.

Lemma outbox_clock S k now u ts : u <> 0 -> outbox S k -> outbox S (with_clock k now u ts).
Proof.
  intros Hu [H1 H2 _ H4 [H5 H6] H7]. split; [by apply kcp_ok_clock|done..].
Qed.


(** What one call at the sender gives: its packets, and the state it leaves; [first] tells
    whether the first segment of the stream is among them. *)
Definition emits_step (first : Prop) (S S' : list entry) (k k' : IKCPCB) (ps : list bytes) : Prop :=
  outbox S' k' /\ rcv_kept k k' /\ (conv k' = conv k /\ mtu k' = mtu k) /\
  exists gs, ps = map packet gs /\ emission (conv k) (u16 (flush_wnd k)) (rcv_nxt k) S' gs /\
    (first -> has_first gs).

(** A flush of an empty queue. *)
Lemma outbox_flush_idle S k :
  outbox S k -> snd_queue k = [] ->
  emits_step False S S k (fst (ikcp_flush k)) (snd (ikcp_flush k)) /\
  snd_queue (fst (ikcp_flush k)) = [].
Proof.
  intros Ho Hq. destruct (outbox_flush S k Ho) as (H1 & H2 & gs & E & He & _).
  assert (snd_queue (fst (ikcp_flush k)) = []) as Hq'.
  { destruct (flush_queue k (ob_ok _ _ Ho) (ob_upd _ _ Ho)) as (_ & Eq & _).
    rewrite Hq, take_nil in Eq. by symmetry. }
  rewrite moved_entries_same, app_nil_r in * by congruence.
  destruct (static_flush k (ob_ok _ _ Ho)) as [Ec _].
  destruct (flush_ctl k (ob_ok _ _ Ho) (ob_upd _ _ Ho)) as (_ & _ & _ & _ & _ & _ & Em).
  split; [|done]. split; [done|]. split; [done|]. split; [done|]. by exists gs.
Qed.

(** A flush that admits the first segment, and sends it. *)
Lemma outbox_flush_first s k :
  outbox [] k -> snd_queue k = [s] ->
  emits_step True [] [seg_entry s] k (fst (ikcp_flush k)) (snd (ikcp_flush k)) /\
  snd_queue (fst (ikcp_flush k)) = [].
Proof.
  intros Ho Hq. destruct (outbox_flush [] k Ho) as (H1 & H2 & gs & E & He & Hcat).
  pose proof (outbox_window _ _ Ho) as Hw. pose proof Ho as [Hok _ Hu _ [Hn _] Hun].
  change (snd_nxt k = 0) in Hn.
  assert (move_count k (flush_window k) = 1%nat) as Hm.
  { unfold move_count. rewrite Hq, Hn, Hun. change (Zlen [s]) with 1. change (u32 (0 - 0)) with 0. lia. }
  destruct (flush_queue k Hok Hu) as (Ea & Eq & Ee). rewrite Hm, Hq in Eq, Ee.
  assert (snd_queue (fst (ikcp_flush k)) = []) as Hq' by (cbn in Eq; by injection Eq).
  rewrite <- Ea, Ee in H1, He. cbn [app] in H1, He.
  destruct (static_flush k Hok) as [Ec _].
  destruct (flush_ctl k Hok Hu) as (_ & _ & _ & _ & _ & _ & Em).
  split; [|done]. split; [done|]. split; [done|]. split; [done|]. exists gs. split; [done|]. split; [done|].
  intros _. unfold has_first. rewrite Hcat. apply Exists_app. right.
  destruct (flush_moved_buf k Hok) as (Eb & _). unfold flush_admitted in Eb.
  rewrite Hm, Hq, Hn in Eb. cbn [take segs_moved] in Eb.
  set (s0 := seg_moved _ _ _ s) in Eb.
  destruct (due_segment_sent (flush_moved k) (flush_wnd k) (snd_buf (flush_moved k)) s0)
    as (s' & Hs' & E1 & E2).
  { rewrite Eb. apply elem_of_app. right. by apply list_elem_of_singleton. }
  { by eexists. }
  apply Exists_exists. exists s'. split; [done|]. unfold seg_header. cbn [h_cmd h_sn].
  by rewrite E1, E2.
Qed.

Lemma emits_step_trans f f' S1 S2 T k1 k2 k3 ps ps' :
  kcp_ok k1 -> emits_step f S1 S2 k1 k2 ps -> emits_step f' S2 (S2 ++ T) k2 k3 ps' ->
  emits_step (f \/ f') S1 (S2 ++ T) k1 k3 (ps ++ ps').
Proof.
  intros Hok (O2 & R2 & [C2 M2] & gs & -> & E2 & F2) (O3 & R3 & [C3 M3] & gs' & -> & E3 & F3).
  split; [done|]. split; [by transitivity k2|]. split; [split; congruence|].
  exists (gs ++ gs'). split; [by rewrite map_app|].
  rewrite C2, (flush_wnd_kept k1 k2) in E3 by first [apply Hok|apply O2|exact R2].
  destruct R2 as [(En & _) _]. rewrite En in E3. split.
  - apply emission_app; [by apply emission_weaken|done].
  - intros [H|H]; apply has_first_app; auto.
Qed.

(** [ikcp_update] flushes or only moves the clock. *)
Lemma outbox_update_idle S k now :
  outbox S k -> snd_queue k = [] ->
  emits_step False S S k (fst (ikcp_update k now)) (snd (ikcp_update k now)) /\
  snd_queue (fst (ikcp_update k now)) = [].
Proof.
  intros Ho Hq. destruct (ikcp_update_cases k now) as (u & ts & Hu & E).
  pose proof (outbox_clock S k now u ts Hu Ho) as Hc. destruct E as [-> | ->].
  - exact (outbox_flush_idle S (with_clock k now u ts) Hc Hq).
  - split; [|done]. split; [done|]. split; [done|]. split; [done|]. exists [].
    split; [done|]. split; [apply emission_nil|done].
Qed.

(** An update and a flush, as the task makes them: the queued segment leaves in one or the
    other. *)
Lemma outbox_send_first s k now :
  outbox [] k -> snd_queue k = [s] ->
  let r := ikcp_update k now in let r' := ikcp_flush (fst r) in
  emits_step True [] [seg_entry s] k (fst r') (snd r ++ snd r') /\ snd_queue (fst r') = [].
Proof.
  intros Ho Hq. cbv zeta. destruct (ikcp_update_cases k now) as (u & ts & Hu & E).
  pose proof (outbox_clock [] k now u ts Hu Ho) as Hc. pose proof (ob_ok _ _ Ho) as Hok.
  destruct E as [-> | ->]; cbn [fst snd app].
  - destruct (outbox_flush_first s (with_clock k now u ts) Hc Hq) as [H1 Q1].
    pose proof H1 as (O1 & _). destruct (outbox_flush_idle _ _ O1 Q1) as [H2 Q2].
    split; [|done]. rewrite <- (app_nil_r [seg_entry s]) in H2 at 2.
    pose proof (emits_step_trans True False [] _ [] _ _ _ _ _ (ob_ok _ _ Hc) H1 H2) as H.
    rewrite app_nil_r in H. destruct H as (G1 & G2 & G3 & gs & G4 & G5 & G6).
    split; [done|]. split; [done|]. split; [done|]. exists gs. split; [done|]. split; [done|]. auto.
  - exact (outbox_flush_first s (with_clock k now u ts) Hc Hq).
Qed.

(** A write of at most one segment on an empty queue. *)
Lemma send_one b k :
  kcp_ok k -> snd_queue k = [] -> 0 < Zlen b <= mss k ->
  ikcp_send k b (Zlen b) =
    (0, k <| snd_queue := [frag_seg 0 b] |> <| nsnd_que := u32 (nsnd_que k + 1) |>).
Proof.
  intros Hok Hq Hb. pose proof Hok as [((Hm & Hnq & Hfit) & _) _].
  assert (Zlen b < 2147483648) as Hb' by lia.
  destruct (ikcp_send_spec k b Hm Hb') as (q & _ & Hlen & _ & _ & E);
    [rewrite Hnq; apply u32_range|done|]. cbv zeta in E. rewrite Hq in Hlen. destruct q; [|done].
  assert (send_room k = 0) as Hroom.
  { unfold send_room, tail_room. rewrite Hq. cbn. by destruct (_ =? _). }
  rewrite Hroom, drop_0 in E. destruct (Z.leb_spec (Zlen b) 0); [lia|]. rewrite andb_false_r in E.
  assert (frag_count (mss k) (Zlen b) = 1) as Ef.
  { unfold frag_count. assert ((Zlen b + mss k - 1) / mss k = 1); [|lia].
    symmetry. apply (Z.div_unique _ _ _ (Zlen b - 1)); lia. }
  assert (frag_segs (Z.to_nat 1) (mss k) (stream k =? 0) b = [frag_seg 0 b]) as Es.
  { change (Z.to_nat 1) with 1%nat. cbn [frag_segs]. rewrite take_ge by (unfold Zlen in Hb; lia).
    by destruct (stream k =? 0). }
  rewrite Ef, Es in E. exact E.
Qed.

Lemma outbox_write b k :
  outbox [] k -> snd_queue k = [] -> 0 < Zlen b <= mss k ->
  exists s, ikcp_send k b (Zlen b) = (0, snd (ikcp_send k b (Zlen b))) /\
    snd_queue (snd (ikcp_send k b (Zlen b))) = [s] /\ seg_entry s = (0, b) /\
    outbox [] (snd (ikcp_send k b (Zlen b))) /\ rcv_kept k (snd (ikcp_send k b (Zlen b))) /\
    conv (snd (ikcp_send k b (Zlen b))) = conv k /\ mtu (snd (ikcp_send k b (Zlen b))) = mtu k.
Proof.
  intros Ho Hq Hb. pose proof Ho as [Hok Hc Hu Hw [Hn Hbuf] Hun].
  assert (Zlen b < 2147483648) as Hb' by (pose proof Hok as [((Hm & _) & _) _]; lia).
  pose proof (ikcp_send_ok k b Hok Hb') as Hok'. destruct (static_send k b Hok Hb') as [Ec _].
  pose proof (rcv_same_send k b Hok Hb') as Hr. pose proof (send_one b k Hok Hq Hb) as E.
  exists (frag_seg 0 b). rewrite E in *. cbn [snd] in *. split; [done|]. split; [done|].
  split; [done|]. split; [|by split_and!]. split; [done|done|done|done|by split|done].
Qed.

(** ** An endpoint before the exchange *)

(** Nothing received yet, and [S] is what it has sent; [m] is its mtu. *)
Record greeter (S : list entry) (m : Z) (k : IKCPCB) : Prop := {
  gr_outbox : outbox S k;
  gr_queue : snd_queue k = [];
  gr_fresh : rcv_fresh k;
  gr_wnd : rcv_wnd k < 65536;
  gr_mtu : mtu k = m
}.

Lemma greeter_mss S m k : greeter S m k -> mss k = m - 24.
Proof. intros [[[_ (_ & E & _)] _ _ _ _ _] _ _ _ Em]. by rewrite E, Em. Qed.

(** The window it advertises is open. *)
Lemma greeter_advertises S m k : greeter S m k -> u16 (flush_wnd k) = rcv_wnd k /\ 1 <= rcv_wnd k.
Proof.
  intros [Ho _ (_ & Eq & _) Hw _]. destruct (ob_ok _ _ Ho) as [(_ & _ & _ & (_ & Hr & _ & _ & Hn & _) & _) _].
  split; [|lia]. unfold flush_wnd, ikcp_wnd_unused. rewrite Hn, Eq. change (Zlen []) with 0.
  destruct (Z.ltb_spec 0 (rcv_wnd k)); [|lia]. rewrite Z.sub_0_r, u32_i32, u32_idemp, u32_small by lia.
  apply u16_small. lia.
Qed.

(** Waiting: the timer runs, packets may be sent again. *)
Lemma greeter_update S m k now :
  greeter S m k -> greeter S m (fst (ikcp_update k now)) /\ conv (fst (ikcp_update k now)) = conv k.
Proof.
  intros [Ho Hq Hf Hw Hm]. destruct (outbox_update_idle S k now Ho Hq) as [(H1 & [H2 H2'] & [H3 H4] & _) Hq'].
  split; [|done]. split; [done|done|by apply (rcv_fresh_same k)|lia|congruence].
Qed.

(** The first write of an endpoint leaves it at once, whatever it has received. *)
Lemma outbox_send k b now :
  outbox [] k -> snd_queue k = [] -> 0 < Zlen b <= mss k ->
  let k1 := snd (ikcp_send k b (Zlen b)) in
  let r := ikcp_update k1 now in let r' := ikcp_flush (fst r) in
  ikcp_send k b (Zlen b) = (0, k1) /\ snd_queue (fst r') = [] /\
  emits_step True [] [(0, b)] k (fst r') (snd r ++ snd r').
Proof.
  intros Ho Hq Hb. cbv zeta.
  destruct (outbox_write b k Ho Hq Hb) as (s & E0 & E1 & Es & O1 & [R1 W1] & C1 & M1).
  split; [done|]. clear E0. pose proof (ob_ok _ _ Ho) as [Hi _].
  pose proof (flush_wnd_kept k _ Hi (proj1 (ob_ok _ _ O1)) (conj R1 W1)) as Ew.
  generalize dependent (snd (ikcp_send k b (Zlen b))). intros k1 E1 O1 R1 W1 C1 M1 Ew.
  destruct (outbox_send_first s k1 now O1 E1) as [(O2 & R2 & [C2 M2] & gs & E2 & F2 & H2) Q2].
  cbv zeta in *. rewrite Es in *. split; [done|].
  split; [done|]. split; [by transitivity k1|]. split; [split; congruence|].
  exists gs. split; [done|]. split; [|done]. destruct R1 as (En & _). by rewrite Ew, C1, En in F2.
Qed.

Lemma greeter_send m k b now :
  greeter [] m k -> 0 < Zlen b <= m - 24 ->
  let k1 := snd (ikcp_send k b (Zlen b)) in
  let r := ikcp_update k1 now in let r' := ikcp_flush (fst r) in
  ikcp_send k b (Zlen b) = (0, k1) /\ greeter [(0, b)] m (fst r') /\ conv (fst r') = conv k /\
  exists gs, snd r ++ snd r' = map packet gs /\
    emission (conv k) (rcv_wnd k) 0 [(0, b)] gs /\ has_first gs.
Proof.
  intros Hg Hb. pose proof Hg as [Ho Hq Hf Hw Hm]. rewrite <- (greeter_mss _ _ _ Hg) in Hb. cbv zeta.
  destruct (outbox_send k b now Ho Hq Hb) as (E & Q & O & [R W] & [C M] & gs & Ep & Fp & Hp).
  cbv zeta in *. destruct (greeter_advertises _ _ _ Hg) as [Ew _]. split; [done|].
  split; [split; [done|done|by apply (rcv_fresh_same k)|lia|congruence]|]. split; [done|].
  exists gs. split; [done|]. split; [|auto]. destruct Hf as (En & _). by rewrite Ew, En in Fp.
Qed.

(** ** From [ikcp_create] to the first write *)

(** The first update always flushes. *)
Lemma ikcp_update_first k now :
  updated k = 0 -> exists ts, ikcp_update k now = ikcp_flush (with_clock k now 1 ts).
Proof.
  intros Hu. unfold ikcp_update. simp_upd. rewrite Hu. cbn [Z.eqb]. simp_upd.
  rewrite _itimediff_same. cbn [Z.geb Z.ltb Z.compare orb].
  destruct (_itimediff _ _ >=? 0); eexists; reflexivity.
Qed.

(** A flush with nothing to send or to acknowledge. *)
Lemma flush_silent k :
  kcp_ok k -> updated k <> 0 -> snd_queue k = [] -> snd_buf k = [] -> acklist k = [] ->
  probe k = 0 -> rmt_wnd k <> 0 -> snd (ikcp_flush k) = [].
Proof.
  intros Hok Hu Hq Hb Ha Hp Hr. destruct (ikcp_flush_packets k Hok Hu) as (gs & -> & Hg & Hcat).
  destruct (flush_moved_buf k Hok) as (Eb & _). unfold flush_admitted in Eb.
  rewrite Hq, Hb, take_nil in Eb. cbn [segs_moved app] in Eb. rewrite Eb in Hcat.
  assert (flush_control_segs k = []) as Hc.
  { unfold flush_control_segs. rewrite Ha, take_nil. unfold flush_probe_wnd.
    destruct (Z.eqb_spec (rmt_wnd k) 0); [done|]. simp_upd. by rewrite Hp. }
  rewrite Hc in Hcat. destruct Hg as [|g gs [Hne _] _]; [done|]. by destruct g.
Qed.

Lemma greeter_create cv now :
  0 <= cv < 4294967296 ->
  let r := ikcp_update (ikcp_create cv) now in
  greeter [] IKCP_MTU_DEF (fst r) /\ conv (fst r) = cv /\ snd r = [].
Proof.
  intros Hcv. cbv zeta. destruct (ikcp_update_first (ikcp_create cv) now eq_refl) as [ts ->].
  assert (kcp_ok (with_clock (ikcp_create cv) now 1 ts)) as Hok
    by apply kcp_ok_clock, ikcp_create_ok.
  set (k := with_clock (ikcp_create cv) now 1 ts) in *.
  assert (emits [] k) as He by (split; [done|constructor]).
  destruct (outbox_flush_any [] k Hok Hcv ltac:(done) ltac:(done) ltac:(done) He eq_refl)
    as (H1 & [H2 H2'] & _). cbv zeta in *.
  destruct (flush_queue k Hok ltac:(done)) as (_ & Eq & _).
  change (snd_queue k) with (@nil IKCPSEG) in Eq. rewrite take_nil in Eq. cbn [app] in Eq. symmetry in Eq.
  rewrite moved_entries_same in H1 by done. cbn [app] in H1.
  destruct (flush_ctl k Hok ltac:(done)) as (_ & _ & _ & _ & _ & _ & Em).
  split; [|split; [by apply (static_flush k Hok)|by apply flush_silent]].
  split; [done|done|by apply (rcv_fresh_same k)| |done].
  by rewrite H2'.
Qed.

Lemma emits_nothing k : emits [] k -> snd_buf k = [].
Proof.
  intros [_ Hb]. destruct (snd_buf k) as [|s q]; [done|].
  apply Forall_cons in Hb as [(i & (Hi & _) & _) _]. change (Zlen []) with 0 in Hi. lia.
Qed.

(** The setters. *)
Lemma greeter_keep S m m' k k' :
  kcp_ok k' -> snd_keep k k' -> rcv_same k k' ->
  updated k' = updated k -> cwnd k' = cwnd k -> 1 <= snd_wnd k' -> rmt_wnd k' = rmt_wnd k ->
  snd_una k' = snd_una k -> rcv_wnd k' < 65536 -> mtu k' = m' ->
  greeter S m k -> greeter S m' k' /\ conv k' = conv k.
Proof.
  intros Hok Hk Hr Eu Ec Es Em Ea Ew Et [[_ H2 H3 (H4 & H5 & H6) H7 H8] Hq Hf Hw Ht].
  pose proof Hk as (_ & Eq & _ & Ecv & _). split; [|done]. split; [|congruence|by apply (rcv_fresh_same k)|done|done].
  split; [done|by rewrite Ecv|congruence|lia|by apply (emits_keep S k)|congruence].
Qed.

Lemma greeter_stream S m k b :
  greeter S m k -> greeter S m (k <| stream := b |>).
Proof. intros [[H1 H2 H3 H4 [H5 H6] H7] Hq Hf Hw Hm]. by split. Qed.

Lemma greeter_setmtu m m' k :
  50 <= m' < 1073741824 -> greeter [] m k ->
  exists k', ikcp_setmtu true k m' = (0, k') /\ greeter [] m' k' /\ conv k' = conv k.
Proof.
  intros Hm Hg. pose proof Hg as [Ho Hq _ Hw _]. pose proof (emits_nothing k (ob_emits _ _ Ho)) as Hb.
  pose proof (ikcp_setmtu_ok true k m' (ob_ok _ _ Ho) ltac:(lia)) as Hok.
  rewrite Hq, Hb in Hok. specialize (Hok (Forall_nil_2 _)).
  pose proof (ikcp_setmtu_frame k true m') as [Hk Hr]. exists (snd (ikcp_setmtu true k m')).
  revert Hok Hk Hr. unfold ikcp_setmtu, IKCP_OVERHEAD. change (i32 24) with 24.
  destruct (Z.ltb_spec m' 50), (Z.ltb_spec m' 24); try lia. cbn [orb negb snd]. intros Hok Hk Hr.
  pose proof (ob_open _ _ Ho) as (_ & Hs & _).
  split; [done|]. apply (greeter_keep [] m _ k); try done. simp_upd. apply u32_small. lia.
Qed.

Lemma greeter_nodelay S m k nd iv resend nc :
  greeter S m k -> greeter S m (ikcp_nodelay k nd iv resend nc) /\
  conv (ikcp_nodelay k nd iv resend nc) = conv k.
Proof.
  intros Hg. pose proof Hg as [Ho _ _ Hw Hm]. destruct (ikcp_nodelay_frame k nd iv resend nc) as [Hk Hr].
  pose proof (ikcp_nodelay_ok k nd iv resend nc (ob_ok _ _ Ho)) as Hok.
  pose proof Ho as [_ _ _ (_ & Hs & _) _ _]. revert Hok Hk Hr. unfold ikcp_nodelay. cbv zeta.
  destruct (nd >=? 0), (negb (nd =? 0)), (iv >=? 0), (resend >=? 0), (nc >=? 0); intros Hok Hk Hr;
    by apply (greeter_keep S m m k).
Qed.

Lemma greeter_wndsize S m k s r :
  s < 2147483648 -> r < 65536 -> greeter S m k ->
  greeter S m (ikcp_wndsize k s r) /\ conv (ikcp_wndsize k s r) = conv k.
Proof.
  intros Hs Hr Hg. pose proof Hg as [Ho _ _ Hw Hm]. destruct (ikcp_wndsize_frame k s r) as [Hk Hrc].
  pose proof (ikcp_wndsize_ok k s r (ob_ok _ _ Ho) Hs ltac:(lia)) as Hok.
  pose proof Ho as [_ _ _ (_ & Hsn & _) _ _]. revert Hok Hk Hrc. unfold ikcp_wndsize. cbv zeta.
  destruct (Z.gtb_spec s 0), (Z.gtb_spec r 0); intros Hok Hk Hrc;
    apply (greeter_keep S m m k); try done; simp_upd; rewrite ?_imax__max; unfold IKCP_WND_RCV; lia.
Qed.

(** ** Reading the segment and keeping the outbox *)

Lemma outbox_same k k' :
  kcp_ok k' -> snd_keep k k' -> updated k' = updated k -> cwnd k' = cwnd k ->
  snd_wnd k' = snd_wnd k -> 1 <= rmt_wnd k' -> outbox [] k -> outbox [] k' /\ conv k' = conv k.
Proof.
  intros Hok Hk Eu Ec Es Er [_ H2 H3 (H4 & H5 & _) He _].
  pose proof (emits_keep _ _ _ Hk He) as He'. pose proof Hk as (_ & _ & _ & Ecv & _).
  split; [|done]. split; [done|by rewrite Ecv|congruence|lia|done|].
  destruct Hok as [(_ & _ & Hh & _) _]. unfold una_is_head in Hh.
  rewrite (emits_nothing _ He') in Hh. destruct He' as [E _]. by rewrite Hh, E.
Qed.

Lemma ctl_kept_recv k len :
  ctl_kept k (snd (ikcp_recv k len)) /\
  cwnd (snd (ikcp_recv k len)) = cwnd k /\ snd_wnd (snd (ikcp_recv k len)) = snd_wnd k /\
  mtu (snd (ikcp_recv k len)) = mtu k.
Proof.
  unfold ikcp_recv. destruct (rcv_queue k); [done|]. cbv zeta.
  destruct (_ <? 0); [done|]. destruct (_ >? _); [done|].
  destruct (ikcp_recv_merge _ _ _ _ _) as [[[buf n] rest] nq]. cbn [snd].
  match goal with |- context [ikcp_move_rcv ?q ?k1] =>
    pose proof (snd_frame_move_rcv q k1) as (Em & _ & Es & Ec & _);
    pose proof (ctl_kept_move_rcv q k1) as [Eu Er] end.
  by destruct (_ && _).
Qed.

(** The one segment that was put in order is read whole, and nothing is left. *)
Lemma recv_first k s b :
  kcp_inv k -> tracks [(0, b)] 1 [] k -> rcv_queue k = [s] -> seg_entry s = (0, b) ->
  Zlen b < 2147483648 ->
  recv_ok k /\ head_incomplete k = false /\ seg_bytes (fst (msg_prefix (rcv_queue k))) = b /\
  rcv_queue (snd (ikcp_recv k (Zlen b))) = [] /\ rcv_nxt (snd (ikcp_recv k (Zlen b))) = 1.
Proof.
  intros Hk Ht Eq Es Hl. injection Es as Ef Eb.
  assert (msg_prefix [s] = ([s], [])) as Ep by (cbn; by rewrite Ef).
  destruct Hk as (_ & _ & _ & Hw & _). pose proof Hw as (_ & _ & _ & _ & Hn & Hlq & _ & Hwf).
  assert (seg_bytes [s] = b) as Esb by (unfold seg_bytes; cbn; by rewrite Eb, app_nil_r).
  assert (recv_ok k) as Hrok.
  { unfold recv_ok. split_and!; [done| |done|lia]. by rewrite Eq, Esb. }
  assert (head_incomplete k = false) as Hh.
  { unfold head_incomplete. rewrite Eq, Ef. done. }
  pose proof (Zlen_nonneg b) as H0.
  pose proof (tracks_recv [(0, b)] 1 [] k (Zlen b) Hw Hrok ltac:(lia) Ht) as Hr.
  pose proof (ikcp_recv_spec k (Zlen b) Hrok ltac:(lia)) as Hs. cbv zeta in Hs.
  rewrite Eq, Ep, Hh in Hs. cbn [fst] in Hs. rewrite Esb, Z.abs_eq, Z.ltb_irrefl in Hs by done.
  change (Zlen [s] =? 0) with false in Hs. cbv iota in Hs. rewrite Hs in Hr |- *. clear Hs.
  cbn [snd] in *. rewrite Eq, Ep in *. cbn [fst map app] in *.
  destruct (Z.ltb_spec (Zlen b) 0) as [|_]; [lia|]. cbn [orb] in Hr.
  destruct Hr as (R & [Hnx [HR _] Hp _] & _). change (Zlen [(0, b)]) with 1 in HR.
  assert (R = 1) as -> by (destruct (decide (R = 0)) as [->|]; [done|lia]).
  split_and!; [done|done|done| |exact Hnx].
  cbn in Hp. injection Hp as _ _ Hp. by apply map_eq_nil in Hp.
Qed.

(** Reading keeps the outbox, and so does a batch of packets taken under another number. *)
Lemma outbox_recv k len :
  outbox [] k ->
  let k' := snd (ikcp_recv k len) in
  outbox [] k' /\ conv k' = conv k /\ snd_queue k' = snd_queue k /\ mss k' = mss k.
Proof.
  intros Ho. cbv zeta. pose proof (snd_keep_recv k len) as Hk. pose proof Hk as (_ & Eq & _).
  destruct (ctl_kept_recv k len) as ([E1 E2] & E3 & E4 & E5).
  pose proof (ikcp_recv_ok k len (ob_ok _ _ Ho)) as Hok. pose proof (ob_open _ _ Ho) as (_ & _ & Hrm).
  destruct (outbox_same k _ Hok Hk E1 E3 E4 ltac:(lia) Ho) as [G1 G2].
  split; [done|]. split; [done|]. split; [done|].
  destruct Hok as (_ & _ & -> & _). pose proof (ob_ok _ _ Ho) as (_ & _ & E6 & _). lia.
Qed.

Lemma outbox_settled k c wnd d :
  let k' := d <| conv := conv k |> in
  outbox [] k -> settled (k <| conv := c |>) wnd d -> cwnd d = cwnd k -> 1 <= wnd -> kcp_ok k' ->
  outbox [] k' /\ conv k' = conv k /\ snd_queue k' = snd_queue k /\ mss k' = mss k.
Proof.
  intros k' Ho [_ Bd (A1 & A2 & A3 & A4 & A5 & A6 & A7 & A8 & A9 & _) U R] Hcw Hw Hok. subst k'.
  simp_upd. assert (snd_keep k (d <| conv := conv k |>)) as Hk.
  { split; [exact A8|]. split; [exact A5|]. split; [exact A9|]. split; [done|]. simp_upd. rewrite Bd.
    intros; constructor. }
  destruct (outbox_same k (d <| conv := conv k |>) Hok Hk U Hcw A3) as [G1 G2]; [simp_upd; lia|done|].
  done.
Qed.
