(* ===== verification/Acks.v ===== *)
(** Acknowledgements: what a receiver acknowledges it has, and what a sender forgets the
    receiver has.  Together they are why nothing is lost when packets are. *)
From S2P Require Import Prelude Bytes IkcpTypes IkcpSend IkcpInput IkcpFlush IkcpFlushSpec.
From S2P Require Import IkcpInv Wire Delivery Progress Exchange.

(** ** The ack list *)

(** The numbers the next flush acknowledges. *)
Definition acked_sns (k : IKCPCB) : list Z := map fst (take (Z.to_nat (ackcount k)) (acklist k)).

Definition acks_kept (k k' : IKCPCB) : Prop :=
  ackcount k' = ackcount k /\ acklist k' = acklist k.

#[export] Instance acks_kept_preorder : PreOrder acks_kept.
Proof. split; [done|]. intros k1 k2 k3 [E1 E2] [F1 F2]. split; congruence. Qed.

Lemma acked_sns_kept k k' : acks_kept k k' -> acked_sns k' = acked_sns k.
Proof. intros [E1 E2]. unfold acked_sns. by rewrite E1, E2. Qed.

Lemma acks_kept_parse_una k una : acks_kept k (ikcp_parse_una k una).
Proof.
  unfold ikcp_parse_una. generalize (snd_buf k). intros q. revert k.
  induction q as [|s q IH]; intros k; cbn [ikcp_parse_una_loop]; [done|].
  destruct (_ >? 0); [|done]. etransitivity; [|apply IH]. done.
Qed.

Lemma acks_kept_shrink k : acks_kept k (ikcp_shrink_buf k).
Proof. by rewrite ikcp_shrink_buf_shape. Qed.

Lemma acks_kept_input_ack k l h : acks_kept k (fst (ikcp_input_ack k l h)).
Proof.
  unfold ikcp_input_ack. cbn [fst]. etransitivity; [|apply acks_kept_shrink].
  set (k1 := if _ >=? 0 then _ else _). transitivity k1.
  - unfold k1. destruct (_ >=? 0); [|done].
    by destruct (ikcp_update_ack_shape k (_itimediff (current k) (h_ts h))) as (a & b & c & ->).
  - by destruct (ikcp_parse_ack_shape k1 (h_sn h)) as (q & n & ->).
Qed.

Lemma acks_kept_fastack k sn ts : acks_kept k (ikcp_parse_fastack k sn ts).
Proof. by destruct (ikcp_parse_fastack_shape k sn ts) as (q & -> & _). Qed.

Lemma acks_kept_cwnd k : acks_kept k (ikcp_input_cwnd k).
Proof. by destruct (ikcp_input_cwnd_frame k) as (c & i & -> & _). Qed.

Lemma acks_kept_move_rcv q k : acks_kept k (ikcp_move_rcv q k).
Proof.
  revert k. induction q as [|s q IH]; intros k; [done|]. cbn [ikcp_move_rcv].
  destruct (_ && _); [|done]. etransitivity; [|apply IH]. done.
Qed.

Lemma acks_kept_parse_data k s : acks_kept k (ikcp_parse_data k s).
Proof.
  unfold ikcp_parse_data. destruct (_ || _); [done|].
  etransitivity; [|apply acks_kept_move_rcv]. by destruct (ikcp_parse_data_insert _ _).
Qed.

(** A new acknowledgement goes after the ones that wait, unless the counter wraps around. *)
Lemma acked_sns_push k sn ts n :
  n ∈ acked_sns (ikcp_ack_push k sn ts) -> n ∈ acked_sns k \/ n = sn.
Proof.
  assert (acklist (ikcp_ack_push k sn ts) = take (Z.to_nat (ackcount k)) (acklist k) ++ [(sn, ts)])
    as E by (unfold ikcp_ack_push; by destruct (_ >? _)).
  unfold acked_sns. rewrite E, !list_elem_of_fmap. intros (a & -> & Ha).
  assert (a ∈ take (Z.to_nat (ackcount k)) (acklist k) ++ [(sn, ts)]) as Ha'.
  { rewrite <- (take_drop (Z.to_nat (ackcount (ikcp_ack_push k sn ts))) (_ ++ _)).
    apply elem_of_app. by left. }
  apply elem_of_app in Ha' as [Ha'|Ha']; [left; eauto|right].
  apply list_elem_of_singleton in Ha'. by subst.
Qed.

Lemma acked_sns_push_ne k sn ts :
  0 <= ackcount k -> ackcount k + 1 < 4294967296 -> acked_sns (ikcp_ack_push k sn ts) <> [].
Proof.
  intros H0 H1. unfold acked_sns, ikcp_ack_push.
  destruct (_ >? _); simp_upd; rewrite u32_small by lia;
    destruct (Z.to_nat (ackcount k + 1)) as [|n] eqn:E; try lia;
    by destruct (take (Z.to_nat (ackcount k)) (acklist k)).
Qed.

Lemma ackcount_push k sn ts :
  0 <= ackcount k -> ackcount k + 1 < 4294967296 -> ackcount (ikcp_ack_push k sn ts) = ackcount k + 1.
Proof.
  intros H0 H1. unfold ikcp_ack_push. destruct (_ >? _); simp_upd; by rewrite u32_small by lia.
Qed.

(** ** What the receiver has

    [had R k i]: the segment number [i] of the stream is in order, or kept for later. *)
Definition had (R : Z) (k : IKCPCB) (i : Z) : Prop := i < R \/ u32 i ∈ map seg_sn (rcv_buf k).

(** Numbers less than half the ring old. *)
Definition near (N i : Z) : Prop := 0 <= i < N /\ N - 2147483648 < i.

(** Nothing that could be put in order waits in the buffer. *)
Definition front (k : IKCPCB) : Prop :=
  match rcv_buf k with
  | [] => True
  | s :: _ => seg_sn s <> rcv_nxt k \/ rcv_wnd k <= Zlen (rcv_queue k)
  end.

(** A receiver of the stream [S], [R] segments of which it has put in order, that acknowledges
    only what it has. *)
Record takes (S : list entry) (R : Z) (got : list entry) (k : IKCPCB) : Prop := {
  tk_tracks : tracks S R got k;
  tk_front : front k;
  tk_acks : Forall (fun sn => exists i, near (Zlen S) i /\ sn = u32 i /\ had R k i) (acked_sns k)
}.

(** From [k] to [k'] the receiver takes in more, at most [n] acknowledgements are added, and
    one waits at the end if [must]. *)
Record gains (S : list entry) (got : list entry) (n : Z) (must : Prop) (R : Z) (k : IKCPCB)
    (R' : Z) (k' : IKCPCB) : Prop := {
  gn_takes : takes S R' got k';
  gn_le : R <= R';
  gn_wnd : rcv_wnd k' = rcv_wnd k;
  gn_had i : near (Zlen S) i -> had R k i -> had R' k' i;
  gn_count : 0 <= ackcount k -> ackcount k + n < 4294967296 ->
    ackcount k <= ackcount k' <= ackcount k + n /\
    (must \/ acked_sns k <> [] -> acked_sns k' <> [])
}.

Lemma gains_trans S got n1 n2 (m1 m2 : Prop) R1 k1 R2 k2 R3 k3 :
  0 <= n1 -> 0 <= n2 ->
  gains S got n1 m1 R1 k1 R2 k2 -> gains S got n2 m2 R2 k2 R3 k3 ->
  gains S got (n1 + n2) (m1 \/ m2) R1 k1 R3 k3.
Proof.
  intros P1 P2 [_ A2 A3 A4 A5] [B1 B2 B3 B4 B5]. split; [done|lia|congruence|auto|].
  intros H0 Hn. destruct (A5 H0 ltac:(lia)) as [C1 C2]. destruct (B5 ltac:(lia) ltac:(lia)) as [D1 D2].
  split; [lia|]. tauto.
Qed.

Lemma gains_kept S got R k k' :
  rcv_kept k k' -> acks_kept k k' -> takes S R got k -> gains S got 0 False R k R k'.
Proof.
  intros [Hs Ew] Ha [H1 H2 H3]. pose proof Hs as (E1 & E2 & E3).
  assert (forall i, had R k i -> had R k' i) as Hh by (unfold had; by rewrite E3).
  split; [split|lia|done|auto|].
  - by apply (tracks_same _ _ _ k).
  - unfold front in *. by rewrite E1, E2, E3, Ew.
  - rewrite (acked_sns_kept _ _ Ha). eapply Forall_impl; [exact H3|].
    intros sn (i & Hi & -> & Hd). exists i. auto.
  - intros H0 Hn. rewrite (acked_sns_kept _ _ Ha). destruct Ha as [-> _]. split; [lia|tauto].
Qed.

Lemma gains_weaken S got n (m m' : Prop) R k R' k' :
  (m' -> m) -> gains S got n m R k R' k' -> gains S got n m' R k R' k'.
Proof.
  intros Hm [H1 H2 H3 H4 H5]. split; try done. intros A B. destruct (H5 A B) as [C D].
  split; [done|]. tauto.
Qed.

(** ** A data segment *)

(** Numbers of the stream are told apart by their residues when they are near. *)
Lemma near_inj N i j : near N i -> near N j -> u32 i = u32 j -> i = j.
Proof. unfold near. intros Hi Hj. apply u32_inj_near. lia. Qed.

Lemma consecutive_sns R m j : R <= j < R + Zlen m -> consecutive R m -> u32 j ∈ map seg_sn m.
Proof.
  revert R. induction m as [|s m IH]; intros R Hj; [change (Zlen []) with 0 in Hj; lia|].
  rewrite Zlen_cons in Hj. intros [Es Hc]. cbn [map]. apply elem_of_cons.
  destruct (decide (j = R)) as [->|]; [by left|right]. apply (IH (R + 1)); [lia|done].
Qed.

Lemma consecutive_sns_inv R m n :
  n ∈ map seg_sn m -> consecutive R m -> exists j, R <= j < R + Zlen m /\ n = u32 j.
Proof.
  revert R. induction m as [|s m IH]; intros R Hn; [by apply not_elem_of_nil in Hn|].
  intros [Es Hc]. rewrite Zlen_cons. pose proof (Zlen_nonneg m). apply elem_of_cons in Hn as [->|Hn].
  - exists R. split; [lia|done].
  - destruct (IH (R + 1) Hn Hc) as (j & Hj & ->). exists j. split; [lia|done].
Qed.

(** A segment inside the window is stored, and what can be put in order is. *)
Lemma parse_data_stores k new :
  rcv_window k -> seg_wf new -> 0 <= seg_sn new < 4294967296 ->
  _itimediff (seg_sn new) (rcv_nxt k +w rcv_wnd k) < 0 -> 0 <= _itimediff (seg_sn new) (rcv_nxt k) ->
  exists m, let k' := ikcp_parse_data k new in
    rcv_queue k' = rcv_queue k ++ m /\ consecutive (rcv_nxt k) m /\ rcv_wnd k' = rcv_wnd k /\
    front k' /\
    (forall n, n ∈ map seg_sn m \/ n ∈ map seg_sn (rcv_buf k') <->
       n ∈ map seg_sn (rcv_buf k) \/ n = seg_sn new).
Proof.
  intros Hw Hwf Hsn H1 H2. cbv zeta.
  assert (off (rcv_nxt k) new < 2147483648) as Hoff.
  { unfold off. revert H2. unfold _itimediff. clear. intros. words. }
  assert (ikcp_parse_data k new = ikcp_move_rcv (rcv_buf (data_inserted k new)) (data_inserted k new)) as ->.
  { unfold ikcp_parse_data, data_inserted. destruct (_ || _) eqn:G; [lia|].
    by destruct (ikcp_parse_data_insert _ _). }
  destruct (data_inserted_spec k new Hw Hwf Hsn Hoff) as (q & n & Ek & Hk & Hq).
  destruct (ikcp_move_rcv_spec _ (rcv_window_move_ok _ Hk)) as (m & r & Eq & Hc & -> & _ & Hr).
  pose proof Hk as (_ & _ & _ & _ & Hque & _). rewrite Ek in *. unfold rcv_moved. simp_upd.
  exists m. split; [done|]. split; [done|]. split; [done|]. split.
  - unfold front. simp_upd. destruct r as [|s r]; [done|]. rewrite Zlen_app, <- Hque.
    destruct Hr as [Hr|Hr]; [by left|by right].
  - intros x. rewrite <- elem_of_app, <- map_app, <- Eq, !list_elem_of_fmap. split.
    + intros (s & -> & [Hs|[-> _]]%Hq); [left; eauto|by right].
    + intros [(s & -> & Hs)| ->]; [exists s; split; [done|]; apply Hq; by left|].
      destruct (decide (seg_sn new ∈ map seg_sn (rcv_buf k))) as [Hd|Hd].
      * apply list_elem_of_fmap in Hd as (s & E & Hs). exists s. split; [done|]. apply Hq. by left.
      * exists new. split; [done|]. apply Hq. by right.
Qed.

(** In terms of the stream: what was there still is, and the new number is there too. *)
Lemma parse_data_moves S R got k new i :
  rcv_window k -> tracks S R got k -> seg_wf new -> carries S new i -> near (Zlen S) i ->
  _itimediff (seg_sn new) (rcv_nxt k +w rcv_wnd k) < 0 -> 0 <= _itimediff (seg_sn new) (rcv_nxt k) ->
  exists R', let k' := ikcp_parse_data k new in
    tracks S R' got k' /\ front k' /\ R <= R' /\ rcv_wnd k' = rcv_wnd k /\ had R' k' i /\
    (forall j, near (Zlen S) j -> had R k j -> had R' k' j).
Proof.
  intros Hw Ht Hwf Hc Hi H1 H2. pose proof Hc as (_ & Esn & _). cbv zeta.
  assert (0 <= seg_sn new < 4294967296) as Hsn by (rewrite Esn; apply u32_range).
  destruct (parse_data_stores k new Hw Hwf Hsn H1 H2) as (m & Eq & Hcons & Ew & Hf' & Hb). cbv zeta in *.
  pose proof (tracks_parse_data S R got k new Hw Ht Hwf (ex_intro _ i (conj Hc (proj2 Hi)))) as [R' Ht'].
  pose proof (Zlen_nonneg m) as Hm.
  assert (R' = R + Zlen m) as ->.
  { destruct Ht as [_ [HR _] Hp _], Ht' as [_ [HR' _] Hp' _]. rewrite Eq, map_app in Hp'.
    apply (f_equal Zlen) in Hp, Hp'. unfold Zlen in *.
    rewrite !length_app, !length_map, length_take in *. lia. }
  rewrite (tr_nxt _ _ _ _ Ht) in Hcons. apply (proj1 (consecutive_u32 _ _)) in Hcons.
  destruct (tr_range _ _ _ _ Ht') as [Hle Hd']. destruct (tr_range _ _ _ _ Ht) as [HR HRd].
  assert (forall j, near (Zlen S) j -> u32 j ∈ map seg_sn (rcv_buf k) \/ u32 j = seg_sn new ->
    had (R + Zlen m) (ikcp_parse_data k new) j) as Hnew.
  { intros j Hj Hin. apply Hb in Hin as [Hin|Hin]; [left|by right].
    destruct (consecutive_sns_inv R m _ Hin Hcons) as (j' & Hj' & E).
    apply near_inj with (N := Zlen S) in E; [lia|done|]. split; lia. }
  exists (R + Zlen m). split; [done|]. split; [done|]. split; [lia|]. split; [done|].
  split; [apply Hnew; [done|right; congruence]|].
  intros j Hj [Hlt|Hin]; [left; lia|auto].
Qed.

Lemma tracks_kept S R got k k' : rcv_kept k k' -> tracks S R got k -> tracks S R got k'.
Proof. intros [H _]. by apply tracks_same. Qed.

(** A data segment: if it is not past the one waited for it is acknowledged in any case. *)
Definition owed (S : list entry) (wnd R i : Z) : Prop := i <= R /\ Zlen S - i + wnd <= 2147483648.

Lemma ikcp_input_push_gains S R got k h data i :
  kcp_inv k -> takes S R got k -> header_ok h -> h_len h <= Zlen data ->
  near (Zlen S) i -> h_sn h = u32 i ->
  S !! Z.to_nat i = Some (h_frg h, take (Z.to_nat (h_len h)) data) ->
  exists R', gains S got 1 (owed S (rcv_wnd k) R i) R k R' (ikcp_input_push k h data).
Proof.
  intros Hk Ht Hh Hlen Hi Esn HS. pose proof Ht as [Ht0 Hf Ha].
  pose proof Hh as (_ & _ & _ & _ & _ & Hsn & _ & Hl).
  destruct (tr_range _ _ _ _ Ht0) as [HR HRd]. pose proof (tr_nxt _ _ _ _ Ht0) as En.
  pose proof Hk as (_ & _ & _ & (_ & Hwn & _) & _). pose proof Hi as [Hi1 Hi2].
  unfold ikcp_input_push. rewrite Esn, En, u32_add_l.
  destruct (Z.ltb_spec (_itimediff (u32 i) (u32 (R + rcv_wnd k))) 0) as [G1|G1]; cycle 1.
  { exists R. destruct (gains_kept S got R k k) as [C1 C2 C3 C4 C5]; [done..|].
    split; [done..|]. intros H0 H1. destruct (C5 H0 ltac:(lia)) as [D1 D2]. split; [lia|].
    intros [[Hle Hw]|Hne]; [|tauto]. rewrite _itimediff_near in G1 by lia. lia. }
  pose proof (rcv_kept_ack_push k (u32 i) (h_ts h)) as Hkept.
  pose proof (ikcp_ack_push_inv k (u32 i) (h_ts h) Hk) as Hk1.
  pose proof (tracks_kept _ _ _ _ _ Hkept Ht0) as Ht1.
  assert (forall j, had R k j -> had R (ikcp_ack_push k (u32 i) (h_ts h)) j) as Hh1
    by (unfold had; destruct Hkept as [(_ & _ & ->) _]; done).
  assert (forall R' k', tracks S R' got k' -> front k' -> R <= R' -> rcv_wnd k' = rcv_wnd k ->
    had R' k' i -> (forall j, near (Zlen S) j -> had R k j -> had R' k' j) ->
    acks_kept (ikcp_ack_push k (u32 i) (h_ts h)) k' ->
    gains S got 1 (owed S (rcv_wnd k) R i) R k R' k') as Hgain.
  { intros R' k' H1 H2 H3 H4 H5 H6 H7. split; [split; [done|done|]|done|done|done|].
    - rewrite (acked_sns_kept _ _ H7). apply Forall_forall. intros n Hn.
      apply acked_sns_push in Hn as [Hn| ->]; [|by exists i].
      rewrite Forall_forall in Ha. destruct (Ha n Hn) as (j & Hj & -> & Hd). exists j. auto.
    - intros H0 Hn. rewrite (acked_sns_kept _ _ H7). destruct H7 as [-> _].
      rewrite ackcount_push by lia. split; [lia|]. intros _. apply acked_sns_push_ne; lia. }
  pose proof Hkept as [(En1 & Eq1 & Eb1) Ew1]. rewrite En1, En.
  assert (front (ikcp_ack_push k (u32 i) (h_ts h))) as Hf1
    by (unfold front in *; by rewrite Eb1, En1, Eq1, Ew1).
  destruct (Z.geb_spec (_itimediff (u32 i) (u32 R)) 0) as [G2|G2]; cycle 1.
  { exists R. rewrite _itimediff_near in G2 by lia. apply Hgain; [done|done|lia|done|by left; lia|auto|done]. }
  match goal with |- context [ikcp_parse_data _ ?s] => set (new := s) end.
  assert (seg_wf new) as Hwf.
  { unfold seg_wf, new. simp_upd. cbn [seg_data ikcp_segment_new].
    unfold Zlen in *. rewrite length_take. lia. }
  assert (carries S new i) as Hc by (split; [done|]; by split; [unfold new; simp_upd|]).
  pose proof Hk1 as (_ & _ & _ & Hw1 & _).
  destruct (parse_data_moves S R got _ new i Hw1 Ht1 Hwf Hc Hi) as (R' & P1 & P2 & P3 & P4 & P5 & P6).
  { unfold new. simp_upd. by rewrite Ew1, En1, En, u32_add_l. }
  { unfold new. simp_upd. rewrite En1, En. lia. }
  exists R'. apply Hgain; [done|done|lia|congruence|done|auto|apply acks_kept_parse_data].
Qed.

(** ** Packets at the receiver *)

Definition is_push (h : header) : bool := h_cmd h =? IKCP_CMD_PUSH.
Definition push_count (hs : list header) : Z := Zlen (filter (fun h => is_push h = true) hs).

Lemma push_count_cons h hs : push_count (h :: hs) = (if is_push h then 1 else 0) + push_count hs.
Proof.
  unfold push_count. destruct (is_push h) eqn:E.
  - rewrite filter_cons_True by done. apply Zlen_cons.
  - rewrite filter_cons_False by (rewrite E; done). lia.
Qed.

Lemma push_count_app hs hs' : push_count (hs ++ hs') = push_count hs + push_count hs'.
Proof. unfold push_count. by rewrite filter_app, Zlen_app. Qed.

Lemma push_count_nonneg hs : 0 <= push_count hs.
Proof. apply Zlen_nonneg. Qed.

(** A data segment that the receiver acknowledges in any case. *)
Definition owed_seg (S : list entry) (wnd R : Z) (h : header) : Prop :=
  is_push h = true /\ exists i, near (Zlen S) i /\ h_sn h = u32 i /\ owed S wnd R i.

Lemma owed_seg_mono S wnd R R' h : R <= R' -> owed_seg S wnd R h -> owed_seg S wnd R' h.
Proof. intros Hle (Hp & i & Hi & E & Ho1 & Ho2). split; [done|]. exists i. split; [done|]. split; [done|].
  split; [lia|done]. Qed.

Lemma input_segment_gains S R got k l h data :
  kcp_inv k -> takes S R got k -> header_ok h -> h_len h <= Zlen data ->
  honest_seg (Zlen S - 2147483647) S (h, take (Z.to_nat (h_len h)) data) ->
  exists R', gains S got (if is_push h then 1 else 0) (owed_seg S (rcv_wnd k) R h)
    R k R' (fst (ikcp_input_segment k l h data)).
Proof.
  intros Hk Ht Hh Hlen Hhon. unfold ikcp_input_segment. fold (acked k h).
  assert (rcv_kept k (acked k h) /\ acks_kept k (acked k h)) as [Hkept Hacks].
  { unfold acked. split.
    - etransitivity; [|apply rcv_kept_shrink]. etransitivity; [|apply rcv_kept_parse_una]. done.
    - etransitivity; [|apply acks_kept_shrink]. etransitivity; [|apply acks_kept_parse_una]. done. }
  assert (kcp_inv (acked k h)) as Hk1.
  { pose proof (ikcp_input_segment_inv k l (mkheader 0 0 0 (h_wnd h) 0 0 (h_una h) 0) [])
      as H. apply H; [done| |done].
    destruct Hh as (_ & _ & _ & ? & _ & _ & ? & _). unfold header_ok. cbn. lia. }
  pose proof (gains_kept _ _ _ _ _ Hkept Hacks Ht) as Hg. destruct Hkept as [_ <-].
  pose proof (gn_takes _ _ _ _ _ _ _ _ Hg) as Ht1. unfold owed_seg, is_push.
  revert Hk1 Hg Ht1. generalize (acked k h). clear Hk Hacks. intros k1 Hk1 Hg Ht1.
  destruct (Z.eqb_spec (h_cmd h) IKCP_CMD_ACK) as [Ec|_].
  { rewrite Ec. change (IKCP_CMD_ACK =? IKCP_CMD_PUSH) with false. exists R.
    apply (gains_weaken _ _ _ (False \/ False)); [intros [F _]; done|].
    apply (gains_trans _ _ 0 0 _ _ _ _ _ _ _ _ ltac:(lia) ltac:(lia) Hg).
    apply gains_kept; [apply rcv_kept_input_ack|apply acks_kept_input_ack|done]. }
  destruct (Z.eqb_spec (h_cmd h) IKCP_CMD_PUSH) as [Ec|Ec]; cbn [fst].
  - destruct (Hhon Ec) as (i & Hi & Hold & Esn & HS). cbn [fst snd] in Esn, HS.
    assert (near (Zlen S) i) as Hn by (split; lia).
    destruct (ikcp_input_push_gains S R got k1 h data i Hk1 Ht1 Hh Hlen Hn Esn HS) as [R' Hp].
    exists R'. apply (gains_weaken _ _ _ (False \/ owed S (rcv_wnd k1) R i));
      [|by apply (gains_trans _ _ 0 1 _ _ _ _ _ _ _ _ ltac:(lia) ltac:(lia) Hg)].
    intros (_ & j & Hj & E & Ho). right. by rewrite (near_inj _ i j Hn Hj) by congruence.
  - exists R. apply (gains_weaken _ _ _ (False \/ False)); [intros [F' _]; done|].
    apply (gains_trans _ _ 0 0 _ _ _ _ _ _ _ _ ltac:(lia) ltac:(lia) Hg).
    destruct (_ =? _); cbn [fst]; by apply gains_kept.
Qed.

(** The data segments of a batch are segments of the stream. *)
Definition honest_segs (S : list entry) (g : list IKCPSEG) : Prop :=
  Forall (fun s => honest_seg (Zlen S - 2147483647) S (seg_header s, seg_data s)) g.

Lemma receive_segs_gains S got g R k l :
  kcp_inv k -> takes S R got k -> Forall (seg_accept (conv k)) g -> honest_segs S g ->
  exists R', gains S got (push_count (map seg_header g))
    (Exists (owed_seg S (rcv_wnd k) R) (map seg_header g)) R k R' (fst (fold_left receive_seg g (k, l))).
Proof.
  revert R k l. induction g as [|s g IH]; intros R k l Hk Ht Ha Hh; cbn [fold_left map].
  { exists R. apply (gains_weaken _ _ _ False); [by intros F%Exists_nil|]. by apply gains_kept. }
  apply Forall_cons in Ha as [(Hc & Hcmd & Hwf & Hlen) Ha]. apply Forall_cons in Hh as [Hh1 Hh].
  assert (h_len (seg_header s) = Zlen (seg_data s)) as El.
  { unfold seg_wf in Hwf. pose proof (Zlen_nonneg (seg_data s)). cbn. rewrite u32_small; lia. }
  assert (take (Z.to_nat (h_len (seg_header s))) (seg_data s) = seg_data s) as Et
    by (apply take_ge; unfold Zlen in El; lia).
  destruct (input_segment_gains S R got k l (seg_header s) (seg_data s) Hk Ht (seg_header_ok s))
    as [R1 H1]; [lia|by rewrite Et|].
  pose proof (ikcp_input_segment_inv k l _ (seg_data s) Hk (seg_header_ok s) ltac:(lia)) as Hk1.
  pose proof (snd_frame_input_segment k l (seg_header s) (seg_data s)) as (_ & _ & _ & _ & _ & _ & Ec & _).
  change (receive_seg (k, l) s) with (ikcp_input_segment k l (seg_header s) (seg_data s)).
  destruct (ikcp_input_segment k l (seg_header s) (seg_data s)) as [k1 l1]. cbn [fst] in *.
  rewrite <- Ec in Ha. destruct (IH R1 k1 l1 Hk1 (gn_takes _ _ _ _ _ _ _ _ H1) Ha Hh) as [R2 H2].
  exists R2. rewrite push_count_cons. eapply gains_weaken;
    [|eapply gains_trans; [by destruct (is_push (seg_header s))|apply push_count_nonneg|exact H1|exact H2]].
  rewrite (gn_wnd _ _ _ _ _ _ _ _ H1). intros [Ho|Ho]%Exists_cons; [by left|right].
  eapply Exists_impl; [exact Ho|]. intros h. apply owed_seg_mono. apply H1.
Qed.

Lemma receive_packet_gains S got g R k :
  kcp_inv k -> takes S R got k -> Forall (seg_accept (conv k)) g -> honest_segs S g ->
  exists R', gains S got (push_count (map seg_header g))
    (Exists (owed_seg S (rcv_wnd k) R) (map seg_header g)) R k R' (receive_packet k g).
Proof.
  intros Hk Ht Ha Hh. destruct (receive_segs_gains S got g R k (mklocals false 0 0) Hk Ht Ha Hh) as [R' H1].
  exists R'. unfold receive_packet.
  destruct (fold_left receive_seg g (k, mklocals false 0 0)) as [k1 l]. cbn [fst] in *.
  assert (forall k2, rcv_kept k1 k2 -> acks_kept k1 k2 ->
    gains S got (push_count (map seg_header g))
      (Exists (owed_seg S (rcv_wnd k) R) (map seg_header g)) R k R' k2) as Hlast.
  { intros k2 H2 H3. rewrite <- (Z.add_0_r (push_count _)).
    eapply gains_weaken; [|eapply gains_trans;
      [apply push_count_nonneg|reflexivity|exact H1|by apply gains_kept, H1]]. by left. }
  set (k2 := if l_flag l then _ else k1).
  assert (rcv_kept k1 k2 /\ acks_kept k1 k2) as [H2 H3].
  { unfold k2. destruct (l_flag l); [|done]. split; [apply rcv_kept_fastack|apply acks_kept_fastack]. }
  clearbody k2. destruct (_ >? 0); [|by apply Hlast].
  apply Hlast; (etransitivity; [eassumption|]); [apply rcv_kept_cwnd|apply acks_kept_cwnd].
Qed.

Lemma deliver_gains S got gs R k :
  kcp_inv k -> takes S R got k -> sound_packets gs ->
  Forall (seg_accept (conv k)) (concat gs) -> honest_segs S (concat gs) ->
  exists R', gains S got (push_count (map seg_header (concat gs)))
    (Exists (owed_seg S (rcv_wnd k) R) (map seg_header (concat gs))) R k R' (deliver (map packet gs) k).
Proof.
  unfold deliver. revert R k. induction gs as [|g gs IH]; intros R k Hk Ht Hgs Ha Hh; cbn [map fold_left concat].
  { exists R. apply (gains_weaken _ _ _ False); [by intros F%Exists_nil|]. by apply gains_kept. }
  apply Forall_cons in Hgs as [[Hne Hlen] Hgs]. cbn [concat] in Ha, Hh.
  apply Forall_app in Ha as [Ha1 Ha2]. apply Forall_app in Hh as [Hh1 Hh2].
  rewrite ikcp_input_packet_eq by done. cbn [snd].
  destruct (receive_packet_gains S got g R k Hk Ht Ha1 Hh1) as [R1 H1].
  destruct (receive_packet_grows k g Hk Ha1) as (_ & Hk1 & Ec). rewrite <- Ec in Ha2.
  destruct (IH R1 _ Hk1 (gn_takes _ _ _ _ _ _ _ _ H1) Hgs Ha2 Hh2) as [R2 H2].
  exists R2. rewrite map_app, push_count_app. eapply gains_weaken;
    [|eapply gains_trans; [apply push_count_nonneg|apply push_count_nonneg|exact H1|exact H2]].
  rewrite (gn_wnd _ _ _ _ _ _ _ _ H1). intros [Ho|Ho]%Exists_app; [by left|right].
  eapply Exists_impl; [exact Ho|]. intros h. apply owed_seg_mono. apply H1.
Qed.

(** ** What the sender forgets

    A number leaves the send buffer only when it is below the [una] of a segment or the number
    an ACK names. *)
Definition snd_sns (k : IKCPCB) : list Z := map seg_sn (snd_buf k).

Lemma parse_una_forgets k una n :
  n ∈ snd_sns k -> n ∈ snd_sns (ikcp_parse_una k una) \/ 0 < _itimediff una n.
Proof.
  unfold snd_sns, ikcp_parse_una. remember (snd_buf k) as q eqn:Eq. revert k Eq.
  induction q as [|s q IH]; intros k Eq Hn; cbn [ikcp_parse_una_loop]; [by apply not_elem_of_nil in Hn|].
  destruct (Z.gtb_spec (_itimediff una (seg_sn s)) 0) as [G|G]; [|left; by rewrite <- Eq].
  cbn [map] in Hn. apply elem_of_cons in Hn as [->|Hn]; [right; lia|]. by apply IH.
Qed.

Lemma parse_ack_forgets k sn n : n ∈ snd_sns k -> n ∈ snd_sns (ikcp_parse_ack k sn) \/ n = sn.
Proof.
  unfold snd_sns, ikcp_parse_ack. intros Hn. destruct (_ || _); [by left|].
  destruct (ikcp_parse_ack_loop (snd_buf k) sn) as [q|] eqn:E; [|by left].
  apply ikcp_parse_ack_loop_sub in E as (l & s & r & E & -> & Es). simp_upd.
  rewrite E, map_app in Hn. cbn [map] in Hn. rewrite map_app.
  apply elem_of_app in Hn as [Hn|Hn]; [left; apply elem_of_app; by left|].
  apply elem_of_cons in Hn as [->|Hn]; [by right|left; apply elem_of_app; by right].
Qed.

Lemma snd_sns_shrink k : snd_sns (ikcp_shrink_buf k) = snd_sns k.
Proof. by rewrite ikcp_shrink_buf_shape. Qed.

Lemma snd_buf_move_rcv q k : snd_buf (ikcp_move_rcv q k) = snd_buf k.
Proof.
  revert k. induction q as [|s q IH]; intros k; [done|]. cbn [ikcp_move_rcv].
  destruct (_ && _); [|done]. by rewrite IH.
Qed.

Lemma snd_buf_push k h data : snd_buf (ikcp_input_push k h data) = snd_buf k.
Proof.
  unfold ikcp_input_push. destruct (_ <? 0); [|done].
  assert (snd_buf (ikcp_ack_push k (h_sn h) (h_ts h)) = snd_buf k) as E
    by (unfold ikcp_ack_push; by destruct (_ >? _)).
  destruct (_ >=? 0); [|done]. rewrite <- E. unfold ikcp_parse_data.
  destruct (_ || _); [done|]. rewrite snd_buf_move_rcv. by destruct (ikcp_parse_data_insert _ _).
Qed.

Definition names_sn (n : Z) (h : header) : Prop := h_cmd h = IKCP_CMD_ACK /\ n = h_sn h.

Lemma input_segment_forgets k l h data n :
  n ∈ snd_sns k ->
  n ∈ snd_sns (fst (ikcp_input_segment k l h data)) \/ 0 < _itimediff (h_una h) n \/ names_sn n h.
Proof.
  intros Hn. unfold ikcp_input_segment. fold (acked k h).
  assert (n ∈ snd_sns (acked k h) \/ 0 < _itimediff (h_una h) n) as [H1|H1]; [| |by right; left].
  { unfold acked. rewrite snd_sns_shrink. by apply parse_una_forgets. }
  revert H1. generalize (acked k h). clear. intros k H1.
  destruct (Z.eqb_spec (h_cmd h) IKCP_CMD_ACK) as [Ec|_]; [|destruct (_ =? _); [|destruct (_ =? _)]];
    cbn [fst].
  - unfold ikcp_input_ack. cbn [fst]. rewrite snd_sns_shrink.
    set (k1 := if _ >=? 0 then _ else _). assert (n ∈ snd_sns k1) as H2.
    { unfold k1. destruct (_ >=? 0); [|done].
      by destruct (ikcp_update_ack_shape k (_itimediff (current k) (h_ts h))) as (a & b & c & ->). }
    destruct (parse_ack_forgets k1 (h_sn h) n H2) as [H3| ->]; [by left|by right; right].
  - left. unfold snd_sns. by rewrite snd_buf_push.
  - by left.
  - by left.
Qed.

(** Fields of the sender that survive a batch of packets stamped alike. *)
Record survives (wnd una : Z) (hs : list header) (k k' : IKCPCB) : Prop := {
  sv_inv : kcp_inv k'; sv_conv : conv k' = conv k; sv_upd : updated k' = updated k;
  sv_snd : snd_wnd k' = snd_wnd k;
  sv_rmt : rmt_wnd k' = rmt_wnd k \/ rmt_wnd k' = wnd;
  sv_sns n : n ∈ snd_sns k ->
    n ∈ snd_sns k' \/ 0 < _itimediff una n \/ Exists (names_sn n) hs
}.

Lemma survives_refl wnd una k : kcp_inv k -> survives wnd una [] k k.
Proof. intros H. split; auto. Qed.

Lemma survives_trans wnd una hs1 hs2 k1 k2 k3 :
  survives wnd una hs1 k1 k2 -> survives wnd una hs2 k2 k3 -> survives wnd una (hs1 ++ hs2) k1 k3.
Proof.
  intros [A1 A2 A3 A6 A4 A5] [B1 B2 B3 B6 B4 B5]. split; [done|congruence|congruence|congruence|..].
  - destruct B4 as [B4|B4]; [|by right]. rewrite B4. done.
  - intros n Hn. rewrite Exists_app. destruct (A5 n Hn) as [H|[H|H]]; [|tauto..].
    destruct (B5 n H) as [?|[?|?]]; tauto.
Qed.

(** What changes neither the numbers nor the control fields. *)
Lemma survives_kept wnd una hs k k1 k2 :
  kcp_inv k2 -> conv k2 = conv k1 -> snd_wnd k2 = snd_wnd k1 -> ctl_kept k1 k2 ->
  snd_sns k2 = snd_sns k1 -> survives wnd una hs k k1 -> survives wnd una hs k k2.
Proof.
  intros Hi Ec Ew [Eu Er] Es [A1 A2 A3 A6 A4 A5].
  split; [done|congruence|congruence|congruence|by rewrite Er|].
  intros n Hn. rewrite Es. by apply A5.
Qed.

Lemma receive_segs_survives wnd una g k l :
  kcp_inv k -> Forall (stamped (conv k) wnd una) g ->
  survives wnd una (map seg_header g) k (fst (fold_left receive_seg g (k, l))).
Proof.
  revert k l. induction g as [|s g IH]; intros k l Hk Hs; cbn [fold_left map]; [by apply survives_refl|].
  apply Forall_cons in Hs as [((Hc & Hcmd & Hwf & Hlen) & Hw & Hu) Hs].
  assert (h_len (seg_header s) <= Zlen (seg_data s)) as Hl.
  { unfold seg_wf in Hwf. pose proof (Zlen_nonneg (seg_data s)). cbn. rewrite u32_small; lia. }
  pose proof (ikcp_input_segment_inv k l _ _ Hk (seg_header_ok s) Hl) as Hk1.
  pose proof (snd_frame_input_segment k l (seg_header s) (seg_data s)) as (_ & _ & Ew & _ & _ & _ & Ec & _).
  destruct (dispatch_kept k l (seg_header s) (seg_data s)) as [[E1 E2] _].
  destruct (acked_ctl k (seg_header s)) as [F1 F2].
  pose proof (input_segment_forgets k l (seg_header s) (seg_data s)) as Hf.
  change (receive_seg (k, l) s) with (ikcp_input_segment k l (seg_header s) (seg_data s)).
  destruct (ikcp_input_segment k l (seg_header s) (seg_data s)) as [k1 l1]. cbn [fst] in *.
  rewrite <- Ec in Hs. apply (survives_trans _ _ [seg_header s] _ k k1); [|by apply IH].
  split; [done|done|congruence|done|right; congruence|]. intros n Hn. rewrite Exists_cons.
  destruct (Hf n Hn) as [H|[H|H]]; [tauto| |tauto]. right; left. by rewrite <- Hu.
Qed.

Lemma receive_packet_survives wnd una g k :
  kcp_inv k -> Forall (stamped (conv k) wnd una) g ->
  survives wnd una (map seg_header g) k (receive_packet k g).
Proof.
  intros Hk Hs. pose proof (receive_segs_survives wnd una g k (mklocals false 0 0) Hk Hs) as H1.
  unfold receive_packet. destruct (fold_left receive_seg g (k, mklocals false 0 0)) as [k1 l].
  cbn [fst] in *. set (k2 := if l_flag l then _ else k1).
  assert (survives wnd una (map seg_header g) k k2) as H2.
  { unfold k2. destruct (l_flag l); [|done].
    eapply survives_kept; [apply ikcp_parse_fastack_inv, H1|..|exact H1];
      destruct (ikcp_parse_fastack_shape k1 (l_maxack l) (l_latest_ts l)) as (q & -> & E); [done|done|done|].
    exact E. }
  clearbody k2. destruct (_ >? 0); [|done].
  eapply survives_kept; [apply ikcp_input_cwnd_inv, H2|..|exact H2];
    by destruct (ikcp_input_cwnd_frame k2) as (c & i & -> & _).
Qed.

Lemma deliver_survives wnd una gs k :
  kcp_inv k -> sound_packets gs -> Forall (stamped (conv k) wnd una) (concat gs) ->
  survives wnd una (map seg_header (concat gs)) k (deliver (map packet gs) k).
Proof.
  unfold deliver. revert k. induction gs as [|g gs IH]; intros k Hk Hgs Hs; cbn [map fold_left concat];
    [by apply survives_refl|].
  apply Forall_cons in Hgs as [[Hg Hl] Hgs]. cbn [concat] in Hs. apply Forall_app in Hs as [Hs1 Hs2].
  rewrite ikcp_input_packet_eq by (try done; by eapply stamped_accept). cbn [snd].
  pose proof (receive_packet_survives wnd una g k Hk Hs1) as H1.
  rewrite <- (sv_conv _ _ _ _ _ H1) in Hs2. rewrite map_app.
  eapply survives_trans; [exact H1|]. apply IH; [apply H1|done|done].
Qed.
