(* ===== verification/Rounds.v ===== *)
(** Rounds: the two endpoints exchange packets over a network that loses, repeats and reorders
    them, and whatever is lost is sent again.  After enough rounds in which the network is good,
    and the timers of what is in flight have run out, everything queued has arrived. *)
From stdpp Require Import relations.
From S2P Require Import Prelude Bytes IkcpTypes IkcpSend IkcpInput IkcpFlush IkcpFlushSpec.
From S2P Require Import IkcpInv Wire Delivery Network Progress Exchange Acks.

(** ** The exchange *)

(** A flush at the time [now]: by [ikcp_flush], or by an [ikcp_update] that finds it is due. *)
Definition flushes (now : Z) (k k' : IKCPCB) (ps : list bytes) : Prop :=
  exists u ts, u <> 0 /\ ikcp_flush (with_clock k now u ts) = (k', ps).

Lemma flushes_flush k : updated k <> 0 ->
  flushes (current k) k (fst (ikcp_flush k)) (snd (ikcp_flush k)).
Proof.
  intros Hu. exists (updated k), (ts_flush k). split; [done|].
  replace (with_clock k (current k) (updated k) (ts_flush k)) with k by (by destruct k).
  apply surjective_pairing.
Qed.

Lemma flushes_update k now :
  snd (ikcp_update k now) <> [] -> flushes now k (fst (ikcp_update k now)) (snd (ikcp_update k now)).
Proof.
  destruct (ikcp_update_cases k now) as (u & ts & Hu & [-> | ->]); [|done].
  intros _. exists u, ts. split; [done|]. apply surjective_pairing.
Qed.

(** Everything in flight has timed out. *)
Definition all_due (now : Z) (k : IKCPCB) : Prop :=
  Forall (fun s => 0 <= _itimediff now (seg_resendts s)) (snd_buf k).

Lemma all_due_check now k :
  forallb (fun s => 0 <=? _itimediff now (seg_resendts s)) (snd_buf k) = true -> all_due now k.
Proof.
  rewrite forallb_forall. intros H. apply Forall_forall. intros s Hs. apply list_elem_of_In in Hs.
  specialize (H s Hs). lia.
Qed.

(** One round: [a] flushes, some of the packets reach [b], in any order and any number of times,
    [b] flushes, and some of its packets reach [a].  In a good round every packet arrives, once
    and in order, and everything in flight is due. *)
Inductive round (good : bool) : IKCPCB * IKCPCB -> IKCPCB * IKCPCB -> Prop :=
| round_intro a b ta tb a1 pa qa b1 pb qb :
    flushes ta a a1 pa -> qa ⊆ pa ->
    flushes tb (deliver qa b) b1 pb -> qb ⊆ pb ->
    (good = true -> qa = pa /\ qb = pb /\ all_due ta a) ->
    round good (a, b) (deliver qb a1, b1).

(** [rounds n]: any number of rounds, [n] of which are good. *)
Inductive rounds : nat -> IKCPCB * IKCPCB -> IKCPCB * IKCPCB -> Prop :=
| rounds_refl st : rounds 0 st st
| rounds_bad n st1 st2 st3 : round false st1 st2 -> rounds n st2 st3 -> rounds n st1 st3
| rounds_good n st1 st2 st3 : round true st1 st2 -> rounds n st2 st3 -> rounds (S n) st1 st3.

(** A round in which all packets arrive, or none, as a function. *)
Definition exchange (arrive : bool) (ta tb : Z) (st : IKCPCB * IKCPCB) : IKCPCB * IKCPCB :=
  let '(a1, pa) := ikcp_flush (with_clock (fst st) ta 1 (ts_flush (fst st))) in
  let b0 := deliver (if arrive then pa else []) (snd st) in
  let '(b1, pb) := ikcp_flush (with_clock b0 tb 1 (ts_flush b0)) in
  (deliver (if arrive then pb else []) a1, b1).

Lemma exchange_round arrive ta tb st :
  (arrive = true -> all_due ta (fst st)) -> round arrive st (exchange arrive ta tb st).
Proof.
  intros Hd. destruct st as [a b]. unfold exchange. cbn [fst snd] in *.
  destruct (ikcp_flush (with_clock a ta _ _)) as [a1 pa] eqn:E1.
  set (b0 := deliver (if arrive then pa else []) b).
  destruct (ikcp_flush (with_clock b0 tb _ _)) as [b1 pb] eqn:E2.
  apply (round_intro arrive a b ta tb a1 pa (if arrive then pa else []) b1 pb (if arrive then pb else [])).
  - by exists 1, (ts_flush a).
  - destruct arrive; [done|set_solver].
  - by exists 1, (ts_flush b0).
  - destruct arrive; [done|set_solver].
  - intros ->. auto.
Qed.

(** ** What a flush puts on the wire *)
Record wired (k k' : IKCPCB) (gs : list (list IKCPSEG)) : Prop := {
  wr_ok : kcp_ok k';
  wr_sound : sound_packets gs;
  wr_stamp : Forall (stamped (conv k) (u16 (flush_wnd k)) (rcv_nxt k)) (concat gs);
  wr_names s n : s ∈ concat gs -> names_sn n (seg_header s) ->
    exists m, m ∈ acked_sns k /\ n = u32 m;
  wr_reply : acked_sns k <> [] -> gs <> [];
  wr_kept : rcv_kept k k'; wr_count : ackcount k' = 0;
  wr_conv : conv k' = conv k; wr_upd : updated k' = updated k;
  wr_snd : snd_wnd k' = snd_wnd k; wr_rmt : rmt_wnd k' = rmt_wnd k; wr_cwnd : 1 <= cwnd k';
  wr_segs : concat gs = flush_control_segs k
    ++ flush_data_segs (flush_moved k) (flush_wnd k) (snd_buf (flush_moved k))
}.

Lemma ackcount_flush k : kcp_ok k -> updated k <> 0 -> ackcount (fst (ikcp_flush k)) = 0.
Proof.
  intros Hok Hu. destruct (ikcp_flush_shape k Hok Hu) as (x & st & ss & cw & inc & _ & ->).
  destruct (flush_moved_eq k Hok) as [-> _]. generalize (flush_visit (snd_moved (flush_probed k)
    (flush_wnd k) (move_count k (flush_window k))) (flush_wnd k)). intros f.
  by destruct (flush_probed_shape k) as (a & b & ->).
Qed.

Lemma control_names k s n :
  s ∈ flush_control_segs k -> names_sn n (seg_header s) -> exists m, m ∈ acked_sns k /\ n = u32 m.
Proof.
  unfold flush_control_segs, names_sn. rewrite !elem_of_app. intros [Hs|[Hs|Hs]] [Hc ->].
  - unfold ack_segs in Hs. apply list_elem_of_fmap in Hs as (p & -> & Hp).
    exists (fst p). split; [|done]. unfold acked_sns. apply list_elem_of_fmap. eauto.
  - destruct (negb _); [|by apply not_elem_of_nil in Hs]. apply list_elem_of_singleton in Hs. by subst.
  - destruct (negb _); [|by apply not_elem_of_nil in Hs]. apply list_elem_of_singleton in Hs. by subst.
Qed.

Lemma data_is_push k s :
  kcp_ok k -> s ∈ flush_data_segs (flush_moved k) (flush_wnd k) (snd_buf (flush_moved k)) ->
  seg_cmd s = IKCP_CMD_PUSH.
Proof.
  intros Hok Hs. pose proof (flush_moved_ok k Hok) as (_ & _ & _ & H & _).
  pose proof (flush_data_sent (flush_moved k) (flush_wnd k) _ _ _ H) as Hd.
  rewrite Forall_forall in Hd. apply (Hd s Hs).
Qed.

Lemma flush_wired k :
  kcp_ok k -> 0 <= conv k < 4294967296 -> updated k <> 0 ->
  exists gs, snd (ikcp_flush k) = map packet gs /\ wired k (fst (ikcp_flush k)) gs.
Proof.
  intros Hok Hc Hu. destruct (ikcp_flush_packets k Hok Hu) as (gs & E & Hg & Hcat).
  destruct (flush_ctl k Hok Hu) as (G1 & G2 & G3 & G4 & _ & G6 & _).
  exists gs. split; [done|]. split; try done.
  - by apply ikcp_flush_ok.
  - eapply Forall_impl; [exact Hg|]. cbn. intros g [H1 H2]. destruct Hok as (_ & Hm & _). split; [done|lia].
  - rewrite Hcat. by apply flush_stamped.
  - intros s n Hs Hn. rewrite Hcat in Hs. apply elem_of_app in Hs as [Hs|Hs]; [by eapply control_names|].
    destruct Hn as [F _]. unfold seg_header in F. cbn [h_cmd] in F. by rewrite (data_is_push k s Hok Hs) in F.
  - intros Ha ->. cbn [concat] in Hcat. symmetry in Hcat. apply app_eq_nil in Hcat as [Hcat _].
    unfold flush_control_segs in Hcat. apply app_eq_nil in Hcat as [Hcat _].
    unfold ack_segs in Hcat. apply map_eq_nil in Hcat. unfold acked_sns in Ha. by rewrite Hcat in Ha.
  - split; [by apply rcv_same_flush|done].
  - by apply ackcount_flush.
  - by apply static_flush.
Qed.

(** Some of the packets, as some of the groups of segments. *)
Lemma packets_subset gs qs :
  qs ⊆ map packet gs -> exists gs', qs = map packet gs' /\ gs' ⊆ gs.
Proof.
  induction qs as [|q qs IH]; intros H; [exists []; split; [done|set_solver]|].
  destruct IH as (gs' & -> & Hs); [set_solver|].
  assert (q ∈ map packet gs) as Hq by (apply H; by left).
  apply list_elem_of_fmap in Hq as (g & -> & Hg). exists (g :: gs'). split; [done|set_solver].
Qed.

Lemma Forall_concat_subset (P : IKCPSEG -> Prop) gs gs' :
  gs' ⊆ gs -> Forall P (concat gs) -> Forall P (concat gs').
Proof.
  intros Hs H. apply Forall_concat. apply Forall_forall. intros g Hg.
  apply Forall_concat in H. rewrite Forall_forall in H. by apply H, Hs.
Qed.

Lemma sound_subset gs gs' : gs' ⊆ gs -> sound_packets gs -> sound_packets gs'.
Proof.
  unfold sound_packets. rewrite !Forall_forall. intros Hs H g Hg. by apply H, Hs.
Qed.

Lemma concat_subset gs gs' (s : IKCPSEG) : gs' ⊆ gs -> s ∈ concat gs' -> s ∈ concat gs.
Proof.
  intros Hs Hin. pose proof (Forall_concat_subset (fun s => s ∈ concat gs) gs gs' Hs) as H.
  rewrite !Forall_forall in H. by apply H.
Qed.

(** ** The two ends

    [T] is everything the writer has been given, [S] what it has admitted, [R] how much of it the
    reader has put in order and [got] what was read before.  Nothing is lost: what is not in
    order is in flight or waits in the receive buffer. *)
Record linked (T got S : list entry) (R : Z) (a b : IKCPCB) : Prop := {
  lk_a : kcp_ok a; lk_b : kcp_ok b;
  lk_conv : conv b = conv a; lk_range : 0 <= conv a < 4294967296;
  lk_ua : updated a <> 0; lk_ub : updated b <> 0;
  lk_emits : emits S a; lk_takes : takes S R got b; lk_pending : pending S a = T;
  lk_held i : R <= i < Zlen S -> u32 i ∈ snd_sns a \/ u32 i ∈ map seg_sn (rcv_buf b);
  lk_room : Zlen T - Zlen got <= rcv_wnd b < 65536;
  lk_snd : 1 <= snd_wnd a; lk_rmt : R < Zlen T -> 1 <= rmt_wnd a
}.

Lemma linked_le T got S R a b : linked T got S R a b -> 0 <= R <= Zlen S /\ Zlen S <= Zlen T.
Proof.
  intros H. destruct (tk_tracks _ _ _ _ (lk_takes _ _ _ _ _ _ H)) as [_ [HR _] _ _].
  rewrite <- (lk_pending _ _ _ _ _ _ H). unfold pending. rewrite Zlen_app.
  pose proof (Zlen_nonneg (map seg_entry (snd_queue a))). lia.
Qed.

(** While something is missing the reader has room, *)
Lemma linked_room T got S R a b :
  linked T got S R a b -> R < Zlen T ->
  Zlen (rcv_queue b) < rcv_wnd b /\ nrcv_que b = Zlen (rcv_queue b).
Proof.
  intros H HR. pose proof (tracks_count _ _ _ _ (tk_tracks _ _ _ _ (lk_takes _ _ _ _ _ _ H))) as E.
  pose proof (lk_room _ _ _ _ _ _ H).
  destruct (lk_b _ _ _ _ _ _ H) as [(_ & _ & _ & (_ & _ & _ & _ & Hn & _) & _) _]. lia.
Qed.

(** so the segment it waits for is not in its buffer, *)
Lemma front_misses k :
  rcv_window k -> front k -> Zlen (rcv_queue k) < rcv_wnd k -> rcv_nxt k ∉ map seg_sn (rcv_buf k).
Proof.
  intros (Hn & _ & Hw & _) Hf Hroom Hin. unfold front in Hf.
  destruct (rcv_buf k) as [|h q]; [by apply not_elem_of_nil in Hin|].
  destruct Hf as [Hf|Hf]; [|lia]. apply window_cons in Hw as (_ & Hh & Hlt & [_ Hw]).
  cbn [map] in Hin. apply elem_of_cons in Hin as [E|Hin]; [congruence|].
  apply list_elem_of_fmap in Hin as (s & Es & Hs). rewrite Forall_forall in Hlt, Hw.
  specialize (Hlt s Hs). destruct (Hw s Hs) as [_ Hr]. symmetry in Es.
  apply (off_zero (rcv_nxt k) s Hr Hn) in Es. pose proof (off_range (rcv_nxt k) h). lia.
Qed.

(** but in flight, and the writer is less than a window ahead. *)
Lemma linked_wanted T got S R a b :
  linked T got S R a b -> R < Zlen T -> R < Zlen S -> u32 R ∈ snd_sns a.
Proof.
  intros H HT HS. destruct (lk_held _ _ _ _ _ _ H R) as [?|Hb]; [lia|done|exfalso].
  destruct (linked_room _ _ _ _ _ _ H HT) as [Hroom _].
  destruct (lk_takes _ _ _ _ _ _ H) as [[En _ _ _] Hf _]. rewrite <- En in Hb.
  destruct (lk_b _ _ _ _ _ _ H) as [(_ & _ & _ & Hw & _) _]. by apply (front_misses b Hw Hf Hroom).
Qed.

Lemma linked_lag T got S R a b :
  linked T got S R a b -> R < Zlen T ->
  exists d, u32 (snd_nxt a - snd_una a) = Zlen S - R + d /\ 0 <= d /\ (R < Zlen S \/ d = u32 (snd_nxt a - snd_una a)).
Proof.
  intros H HT. destruct (linked_le _ _ _ _ _ _ H) as [HR _].
  destruct (tk_tracks _ _ _ _ (lk_takes _ _ _ _ _ _ H)) as [_ [_ HRd] _ _].
  destruct (lk_emits _ _ _ _ _ _ H) as [En _]. pose proof (u32_range (snd_nxt a - snd_una a)) as Hd.
  destruct (decide (R < Zlen S)) as [Hlt|Hge]; cycle 1.
  { exists (u32 (snd_nxt a - snd_una a)). split; [lia|]. split; [lia|by right]. }
  pose proof (linked_wanted _ _ _ _ _ _ H HT Hlt) as Hin. unfold snd_sns in Hin.
  apply list_elem_of_fmap in Hin as (s & Es & Hs).
  destruct (lk_a _ _ _ _ _ _ H) as [(_ & (Hu & _ & Hle & [_ Hw] & _) & _) _].
  rewrite Forall_forall in Hw. destruct (Hw s Hs) as [Hoff _]. unfold off in Hoff. rewrite <- Es in Hoff.
  exists (u32 (u32 R - snd_una a)). pose proof (u32_range (u32 R - snd_una a)).
  split; [|split; [lia|by left]]. rewrite En in *. clear - Hoff Hle HRd HR Hlt H0. words.
Qed.

(** ** The writer flushes *)
Lemma linked_clock T got S R a b now u ts :
  u <> 0 -> linked T got S R a b -> linked T got S R (with_clock a now u ts) b.
Proof.
  intros Hu [H1 H2 H3 H4 _ H6 [H7 H7'] H8 H9 H10 H11 H12 H13].
  by split.
Qed.

Lemma flush_sns k :
  kcp_ok k -> updated k <> 0 ->
  snd_sns (fst (ikcp_flush k)) = snd_sns k ++ map seg_sn (flush_admitted k).
Proof.
  intros Hok Hu. destruct (ikcp_flush_shape k Hok Hu) as (x & st & ss & cw & inc & _ & ->).
  generalize (flush_moved k), (flush_admitted k). intros fk q.
  unfold snd_sns, with_cc. simp_upd. by rewrite flush_visit_sn, map_app.
Qed.

Lemma takes_grow S X R got k :
  rcv_window k -> takes S R got k -> acked_sns k = [] -> Zlen (S ++ X) - R < 2147483648 ->
  takes (S ++ X) R got k.
Proof. intros Hw [H1 H2 _] Ha Hx. split; [by apply tracks_grow|done|rewrite Ha; constructor]. Qed.

Lemma acked_sns_none k : ackcount k = 0 -> acked_sns k = [].
Proof. intros E. unfold acked_sns. by rewrite E. Qed.

(** The window stays within reach of the reader. *)
Lemma flush_lag T got S R k b :
  linked T got S R k b -> updated k <> 0 ->
  Zlen (flushed S k) - R <= 65535.
Proof.
  intros H Hu. pose proof (lk_a _ _ _ _ _ _ H) as Hok.
  destruct (move_count_spec k Hok) as (Hn & _ & _ & Hle). destruct (linked_le _ _ _ _ _ _ H) as [HR HT].
  destruct (flush_admitted_spec k Hok) as (_ & _ & El & _).
  assert (Zlen (flushed S k) = Zlen S + Z.of_nat (move_count k (flush_window k))) as E.
  { unfold flushed. rewrite Zlen_app. unfold Zlen at 2. rewrite length_map. unfold Zlen in *.
    rewrite length_take in El. lia. }
  destruct (decide (R < Zlen T)) as [Hlt|Hge].
  - destruct (linked_lag _ _ _ _ _ _ H Hlt) as (d & Ed & Hd & _). lia.
  - assert (Zlen (pending S k) = Zlen S + Zlen (snd_queue k)) as Ep.
    { unfold pending. rewrite Zlen_app. unfold Zlen. by rewrite length_map. }
    rewrite (lk_pending _ _ _ _ _ _ H) in Ep. lia.
Qed.

Lemma linked_flush T got S R k b :
  linked T got S R k b -> ackcount b = 0 ->
  let k' := fst (ikcp_flush k) in let S' := flushed S k in
  exists gs, snd (ikcp_flush k) = map packet gs /\ wired k k' gs /\
    honest_segs S' (concat gs) /\ linked T got S' R k' b /\
    snd_sns k' = snd_sns k ++ map seg_sn (flush_admitted k) /\ Zlen S' - R <= 65535.
Proof.
  intros H Hb. cbv zeta. pose proof (lk_a _ _ _ _ _ _ H) as Hok. pose proof (lk_ua _ _ _ _ _ _ H) as Hu.
  pose proof (lk_range _ _ _ _ _ _ H) as Hc. pose proof (lk_emits _ _ _ _ _ _ H) as He.
  destruct (flush_wired k Hok Hc Hu) as (gs & Eg & Hw).
  pose proof (flush_lag _ _ _ _ _ _ H Hu) as Hlag. pose proof (flush_sns k Hok Hu) as Hsns.
  destruct (flush_queue k Hok Hu) as (Em & _). unfold flushed in *.
  destruct (flush_exec S k Hok Hc He) as (He' & _ & Hp'). cbv zeta in *. rewrite <- Em in He', Hp'.
  pose proof (flush_segs_honest S k Hok He) as Hh. rewrite <- (wr_segs _ _ _ Hw) in Hh.
  unfold flushed in Hh. set (X := map seg_entry (flush_admitted k)) in *.
  exists gs. split; [done|]. split; [done|]. split; [|split; [|done]].
  - eapply Forall_impl; [exact Hh|]. intros s Hs Hcmd. destruct (Hs Hcmd) as (i & Hi & Hlo & E).
    exists i. split; [done|]. split; [lia|done].
  - destruct H as [_ Hbo Hcv _ _ Hub _ Ht Hpd Hheld Hroom Hsn Hrm].
    destruct Hw as [W1 _ _ _ _ _ _ W8 W9 W10 W11 _ _].
    split; [done|done|congruence|by rewrite W8|congruence|done|done| |congruence| |done|lia|by rewrite W11].
    + pose proof Hbo as [(_ & _ & _ & Hwin & _) _]. apply takes_grow; [done|done|by apply acked_sns_none|lia].
    + intros i Hi. rewrite Hsns, elem_of_app.
      destruct (decide (i < Zlen S)) as [Hlt|Hge]; [destruct (Hheld i ltac:(lia)); tauto|].
      left. right. destruct (flush_admitted_spec k Hok) as (_ & Hcons & _).
      destruct He as [En _]. rewrite En in Hcons. apply (proj1 (consecutive_u32 _ _)) in Hcons.
      apply (consecutive_sns (Zlen S)); [|done]. rewrite Zlen_app in Hi. unfold X, Zlen in *.
      rewrite length_map in Hi. lia.
Qed.

(** ** The reader takes packets *)
Lemma deliver_ok ps k : kcp_ok k -> kcp_ok (deliver ps k).
Proof.
  unfold deliver. revert k. induction ps as [|p ps IH]; intros k Hk; [done|].
  cbn [fold_left]. by apply IH, ikcp_input_ok.
Qed.

Lemma linked_deliver T got S R a b gs wnd una :
  linked T got S R a b -> sound_packets gs -> Forall (stamped (conv b) wnd una) (concat gs) ->
  honest_segs S (concat gs) ->
  let b' := deliver (map packet gs) b in
  exists R', linked T got S R' a b' /\
    gains S got (push_count (map seg_header (concat gs)))
      (Exists (owed_seg S (rcv_wnd b) R) (map seg_header (concat gs))) R b R' b'.
Proof.
  intros H Hgs Hst Hh. cbv zeta. pose proof (lk_b _ _ _ _ _ _ H) as [Hib _].
  destruct (deliver_gains S got gs R b Hib (lk_takes _ _ _ _ _ _ H) Hgs (stamped_accept _ _ _ _ Hst) Hh)
    as [R' Hg].
  pose proof (deliver_survives wnd una gs b Hib Hgs Hst) as [_ E1 E2 _ _ _].
  exists R'. split; [|done]. destruct Hg as [G1 G2 G3 G4 _].
  destruct (tk_tracks _ _ _ _ (lk_takes _ _ _ _ _ _ H)) as [_ [HR HRd] _ _].
  destruct H as [Ha Hb Hcv Hc Hua Hub He Ht Hp Hheld Hroom Hsn Hrm].
  split; [done|by apply deliver_ok|congruence|done|done|congruence|done|done|done| |by rewrite G3|done|].
  - intros i Hi. destruct (Hheld i ltac:(lia)) as [?|Hin]; [by left|].
    destruct (G4 i) as [?|?]; [split; lia|by right|lia|by right].
  - intros HT. apply Hrm. lia.
Qed.

(** ** The reader flushes *)
Lemma takes_answered S R got k k' :
  rcv_kept k k' -> ackcount k' = 0 -> takes S R got k -> takes S R got k'.
Proof.
  intros Hk E [H1 H2 _]. split; [by apply (tracks_kept _ _ _ k)| |rewrite acked_sns_none by done; constructor].
  destruct Hk as [(E1 & E2 & E3) Ew]. unfold front in *. by rewrite E1, E2, E3, Ew.
Qed.

Lemma linked_answer T got S R a b gs :
  linked T got S R a b -> wired b (fst (ikcp_flush b)) gs ->
  linked T got S R a (fst (ikcp_flush b)).
Proof.
  intros [Ha Hb Hcv Hc Hua Hub He Ht Hp Hheld Hroom Hsn Hrm] [W1 _ _ _ _ W6 W7 W8 W9 _ _ _ _].
  pose proof W6 as [(_ & _ & Eb) Ew].
  split; [done|done|congruence|done|done|congruence|done| |done| |by rewrite Ew|done|done].
  - by apply (takes_answered _ _ _ b).
  - by rewrite Eb.
Qed.

(** ** The writer takes the answers *)
Lemma deliver_keep S ps k :
  emits S k -> emits S (deliver ps k) /\ snd_queue (deliver ps k) = snd_queue k.
Proof.
  unfold deliver. revert k. induction ps as [|p ps IH]; intros k He; [done|]. cbn [fold_left].
  pose proof (snd_keep_input k p) as Hk. destruct (IH _ (emits_keep _ _ _ Hk He)) as [H1 H2].
  split; [done|]. rewrite H2. by destruct Hk as (_ & -> & _).
Qed.

Lemma linked_answered T got S R a b gs wnd :
  linked T got S R a b -> sound_packets gs -> Forall (stamped (conv a) wnd (u32 R)) (concat gs) ->
  (R < Zlen T -> 1 <= wnd) ->
  (forall s n, s ∈ concat gs -> names_sn n (seg_header s) ->
     exists i, near (Zlen S) i /\ n = u32 i /\ had R b i) ->
  linked T got S R (deliver (map packet gs) a) b.
Proof.
  intros H Hgs Hst Hw Hn. pose proof (lk_a _ _ _ _ _ _ H) as [Hia _].
  pose proof (deliver_survives wnd (u32 R) gs a Hia Hgs Hst) as [_ E1 E2 E3 E4 E5].
  destruct (deliver_keep S (map packet gs) a (lk_emits _ _ _ _ _ _ H)) as [He' Eq].
  destruct (tk_tracks _ _ _ _ (lk_takes _ _ _ _ _ _ H)) as [_ [HR HRd] _ _].
  destruct H as [Ha Hb Hcv Hc Hua Hub He Ht Hp Hheld Hroom Hsn Hrm].
  split; [by apply deliver_ok|done|congruence|by rewrite E1|congruence|done|done|done| | |done|by rewrite E3|].
  - unfold pending in *. by rewrite Eq.
  - intros i Hi. destruct (Hheld i Hi) as [Hin|?]; [|by right].
    destruct (E5 _ Hin) as [?|[Hlt|Hex]]; [by left| |right].
    + rewrite _itimediff_near in Hlt by lia. lia.
    + apply Exists_exists in Hex as (h & Hh & Hnm). apply list_elem_of_fmap in Hh as (s & -> & Hs).
      destruct (Hn s _ Hs Hnm) as (j & Hj & E & Hd).
      assert (i = j) as <- by (apply (near_inj (Zlen S)); [split; lia|done|done]).
      destruct Hd as [?|?]; [lia|done].
  - intros HT. destruct E4 as [->| ->]; auto.
Qed.

(** ** A good round makes progress *)

(** What has timed out and what is new are sent. *)
Lemma due_reason k :
  kcp_ok k -> all_due (current k) k ->
  Forall (fun s => is_Some (flush_reason (flush_moved k) s)) (snd_buf (flush_moved k)).
Proof.
  intros Hok Hd. destruct (flush_moved_buf k Hok) as (-> & _).
  assert (current (flush_moved k) = current k) as Ec.
  { destruct (flush_moved_eq k Hok) as [-> _].
    generalize (move_count k (flush_window k)), (flush_wnd k). intros n w.
    by destruct (flush_probed_shape k) as (a & b & ->). }
  apply Forall_app. split.
  - eapply Forall_impl; [exact Hd|]. cbn. intros s Hs. unfold flush_reason. rewrite Ec.
    destruct (_ =? 0); [by eexists|]. destruct (Z.geb_spec (_itimediff (current k) (seg_resendts s)) 0);
      [by eexists|lia].
  - unfold flush_admitted. generalize (flush_probed k), (flush_wnd k), (snd_nxt k). intros p w.
    generalize (flush_moved k) as fk.
    induction (take (move_count k (flush_window k)) (snd_queue k)) as [|s q IH]; intros fk sn; cbn [segs_moved];
      constructor; [by eexists|apply IH].
Qed.

Lemma flush_sns_moved k :
  kcp_ok k -> updated k <> 0 ->
  snd_sns (fst (ikcp_flush k)) = map seg_sn (snd_buf (flush_moved k)).
Proof.
  intros Hok Hu. rewrite flush_sns by done. destruct (flush_moved_buf k Hok) as (-> & _).
  by rewrite map_app.
Qed.

(** If something is in flight after the flush, the reader gets on. *)
Lemma good_progress T got S R k b :
  linked T got S R k b -> ackcount b = 0 -> all_due (current k) k ->
  R < Zlen T -> R < Zlen (flushed S k) ->
  Zlen (rcv_queue b) < Zlen (rcv_queue (deliver (snd (ikcp_flush k)) b)).
Proof.
  intros H Hb Hd HT HS. destruct (linked_flush _ _ _ _ _ _ H Hb) as (gs & _ & _ & _ & H1 & _). cbv zeta in *.
  pose proof (linked_wanted _ _ _ _ _ _ H1 HT HS) as Hin.
  pose proof (lk_a _ _ _ _ _ _ H) as Hok. pose proof (lk_ua _ _ _ _ _ _ H) as Hu.
  rewrite flush_sns_moved in Hin by done. apply list_elem_of_fmap in Hin as (s & Es & Hs).
  pose proof (due_reason k Hok Hd) as Hdue. rewrite Forall_forall in Hdue.
  destruct (linked_room _ _ _ _ _ _ H HT) as [Hroom En].
  destruct (flush_progress k b s Hok (lk_range _ _ _ _ _ _ H) Hu (proj1 (lk_b _ _ _ _ _ _ H))
    (lk_conv _ _ _ _ _ _ H) ltac:(lia) Hs) as (m & Hm & -> & _).
  - rewrite <- Es. by rewrite (tr_nxt _ _ _ _ (tk_tracks _ _ _ _ (lk_takes _ _ _ _ _ _ H))).
  - by apply Hdue.
  - rewrite Zlen_app. pose proof (Zlen_pos m Hm). lia.
Qed.

Lemma push_count_map_0 g :
  Forall (fun s => is_push (seg_header s) = false) g -> push_count (map seg_header g) = 0.
Proof.
  induction 1 as [|s g Hs Hg IH]; [done|]. cbn [map]. by rewrite push_count_cons, Hs, IH.
Qed.

Lemma push_count_le hs : push_count hs <= Zlen hs.
Proof.
  induction hs as [|h hs IH]; [done|]. rewrite push_count_cons, Zlen_cons. destruct (is_push h); lia.
Qed.

Lemma data_segs_length k w q : Zlen (flush_data_segs k w q) <= Zlen q.
Proof.
  unfold flush_data_segs. induction q as [|s q IH]; [done|]. cbn [map concat].
  rewrite Zlen_app, Zlen_cons. destruct (flush_reason k s); [change (Zlen [_]) with 1|change (Zlen []) with 0]; lia.
Qed.

(** A flush carries at most a window of data segments. *)
Lemma flush_push_count k :
  kcp_ok k ->
  push_count (map seg_header (flush_control_segs k
    ++ flush_data_segs (flush_moved k) (flush_wnd k) (snd_buf (flush_moved k)))) <= 65535.
Proof.
  intros Hok. rewrite map_app, push_count_app, push_count_map_0.
  - destruct (flush_moved_ok k Hok) as [(_ & Hw & _) _]. pose proof (snd_window_nsnd _ Hw) as Hn.
    destruct Hw as (_ & _ & _ & _ & En). pose proof (push_count_le (map seg_header
      (flush_data_segs (flush_moved k) (flush_wnd k) (snd_buf (flush_moved k))))) as H1.
    pose proof (data_segs_length (flush_moved k) (flush_wnd k) (snd_buf (flush_moved k))) as H2.
    unfold Zlen at 1 in H1. rewrite length_map in H1. unfold Zlen in *. lia.
  - unfold flush_control_segs. rewrite !Forall_app. split_and!.
    + apply Forall_forall. by intros s (sn & ts & ->)%ack_segs_elem.
    + destruct (negb _); by repeat constructor.
    + destruct (negb _); by repeat constructor.
Qed.

(** If everything in flight has arrived before but was not acknowledged, it is sent again and
    the reader owes an answer. *)
Lemma good_owed T got S R k b :
  linked T got S R k b -> ackcount b = 0 -> all_due (current k) k ->
  snd_buf k <> [] -> Zlen (flushed S k) = R ->
  Exists (owed_seg (flushed S k) (rcv_wnd b) R)
    (map seg_header (flush_control_segs k
      ++ flush_data_segs (flush_moved k) (flush_wnd k) (snd_buf (flush_moved k)))).
Proof.
  intros H Hb Hd Hne HS. pose proof (lk_a _ _ _ _ _ _ H) as Hok.
  pose proof (due_reason k Hok Hd) as Hdue. destruct (flush_moved_buf k Hok) as (Eb & _).
  destruct (snd_buf k) as [|s q] eqn:Eq; [done|].
  assert (s ∈ snd_buf (flush_moved k)) as Hs by (rewrite Eb; by left).
  rewrite Forall_forall in Hdue.
  destruct (due_segment_sent (flush_moved k) (flush_wnd k) _ s Hs (Hdue s Hs)) as (s' & Hs' & E1 & E2).
  apply Exists_exists. exists (seg_header s'). split.
  { apply list_elem_of_fmap. exists s'. split; [done|]. apply elem_of_app. by right. }
  pose proof (data_is_push k s' Hok Hs') as Ep.
  destruct (emits_moved S k Hok (lk_emits _ _ _ _ _ _ H)) as [_ Hrec].
  rewrite Forall_forall in Hrec. destruct (Hrec s Hs) as (i & (Hi & Esn & _) & Hlo).
  pose proof (lk_room _ _ _ _ _ _ H) as Hroom.
  unfold owed_seg, is_push, owed, seg_header. cbn [h_cmd h_sn]. rewrite Ep. split; [done|].
  exists i. split; [split; lia|]. rewrite E1, Esn, u32_idemp. split; [done|lia].
Qed.

(** With nothing in flight and something queued, a flush admits it unless the congestion window
    is closed. *)
Lemma stalled_flush T got S R k b :
  linked T got S R k b -> R < Zlen T -> Zlen (flushed S k) = R -> snd_buf k = [] -> cwnd k < 1.
Proof.
  intros H HT HS Hb. pose proof (lk_a _ _ _ _ _ _ H) as Hok. pose proof (lk_snd _ _ _ _ _ _ H) as Hs.
  pose proof (lk_rmt _ _ _ _ _ _ H HT) as Hr. destruct (linked_le _ _ _ _ _ _ H) as [HR _].
  assert (Zlen (pending S k) = Zlen S + Zlen (snd_queue k)) as Ep.
  { unfold pending. rewrite Zlen_app. unfold Zlen. by rewrite length_map. }
  rewrite (lk_pending _ _ _ _ _ _ H) in Ep.
  destruct (flush_queue k Hok (lk_ua _ _ _ _ _ _ H)) as (_ & _ & Em).
  unfold flushed in HS. rewrite Em, Zlen_app in HS. unfold Zlen at 2 in HS.
  rewrite length_map, length_take in HS.
  assert (snd_una k = snd_nxt k) as Eu.
  { destruct Hok as [(_ & _ & Hh & _) _]. unfold una_is_head in Hh. by rewrite Hb in Hh. }
  destruct (Z_lt_ge_dec (cwnd k) 1) as [|Hc]; [done|exfalso].
  assert (1 <= flush_window k) as Hw.
  { unfold flush_window. destruct (flush_probed_shape k) as (x & y & ->). unfold flush_cwnd. cbv zeta.
    rewrite !_imin__min. simp_upd. destruct (_ =? 0); lia. }
  unfold move_count in HS. rewrite Eu, Z.sub_diag in HS. change (u32 0) with 0 in HS.
  unfold Zlen in *. lia.
Qed.

(** ** A round *)

(** How much is missing, in steps: four for each segment not in order yet, less the steps
    already made towards the next one: everything acknowledged, the congestion window open,
    something in flight. *)
Definition stage (S : list entry) (R : Z) (a : IKCPCB) : Z :=
  if R <? Zlen S then 3
  else match snd_buf a with [] => if 1 <=? cwnd a then 2 else 1 | _ => 0 end.

Definition debt (T S : list entry) (R : Z) (a : IKCPCB) : Z :=
  if R <? Zlen T then 4 * (Zlen T - R) - stage S R a else 0.

Lemma stage_range S R a : 0 <= stage S R a <= 3.
Proof. unfold stage. destruct (_ <? _); [lia|]. destruct (snd_buf a); [|lia]. destruct (_ <=? _); lia. Qed.

Lemma debt_pos T S R a : R < Zlen T -> 1 <= debt T S R a.
Proof. intros HT. unfold debt. pose proof (stage_range S R a). destruct (Z.ltb_spec R (Zlen T)); lia. Qed.
Lemma debt_zero T S R a : Zlen T <= R -> debt T S R a = 0.
Proof. intros HT. unfold debt. destruct (Z.ltb_spec R (Zlen T)); lia. Qed.

Lemma debt_less T S R a S' R' a' : R < R' -> R < Zlen T -> debt T S' R' a' < debt T S R a.
Proof.
  intros HR HT. unfold debt. pose proof (stage_range S R a). pose proof (stage_range S' R' a').
  destruct (Z.ltb_spec R (Zlen T)), (Z.ltb_spec R' (Zlen T)); lia.
Qed.

Lemma debt_stage T S R a S' a' :
  R < Zlen T -> debt T S' R a' - debt T S R a = stage S R a - stage S' R a'.
Proof. intros HT. unfold debt. destruct (Z.ltb_spec R (Zlen T)); lia. Qed.

(** What both ends are after a round, and what happened on the way. *)
Record round_made (good : bool) (T got S : list entry) (R : Z) (a b : IKCPCB)
    (S' : list entry) (R' : Z) (a' b' : IKCPCB) : Prop := {
  rm_linked : linked T got S' R' a' b';
  rm_acks : ackcount b' = 0;
  rm_le : R <= R' /\ Zlen S <= Zlen S';
  rm_good : good = true -> R < Zlen T -> R < Zlen S' -> R < R';
  rm_settled : good = true -> R < Zlen T -> Zlen S' = R -> R' = R -> snd_buf a' = [];
  rm_stalled : R < Zlen T -> Zlen S' = R -> R' = R -> snd_buf a = [] ->
    cwnd a < 1 /\ snd_buf a' = [] /\ 1 <= cwnd a'
}.

Lemma round_made_debt good T got S R a b S' R' a' b' :
  round_made good T got S R a b S' R' a' b' -> R < Zlen T -> R <= Zlen S ->
  debt T S' R' a' <= debt T S R a - (if good then 1 else 0).
Proof.
  intros [_ _ [HR HS] Hg Hse Hst] HT HRS. destruct (decide (R < R')) as [Hlt|Hge].
  { pose proof (debt_less T S R a S' R' a' Hlt HT). destruct good; lia. }
  assert (R' = R) as -> by lia. pose proof (debt_stage T S R a S' a' HT) as E.
  enough ((if good then 1 else 0) <= stage S' R a' - stage S R a) by lia.
  destruct (decide (R < Zlen S')) as [H1|H1].
  - destruct good; [specialize (Hg eq_refl HT H1); lia|].
    unfold stage at 1. destruct (Z.ltb_spec R (Zlen S')); [|lia]. pose proof (stage_range S R a). lia.
  - assert (Zlen S' = R) as E1 by lia. unfold stage.
    destruct (Z.ltb_spec R (Zlen S')); [lia|]. destruct (Z.ltb_spec R (Zlen S)); [lia|].
    destruct (snd_buf a) as [|s q] eqn:Eb.
    + destruct (Hst HT E1 eq_refl eq_refl) as (H2 & -> & H3).
      destruct (Z.leb_spec 1 (cwnd a)); [lia|]. destruct (Z.leb_spec 1 (cwnd a')); [|lia]. destruct good; lia.
    + destruct good; [rewrite (Hse eq_refl HT E1 eq_refl); destruct (_ <=? _); lia|].
      destruct (snd_buf a'); [destruct (_ <=? _)|]; lia.
Qed.

(** Answers stamped with the next number empty the send buffer, and leave the congestion window
    alone if it was empty. *)
Lemma answers_settle k gs wnd :
  kcp_inv k -> sound_packets gs -> Forall (stamped (conv k) wnd (snd_nxt k)) (concat gs) ->
  (gs <> [] -> snd_buf (deliver (map packet gs) k) = []) /\
  (snd_buf k = [] -> snd_buf (deliver (map packet gs) k) = [] /\
     cwnd (deliver (map packet gs) k) = cwnd k).
Proof.
  intros Hk Hgs Hst. destruct (decide (gs = [])) as [->|Hne]; [done|].
  destruct (deliver_settles gs k wnd Hne Hk Hgs Hst) as [Hs Hc]. split; [intros _; apply Hs|].
  intros E. split; [apply Hs|by apply Hc].
Qed.

Lemma flush_buf_nil k :
  kcp_ok k -> updated k <> 0 -> snd_buf k = [] -> flush_admitted k = [] ->
  snd_buf (fst (ikcp_flush k)) = [].
Proof.
  intros Hok Hu Eb Ea. pose proof (flush_sns k Hok Hu) as Hs. unfold snd_sns in Hs.
  rewrite Eb, Ea in Hs. cbn in Hs. by apply map_eq_nil in Hs.
Qed.

Lemma flushed_same S k : Zlen (flushed S k) = Zlen S -> flush_admitted k = [].
Proof.
  unfold flushed. rewrite Zlen_app. unfold Zlen. rewrite length_map. intros E.
  destruct (flush_admitted k); [done|cbn in E; lia].
Qed.

Lemma linked_clock_r T got S R a b now u ts :
  u <> 0 -> linked T got S R a b -> linked T got S R a (with_clock b now u ts).
Proof.
  intros Hu [H1 H2 H3 H4 H5 _ H7 [H8 H8' H8''] H9 H10 H11 H12 H13]. split; try done.
  destruct H8. by split.
Qed.

(** The window the reader advertises is open while something is missing. *)
Lemma linked_advertises T got S R a b :
  linked T got S R a b -> R < Zlen T -> 1 <= u16 (flush_wnd b).
Proof.
  intros H HT. destruct (linked_room _ _ _ _ _ _ H HT) as [Hroom En].
  pose proof (lk_room _ _ _ _ _ _ H) as Hw. pose proof (Zlen_nonneg (rcv_queue b)).
  unfold flush_wnd, ikcp_wnd_unused. rewrite En.
  destruct (Z.ltb_spec (Zlen (rcv_queue b)) (rcv_wnd b)); [|lia].
  rewrite u32_i32, u32_idemp, u32_small by lia. rewrite u16_small; lia.
Qed.

(** Some of the packets of a flush, all of them in a good round. *)
Lemma delivered_groups (good : bool) gs ps qs :
  ps = map packet gs -> qs ⊆ ps -> (good = true -> qs = ps) ->
  exists gs', qs = map packet gs' /\ gs' ⊆ gs /\ (good = true -> gs' = gs).
Proof.
  intros -> Hs Hg. destruct good.
  - exists gs. rewrite Hg by done. done.
  - destruct (packets_subset gs qs Hs) as (gs' & E & Hs'). by exists gs'.
Qed.

(** First half: the writer flushes, the reader takes what arrives. *)
Lemma half_round (good : bool) T got S R k b qs :
  linked T got S R k b -> ackcount b = 0 -> qs ⊆ snd (ikcp_flush k) ->
  (good = true -> qs = snd (ikcp_flush k) /\ all_due (current k) k) ->
  let k' := fst (ikcp_flush k) in let S' := flushed S k in let b' := deliver qs b in
  exists R', linked T got S' R' k' b' /\ R <= R' /\ Zlen S <= Zlen S' /\ 1 <= cwnd k' /\
    (good = true -> R < Zlen T -> R < Zlen S' -> R < R') /\
    (good = true -> snd_buf k <> [] -> Zlen S' = R -> acked_sns b' <> []) /\
    (Zlen S' = R -> snd_buf k = [] -> snd_buf k' = []).
Proof.
  intros H Hb Hs Hg. cbv zeta. pose proof (lk_a _ _ _ _ _ _ H) as Hok. pose proof (lk_ua _ _ _ _ _ _ H) as Hu.
  destruct (linked_flush _ _ _ _ _ _ H Hb) as (gs & Ep & Hw & Hh & H1 & _ & _). cbv zeta in *.
  destruct (delivered_groups good gs _ qs Ep Hs) as (gs' & -> & Hsub & Hall); [intros G; by apply Hg|].
  pose proof (Forall_concat_subset _ _ _ Hsub (wr_stamp _ _ _ Hw)) as Hst.
  rewrite <- (lk_conv _ _ _ _ _ _ H) in Hst.
  destruct (linked_deliver _ _ _ _ _ _ gs' _ _ H1 (sound_subset _ _ Hsub (wr_sound _ _ _ Hw)) Hst
    (Forall_concat_subset _ _ _ Hsub Hh)) as (R' & H2 & Hgn). cbv zeta in *.
  destruct (linked_le _ _ _ _ _ _ H) as [HR _].
  exists R'. split; [done|]. split; [apply Hgn|]. split.
  { unfold flushed. rewrite Zlen_app. pose proof (Zlen_nonneg (map seg_entry (flush_admitted k))). lia. }
  split; [apply Hw|]. split; [|split].
  - intros G HT HS. destruct (Hg G) as [Eq Hd].
    pose proof (good_progress _ _ _ _ _ _ H Hb Hd HT HS) as Hp. rewrite <- Eq in Hp.
    pose proof (tracks_count _ _ _ _ (tk_tracks _ _ _ _ (lk_takes _ _ _ _ _ _ H))).
    pose proof (tracks_count _ _ _ _ (tk_tracks _ _ _ _ (lk_takes _ _ _ _ _ _ H2))). lia.
  - intros G Hne HS. destruct (Hg G) as [_ Hd]. rewrite (Hall G) in *.
    pose proof (good_owed _ _ _ _ _ _ H Hb Hd Hne HS) as Ho. rewrite <- (wr_segs _ _ _ Hw) in Ho.
    pose proof (flush_push_count k Hok) as Hc. rewrite <- (wr_segs _ _ _ Hw) in Hc.
    pose proof (push_count_nonneg (map seg_header (concat gs))).
    destruct (gn_count _ _ _ _ _ _ _ _ Hgn) as [_ Hmust]; [lia|lia|]. apply Hmust. by left.
  - intros HS Eb. assert (Zlen S = R) as E0.
    { pose proof (Zlen_nonneg (map seg_entry (flush_admitted k))). unfold flushed in HS.
      rewrite Zlen_app in HS. lia. }
    apply flush_buf_nil; [done|done|done|]. apply (flushed_same S). lia.
Qed.

(** Second half: the reader answers, the writer takes what arrives. *)
Lemma half_answer T got S R k k' qs :
  linked T got S R k k' -> qs ⊆ snd (ikcp_flush k') ->
  linked T got S R (deliver qs k) (fst (ikcp_flush k')) /\ ackcount (fst (ikcp_flush k')) = 0 /\
  (Zlen S = R -> snd_buf k = [] -> snd_buf (deliver qs k) = [] /\ cwnd (deliver qs k) = cwnd k) /\
  (Zlen S = R -> qs = snd (ikcp_flush k') -> acked_sns k' <> [] -> snd_buf (deliver qs k) = []).
Proof.
  intros H Hs. destruct (lk_takes _ _ _ _ _ _ H) as [Ht _ Hacks].
  destruct (flush_wired k' (lk_b _ _ _ _ _ _ H)) as (gs & Ep & Hw);
    [rewrite (lk_conv _ _ _ _ _ _ H); apply (lk_range _ _ _ _ _ _ H)|apply (lk_ub _ _ _ _ _ _ H)|].
  rewrite Ep in Hs |- *. destruct (packets_subset gs qs Hs) as (gs' & -> & Hsub).
  pose proof (linked_answer _ _ _ _ _ _ _ H Hw) as H1.
  pose proof (wr_stamp _ _ _ Hw) as Hst0. rewrite (tr_nxt _ _ _ _ Ht), (lk_conv _ _ _ _ _ _ H) in Hst0.
  pose proof (Forall_concat_subset _ _ _ Hsub Hst0) as Hst.
  pose proof (sound_subset _ _ Hsub (wr_sound _ _ _ Hw)) as Hsound.
  split; [|split; [apply Hw|]].
  - apply (linked_answered _ _ _ _ _ _ gs' (u16 (flush_wnd k'))); [done|done|done| |].
    + by apply (linked_advertises _ _ _ _ _ _ H).
    + intros s n Hin Hn. destruct (wr_names _ _ _ Hw s n (concat_subset _ _ _ Hsub Hin) Hn) as (m & Hm & ->).
      rewrite Forall_forall in Hacks. destruct (Hacks m Hm) as (i & Hi & -> & Hd).
      exists i. rewrite u32_idemp. split; [done|]. split; [done|].
      destruct (wr_kept _ _ _ Hw) as [(_ & _ & E) _]. unfold had in *. by rewrite E.
  - pose proof (lk_a _ _ _ _ _ _ H) as [Hia _]. destruct (lk_emits _ _ _ _ _ _ H) as [En _].
    assert (Zlen S = R -> u32 R = snd_nxt k) as Hnx by (intros <-; by rewrite En).
    split; intros E; rewrite (Hnx E) in Hst, Hst0.
    + by apply (answers_settle k gs' (u16 (flush_wnd k')) Hia Hsound Hst).
    + intros -> Hne. apply (proj1 (answers_settle k gs _ Hia (wr_sound _ _ _ Hw) Hst0)).
      by apply (wr_reply _ _ _ Hw).
Qed.

Lemma round_step good T got S R a b a' b' :
  linked T got S R a b -> ackcount b = 0 -> round good (a, b) (a', b') ->
  exists S' R', round_made good T got S R a b S' R' a' b'.
Proof.
  intros H Hb Hr. inversion Hr as [x y ta tb a1 pa qa b1 pb qb Hf1 Hq1 Hf2 Hq2 Hg E1 E2]. subst x y b1.
  destruct Hf1 as (u & ts & Hu & Ef1), Hf2 as (u' & ts' & Hu' & Ef2).
  pose proof (linked_clock _ _ _ _ _ _ ta u ts Hu H) as Hk. set (k := with_clock a ta u ts) in *.
  assert (a1 = fst (ikcp_flush k)) as -> by (by rewrite Ef1).
  assert (pa = snd (ikcp_flush k)) as -> by (by rewrite Ef1).
  destruct (half_round good T got S R k b qa Hk Hb Hq1) as (R' & H1 & F1 & F2 & F3 & F4 & F5 & F6).
  { intros G. destruct (Hg G) as (-> & _ & Hd). split; [done|exact Hd]. }
  cbv zeta in *. pose proof (linked_clock_r _ _ _ _ _ _ tb u' ts' Hu' H1) as Hk'.
  set (k' := with_clock (deliver qa b) tb u' ts') in *.
  assert (b' = fst (ikcp_flush k')) as -> by (by rewrite Ef2).
  assert (pb = snd (ikcp_flush k')) as -> by (by rewrite Ef2).
  destruct (half_answer _ _ _ _ _ _ qb Hk' Hq2) as (H2 & G0 & G1 & G2).
  exists (flushed S k), R'. split; [done|done|done|by intros G HT HS; apply F4| |].
  - intros G HT HS ->. destruct (decide (snd_buf k = [])) as [Eb|Eb].
    + apply G1; [done|]. by apply F6.
    + apply G2; [done|by destruct (Hg G) as (_ & -> & _)|]. by apply F5.
  - intros HT HS -> Eb. split; [by apply (stalled_flush _ _ _ _ _ _ Hk HT HS)|].
    destruct (G1 HS (F6 HS Eb)) as [-> ->]. done.
Qed.

(** ** Rounds *)
Lemma rounds_linked n st st' T got S R :
  rounds n st st' -> linked T got S R (fst st) (snd st) -> ackcount (snd st) = 0 ->
  exists S' R', linked T got S' R' (fst st') (snd st') /\
    (R' < Zlen T -> debt T S' R' (fst st') + Z.of_nat n <= debt T S R (fst st)).
Proof.
  intros Hr. revert S R. induction Hr as [st|n [a b] [a1 b1] st3 H1 H2 IH|n [a b] [a1 b1] st3 H1 H2 IH];
    intros S R Hl Hb; cbn [fst snd] in *; [exists S, R; split; [done|lia]|..];
    destruct (round_step _ _ _ _ _ _ _ _ _ Hl Hb H1) as (S1 & R1 & Hm);
    destruct (IH _ _ (rm_linked _ _ _ _ _ _ _ _ _ _ _ Hm) (rm_acks _ _ _ _ _ _ _ _ _ _ _ Hm))
      as (S' & R' & Hl' & Hd); exists S', R'; (split; [done|]); intros HT; specialize (Hd HT);
    cbn [fst snd] in *;
    destruct (linked_le _ _ _ _ _ _ Hl) as [[_ HR] _];
    (assert (R1 < Zlen T) as HT1 by
      (pose proof (debt_pos T S' R' (fst st3) HT); pose proof (debt_zero T S1 R1 a1); lia));
    pose proof (rm_le _ _ _ _ _ _ _ _ _ _ _ Hm) as [HR1 _];
    assert (R < Zlen T) as HT0 by lia;
    pose proof (round_made_debt _ _ _ _ _ _ _ _ _ _ _ Hm HT0 HR) as Hx; cbv iota in Hx; lia.
Qed.

(** ** What arrives *)

(** A pair of endpoints at rest: nothing in flight, nothing waiting, the window open. *)
Record at_rest (a b : IKCPCB) : Prop := {
  ar_a : kcp_ok a; ar_b : kcp_ok b;
  ar_conv : conv b = conv a; ar_range : 0 <= conv a < 4294967296;
  ar_ua : updated a <> 0; ar_ub : updated b <> 0;
  ar_queue : snd_queue a = []; ar_buf : snd_buf a = [];
  ar_nxt : rcv_nxt b = snd_nxt a; ar_read : rcv_queue b = []; ar_wait : rcv_buf b = [];
  ar_acks : ackcount b = 0; ar_wnd : rcv_wnd b < 65536;
  ar_snd : 1 <= snd_wnd a; ar_rmt : 1 <= rmt_wnd a
}.

(** Whatever was exchanged before, only the numbers matter. *)
Definition past (k : IKCPCB) : list entry := repeat (0, []) (Z.to_nat (snd_nxt k)).

Lemma at_rest_linked a b a' :
  at_rest a b -> kcp_ok a' -> snd_keep (a <| snd_queue := snd_queue a' |>) a' ->
  updated a' = updated a -> snd_wnd a' = snd_wnd a -> rmt_wnd a' = rmt_wnd a ->
  Zlen (snd_queue a') <= rcv_wnd b ->
  linked (past a ++ map seg_entry (snd_queue a')) (past a) (past a) (snd_nxt a) a' b.
Proof.
  intros [Ha Hb Hcv Hc Hua Hub Hq Hbuf Hn Hr Hw Hac Hwn Hsn Hrm] Ha' Hk Eu Es Em Hroom.
  destruct Hk as (E1 & _ & _ & E3 & HP). revert E1 E3 HP. simp_upd. intros E1 E3 HP.
  pose proof Ha as [(_ & (_ & Hnx & _) & _) _].
  assert (Zlen (past a) = snd_nxt a) as El.
  { unfold past, Zlen. rewrite repeat_length. lia. }
  assert (snd_buf a' = []) as Eb.
  { specialize (HP (fun _ => False) ltac:(done)). rewrite Hbuf in HP. specialize (HP (Forall_nil_2 _)).
    destruct (snd_buf a'); [done|by inversion HP]. }
  split; [done|done|congruence|by rewrite E3|congruence|done| | |done| | |by rewrite Es|by rewrite Em].
  - split; [by rewrite E1, El, u32_small|rewrite Eb; constructor].
  - split; [split| |].
    + by rewrite Hn, u32_small.
    + lia.
    + rewrite Hr, app_nil_r. symmetry. apply take_ge. unfold past. rewrite repeat_length. lia.
    + rewrite Hw. constructor.
    + unfold front. by rewrite Hw.
    + rewrite acked_sns_none by done. constructor.
  - intros i Hi. lia.
  - rewrite Zlen_app. unfold Zlen at 2. rewrite length_map. unfold Zlen in *. lia.
Qed.

Lemma linked_done T got S R a b :
  linked T got S R a b -> Zlen T <= R -> got ++ map seg_entry (rcv_queue b) = T /\ snd_queue a = [].
Proof.
  intros H HT. destruct (linked_le _ _ _ _ _ _ H) as [[H0 HR] HS].
  destruct (tk_tracks _ _ _ _ (lk_takes _ _ _ _ _ _ H)) as [_ _ -> _].
  pose proof (lk_pending _ _ _ _ _ _ H) as Hp. unfold pending in Hp.
  rewrite take_ge by (unfold Zlen in *; lia).
  assert (snd_queue a = []) as E; [|by rewrite E, app_nil_r in Hp].
  apply (f_equal Zlen) in Hp. rewrite Zlen_app in Hp. unfold Zlen at 2 in Hp. rewrite length_map in Hp.
  destruct (snd_queue a); [done|]. cbn [length] in Hp. lia.
Qed.

(** The queue of a writer that was at rest arrives whole. *)
Lemma queue_arrives a b k n a' b' :
  at_rest a b -> kcp_ok k -> snd_keep (a <| snd_queue := snd_queue k |>) k ->
  updated k = updated a -> snd_wnd k = snd_wnd a -> rmt_wnd k = rmt_wnd a ->
  Zlen (snd_queue k) <= rcv_wnd b ->
  rounds n (k, b) (a', b') -> 4 * Zlen (snd_queue k) <= Z.of_nat n ->
  map seg_entry (rcv_queue b') = map seg_entry (snd_queue k) /\ snd_queue a' = [] /\ kcp_ok b'.
Proof.
  intros Har Hk Hkeep Eu Es Em Hroom Hr Hn.
  pose proof (at_rest_linked a b k Har Hk Hkeep Eu Es Em Hroom) as Hl.
  destruct (rounds_linked _ _ _ _ _ _ _ Hr Hl (ar_acks _ _ Har)) as (S' & R' & Hl' & Hd). cbn [fst snd] in *.
  destruct (Z_lt_ge_dec R' (Zlen (past a ++ map seg_entry (snd_queue k)))) as [Hlt|Hge].
  - exfalso. specialize (Hd Hlt). destruct (linked_le _ _ _ _ _ _ Hl) as [HR _].
    pose proof (debt_pos _ S' R' a' Hlt) as Hp. unfold debt in Hd at 2.
    pose proof (stage_range (past a) (snd_nxt a) k).
    assert (Zlen (past a ++ map seg_entry (snd_queue k)) - snd_nxt a = Zlen (snd_queue k)) as E.
    { rewrite Zlen_app. unfold past, Zlen. rewrite repeat_length, length_map. lia. }
    destruct (Z.ltb_spec (snd_nxt a) (Zlen (past a ++ map seg_entry (snd_queue k)))); lia.
  - destruct (linked_done _ _ _ _ _ _ Hl' ltac:(lia)) as [E1 E2].
    apply app_inv_head in E1. split; [done|]. split; [done|]. apply (lk_b _ _ _ _ _ _ Hl').
Qed.

(** C6: liveness: a message written to an endpoint at rest arrives whole at its peer.  Rounds may
    lose, repeat and reorder packets in both directions; once four good rounds for each segment
    of the message have passed, the reader gets exactly the message. *)
Theorem message_arrives a b msg n a' b' len :
  at_rest a b -> stream a = 0 -> Zlen msg <= 255 * mss a -> Zlen msg <= len < 2147483648 ->
  frag_count (mss a) (Zlen msg) <= rcv_wnd b ->
  rounds n (snd (ikcp_send a msg (Zlen msg)), b) (a', b') ->
  4 * frag_count (mss a) (Zlen msg) <= Z.of_nat n ->
  fst (ikcp_send a msg (Zlen msg)) = 0 /\ fst (ikcp_recv b' len) = (Zlen msg, msg).
Proof.
  intros Har Hst Hmsg Hlen Hfc Hr Hn. pose proof Har as [Ha _ _ _ _ _ Hq _ _ _ _ _ _ _ _].
  pose proof Ha as [(Hs & _) _]. pose proof Hs as (Hm & Hnq & Hfit).
  pose proof (ikcp_send_ok a msg Ha ltac:(lia)) as Hok.
  destruct (ikcp_send_message_spec a msg Hs Hst Hmsg ltac:(lia)) as (q & E & Hmq & Hbq & Hfq & Elen).
  rewrite E in *. cbn [fst snd] in *. rewrite Hq in *. cbn [app] in *. split; [done|].
  match type of Hr with rounds n (?x, b) _ => set (k := x) in * end.
  destruct (queue_arrives a b k n a' b') as (Eq & _ & Hb'); try done; [unfold k; simp_upd; lia..|].
  destruct Hb' as [(_ & _ & _ & Hw & _) _]. pose proof Hw as (_ & _ & _ & _ & Hnr & Hl & _ & Hwf).
  revert Eq. unfold k. simp_upd. intros Eq.
  assert (seg_bytes (rcv_queue b') = msg) as Eb.
  { rewrite <- entry_bytes_segs, Eq, entry_bytes_segs. done. }
  assert (message_segs (rcv_queue b')) as Hms.
  { apply message_entries_segs; [done|]. rewrite Eq. by eapply message_segs_entries. }
  destruct (ikcp_recv_message b' len (rcv_queue b') []) as (m & r & _ & H).
  - split; [done|]. rewrite Eb. split; [lia|]. split; [done|lia].
  - by apply rcv_window_move_ok.
  - by rewrite app_nil_r.
  - done.
  - rewrite Eb. lia.
  - destruct (ikcp_recv b' len) as [[c buf] k']. destruct H as (-> & -> & _). by rewrite Eb.
Qed.
