(* ===== verification/Acked.v ===== *)
(** Acknowledgements do not lie: what a sender no longer keeps, its peer has.

    [Network] looks at one direction of the traffic; here the answers travel over the network as
    well, and the sender is given nothing else. *)
From stdpp Require Import relations.
From S2P Require Import Prelude Bytes IkcpTypes IkcpSend IkcpInput IkcpFlush IkcpFlushSpec.
From S2P Require Import IkcpInv Wire Delivery Network Progress Exchange Acks Rounds.

(** ** The receiver only gains, and acknowledges only what it has *)

(** From [k], with [R] segments in order, to [k'] with [R']. *)
Record advances (S : list entry) (R : Z) (k : IKCPCB) (R' : Z) (k' : IKCPCB) : Prop := {
  ad_le : R <= R';
  ad_had i : near (Zlen S) i -> had R k i -> had R' k' i;
  ad_acks n : n ∈ acked_sns k' ->
    n ∈ acked_sns k \/ exists i, near (Zlen S) i /\ n = u32 i /\ had R' k' i
}.

Lemma advances_trans S R1 k1 R2 k2 R3 k3 :
  advances S R1 k1 R2 k2 -> advances S R2 k2 R3 k3 -> advances S R1 k1 R3 k3.
Proof.
  intros [A1 A2 A3] [B1 B2 B3]. split; [lia|auto|]. intros n Hn.
  destruct (B3 n Hn) as [H|H]; [|by right]. destruct (A3 n H) as [|(i & Hi & -> & Hh)]; [by left|].
  right. exists i. auto.
Qed.

Lemma advances_same S R k k' :
  rcv_buf k' = rcv_buf k -> (forall n, n ∈ acked_sns k' -> n ∈ acked_sns k) -> advances S R k R k'.
Proof.
  intros E Ha. split; [lia| |by left; auto]. intros i _. unfold had. by rewrite E.
Qed.

Lemma advances_kept S R k k' : rcv_same k k' -> acks_kept k k' -> advances S R k R k'.
Proof.
  intros (_ & _ & E) Ha. apply advances_same; [done|]. intros n. by rewrite (acked_sns_kept _ _ Ha).
Qed.

(** A step of the receiver that keeps to the stream. *)
Definition progresses (S : list entry) (got : list entry) (R : Z) (k k' : IKCPCB) : Prop :=
  exists R', tracks S R' got k' /\ advances S R k R' k' /\ rcv_wnd k' = rcv_wnd k.

Lemma progresses_kept S got R k k' :
  rcv_kept k k' -> acks_kept k k' -> tracks S R got k -> progresses S got R k k'.
Proof.
  intros [Hs Ew] Ha Ht. exists R. split; [by eapply tracks_same|]. split; [by apply advances_kept|done].
Qed.

Lemma progresses_trans S got R k1 k2 k3 :
  progresses S got R k1 k2 -> (forall R', tracks S R' got k2 -> progresses S got R' k2 k3) ->
  progresses S got R k1 k3.
Proof.
  intros (R2 & H2 & A2 & W2) H. destruct (H R2 H2) as (R3 & H3 & A3 & W3). exists R3.
  split; [done|]. split; [by eapply advances_trans|congruence].
Qed.

(** A data segment inside the window is there afterwards. *)
Lemma input_push_arrives S R got k h data :
  kcp_inv k -> tracks S R got k -> header_ok h -> h_len h <= Zlen data ->
  h_cmd h = IKCP_CMD_PUSH ->
  honest_seg (Zlen S - 2147483647) S (h, take (Z.to_nat (h_len h)) data) ->
  exists R', tracks S R' got (ikcp_input_push k h data) /\ advances S R k R' (ikcp_input_push k h data) /\
    rcv_wnd (ikcp_input_push k h data) = rcv_wnd k /\
    forall i, near (Zlen S) i -> h_sn h = u32 i -> i < R + rcv_wnd k <= i + 2147483648 ->
      had R' (ikcp_input_push k h data) i.
Proof.
  intros Hk Ht Hh Hlen Ec Hhon. destruct (Hhon Ec) as (i & Hi & Hold & Esn & HS).
  assert (near (Zlen S) i) as Hn by (split; lia). cbn [fst snd] in *.
  destruct (tr_range _ _ _ _ Ht) as [HR HRd]. pose proof (tr_nxt _ _ _ _ Ht) as En.
  pose proof Hh as (_ & _ & _ & _ & _ & _ & _ & Hl).
  unfold ikcp_input_push. rewrite Esn, En, u32_add_l.
  assert (forall R' k', tracks S R' got k' -> advances S R k R' k' -> rcv_wnd k' = rcv_wnd k ->
    (i < R + rcv_wnd k <= i + 2147483648 -> had R' k' i) ->
    exists R', tracks S R' got k' /\ advances S R k R' k' /\ rcv_wnd k' = rcv_wnd k /\
      forall i', near (Zlen S) i' -> u32 i = u32 i' -> i' < R + rcv_wnd k <= i' + 2147483648 ->
        had R' k' i') as Hout.
  { intros R' k' P1 P2 P3 P4. exists R'. split; [done|]. split; [done|]. split; [done|].
    intros i' Hi' E. apply (near_inj (Zlen S)) in E as <-; done. }
  destruct (Z.ltb_spec (_itimediff (u32 i) (u32 (R + rcv_wnd k))) 0) as [G1|G1]; cycle 1.
  { apply (Hout R); [done|by apply advances_kept|done|].
    intros Hwn. rewrite _itimediff_near in G1 by lia. lia. }
  pose proof (rcv_kept_ack_push k (u32 i) (h_ts h)) as Hkept.
  pose proof (ikcp_ack_push_inv k (u32 i) (h_ts h) Hk) as Hk1.
  pose proof (tracks_kept _ _ _ _ _ Hkept Ht) as Ht1. pose proof Hkept as [(En1 & _ & Eb1) Ew1].
  rewrite En1, En.
  assert (forall R' k', had R' k' i -> acks_kept (ikcp_ack_push k (u32 i) (h_ts h)) k' ->
    forall n, n ∈ acked_sns k' ->
    n ∈ acked_sns k \/ exists j, near (Zlen S) j /\ n = u32 j /\ had R' k' j) as Hacks.
  { intros R' k' Hd Ha n. rewrite (acked_sns_kept _ _ Ha).
    intros [H| ->]%acked_sns_push; [by left|]. right. by exists i. }
  destruct (Z.geb_spec (_itimediff (u32 i) (u32 R)) 0) as [G2|G2]; cycle 1.
  { rewrite _itimediff_near in G2 by lia. apply (Hout R); [done| |done|by intros _; left; lia]. split; [lia| |].
    - intros j _. unfold had. by rewrite Eb1.
    - apply Hacks; [left; lia|done]. }
  match goal with |- context [ikcp_parse_data _ ?s] => set (new := s) end.
  assert (seg_wf new) as Hwf.
  { unfold seg_wf, new. simp_upd. cbn [seg_data ikcp_segment_new].
    unfold Zlen in *. rewrite length_take. lia. }
  assert (carries S new i) as Hc by (split; [done|]; by split; [unfold new; simp_upd|]).
  pose proof Hk1 as (_ & _ & _ & Hw1 & _).
  destruct (parse_data_moves S R got _ new i Hw1 Ht1 Hwf Hc Hn) as (R' & P1 & _ & P3 & P4 & P5 & P6).
  { unfold new. simp_upd. rewrite Ew1, En1, En, u32_add_l. lia. }
  { unfold new. simp_upd. rewrite En1, En. lia. }
  apply (Hout R'); [done| |congruence|done]. split; [done| |apply Hacks; [done|apply acks_kept_parse_data]].
  intros j Hj Hd. apply P6; [done|]. unfold had in *. by rewrite Eb1.
Qed.

(** The number [i] of the stream is there after a step. *)
Definition arrives (S : list entry) (got : list entry) (i R : Z) (k k' : IKCPCB) : Prop :=
  exists R', tracks S R' got k' /\ advances S R k R' k' /\ rcv_wnd k' = rcv_wnd k /\ had R' k' i.

Lemma progresses_arrives S got i R k1 k2 k3 :
  near (Zlen S) i -> progresses S got R k1 k2 ->
  (forall R', R <= R' -> tracks S R' got k2 -> rcv_wnd k2 = rcv_wnd k1 -> arrives S got i R' k2 k3) ->
  arrives S got i R k1 k3.
Proof.
  intros Hi (R2 & H2 & A2 & W2) H. destruct (H R2 (ad_le _ _ _ _ _ A2) H2 W2) as (R3 & H3 & A3 & W3 & D3).
  exists R3. split; [done|]. split; [by eapply advances_trans|]. split; [congruence|done].
Qed.

Lemma arrives_progresses S got i R k1 k2 k3 :
  near (Zlen S) i -> arrives S got i R k1 k2 ->
  (forall R', tracks S R' got k2 -> progresses S got R' k2 k3) -> arrives S got i R k1 k3.
Proof.
  intros Hi (R2 & H2 & A2 & W2 & D2) H. destruct (H R2 H2) as (R3 & H3 & A3 & W3). exists R3.
  split; [done|]. split; [by eapply advances_trans|]. split; [congruence|]. by apply (ad_had _ _ _ _ _ A3).
Qed.

(** Before it is looked at for what it is. *)
Lemma acked_progresses S R got k h :
  kcp_inv k -> tracks S R got k -> header_ok h ->
  kcp_inv (acked k h) /\ progresses S got R k (acked k h).
Proof.
  intros Hk Ht Hh. split.
  - pose proof (ikcp_input_segment_inv k (mklocals false 0 0)
      (mkheader 0 0 0 (h_wnd h) 0 0 (h_una h) 0) []) as H.
    apply H; [done| |done]. destruct Hh as (_ & _ & _ & ? & _ & _ & ? & _). unfold header_ok. cbn. lia.
  - apply progresses_kept; [..|done]; unfold acked.
    + etransitivity; [|apply rcv_kept_shrink]. etransitivity; [|apply rcv_kept_parse_una]. done.
    + etransitivity; [|apply acks_kept_shrink]. etransitivity; [|apply acks_kept_parse_una]. done.
Qed.

Lemma input_segment_progresses S R got k l h data :
  kcp_inv k -> tracks S R got k -> header_ok h -> h_len h <= Zlen data ->
  honest_seg (Zlen S - 2147483647) S (h, take (Z.to_nat (h_len h)) data) ->
  progresses S got R k (fst (ikcp_input_segment k l h data)).
Proof.
  intros Hk Ht Hh Hlen Hhon. unfold ikcp_input_segment. fold (acked k h).
  destruct (acked_progresses S R got k h Hk Ht Hh) as [Hk1 Hp]. eapply progresses_trans; [exact Hp|].
  intros R1 Ht1. destruct (Z.eqb_spec (h_cmd h) IKCP_CMD_ACK) as [_|_].
  { by apply progresses_kept; [apply rcv_kept_input_ack|apply acks_kept_input_ack|]. }
  destruct (Z.eqb_spec (h_cmd h) IKCP_CMD_PUSH) as [Ec|_]; cbn [fst].
  - destruct (input_push_arrives S R1 got _ h data Hk1 Ht1 Hh Hlen Ec Hhon) as (R' & H1 & H2 & H3 & _).
    by exists R'.
  - destruct (_ =? _); cbn [fst]; by apply progresses_kept.
Qed.

Lemma input_segment_arrives S R got k l h data i :
  kcp_inv k -> tracks S R got k -> header_ok h -> h_len h <= Zlen data ->
  honest_seg (Zlen S - 2147483647) S (h, take (Z.to_nat (h_len h)) data) ->
  h_cmd h = IKCP_CMD_PUSH -> h_sn h = u32 i -> near (Zlen S) i -> i < rcv_wnd k ->
  Zlen S + rcv_wnd k <= 2147483648 ->
  arrives S got i R k (fst (ikcp_input_segment k l h data)).
Proof.
  intros Hk Ht Hh Hlen Hhon Ec Esn Hi Hw Hs. unfold ikcp_input_segment. fold (acked k h).
  destruct (acked_progresses S R got k h Hk Ht Hh) as [Hk1 Hp]. eapply progresses_arrives; [done|exact Hp|].
  intros R1 _ Ht1 W1. rewrite Ec. change (IKCP_CMD_PUSH =? IKCP_CMD_ACK) with false. cbn [fst Z.eqb Pos.eqb].
  destruct (input_push_arrives S R1 got _ h data Hk1 Ht1 Hh Hlen Ec Hhon) as (R' & H1 & H2 & H3 & H4).
  exists R'. split; [done|]. split; [done|]. split; [done|].
  destruct (tr_range _ _ _ _ Ht1) as [HR _]. destruct Hi. apply H4; [done|done|]. rewrite W1. lia.
Qed.

(** The end of an input, after its segments. *)
Lemma after_segs_progresses S R got k1 l u :
  tracks S R got k1 ->
  let k2 := if l_flag l then ikcp_parse_fastack k1 (l_maxack l) (l_latest_ts l) else k1 in
  progresses S got R k1 (if _itimediff (snd_una k2) u >? 0 then ikcp_input_cwnd k2 else k2).
Proof.
  intros Ht. cbv zeta. set (k2 := if l_flag l then _ else k1).
  assert (rcv_kept k1 k2 /\ acks_kept k1 k2) as [Hs Ha].
  { unfold k2. destruct (l_flag l); [|done]. split; [apply rcv_kept_fastack|apply acks_kept_fastack]. }
  apply progresses_kept; [..|done]; destruct (_ >? 0); try done.
  - etransitivity; [exact Hs|apply rcv_kept_cwnd].
  - etransitivity; [exact Ha|apply acks_kept_cwnd].
Qed.

(** The segments of a packet. *)
Lemma receive_segs_progress S got g R k l :
  kcp_inv k -> tracks S R got k -> Forall (seg_accept (conv k)) g -> honest_segs S g ->
  progresses S got R k (fst (fold_left receive_seg g (k, l))) /\
  forall i, near (Zlen S) i -> i < rcv_wnd k -> Zlen S + rcv_wnd k <= 2147483648 ->
    Exists (fun s => u8 (seg_cmd s) = IKCP_CMD_PUSH /\ u32 (seg_sn s) = u32 i) g ->
    arrives S got i R k (fst (fold_left receive_seg g (k, l))).
Proof.
  revert R k l. induction g as [|s g IH]; intros R k l Hk Ht Ha Hh; cbn [fold_left].
  { split; [by apply progresses_kept|]. by intros i _ _ _ F%Exists_nil. }
  apply Forall_cons in Ha as [(Hc & Hcmd & Hwf & Hlen) Ha]. apply Forall_cons in Hh as [Hh1 Hh].
  assert (h_len (seg_header s) = Zlen (seg_data s)) as El.
  { unfold seg_wf in Hwf. pose proof (Zlen_nonneg (seg_data s)). cbn. rewrite u32_small; lia. }
  assert (take (Z.to_nat (h_len (seg_header s))) (seg_data s) = seg_data s) as Et
    by (apply take_ge; unfold Zlen in El; lia).
  assert (honest_seg (Zlen S - 2147483647) S (seg_header s,
    take (Z.to_nat (h_len (seg_header s))) (seg_data s))) as Hh1' by by rewrite Et.
  pose proof (input_segment_progresses S R got k l (seg_header s) (seg_data s) Hk Ht (seg_header_ok s)
    ltac:(lia) Hh1') as Hp.
  pose proof (fun i => input_segment_arrives S R got k l (seg_header s) (seg_data s) i Hk Ht
    (seg_header_ok s) ltac:(lia) Hh1') as Har.
  pose proof (ikcp_input_segment_inv k l _ (seg_data s) Hk (seg_header_ok s) ltac:(lia)) as Hk1.
  pose proof (snd_frame_input_segment k l (seg_header s) (seg_data s)) as (_ & _ & _ & _ & _ & _ & Ec & _).
  change (receive_seg (k, l) s) with (ikcp_input_segment k l (seg_header s) (seg_data s)).
  destruct (ikcp_input_segment k l (seg_header s) (seg_data s)) as [k1 l1]. cbn [fst] in *.
  rewrite <- Ec in Ha. split.
  - eapply progresses_trans; [exact Hp|]. intros R1 H1. by apply IH.
  - intros i Hi Hw Hs [[E1 E2]|Hin]%Exists_cons.
    + eapply arrives_progresses; [done|by apply Har|]. intros R1 H1. by apply IH.
    + eapply progresses_arrives; [done|exact Hp|]. intros R1 _ H1 W1.
      apply (proj2 (IH R1 k1 l1 Hk1 H1 Ha Hh) i); [done|by rewrite W1..|done].
Qed.

(** A packet with the segment number [i]. *)
Lemma input_packet_arrives S got g R k i :
  kcp_inv k -> tracks S R got k -> g <> [] -> Zlen (packet g) < 2147483648 ->
  Forall (seg_accept (conv k)) g -> honest_segs S g ->
  near (Zlen S) i -> i < rcv_wnd k -> Zlen S + rcv_wnd k <= 2147483648 ->
  Exists (fun s => u8 (seg_cmd s) = IKCP_CMD_PUSH /\ u32 (seg_sn s) = u32 i) g ->
  arrives S got i R k (snd (ikcp_input k (packet g))).
Proof.
  intros Hk Ht Hne Hl Ha Hh Hi Hw Hs Hex. rewrite ikcp_input_packet_eq by done. cbn [snd].
  destruct (receive_segs_progress S got g R k (mklocals false 0 0) Hk Ht Ha Hh) as [_ H].
  specialize (H i Hi Hw Hs Hex). unfold receive_packet.
  destruct (fold_left receive_seg g (k, mklocals false 0 0)) as [k1 l]. cbn [fst] in *.
  eapply arrives_progresses; [done|exact H|]. intros R1 H1. by apply after_segs_progresses.
Qed.

Lemma input_loop_progresses S got fuel R k l data :
  kcp_inv k -> tracks S R got k -> Forall (honest_seg (Zlen S - 2147483647) S) (decode_packet fuel data) ->
  progresses S got R k (snd (ikcp_input_loop fuel k l data)).
Proof.
  revert R k l data. induction fuel as [|fuel IH]; intros R k l data Hk Ht Hd;
    [by apply progresses_kept|].
  cbn [ikcp_input_loop decode_packet] in *. destruct (_ <? _); [by apply progresses_kept|].
  pose proof (ikcp_decode_header_ok data) as [_ Hh].
  destruct (ikcp_decode_header data) as [rest h]. cbn [snd] in Hh.
  destruct (negb _); [by apply progresses_kept|].
  destruct (_ || _) eqn:G; [by apply progresses_kept|]. apply Forall_cons in Hd as [Hd1 Hd].
  destruct (_ && _); [by apply progresses_kept|].
  pose proof (ikcp_input_segment_inv k l h rest Hk Hh ltac:(lia)) as Hk'.
  pose proof (input_segment_progresses S R got k l h rest Hk Ht Hh ltac:(lia) Hd1) as Hp.
  destruct (ikcp_input_segment k l h rest) as [k' l']. eapply progresses_trans; [exact Hp|].
  intros R1 Ht1. by apply IH.
Qed.

Lemma input_progresses S R got k data :
  kcp_inv k -> tracks S R got k -> honest (Zlen S - 2147483647) S data ->
  progresses S got R k (snd (ikcp_input k data)).
Proof.
  intros Hk Ht Hd. unfold ikcp_input. destruct (_ <? _); [by apply progresses_kept|].
  pose proof (input_loop_progresses S got _ R k (mklocals false 0 0) data Hk Ht Hd) as Hp.
  destruct (ikcp_input_loop _ _ _ _) as [[e|l] k1]; cbn [snd] in *; [done|].
  eapply progresses_trans; [exact Hp|]. intros R1 Ht1. by apply after_segs_progresses.
Qed.

(** What moves from the buffer to the queue is still there. *)
Lemma moved_advances S R got k R' got' k' m r :
  tracks S R got k -> tracks S R' got' k' -> rcv_buf k = m ++ r -> consecutive (rcv_nxt k) m ->
  rcv_buf k' = r -> rcv_nxt k' = u32 (rcv_nxt k + Zlen m) -> Zlen m <= 2147483648 -> acks_kept k k' ->
  advances S R k R' k'.
Proof.
  intros Ht Ht' E Hc Er En Hm Ha. pose proof (Zlen_nonneg m).
  destruct (tr_range _ _ _ _ Ht) as [HR HRd]. destruct (tr_range _ _ _ _ Ht') as [HR' HRd'].
  rewrite (tr_nxt _ _ _ _ Ht), (tr_nxt _ _ _ _ Ht'), u32_add_l in En.
  apply u32_inj_near in En as ->; [|lia]. rewrite (tr_nxt _ _ _ _ Ht) in Hc.
  apply (proj1 (consecutive_u32 _ _)) in Hc. split; [lia| |].
  - intros i Hi [Hlt|Hin]; [left; lia|]. rewrite E, map_app in Hin.
    apply elem_of_app in Hin as [Hin|Hin]; [|right; by rewrite Er]. left.
    destruct (consecutive_sns_inv R m _ Hin Hc) as (j & Hj & Ej).
    apply near_inj with (N := Zlen S) in Ej; [lia|done|]. split; lia.
  - intros n Hn. left. by rewrite <- (acked_sns_kept _ _ Ha).
Qed.

Lemma recv_moves k len :
  rcv_window k -> recv_ok k -> -2147483648 < len < 2147483648 ->
  let k' := snd (ikcp_recv k len) in
  acks_kept k k' /\ snd_buf k' = snd_buf k /\
  exists m r, rcv_buf k = m ++ r /\ consecutive (rcv_nxt k) m /\ rcv_buf k' = r /\
    rcv_nxt k' = u32 (rcv_nxt k + Zlen m).
Proof.
  intros Hw Hok Hlen. cbv zeta. pose proof Hw as (Hn & _).
  assert (exists m r, rcv_buf k = m ++ r /\ consecutive (rcv_nxt k) m /\ rcv_buf k = r /\
    rcv_nxt k = u32 (rcv_nxt k + Zlen m)) as Hsame.
  { exists [], (rcv_buf k). split_and!; [done|done|done|]. change (Zlen []) with 0.
    rewrite u32_small; lia. }
  rewrite (ikcp_recv_spec k len Hok Hlen). cbv zeta.
  destruct (_ =? 0); [done|]. destruct (head_incomplete k); [done|]. destruct (_ <? _); [done|].
  cbn [snd]. unfold recv_taken. pose proof (msg_prefix_app (rcv_queue k)) as Eq.
  destruct (msg_prefix (rcv_queue k)) as [m r]. cbn [fst snd] in *.
  set (k1 := k <| rcv_queue := if len <? 0 then rcv_queue k else r |>
               <| nrcv_que := if len <? 0 then nrcv_que k else nrcv_que k - Zlen m |>).
  assert (move_ok k1) as Hm.
  { pose proof (rcv_window_move_ok k Hw) as (H1 & H2 & H3 & H4).
    destruct Hw as (_ & _ & _ & _ & Hq & Hl & _). unfold move_ok, k1. simp_upd.
    rewrite Eq, Zlen_app in Hq. pose proof (Zlen_nonneg m). pose proof (Zlen_nonneg r).
    destruct (len <? 0); lia. }
  destruct (ikcp_move_rcv_spec k1 Hm) as (m' & r' & E & Hc & Emv & _).
  change (rcv_buf k) with (rcv_buf k1). fold k1. rewrite Emv.
  destruct (_ && _); (split; [done|]; split; [done|]; by exists m', r').
Qed.

(** The other calls only drop acknowledgements, those a flush has sent. *)
Lemma flush_acks k n : kcp_ok k -> n ∈ acked_sns (fst (ikcp_flush k)) -> n ∈ acked_sns k.
Proof.
  intros Hok. destruct (decide (updated k = 0)) as [E|Hu].
  - unfold ikcp_flush. by rewrite E.
  - unfold acked_sns at 1. rewrite ackcount_flush by done. by intros ?%elem_of_nil.
Qed.

Lemma send_kept k b :
  kcp_ok k -> Zlen b < 2147483648 ->
  acks_kept k (snd (ikcp_send k b (Zlen b))) /\ snd_buf (snd (ikcp_send k b (Zlen b))) = snd_buf k.
Proof.
  intros [((Hm & Hn & Hfit) & _) _] Hb.
  destruct (ikcp_send_spec k b Hm Hb) as (q & _ & _ & _ & _ & E);
    [rewrite Hn; apply u32_range|done|]. cbv zeta in E. rewrite E. clear E.
  destruct (_ && _); [done|]. by destruct (_ <=? _).
Qed.

Lemma nodelay_kept k nd iv resend nc :
  acks_kept k (ikcp_nodelay k nd iv resend nc) /\ snd_buf (ikcp_nodelay k nd iv resend nc) = snd_buf k.
Proof.
  unfold ikcp_nodelay. cbv zeta.
  destruct (nd >=? 0), (negb (nd =? 0)), (iv >=? 0), (resend >=? 0), (nc >=? 0); done.
Qed.

Lemma wndsize_kept k s r :
  acks_kept k (ikcp_wndsize k s r) /\ snd_buf (ikcp_wndsize k s r) = snd_buf k.
Proof. unfold ikcp_wndsize. cbv zeta. by destruct (s >? 0), (r >? 0). Qed.

Lemma setmtu_kept k b m :
  acks_kept k (snd (ikcp_setmtu b k m)) /\ snd_buf (snd (ikcp_setmtu b k m)) = snd_buf k.
Proof. unfold ikcp_setmtu. destruct (_ || _); [done|]. by destruct (negb b). Qed.

Lemma exec_acks k op n :
  kcp_ok k -> op_allowed op k -> (forall len, op <> OpRecv len) -> (forall data, op <> OpInput data) ->
  n ∈ acked_sns (kcp_exec op k) -> n ∈ acked_sns k.
Proof.
  intros Hok Ha Hr Hi. destruct op; cbn [kcp_exec op_allowed] in *.
  - by rewrite (acked_sns_kept _ _ (proj1 (send_kept k b Hok Ha))).
  - by destruct (Hr len).
  - by destruct (Hi data).
  - destruct (ikcp_update_cases k now) as (u & ts & _ & [-> | ->]); [|done].
    apply (flush_acks (with_clock k now u ts)). by apply kcp_ok_clock.
  - by apply flush_acks.
  - by rewrite (acked_sns_kept _ _ (proj1 (setmtu_kept k malloc_ok m))).
  - done.
  - by rewrite (acked_sns_kept _ _ (proj1 (nodelay_kept k nd iv resend nc))).
  - by rewrite (acked_sns_kept _ _ (proj1 (wndsize_kept k sndwnd rcvwnd))).
Qed.

Lemma exec_advances S R k op :
  kcp_ok k -> op_allowed op k -> (forall len, op <> OpRecv len) -> (forall data, op <> OpInput data) ->
  advances S R k R (kcp_exec op k).
Proof.
  intros Hok Ha Hr Hi. apply advances_same; [by apply exec_receiver|]. intros n. by apply exec_acks.
Qed.

(** ** What the receiver answers *)

(** A number of the stream. *)
Definition numbers (S : list entry) (i : Z) : Prop := 0 <= i < Zlen S.

(** The segments of an answer: what is before their [una], and what an ACK names, is there. *)
Definition reply_seg (S : list entry) (R : Z) (k : IKCPCB) (hd : header * bytes) : Prop :=
  (exists j, 0 <= j <= R /\ h_una (fst hd) = u32 j) /\
  (h_cmd (fst hd) = IKCP_CMD_ACK -> exists i, numbers S i /\ h_sn (fst hd) = u32 i /\ had R k i).

Definition reply (S : list entry) (R : Z) (k : IKCPCB) (p : bytes) : Prop :=
  Forall (reply_seg S R k) (decode_packet (length p) p).

(** Every acknowledgement that waits is of something received. *)
Definition answers (S : list entry) (R : Z) (k : IKCPCB) : Prop :=
  forall n, n ∈ acked_sns k -> exists i, numbers S i /\ n = u32 i /\ had R k i.

(** The bound under which numbers of the stream are told apart by their residues. *)
Definition SHORT : Z := 2147483648 - 65536.

Lemma numbers_near S i : Zlen S < SHORT -> numbers S i -> near (Zlen S) i.
Proof. unfold SHORT, numbers, near. lia. Qed.

Lemma answers_advance S R k R' k' :
  Zlen S < SHORT -> advances S R k R' k' -> answers S R k -> answers S R' k'.
Proof.
  intros Hs [_ Hh Ha] H n Hn. destruct (Ha n Hn) as [Hn'|(i & [Hi _] & -> & Hd)]; [|by exists i].
  destruct (H n Hn') as (i & Hi & -> & Hd). exists i. split; [done|]. split; [done|].
  apply Hh; [by apply numbers_near|done].
Qed.

Lemma reply_advance S R k R' k' p :
  Zlen S < SHORT -> advances S R k R' k' -> reply S R k p -> reply S R' k' p.
Proof.
  intros Hs [Hle Hh _] H. eapply Forall_impl; [exact H|]. intros hd [(j & Hj & E) Ha]. split.
  - exists j. split; [lia|done].
  - intros Ec. destruct (Ha Ec) as (i & Hi & Ei & Hd). exists i. split; [done|]. split; [done|].
    apply Hh; [by apply numbers_near|done].
Qed.

(** The stream may grow. *)
Lemma numbers_grow S T i : numbers S i -> numbers (S ++ T) i.
Proof. unfold numbers. rewrite Zlen_app. pose proof (Zlen_nonneg T). lia. Qed.

Lemma answers_grow S T R k : answers S R k -> answers (S ++ T) R k.
Proof. intros H n Hn. destruct (H n Hn) as (i & Hi & E). exists i. split; [by apply numbers_grow|done]. Qed.

Lemma reply_grow S T R k p : reply S R k p -> reply (S ++ T) R k p.
Proof.
  intros H. eapply Forall_impl; [exact H|]. intros hd [Hu Ha]. split; [done|]. intros Ec.
  destruct (Ha Ec) as (i & Hi & E). exists i. split; [by apply numbers_grow|done].
Qed.

Lemma flush_replies S got R k :
  kcp_ok k -> 0 <= conv k < 4294967296 -> tracks S R got k -> answers S R k ->
  Forall (reply S R k) (snd (ikcp_flush k)).
Proof.
  intros Hok Hc Ht Ha. destruct (decide (updated k = 0)) as [E|Hu].
  { unfold ikcp_flush. rewrite E. constructor. }
  destruct (flush_wired k Hok Hc Hu) as (gs & -> & [_ Hsnd Hst Hnames _ _ _ _ _ _ _ _ _]).
  apply Forall_map, Forall_forall. intros g Hg. unfold sound_packets in Hsnd.
  rewrite Forall_forall in Hsnd. destruct (Hsnd g Hg) as [Hne _].
  assert (forall s, s ∈ g -> s ∈ concat gs) as Hin.
  { intros s Hs. apply list_elem_of_In, in_concat. exists g. by split; apply list_elem_of_In. }
  rewrite Forall_forall in Hst. unfold reply.
  rewrite (decode_packet_wire g _ (conv k)).
  - apply Forall_map, Forall_forall. intros s Hs. cbn [fst]. split; cbn [fst].
    + exists R. destruct (tr_range _ _ _ _ Ht). split; [lia|].
      destruct (Hst s (Hin s Hs)) as (_ & _ & ->). apply Ht.
    + intros Ec. destruct (Hnames s _ (Hin s Hs) (conj Ec eq_refl)) as (n & Hn & ->).
      destruct (Ha n Hn) as (i & Hi & -> & Hd). exists i. by rewrite u32_idemp.
  - apply Forall_forall. intros s Hs. apply (Hst s (Hin s Hs)).
  - pose proof (length_packet g). destruct g; [done|]. cbn [length] in *. lia.
Qed.

Lemma exec_replies S got R k op :
  kcp_ok k -> 0 <= conv k < 4294967296 -> tracks S R got k -> answers S R k ->
  Forall (reply S R k) (kcp_packets op k).
Proof.
  intros Hok Hc Ht Ha. destruct op; cbn [kcp_packets]; try constructor.
  - destruct (ikcp_update_cases k now) as (u & ts & _ & [-> | ->]); [|constructor].
    apply (flush_replies S got R (with_clock k now u ts)); [by apply kcp_ok_clock|done| |done].
    by apply (tracks_same _ _ _ k).
  - by apply (flush_replies S got).
Qed.

(** ** What the sender forgets *)

Definition releases (n : Z) (hd : header * bytes) : Prop :=
  0 < _itimediff (h_una (fst hd)) n \/ names_sn n (fst hd).

Lemma input_loop_forgets fuel k l data n :
  n ∈ snd_sns k ->
  n ∈ snd_sns (snd (ikcp_input_loop fuel k l data)) \/ Exists (releases n) (decode_packet fuel data).
Proof.
  revert k l data. induction fuel as [|fuel IH]; intros k l data Hn; [by left|].
  cbn [ikcp_input_loop decode_packet]. destruct (_ <? _); [by left|].
  destruct (ikcp_decode_header data) as [rest h]. destruct (negb _); [by left|].
  destruct (_ || _) eqn:G; [by left|]. destruct (_ && _); [by left|].
  pose proof (input_segment_forgets k l h rest n Hn) as H.
  destruct (ikcp_input_segment k l h rest) as [k' l']. cbn [fst] in H.
  destruct H as [H|H]; [|right; by left].
  destruct (IH k' l' (drop (Z.to_nat (h_len h)) rest) H) as [H'|H']; [by left|right; by right].
Qed.

Lemma snd_sns_fastack k sn ts : snd_sns (ikcp_parse_fastack k sn ts) = snd_sns k.
Proof.
  destruct (ikcp_parse_fastack_shape k sn ts) as (q & -> & E). unfold snd_sns. simp_upd.
  exact E.
Qed.

Lemma input_forgets k p n :
  n ∈ snd_sns k ->
  n ∈ snd_sns (snd (ikcp_input k p)) \/ Exists (releases n) (decode_packet (length p) p).
Proof.
  intros Hn. unfold ikcp_input. destruct (_ <? _); [by left|].
  pose proof (input_loop_forgets (length p) k (mklocals false 0 0) p n Hn) as H.
  destruct (ikcp_input_loop _ _ _ _) as [[e|l] k1]; cbn [snd] in *; [done|].
  destruct H as [H|H]; [left|by right]. set (k2 := if l_flag l then _ else k1).
  assert (n ∈ snd_sns k2) as H2 by (unfold k2; destruct (l_flag l); [by rewrite snd_sns_fastack|done]).
  destruct (_ >? 0); [|done]. by destruct (ikcp_input_cwnd_frame k2) as (c & i & -> & _).
Qed.

(** The other calls keep what is in flight, and a flush adds what it admits. *)
Definition keeps_sns (S : list entry) (k k' : IKCPCB) : Prop :=
  (forall n, n ∈ snd_sns k -> n ∈ snd_sns k') /\
  (forall i, Zlen S <= i < Zlen (S ++ moved_entries k k') -> u32 i ∈ snd_sns k') /\
  forall n, n ∈ snd_sns k' -> n ∈ snd_sns k \/
    exists i, Zlen S <= i < Zlen (S ++ moved_entries k k') /\ n = u32 i.

Lemma keeps_sns_same S k k' :
  snd_buf k' = snd_buf k -> snd_queue k' = snd_queue k -> keeps_sns S k k'.
Proof.
  intros Eb Eq. split; [unfold snd_sns; by rewrite Eb|].
  split; [rewrite moved_entries_same, app_nil_r by done; lia|]. unfold snd_sns. rewrite Eb. by left.
Qed.

Lemma flush_keeps_sns S k k1 :
  kcp_ok k1 -> emits S k1 -> snd_buf k1 = snd_buf k -> snd_queue k1 = snd_queue k ->
  keeps_sns S k (fst (ikcp_flush k1)).
Proof.
  intros Hok [Hn _] Eb Eq. destruct (decide (updated k1 = 0)) as [E|Hu].
  { unfold ikcp_flush. rewrite E. cbn [Z.eqb fst]. by apply keeps_sns_same. }
  unfold keeps_sns, moved_entries. rewrite <- Eq.
  destruct (flush_queue k1 Hok Hu) as (Em & _). unfold moved_entries in Em. rewrite <- Em.
  rewrite flush_sns by done.
  destruct (flush_admitted_spec k1 Hok) as (_ & Hc & _). rewrite Hn in Hc.
  apply (proj1 (consecutive_u32 _ _)) in Hc. unfold snd_sns. rewrite Eb.
  rewrite Zlen_app. replace (Zlen (map seg_entry (flush_admitted k1))) with (Zlen (flush_admitted k1))
    by (unfold Zlen; by rewrite length_map).
  split; [|split].
  - intros n H. apply elem_of_app. by left.
  - intros i Hi. apply elem_of_app. right. by apply (consecutive_sns (Zlen S)).
  - intros n [H|H]%elem_of_app; [by left|right]. by apply (consecutive_sns_inv (Zlen S)) in H.
Qed.

Lemma recv_keeps k len : snd_buf (snd (ikcp_recv k len)) = snd_buf k.
Proof.
  unfold ikcp_recv. destruct (rcv_queue k); [done|]. cbv zeta.
  destruct (_ <? 0); [done|]. destruct (_ >? _); [done|].
  destruct (ikcp_recv_merge _ _ _ _ _) as [[[buf n] rest] nq]. cbn [snd].
  destruct (_ && _); simp_upd; by rewrite snd_buf_move_rcv.
Qed.

Lemma exec_keeps_sns S k op :
  kcp_ok k -> op_allowed op k -> emits S k -> (forall data, op <> OpInput data) ->
  keeps_sns S k (kcp_exec op k).
Proof.
  intros Hok Ha He Hi. destruct op; cbn [kcp_exec op_allowed] in *.
  - destruct (send_kept k b Hok Ha) as [_ Eb]. split; [unfold snd_sns; by rewrite Eb|].
    rewrite moved_entries_send, app_nil_r by done. split; [lia|]. unfold snd_sns. rewrite Eb. by left.
  - apply keeps_sns_same; [apply recv_keeps|apply snd_keep_recv].
  - by destruct (Hi data).
  - destruct (ikcp_update_cases k now) as (u & ts & _ & [-> | ->]); [|by apply keeps_sns_same].
    apply flush_keeps_sns; [by apply kcp_ok_clock|by destruct He|done|done].
  - by apply flush_keeps_sns.
  - apply keeps_sns_same; [apply setmtu_kept|apply ikcp_setmtu_frame].
  - by apply keeps_sns_same.
  - apply keeps_sns_same; [apply nodelay_kept|apply ikcp_nodelay_frame].
  - apply keeps_sns_same; [apply wndsize_kept|apply ikcp_wndsize_frame].
Qed.

Lemma exec_input_moved k p : moved_entries k (kcp_exec (OpInput p) k) = [].
Proof. apply moved_entries_same. apply (snd_keep_input k p). Qed.

(** ** Two endpoints and a network that carries answers too

    [l_sys] is the system of [Network]; [l_back] is every packet the reader ever emitted, never
    emptied.  The writer is given packets of the reader only, in any order, any number of times or
    never; either end makes any other call.  The stream is [SHORT]: fewer than 2^31 - 65536
    segments, so that no number comes round again. *)
Record link := mkLink { l_sys : sys; l_back : list bytes }.

Inductive link_step : link -> link -> Prop :=
| link_a op s back :
    op_allowed op (s_a s) -> (forall p, op = OpInput p -> p ∈ back) ->
    Zlen (s_stream (sys_call_a op s)) < SHORT ->
    link_step (mkLink s back) (mkLink (sys_call_a op s) back)
| link_b op s back :
    op_allowed op (s_b s) ->
    (forall len, op <> OpRecv len) -> (forall data, op <> OpInput data) ->
    link_step (mkLink s back) (mkLink (sys_call_b op s) (back ++ kcp_packets op (s_b s)))
| link_deliver n p s back :
    (n, p) ∈ s_net s -> link_step (mkLink s back) (mkLink (sys_call_b (OpInput p) s) back)
| link_read len s back :
    -2147483648 < len < 2147483648 -> Zlen (seg_bytes (rcv_queue (s_b s))) < 2147483648 ->
    link_step (mkLink s back) (mkLink (sys_read len s) back).

(** How many segments the reader has in order. *)
Definition reach (s : sys) : Z := Zlen (s_got s) + Zlen (rcv_queue (s_b s)).

Record link_inv (l : link) : Prop := {
  li_sys : sys_inv (l_sys l);
  li_conv : 0 <= conv (s_b (l_sys l)) < 4294967296;
  li_tags : Forall (fun np => 0 <= fst np) (s_net (l_sys l));
  li_short : Zlen (s_stream (l_sys l)) < SHORT;
  li_answers : answers (s_stream (l_sys l)) (reach (l_sys l)) (s_b (l_sys l));
  li_back : Forall (reply (s_stream (l_sys l)) (reach (l_sys l)) (s_b (l_sys l))) (l_back l);
  li_kept : forall i, numbers (s_stream (l_sys l)) i ->
    u32 i ∈ snd_sns (s_a (l_sys l)) \/ had (reach (l_sys l)) (s_b (l_sys l)) i
}.

Lemma reach_tracks s : sys_inv s -> tracks (s_stream s) (reach s) (s_got s) (s_b s).
Proof.
  intros [_ _ _ _ (R & Ht) _ _ _]. unfold reach. by rewrite <- (tracks_count _ _ _ _ Ht).
Qed.

(** A step of the reader. *)
Lemma link_inv_reader s back s' ps :
  sys_inv s' -> s_a s' = s_a s -> s_stream s' = s_stream s -> s_net s' = s_net s ->
  conv (s_b s') = conv (s_b s) -> advances (s_stream s) (reach s) (s_b s) (reach s') (s_b s') ->
  Forall (reply (s_stream s) (reach s) (s_b s)) ps ->
  link_inv (mkLink s back) -> link_inv (mkLink s' (back ++ ps)).
Proof.
  intros Hs' Ea Est Enet Ec Had Hps [Hs Hc Ht Hsh Han Hb Hk]. cbn [l_sys l_back] in *.
  split; cbn [l_sys l_back]; rewrite ?Est, ?Enet, ?Ec, ?Ea; try done.
  - by eapply answers_advance.
  - apply Forall_app. split; (eapply Forall_impl; [eassumption|]); intros p Hp; by eapply reply_advance.
  - intros i Hi. destruct (Hk i Hi) as [H|H]; [by left|right]. apply (ad_had _ _ _ _ _ Had); [|done].
    by apply numbers_near.
Qed.

(** A segment leaves the send buffer only when the reader has it. *)
Lemma released_had S R k p i :
  Zlen S < SHORT -> 0 <= R <= Zlen S -> reply S R k p -> numbers S i ->
  Exists (releases (u32 i)) (decode_packet (length p) p) -> had R k i.
Proof.
  intros Hs HR Hp Hi Hex. unfold SHORT, numbers in *. apply Exists_exists in Hex as (hd & Hin & Hrel).
  unfold reply in Hp. rewrite Forall_forall in Hp. destruct (Hp hd Hin) as [(j & Hj & Eu) Ha].
  destruct Hrel as [Hu|[Ec En]].
  - left. rewrite Eu, _itimediff_near in Hu by lia. lia.
  - destruct (Ha Ec) as (i' & Hi' & Ei & Hd). unfold numbers in Hi'. rewrite Ei in En.
    apply u32_inj_near in En as ->; [done|lia].
Qed.

Lemma link_inv_writer s back op :
  op_allowed op (s_a s) -> (forall p, op = OpInput p -> p ∈ back) ->
  Zlen (s_stream (sys_call_a op s)) < SHORT -> sys_inv (sys_call_a op s) ->
  link_inv (mkLink s back) -> link_inv (mkLink (sys_call_a op s) back).
Proof.
  intros Ha Hin Hsh' Hs' [Hs Hc Ht Hsh Han Hb Hk]. cbn [l_sys l_back] in *.
  change (reach (sys_call_a op s)) with (reach s) in *.
  split; cbn [l_sys l_back]; try done; cbn [sys_call_a s_b s_net s_stream s_a].
  - apply Forall_app. split; [done|]. apply Forall_map, Forall_forall. intros p _. apply Zlen_nonneg.
  - by apply answers_grow.
  - eapply Forall_impl; [exact Hb|]. intros p. apply reply_grow.
  - intros i Hi. destruct (decide (i < Zlen (s_stream s))) as [Hlt|Hge].
    + assert (numbers (s_stream s) i) as Hn by (unfold numbers in *; lia).
      destruct (Hk i Hn) as [H|H]; [|by right].
      assert ((exists p, op = OpInput p) \/ (forall p, op <> OpInput p)) as [[p ->]|Hop]
        by (destruct op; first [by right|left; by eexists]).
      * destruct (input_forgets _ p _ H) as [H'|Hex]; [by left|right].
        rewrite Forall_forall in Hb. pose proof (reach_tracks s Hs) as Htr.
        apply (released_had (s_stream s) (reach s) (s_b s) p); try done; [apply Htr|].
        by apply Hb, Hin.
      * left. by apply (proj1 (exec_keeps_sns (s_stream s) _ _ (si_a s Hs) Ha (si_emits s Hs) Hop)).
    + left. assert (forall p, op <> OpInput p) as Hop.
      { intros p ->. unfold numbers in Hi. cbn [sys_call_a s_stream] in Hi.
        rewrite exec_input_moved, app_nil_r in Hi. lia. }
      apply (proj1 (proj2 (exec_keeps_sns (s_stream s) _ _ (si_a s Hs) Ha (si_emits s Hs) Hop))).
      unfold numbers in Hi. cbn [sys_call_a s_stream] in Hi. lia.
Qed.

Lemma link_sys_step l l' : link_step l l' -> link_inv l -> sys_step (l_sys l) (l_sys l').
Proof.
  intros [op s back Ha _ Hsh|op s back Ha Hr Hi|n p s back Hnp|len s back Hlen Hb] Hl;
    cbn [l_sys] in *.
  - apply step_a; [done|]. unfold lead, SHORT in *. pose proof (Zlen_nonneg (s_got s)).
    pose proof (Zlen_nonneg (rcv_queue (s_b s))). lia.
  - by apply step_b.
  - apply (step_deliver n); [done|]. pose proof (li_tags _ Hl) as Ht. pose proof (li_short _ Hl) as Hsh.
    cbn [l_sys] in *. rewrite Forall_forall in Ht. specialize (Ht _ Hnp). cbn [fst] in Ht.
    unfold SHORT in Hsh. lia.
  - by apply step_read.
Qed.

Lemma link_inv_step l l' : link_step l l' -> link_inv l -> link_inv l'.
Proof.
  intros Hstep Hl. pose proof (link_sys_step l l' Hstep Hl) as Hss.
  pose proof (sys_inv_step _ _ Hss (li_sys l Hl)) as Hs'. pose proof (reach_tracks _ Hs') as Ht'.
  pose proof (li_sys l Hl) as Hs. pose proof (reach_tracks _ Hs) as Ht. pose proof (si_b _ Hs) as Hb.
  pose proof Hb as [Hkinv _]. pose proof Hkinv as (_ & _ & _ & Hw & _).
  destruct Hstep as [op s back Ha Hin Hsh|op s back Ha Hr Hi|n p s back Hnp|len s back Hlen Hbytes];
    cbn [l_sys] in *.
  - by apply link_inv_writer.
  - apply (link_inv_reader s back _ (kcp_packets op (s_b s))); try done.
    + by apply exec_static.
    + assert (reach (sys_call_b op s) = reach s) as ->.
      { unfold reach, sys_call_b. cbn [s_got s_b].
        by destruct (exec_receiver _ _ Hb Ha Hr Hi) as (_ & -> & _). }
      by apply exec_advances.
    + apply (exec_replies _ (s_got s)); [done|apply Hl|done|apply Hl].
  - rewrite <- (app_nil_r back). apply (link_inv_reader s back _ []); try done.
    + apply (exec_static (s_b s) (OpInput p)); done.
    + pose proof (si_net _ Hs) as Hnet. rewrite Forall_forall in Hnet.
      destruct (Hnet _ Hnp) as [Hn Hp]. cbn [fst snd] in *.
      pose proof (li_tags _ Hl) as Htags. pose proof (li_short _ Hl) as Hsh. cbn [l_sys] in *.
      rewrite Forall_forall in Htags. specialize (Htags _ Hnp). cbn [fst] in Htags. unfold SHORT in Hsh.
      destruct (input_progresses (s_stream s) (reach s) (s_got s) (s_b s) p Hkinv Ht) as (R' & Hr & Had & _).
      { rewrite <- (app_nil_r (s_stream s)) at 2. eapply honest_weaken; [|exact Hp]. lia. }
      assert (R' = reach (sys_call_b (OpInput p) s)) as <-; [|done].
      by rewrite (tracks_count _ _ _ _ Hr).
  - rewrite <- (app_nil_r back). pose proof (li_conv _ Hl) as Hc. cbn [l_sys] in Hc.
    assert (recv_ok (s_b s)) as Hrok.
    { destruct Hw as (_ & _ & _ & _ & Hn & Hq & _ & Hf). unfold recv_ok. split_and!; try done. lia. }
    destruct (recv_moves (s_b s) len Hw Hrok Hlen) as (Hacks & _ & m & r & Em & Hcons & Er & En).
    pose proof (snd_keep_recv (s_b s) len) as (_ & _ & _ & Ec & _).
    assert (s_b (sys_read len s) = snd (ikcp_recv (s_b s) len)) as Eb
      by (unfold sys_read; by destruct (ikcp_recv (s_b s) len) as [[n buf] b']).
    assert (s_a (sys_read len s) = s_a s /\ s_stream (sys_read len s) = s_stream s /\
      s_net (sys_read len s) = s_net s) as (Ea & Est & Enet)
      by (unfold sys_read; by destruct (ikcp_recv (s_b s) len) as [[n buf] b']).
    apply (link_inv_reader s back _ []); try done; [by rewrite Eb|].
    rewrite Est, Eb in Ht'. rewrite Eb.
    apply (moved_advances _ _ (s_got s) _ _ (s_got (sys_read len s)) _ m r); try done.
    destruct Hw as (_ & _ & Hwin & _). apply window_length in Hwin; [|lia].
    rewrite Em, Zlen_app in Hwin. pose proof (Zlen_nonneg r). lia.
Qed.

Lemma link_inv_reachable l l' : rtc link_step l l' -> link_inv l -> link_inv l'.
Proof. induction 1 as [|l1 l2 l3 Hs _ IH]; [done|]. intros Hi. by eapply IH, link_inv_step. Qed.

Lemma link_inv_start a b :
  fresh a -> fresh b -> ackcount b = 0 -> link_inv (mkLink (sys_start a b) []).
Proof.
  intros Ha Hb Hc. pose proof (sys_inv_start a b Ha Hb) as Hs.
  destruct Hb as (_ & Hcv & _). split; cbn [l_sys l_back sys_start s_stream s_b s_net s_a]; try done.
  - intros n. unfold acked_sns. rewrite Hc. by intros ?%elem_of_nil.
  - intros i [H1 H2]. change (Zlen []) with 0 in H2. lia.
Qed.

(** ** When nothing waits to be acknowledged *)

(** A sorted buffer that has every number from [d] to [n] is the run of them. *)
Lemma sorted_full base n d q :
  StronglySorted (fun a b => off base a < off base b) q ->
  Forall (fun s => d <= off base s < n /\ 0 <= seg_sn s < 4294967296) q ->
  (forall j, d <= j < n -> exists s, s ∈ q /\ off base s = j) -> d <= n ->
  consecutive (base + d) q /\ d + Zlen q = n.
Proof.
  revert d. induction q as [|s q IH]; intros d Hs Hf Hall Hd.
  - split; [done|]. change (Zlen []) with 0. destruct (decide (d < n)) as [Hlt|]; [|lia].
    destruct (Hall d ltac:(lia)) as (s & Hin & _). by apply elem_of_nil in Hin.
  - apply StronglySorted_inv in Hs as [Hs Hlt]. apply Forall_cons in Hf as [[Hf1 Hsn] Hf].
    rewrite Forall_forall in Hlt.
    assert (off base s = d) as E.
    { destruct (Hall d ltac:(lia)) as (t & Ht & Et). apply elem_of_cons in Ht as [->|Ht]; [done|].
      specialize (Hlt t Ht). lia. }
    destruct (IH (d + 1)) as [Hc Hl]; [done| | |lia|].
    + rewrite Forall_forall in Hf |- *. intros t Ht. specialize (Hlt t Ht). specialize (Hf t Ht). lia.
    + intros j Hj. destruct (Hall j ltac:(lia)) as (t & Ht & Et).
      apply elem_of_cons in Ht as [->|Ht]; [lia|by exists t].
    + rewrite Zlen_cons. split; [|lia]. split; [|by rewrite <- Z.add_assoc].
      unfold off in E. rewrite <- E, u32_add_r, Z.add_sub_assoc. rewrite Z.add_comm, Z.add_simpl_r.
      by rewrite u32_small.
Qed.

Lemma had_all S R got k :
  rcv_window k -> tracks S R got k -> (forall i, numbers S i -> had R k i) ->
  map seg_entry (rcv_buf k) = drop (Z.to_nat R) S.
Proof.
  intros Hw Ht Hall. pose proof Ht as [En [HR HRd] _ Hg]. pose proof Hw as (_ & _ & [Hsort Hwin] & _).
  assert (consecutive (rcv_nxt k + 0) (rcv_buf k) /\ 0 + Zlen (rcv_buf k) = Zlen S - R) as [Hc Hl].
  { apply sorted_full; [done| | |lia].
    - apply Forall_forall. intros s Hs. rewrite Forall_forall in Hg, Hwin.
      destruct (Hg s Hs) as (i & (Hi & Es & _) & Hold). destruct (Hwin s Hs) as [Hoff Hsn].
      split; [|done]. unfold off in *. rewrite Es, En, u32_sub_l, u32_sub_r in *.
      clear - Hoff Hi Hold HR HRd. unfold u32 in *. Z.div_mod_to_equations. lia.
    - intros j Hj. assert (numbers S (R + j)) as Hn by (unfold numbers; lia).
      destruct (Hall _ Hn) as [|Hin]; [lia|]. apply list_elem_of_fmap in Hin as (s & Es & Hs).
      exists s. split; [done|]. unfold off. rewrite <- Es, En, u32_sub_l, u32_sub_r, u32_small; lia. }
  rewrite Z.add_0_r, En in Hc. apply (proj1 (consecutive_u32 _ _)) in Hc.
  destruct (consecutive_carries S R (rcv_buf k) HR HRd Hc Hg) as [-> _].
  apply take_ge. rewrite length_drop. unfold Zlen in *. lia.
Qed.

Lemma waitsnd_nothing k :
  kcp_ok k -> Zlen (snd_queue k) < 2147483648 -> ikcp_waitsnd k = 0 ->
  snd_buf k = [] /\ snd_queue k = [].
Proof.
  intros [((_ & Eq & _) & Hw & _) _] Hq Hz. pose proof (snd_window_nsnd k Hw) as Hb.
  pose proof Hw as (_ & _ & Hle & _ & En). unfold ikcp_waitsnd in Hz. rewrite Eq, En in *.
  pose proof (Zlen_nonneg (snd_buf k)). pose proof (Zlen_nonneg (snd_queue k)).
  rewrite (u32_small (Zlen (snd_queue k))), u32_small in Hz by lia.
  assert (Zlen (snd_buf k) = 0 /\ Zlen (snd_queue k) = 0) as [Z1 Z2].
  { unfold i32 in Hz. Z.div_mod_to_equations. lia. }
  split; [destruct (snd_buf k)|destruct (snd_queue k)]; try done; rewrite Zlen_cons in *;
    match goal with q : list _ |- _ => pose proof (Zlen_nonneg q) end; lia.
Qed.

(** Everything that was written was read, or waits at the reader. *)
Lemma link_inv_settled l :
  link_inv l -> let s := l_sys l in
  snd_buf (s_a s) = [] -> snd_queue (s_a s) = [] ->
  concat (s_in s) = concat (s_out s) ++ seg_bytes (rcv_queue (s_b s)) ++ seg_bytes (rcv_buf (s_b s)).
Proof.
  intros Hl. cbv zeta. pose proof (li_sys l Hl) as Hs. pose proof (reach_tracks _ Hs) as Ht.
  pose proof Hs as [_ _ [(_ & _ & _ & Hw & _) _] _ _ _ Hin Hout]. intros Eb Eq.
  assert (forall i, numbers (s_stream (l_sys l)) i -> had (reach (l_sys l)) (s_b (l_sys l)) i) as Hall.
  { intros i Hi. destruct (li_kept l Hl i Hi) as [H|H]; [|done]. unfold snd_sns in H. rewrite Eb in H.
    by apply elem_of_nil in H. }
  pose proof (had_all _ _ _ _ Hw Ht Hall) as E. destruct Ht as [_ _ Hp _].
  rewrite <- Hin, <- Hout, <- !entry_bytes_segs, <- !entry_bytes_app, app_assoc, Hp, E, take_drop.
  unfold pending. by rewrite Eq, app_nil_r.
Qed.

(** C5: An acknowledgement is never a lie: over a network that drops, repeats, delays and
    reorders the packets of both directions, a segment leaves the writer's send buffer only when
    the reader has it, in order or kept for later; so when the writer has nothing waiting
    ([ikcp_waitsnd] is 0), every byte written has been read or is in the reader's hands. *)
Theorem acked_means_received a b l :
  fresh a -> fresh b -> ackcount b = 0 -> rtc link_step (mkLink (sys_start a b) []) l ->
  let s := l_sys l in
  (forall i, 0 <= i < Zlen (s_stream s) -> u32 i ∈ map seg_sn (snd_buf (s_a s)) \/
     i < Zlen (s_got s) + Zlen (rcv_queue (s_b s)) \/ u32 i ∈ map seg_sn (rcv_buf (s_b s))) /\
  (Zlen (snd_queue (s_a s)) < 2147483648 -> ikcp_waitsnd (s_a s) = 0 ->
   concat (s_in s) =
     concat (s_out s) ++ seg_bytes (rcv_queue (s_b s)) ++ seg_bytes (rcv_buf (s_b s))).
Proof.
  intros Ha Hb Hc Hr. cbv zeta.
  pose proof (link_inv_reachable _ _ Hr (link_inv_start a b Ha Hb Hc)) as Hl.
  split; [exact (li_kept l Hl)|]. intros Hq Hz.
  destruct (waitsnd_nothing _ (si_a _ (li_sys l Hl)) Hq Hz). by apply link_inv_settled.
Qed.
