(* ===== verification/Protocol.v ===== *)
(** [src/protocol.rs]: the safe wrapper [Kcp] over the control block.

    The wrapper owns the control block, the buffers of the [bytes] crate and the queue the
    output callback fills.  [as c_int] casts and the results of the C calls are written out,
    and an [unreachable!()] is the value [Panic]. *)
From S2P Require Import Prelude Bytes IkcpTypes IkcpSend IkcpInput IkcpFlush.

(** ** Functions of bytes alone *)

Definition SYN_CONV : Z := 0xFFFFFFFE.

Definition is_valid_conv (conv : Z) : bool := negb (conv =? 0) && (conv <? SYN_CONV).

(** [rand::random()] is the sequence [draw] of the values drawn from the [i]-th on; the result
    is the first valid one and the number of draws so far. *)
Fixpoint rand_conv (fuel : nat) (draw : nat -> Z) (i : nat) : option (Z * nat) :=
  match fuel with
  | O => None
  | S fuel =>
      let conv := draw i in
      if is_valid_conv conv then Some (conv, S i) else rand_conv fuel draw (S i)
  end.

(** The arithmetic of a release build; a debug build panics where it wraps. *)
Definition max_frame_size (mtu : Z) : Z := (mtu -w IKCP_OVERHEAD) *w (IKCP_WND_RCV - 1).

Definition read_conv (buf : bytes) : option Z :=
  if Zlen buf >=? IKCP_OVERHEAD then
    Some (Z.lor (Z.lor (Z.lor (byte_at buf 0) (u32 (Z.shiftl (byte_at buf 1) 8)))
                       (u32 (Z.shiftl (byte_at buf 2) 16)))
                (u32 (Z.shiftl (byte_at buf 3) 24)))
  else None.

(** [buf[4]]: out of range is a panic. *)
Definition read_cmd (buf : bytes) : io_result Z :=
  match buf !! 4%nat with Some b => Ok (byte_to_Z b) | None => Panic end.

Definition write_cmd (buf : bytes) (cmd : Z) : io_result bytes :=
  match buf !! 4%nat with Some _ => Ok (<[4%nat := byte_of_Z cmd]> buf) | None => Panic end.

(** The scan steps over 24-byte headers; [usize] holds the four length bytes.  Every turn
    consumes 24 bytes, so the number of bytes is fuel enough ([read_payload_loop_spec]). *)
Fixpoint read_payload_loop (fuel : nat) (p : bytes) : option bytes :=
  match fuel with
  | O => None
  | S fuel =>
      if Zlen p >=? IKCP_OVERHEAD then
        let len := Z.lor (Z.lor (Z.lor (byte_at p 20) (Z.shiftl (byte_at p 21) 8))
                                (Z.shiftl (byte_at p 22) 16)) (Z.shiftl (byte_at p 23) 24) in
        let p := drop 24 p in
        if (1 <=? len) && (len <=? Zlen p) then Some (take (Z.to_nat len) p)
        else read_payload_loop fuel p
      else None
  end.
Definition read_payload_data (buf : bytes) : option bytes := read_payload_loop (length buf) buf.

(** [(elapsed.as_secs() as u32).wrapping_mul(1000).wrapping_add(elapsed.subsec_millis())], on
    the whole seconds and the milliseconds of what [time_base.elapsed()] returns. *)
Definition get_system_time (elapsed : Z * Z) : Z := u32 (fst elapsed) *w 1000 +w snd elapsed.

(** ** The wrapper *)
Section Kcp.
Context {BM : BytesMut}.

Record Kcp := mkKcp {
  handle : IKCPCB;
  buffer_size : Z * Z;
  write_buf : bytes_mut;
  read_buf : bytes_mut;
  output_queue : list bytes_mut
}.
#[export] Instance eta_Kcp : Eta Kcp := fun k =>
  mkKcp (handle k) (buffer_size k) (write_buf k) (read_buf k) (output_queue k).

Definition Kcp_new (conv : Z) : Kcp := mkKcp (ikcp_create conv) (32768, 32768) bm_new bm_new [].

(** The callback [ikcp_output] calls with each packet. *)
Definition _output (this : Kcp) (buf : bytes) : Kcp :=
  let size := Zlen buf in
  let this :=
    if bm_capacity (write_buf this) <? size
    then this <| write_buf := bm_reserve (write_buf this) (Z.max (fst (buffer_size this)) size) |>
    else this in
  let this := this <| write_buf := bm_put_slice (write_buf this) buf |> in
  let '(front, rest) := bm_split_to (write_buf this) size in
  let this := this <| write_buf := rest |> in
  this <| output_queue := output_queue this ++ [front] |>.

(** A C call that emitted [packets] on the way. *)
Definition after_output (this : Kcp) (r : IKCPCB * list bytes) : Kcp :=
  fold_left _output (snd r) (this <| handle := fst r |>).

Definition Kcp_update (this : Kcp) (current : Z) : Kcp :=
  after_output this (ikcp_update (handle this) current).

Definition Kcp_flush (this : Kcp) : Kcp := after_output this (ikcp_flush (handle this)).

Definition Kcp_initialize (elapsed : Z * Z) (this : Kcp) : Kcp :=
  Kcp_update this (get_system_time elapsed).

(** The [match] on the result of [ikcp_recv], shared by [peek] and [recv]; [data] is what the C
    call stored from the start of the caller's slice. *)
Definition recv_result (this : Kcp) (buf : bytes) (r : Z * bytes * IKCPCB)
  : io_result Z * bytes * Kcp :=
  let '(size, data, kcb) := r in
  let this := this <| handle := kcb |> in
  let buf := data ++ drop (length data) buf in
  if size >=? 0 then (Ok size, buf, this)
  else if (size =? -1) || (size =? -2) then (Ok 0, buf, this)
  else if size =? -3 then (Err InvalidInput, buf, this)
  else (Panic, buf, this).

Definition Kcp_peek (this : Kcp) (buf : bytes) : io_result Z * bytes * Kcp :=
  recv_result this buf (ikcp_recv (handle this) (i32 (- i32 (Zlen buf)))).

Definition Kcp_recv (this : Kcp) (buf : bytes) : io_result Z * bytes * Kcp :=
  recv_result this buf (ikcp_recv (handle this) (i32 (Zlen buf))).

Definition Kcp_peek_size (this : Kcp) : Z := Z.max (ikcp_peeksize (handle this)) 0.

(** The slice [recv] fills is the part of [read_buf] that [set_len] exposed. *)
Definition Kcp_recv_bytes (this : Kcp) : option bytes * Kcp :=
  let size := Kcp_peek_size this in
  if size >? 0 then
    let this :=
      if bm_capacity (read_buf this) <? size
      then this <| read_buf := bm_reserve (read_buf this) (Z.max (snd (buffer_size this)) size) |>
      else this in
    let this := this <| read_buf := bm_set_len (read_buf this) size |> in
    let '(buf, rest) := bm_split_to (read_buf this) size in
    let this := this <| read_buf := rest |> in
    let '(_, data, this) := Kcp_recv this (bm_bytes buf) in
    (Some (bm_bytes (bm_write buf data)), this)
  else (None, this).

Definition Kcp_send (this : Kcp) (data : bytes) : io_result Z * Kcp :=
  match data with
  | [] => (Ok 0, this)
  | _ :: _ =>
      let '(size, kcb) := ikcp_send (handle this) data (i32 (Zlen data)) in
      let this := this <| handle := kcb |> in
      if size >=? 0 then (Ok size, this)
      else if (size =? -1) || (size =? -2) then (Err InvalidInput, this)
      else (Panic, this)
  end.

Definition Kcp_input (this : Kcp) (packet : bytes) : io_result unit * Kcp :=
  let '(r, kcb) := ikcp_input (handle this) packet in
  let this := this <| handle := kcb |> in
  if r =? 0 then (Ok tt, this)
  else if r =? -1 then (Err NotFound, this)
  else if (r =? -2) || (r =? -3) then (Err InvalidData, this)
  else (Panic, this).

Definition Kcp_check (this : Kcp) (current : Z) : Z := ikcp_check (handle this) current.

Definition Kcp_set_mtu (malloc_ok : bool) (this : Kcp) (m : Z) : io_result unit * Kcp :=
  if mtu (handle this) =? m then (Ok tt, this)
  else
    let '(r, kcb) := ikcp_setmtu malloc_ok (handle this) (i32 m) in
    let this := this <| handle := kcb |> in
    if r =? 0 then (Ok tt, this)
    else if r =? -1 then (Err InvalidInput, this)
    else if r =? -2 then (Err OutOfMemory, this)
    else (Panic, this).

Definition Kcp_set_nodelay (this : Kcp) (nodelay : bool) (interval resend : Z) (nc : bool) : Kcp :=
  this <| handle := ikcp_nodelay (handle this) (Z.b2z nodelay) (i32 interval) (i32 resend)
                      (Z.b2z nc) |>.

Definition Kcp_get_waitsnd (this : Kcp) : Z := u32 (ikcp_waitsnd (handle this)).

Definition Kcp_set_wndsize (this : Kcp) (sndwnd rcvwnd : Z) : Kcp :=
  this <| handle := ikcp_wndsize (handle this) (i32 sndwnd) (i32 rcvwnd) |>.

(** [export_fields!] *)
Definition Kcp_conv (this : Kcp) : Z := conv (handle this).
Definition Kcp_current (this : Kcp) : Z := current (handle this).
Definition Kcp_nsnd_que (this : Kcp) : Z := nsnd_que (handle this).
Definition Kcp_nrcv_que (this : Kcp) : Z := nrcv_que (handle this).
Definition Kcp_nrcv_buf (this : Kcp) : Z := nrcv_buf (handle this).

Definition Kcp_duration_since (this : Kcp) (since : Z) : Z :=
  u32 (Z.max (i32 (Kcp_current this -w since)) 0).

(** [Drop]: what is freed, and the output queue that is left. *)
Definition Kcp_drop (this : Kcp) : list block * list bytes_mut := (ikcp_release (handle this), []).

Definition Kcp_set_logmask (this : Kcp) (m : Z) : Kcp :=
  this <| handle := (handle this) <| logmask := i32 m |> |>.
Definition Kcp_set_conv (this : Kcp) (c : Z) : Kcp :=
  this <| handle := (handle this) <| conv := c |> |>.
Definition Kcp_set_stream (this : Kcp) (b : bool) : Kcp :=
  this <| handle := (handle this) <| stream := Z.b2z b |> |>.

Definition Kcp_is_dead_link (this : Kcp) : bool := state (handle this) =? U32_MAX.
Definition Kcp_is_recv_queue_full (this : Kcp) : bool :=
  nrcv_que (handle this) >=? rcv_wnd (handle this).
Definition Kcp_is_send_queue_full (this : Kcp) : bool :=
  nsnd_que (handle this) >=? snd_wnd (handle this).

Definition Kcp_has_ouput (this : Kcp) : bool :=
  match output_queue this with [] => false | _ => true end.

Definition Kcp_pop_output (this : Kcp) : option bytes_mut * Kcp :=
  match output_queue this with
  | [] => (None, this)
  | p :: q => (Some p, this <| output_queue := q |>)
  end.

Definition Kcp_write_ack_head (elapsed : Z * Z) (this : Kcp) (buf : bytes_mut)
    (cmd_flags payload_size : Z) : bytes_mut :=
  let buf := bm_reserve buf (IKCP_OVERHEAD + payload_size) in
  let kcp := handle this in
  let buf := put_u32_le buf (conv kcp) in
  let buf := put_u8 buf (Z.lor (u8 IKCP_CMD_ACK) cmd_flags) in
  let buf := put_u8 buf 0 in
  let buf := put_u16_le buf (u16 (rcv_wnd kcp)) in
  let buf := put_u32_le buf (get_system_time elapsed) in
  let buf := put_u32_le buf (snd_nxt kcp) in
  let buf := put_u32_le buf (rcv_nxt kcp) in
  let buf := put_u32_le buf 0 in
  put_u32_le buf (u32 payload_size).
End Kcp.
