(* ===== verification/ProtocolSpec.v ===== *)
(** What [Kcp] promises its callers: the error mapping is total, received messages and emitted
    packets come through unchanged, and the header writers and readers agree with the C codec. *)
From S2P Require Import Prelude Bytes IkcpTypes IkcpSend IkcpInput IkcpFlush IkcpFlushSpec.
From S2P Require Import IkcpTimer IkcpInv Wire Delivery Protocol.

(** ** Conversation numbers *)

Lemma is_valid_conv_spec conv : is_valid_conv conv = true <-> conv <> 0 /\ conv < SYN_CONV.
Proof. unfold is_valid_conv. lia. Qed.

(** With enough fuel, [rand_conv] returns the first valid draw. *)
Lemma rand_conv_first draw i n :
  is_valid_conv (draw (i + n)%nat) = true ->
  (forall m, (m < n)%nat -> is_valid_conv (draw (i + m)%nat) = false) ->
  forall fuel, (n < fuel)%nat -> rand_conv fuel draw i = Some (draw (i + n)%nat, S (i + n)).
Proof.
  revert i. induction n as [|n IH]; intros i Hv Hf fuel Hfuel; (destruct fuel as [|fuel]; [lia|]).
  - cbn [rand_conv]. rewrite Nat.add_0_r in *. by rewrite Hv.
  - cbn [rand_conv]. pose proof (Hf 0%nat ltac:(lia)) as H0. rewrite Nat.add_0_r in H0. rewrite H0.
    rewrite <- Nat.add_succ_comm. apply IH.
    + by rewrite Nat.add_succ_comm.
    + intros m Hm. rewrite Nat.add_succ_comm. apply Hf. lia.
    + lia.
Qed.

Lemma rand_conv_valid fuel draw i c j :
  rand_conv fuel draw i = Some (c, j) -> is_valid_conv c = true /\ exists m, c = draw m.
Proof.
  revert i. induction fuel as [|fuel IH]; intros i; cbn [rand_conv]; [done|].
  destruct (is_valid_conv (draw i)) eqn:E; [|apply IH]. intros [= <- <-]. by split; [|exists i].
Qed.

(** ** Reading headers *)

Lemma land_mul_pow2 a b n : 0 <= n -> 0 <= a < 2 ^ n -> Z.land a (b * 2 ^ n) = 0.
Proof.
  intros Hn Ha. apply Z.bits_inj'. intros i Hi. rewrite Z.land_spec, Z.bits_0.
  destruct (Z.lt_ge_cases i n).
  - rewrite Z.mul_pow2_bits_low by done. apply andb_false_r.
  - destruct (Z.eq_dec a 0) as [->|Hz]; [by rewrite Z.bits_0|].
    rewrite (Z.bits_above_log2 a i); [done|lia|]. apply Z.log2_lt_pow2; [lia|].
    eapply Z.lt_le_trans; [apply Ha|apply Z.pow_le_mono_r; lia].
Qed.

Lemma lor_shift a b n : 0 <= n -> 0 <= a < 2 ^ n -> Z.lor a (Z.shiftl b n) = a + b * 2 ^ n.
Proof.
  intros Hn Ha. rewrite Z.shiftl_mul_pow2 by done. symmetry.
  rewrite <- Z.lxor_lor by (by apply land_mul_pow2). apply Z.add_nocarry_lxor.
  by apply land_mul_pow2.
Qed.

(** Four bytes joined by shifts are the little-endian value. *)
Lemma le_join (p : bytes) i :
  Z.lor (Z.lor (Z.lor (byte_at p i) (Z.shiftl (byte_at p (i + 1)) 8))
               (Z.shiftl (byte_at p (i + 2)) 16)) (Z.shiftl (byte_at p (i + 3)) 24)
  = snd (ikcp_decode32u (drop i p)).
Proof.
  assert (forall j, byte_at (drop i p) j = byte_at p (i + j)) as Hb.
  { intros j. unfold byte_at. by rewrite nth_skipn. }
  assert (forall j, 0 <= byte_at p j < 256) as Hr.
  { intros j. apply byte_to_Z_range. }
  unfold ikcp_decode32u. cbn [snd]. rewrite !Hb, Nat.add_0_r.
  pose proof (Hr i). pose proof (Hr (i + 1)%nat). pose proof (Hr (i + 2)%nat).
  pose proof (Hr (i + 3)%nat).
  rewrite (lor_shift (byte_at p i)) by lia.
  rewrite (lor_shift (_ + _)) by lia. rewrite (lor_shift (_ + _ + _)) by lia.
  rewrite !Z.shiftl_mul_pow2 by lia.
  repeat match goal with
  | |- context [u32 ?x] =>
      lazymatch x with context [u32 _] => fail | _ => rewrite (u32_small x) by lia end
  end. lia.
Qed.

(** [Kcp::read_conv] reads what [ikcp_getconv] reads. *)
Lemma read_conv_getconv buf :
  read_conv buf = if Zlen buf <? 24 then None else Some (ikcp_getconv buf).
Proof.
  unfold read_conv, ikcp_getconv, IKCP_OVERHEAD. rewrite Z.geb_leb, Z.leb_antisym.
  destruct (Z.ltb_spec (Zlen buf) 24); cbn [negb]; [done|]. f_equal.
  pose proof (le_join buf 0) as Hj. rewrite drop_0 in Hj. rewrite <- Hj. cbn [Nat.add].
  assert (forall j, 0 <= byte_at buf j < 256) as Hr by (intros j; apply byte_to_Z_range).
  pose proof (Hr 1%nat). pose proof (Hr 2%nat). pose proof (Hr 3%nat).
  rewrite !Z.shiftl_mul_pow2 by lia. rewrite !u32_small by lia. done.
Qed.

(** The scan of [read_payload_data]: it skips headers until one announces a nonempty payload
    that fits in what follows. *)
Fixpoint skip_headers (n : nat) (p : bytes) : bytes :=
  match n with O => p | S n => skip_headers n (drop 24 p) end.

Definition payload_at (p : bytes) : option bytes :=
  let len := h_len (snd (ikcp_decode_header p)) in
  if (24 <=? Zlen p) && (1 <=? len) && (len <=? Zlen p - 24)
  then Some (take (Z.to_nat len) (drop 24 p)) else None.

Lemma decode_header_len p : h_len (snd (ikcp_decode_header p)) = snd (ikcp_decode32u (drop 20 p)).
Proof.
  unfold ikcp_decode_header, ikcp_decode32u, ikcp_decode16u, ikcp_decode8u.
  cbn [fst snd h_len]. by rewrite !drop_drop.
Qed.

Lemma read_payload_loop_step fuel p :
  read_payload_loop (S fuel) p =
    if Zlen p <? 24 then None
    else match payload_at p with Some d => Some d | None => read_payload_loop fuel (drop 24 p) end.
Proof.
  cbn [read_payload_loop]. unfold IKCP_OVERHEAD, payload_at. rewrite Z.geb_leb, Z.leb_antisym.
  destruct (Z.ltb_spec (Zlen p) 24) as [|Hp]; cbn [negb]; [done|].
  pose proof (le_join p 20) as H. cbn [Nat.add] in H. rewrite H, decode_header_len.
  assert (Zlen (drop 24 p) = Zlen p - 24) as -> by (unfold Zlen in *; rewrite length_drop; lia).
  destruct (Z.leb_spec 24 (Zlen p)); [|lia]. cbn [andb].
  by destruct (_ && _).
Qed.

(** The result is the payload announced by the first header, counting headers of 24 bytes from
    the start, that announces one; [None] when there is no such header. *)
Lemma read_payload_loop_spec fuel p :
  (length p <= fuel)%nat ->
  match read_payload_loop fuel p with
  | Some d => exists n, payload_at (skip_headers n p) = Some d /\
      forall m, (m < n)%nat -> payload_at (skip_headers m p) = None
  | None => forall m, payload_at (skip_headers m p) = None
  end.
Proof.
  revert p. induction fuel as [|fuel IH]; intros p Hf.
  - destruct p; [|cbn in Hf; lia]. cbn. intros m.
    assert (skip_headers m [] = []) as -> by (induction m; [done|by cbn]). done.
  - rewrite read_payload_loop_step. destruct (Z.ltb_spec (Zlen p) 24) as [Hs|Hs].
    + assert (forall m, Zlen (skip_headers m p) < 24) as Hm.
      { intros m. clear - Hs. revert p Hs. induction m as [|m IH]; intros p Hs; [done|].
        cbn [skip_headers]. apply IH. unfold Zlen in *. rewrite length_drop. lia. }
      intros m. unfold payload_at. specialize (Hm m).
      destruct (Z.leb_spec 24 (Zlen (skip_headers m p))); [lia|done].
    + destruct (payload_at p) as [d|] eqn:E.
      * exists 0%nat. split; [done|lia].
      * assert (length (drop 24 p) <= fuel)%nat as Hl.
        { unfold Zlen in Hs. rewrite length_drop. lia. }
        specialize (IH (drop 24 p) Hl). destruct (read_payload_loop fuel (drop 24 p)) as [d|].
        -- destruct IH as (n & Hn & Hlt). exists (S n). split; [done|].
           intros [|m] Hm; [done|]. apply Hlt. lia.
        -- intros [|m]; [done|apply IH].
Qed.

Section Wrapper.
Context {BM : BytesMut}.

(** *** Never [unreachable!()] *)

Lemma handle_id (this : Kcp) : this <| handle := handle this |> = this.
Proof. by destruct this. Qed.

(** [recv] and [peek] on a slice of an ordinary size. *)
Lemma recv_result_spec (this : Kcp) buf len :
  recv_ok (handle this) -> -2147483648 < len < 2147483648 -> Z.abs len = Zlen buf ->
  recv_result this buf (ikcp_recv (handle this) len) =
    let m := fst (msg_prefix (rcv_queue (handle this))) in
    if head_incomplete (handle this) then (Ok 0, buf, this)
    else if Zlen buf <? Zlen (seg_bytes m) then (Err InvalidInput, buf, this)
    else (Ok (Zlen (seg_bytes m)), seg_bytes m ++ drop (length (seg_bytes m)) buf,
          this <| handle := snd (ikcp_recv (handle this) len) |>).
Proof.
  intros Hok Hlen Hb. cbv zeta. pose proof (ikcp_recv_spec (handle this) len Hok Hlen) as E.
  rewrite E. cbv zeta. set (m := fst (msg_prefix (rcv_queue (handle this)))).
  assert (Zlen (rcv_queue (handle this)) = 0 -> head_incomplete (handle this) = true) as H0.
  { unfold head_incomplete. destruct (rcv_queue (handle this)); [done|].
    rewrite Zlen_cons. pose proof (Zlen_nonneg l). lia. }
  pose proof (Zlen_nonneg (seg_bytes m)). unfold recv_result.
  destruct (Z.eqb_spec (Zlen (rcv_queue (handle this))) 0) as [Ez|_].
  { rewrite (H0 Ez). cbn. by rewrite handle_id. }
  destruct (head_incomplete (handle this)); [cbn; by rewrite handle_id|].
  rewrite Hb. destruct (Zlen buf <? Zlen (seg_bytes m)); [cbn; by rewrite handle_id|].
  cbn [snd]. destruct (Z.geb_spec (Zlen (seg_bytes m)) 0); [done|lia].
Qed.

(** *** The output callback *)
Context {BML : BytesMutLaws BM}.

(** What the wrapper keeps of its buffers between calls. *)
Definition buffers_ok (this : Kcp) : Prop :=
  bm_bytes (write_buf this) = [] /\ bm_bytes (read_buf this) = [].

Definition outputs (this : Kcp) : list bytes := map bm_bytes (output_queue this).

Lemma _output_spec this buf :
  buffers_ok this ->
  buffers_ok (_output this buf) /\ outputs (_output this buf) = outputs this ++ [buf] /\
  handle (_output this buf) = handle this.
Proof.
  intros [Hw Hr]. unfold _output. pose proof (Zlen_nonneg buf).
  set (t1 := if _ <? _ then _ else this).
  assert (bm_bytes (write_buf t1) = [] /\ read_buf t1 = read_buf this /\
    output_queue t1 = output_queue this /\ handle t1 = handle this) as (H1 & H2 & H3 & H4).
  { unfold t1. destruct (_ <? _); [|done]. simp_upd. split_and!; try done.
    destruct (bm_reserve_law (write_buf this) (Z.max (buffer_size this).1 (Zlen buf)))
      as [-> _]; [lia|done]. }
  clearbody t1. simp_upd.
  pose proof (bm_put_slice_law (write_buf t1) buf) as Hp. rewrite H1 in Hp. cbn [app] in Hp.
  pose proof (bm_split_to_law (bm_put_slice (write_buf t1) buf) (Zlen buf)) as Hs.
  rewrite Hp in Hs. destruct (bm_split_to _ _) as [front rest]. cbn [fst snd] in Hs.
  destruct Hs as [Hf Hrest]; [lia|]. unfold Zlen in Hf, Hrest. rewrite Nat2Z.id in Hf, Hrest.
  rewrite firstn_all in Hf. rewrite drop_all in Hrest.
  unfold buffers_ok, outputs. simp_upd. rewrite H2, H3, map_app. cbn [map]. by rewrite Hf.
Qed.

Lemma fold_output_spec ps t :
  buffers_ok t ->
  buffers_ok (fold_left _output ps t) /\ outputs (fold_left _output ps t) = outputs t ++ ps /\
  handle (fold_left _output ps t) = handle t.
Proof.
  revert t. induction ps as [|p ps IH]; intros t Ht; cbn [fold_left]; [by rewrite app_nil_r|].
  destruct (_output_spec t p Ht) as (H1 & H2 & H3).
  destruct (IH (_output t p) H1) as (H4 & H5 & H6).
  rewrite H5, H6, H2, H3, <- app_assoc. done.
Qed.

(** Every packet the C core emits is appended to the output queue, whole and in order. *)
Lemma after_output_spec this r :
  buffers_ok this ->
  buffers_ok (after_output this r) /\ outputs (after_output this r) = outputs this ++ snd r /\
  handle (after_output this r) = fst r.
Proof.
  intros Hb. unfold after_output. set (t := this <| handle := fst r |>).
  exact (fold_output_spec (snd r) t Hb).
Qed.

(** *** Reading a message *)

Lemma Kcp_recv_bytes_spec this :
  recv_ok (handle this) -> buffers_ok this ->
  let k := handle this in
  let m := seg_bytes (fst (msg_prefix (rcv_queue k))) in
  let '(r, this') := Kcp_recv_bytes this in
  buffers_ok this' /\ output_queue this' = output_queue this /\
  if head_incomplete k || (Zlen m =? 0) then r = None /\ this' = this
  else r = Some m /\ handle this' = snd (ikcp_recv k (Zlen m)).
Proof.
  intros Hok [Hw Hr]. cbv zeta. set (k := handle this) in *.
  set (m := seg_bytes (fst (msg_prefix (rcv_queue k)))). unfold Kcp_recv_bytes, Kcp_peek_size.
  pose proof (ikcp_peeksize_spec k Hok) as Hpeek. fold m in Hpeek. fold k. rewrite Hpeek.
  pose proof (Zlen_nonneg m) as Hm0.
  assert (Zlen m < 2147483648) as Hm.
  { destruct Hok as (_ & Hlt & _). unfold m. pose proof (msg_prefix_app (rcv_queue k)) as E.
    rewrite E, seg_bytes_app, Zlen_app in Hlt.
    pose proof (Zlen_nonneg (seg_bytes (snd (msg_prefix (rcv_queue k))))). lia. }
  destruct (head_incomplete k) eqn:Eh; cbn [orb]; [done|].
  destruct (Z.eqb_spec (Zlen m) 0) as [E0|E0]; [rewrite E0; done|].
  destruct (Z.gtb_spec (Z.max (Zlen m) 0) 0); [|lia]. rewrite Z.max_l by lia.
  set (t1 := if _ <? _ then _ else this).
  assert (Zlen m <= bm_capacity (read_buf t1) /\ write_buf t1 = write_buf this /\
    output_queue t1 = output_queue this /\ handle t1 = k) as (H1 & H2 & H3 & H4).
  { unfold t1. destruct (Z.ltb_spec (bm_capacity (read_buf this)) (Zlen m)); [|done].
    simp_upd. split_and!; try done.
    destruct (bm_reserve_law (read_buf this) (Z.max (buffer_size this).2 (Zlen m)))
      as [_ Hc]; [lia|]. rewrite Hr in Hc. change (Zlen []) with 0 in Hc. lia. }
  clearbody t1. simp_upd.
  pose proof (bm_set_len_law (read_buf t1) (Zlen m) ltac:(lia)) as Hl.
  pose proof (bm_split_to_law (bm_set_len (read_buf t1) (Zlen m)) (Zlen m)) as Hs.
  rewrite Hl in Hs. destruct (bm_split_to _ _) as [buf rest]. cbn [fst snd] in Hs.
  destruct Hs as [Hf Hrest]; [lia|].
  assert (Zlen (bm_bytes buf) = Zlen m) as Hbl.
  { rewrite Hf. unfold Zlen in *. rewrite length_take. lia. }
  assert (bm_bytes rest = []) as Hrest0.
  { rewrite Hrest. apply drop_ge. unfold Zlen in *. lia. }
  unfold Kcp_recv. rewrite recv_result_spec; simp_upd; rewrite ?H4; [|done|..];
    rewrite Hbl, i32_small; [|lia..].
  cbv zeta. fold m. rewrite Eh. destruct (Z.ltb_spec (Zlen m) (Zlen m)); [lia|].
  rewrite (drop_ge (bm_bytes buf)), app_nil_r by (unfold Zlen in *; lia).
  rewrite bm_write_law, (drop_ge (bm_bytes buf)), app_nil_r by (unfold Zlen in *; lia).
  unfold buffers_ok. simp_upd. rewrite H2, H3. done.
Qed.
End Wrapper.

(** ** The invariant of the wrapper *)
Section WrapperInv.
Context {BM : BytesMut} {BML : BytesMutLaws BM}.

Definition wrapper_ok (this : Kcp) : Prop :=
  kcp_ok (handle this) /\ buffers_ok this /\ 0 <= conv (handle this) < 4294967296.

Lemma wrapper_handle (this : Kcp) k :
  wrapper_ok this -> kcp_ok k -> 0 <= conv k < 4294967296 -> wrapper_ok (this <| handle := k |>).
Proof. intros (_ & Hb & _) Hk Hc. done. Qed.

Lemma after_output_ok this r :
  wrapper_ok this -> kcp_ok (fst r) -> 0 <= conv (fst r) < 4294967296 ->
  wrapper_ok (after_output this r).
Proof.
  intros (_ & Hb & _) Hk Hc. destruct (after_output_spec this r Hb) as (H1 & _ & H3).
  unfold wrapper_ok. by rewrite H3.
Qed.

Lemma Kcp_update_ok this now : wrapper_ok this -> wrapper_ok (Kcp_update this now).
Proof.
  intros Hw. pose proof Hw as (Hk & _ & Hc). apply after_output_ok; [done|by apply ikcp_update_ok|].
  destruct (exec_static (handle this) (OpUpdate now) Hk I) as [E _]. cbn [kcp_exec] in E.
  by rewrite E.
Qed.

Lemma Kcp_flush_ok this : wrapper_ok this -> wrapper_ok (Kcp_flush this).
Proof.
  intros Hw. pose proof Hw as (Hk & _ & Hc). apply after_output_ok; [done|by apply ikcp_flush_ok|].
  destruct (exec_static (handle this) OpFlush Hk I) as [E _]. cbn [kcp_exec] in E.
  by rewrite E.
Qed.

Lemma wrapper_exec (this : Kcp) op :
  wrapper_ok this -> op_allowed op (handle this) ->
  wrapper_ok (this <| handle := kcp_exec op (handle this) |>).
Proof.
  intros Hw Ha. pose proof Hw as (Hk & _ & Hc). apply wrapper_handle; [done| |].
  - apply (kcp_step_ok (handle this)); [by constructor|done].
  - destruct (exec_static (handle this) op Hk Ha) as [E _]. by rewrite E.
Qed.

Lemma send_room_nonneg k : 0 <= send_room k.
Proof. unfold send_room, tail_room. destruct (_ =? _), (last (snd_queue k)); lia. Qed.

(** A write never panics: it is accepted when it fits in 255 segments (and, in stream mode, the
    room of the open tail segment), and refused as invalid input otherwise. *)
Lemma Kcp_send_spec this data :
  wrapper_ok this -> Zlen data < 2147483648 ->
  wrapper_ok (snd (Kcp_send this data)) /\
  output_queue (snd (Kcp_send this data)) = output_queue this /\
  fst (Kcp_send this data) =
    if Zlen data <=? send_room (handle this) + 255 * mss (handle this)
    then Ok 0 else Err InvalidInput.
Proof.
  intros Hw Hlt. pose proof Hw as ((Hinv & _) & _). pose proof Hinv as (Hs & _).
  pose proof (wrapper_exec this (OpSend data) Hw Hlt) as Hex. cbn [kcp_exec] in Hex.
  pose proof (ikcp_send_accepts (handle this) data Hs Hlt) as Ha.
  unfold Kcp_send. destruct data as [|b data].
  { split_and!; [done..|]. cbn [fst]. change (Zlen []) with 0.
    pose proof (send_room_nonneg (handle this)). destruct Hs as [Hm _].
    destruct (Z.leb_spec 0 (send_room (handle this) + 255 * mss (handle this))); [done|lia]. }
  rewrite i32_small by (pose proof (Zlen_nonneg (b :: data)); lia).
  destruct (ikcp_send (handle this) (b :: data) (Zlen (b :: data))) as [r k].
  cbn [fst snd] in *. subst r. destruct (_ <=? _); cbn [fst snd]; done.
Qed.

Lemma ikcp_input_result_cases k data r :
  r = fst (ikcp_input k data) -> r = 0 \/ r = -1 \/ r = -2 \/ r = -3.
Proof. intros ->. pose proof (ikcp_input_results k data). set_solver. Qed.

(** Whatever arrives, [input] does not panic; it keeps the invariant and emits nothing. *)
Lemma Kcp_input_spec this packet :
  wrapper_ok this ->
  wrapper_ok (snd (Kcp_input this packet)) /\
  output_queue (snd (Kcp_input this packet)) = output_queue this /\
  fst (Kcp_input this packet) <> Panic /\
  handle (snd (Kcp_input this packet)) = snd (ikcp_input (handle this) packet).
Proof.
  intros Hw. pose proof (wrapper_exec this (OpInput packet) Hw I) as Hex. cbn [kcp_exec] in Hex.
  pose proof (ikcp_input_result_cases (handle this) packet _ eq_refl) as Hr.
  unfold Kcp_input. destruct (ikcp_input (handle this) packet) as [r k]. cbn [fst snd] in *.
  destruct Hr as [-> | [-> | [-> | ->]]]; cbn [fst snd Z.eqb orb]; done.
Qed.

(** The read side of the wrapper keeps its invariant. *)
Lemma Kcp_recv_bytes_ok this :
  wrapper_ok this -> Zlen (seg_bytes (rcv_queue (handle this))) < 2147483648 ->
  wrapper_ok (snd (Kcp_recv_bytes this)).
Proof.
  intros Hw Hlt. pose proof Hw as ((Hinv & _) & Hb & _).
  assert (recv_ok (handle this)) as Hok.
  { destruct Hinv as (_ & _ & _ & (_ & _ & _ & _ & Hn & Hl & _ & Hf) & _).
    unfold recv_ok. split_and!; try done; lia. }
  pose proof (Kcp_recv_bytes_spec this Hok Hb) as Hs. cbv zeta in Hs.
  destruct (Kcp_recv_bytes this) as [r this']. cbn [snd]. destruct Hs as (Hb' & _ & Hs).
  destruct (_ || _); [by destruct Hs as [_ ->]|]. destruct Hs as [_ Hh].
  pose proof (wrapper_exec this (OpRecv (Zlen (seg_bytes (fst (msg_prefix
    (rcv_queue (handle this))))))) Hw I) as (H1 & _ & H3). cbn [kcp_exec] in *.
  unfold wrapper_ok. by rewrite Hh.
Qed.

Lemma Kcp_set_nodelay_ok this nd iv resend nc :
  wrapper_ok this -> wrapper_ok (Kcp_set_nodelay this nd iv resend nc).
Proof.
  intros Hw. exact (wrapper_exec this (OpNodelay (Z.b2z nd) (i32 iv) (i32 resend) (Z.b2z nc)) Hw I).
Qed.

Lemma Kcp_set_wndsize_ok this s r : wrapper_ok this -> wrapper_ok (Kcp_set_wndsize this s r).
Proof.
  intros Hw. refine (wrapper_exec this (OpWndsize (i32 s) (i32 r)) Hw _).
  cbn [op_allowed]. pose proof (i32_range s). pose proof (i32_range r). lia.
Qed.

(** Changing the mtu while nothing is queued: the error mapping is total, and on success the
    control block holds the new value. *)
Lemma Kcp_set_mtu_spec malloc_ok this m :
  wrapper_ok this -> 0 <= m < 1073741824 ->
  Forall (fun s => seg_len s + 24 <= m) (snd_queue (handle this) ++ snd_buf (handle this)) ->
  wrapper_ok (snd (Kcp_set_mtu malloc_ok this m)) /\
  fst (Kcp_set_mtu malloc_ok this m) =
    (if mtu (handle this) =? m then Ok tt
     else if m <? 50 then Err InvalidInput
     else if malloc_ok then Ok tt else Err OutOfMemory) /\
  (fst (Kcp_set_mtu malloc_ok this m) = Ok tt ->
     mtu (handle (snd (Kcp_set_mtu malloc_ok this m))) = m).
Proof.
  intros Hw Hm Hf. unfold Kcp_set_mtu. destruct (Z.eqb_spec (mtu (handle this)) m) as [E|E]; [done|].
  rewrite i32_small by lia.
  pose proof (wrapper_exec this (OpSetMtu malloc_ok m) Hw (conj (proj2 Hm) Hf)) as Hex.
  cbn [kcp_exec] in Hex. unfold ikcp_setmtu in *. unfold IKCP_OVERHEAD in *.
  destruct (Z.ltb_spec m 50) as [Hlt|Hge]; cbn [orb] in *; [by cbn|].
  change (i32 24) with 24 in *. destruct (Z.ltb_spec m 24); [lia|]. destruct malloc_ok; cbn [negb fst snd] in *; [|by cbn].
  split_and!; [done|done|]. intros _. cbn [Z.eqb fst snd]. simp_upd. apply u32_small. lia.
Qed.
End WrapperInv.
