(* ===== verification/Config.v ===== *)
(** [src/config.rs]: the configuration records and their defaults. *)
From S2P Require Import Prelude Bytes.

(** [std::time::Duration], in nanoseconds. *)
Definition Duration : Type := Z.
Definition from_secs (s : Z) : Duration := s * 1000000000.
Definition as_secs (d : Duration) : Z := d / 1000000000.

Definition LISTENER_TASK_LOOP : Z := 1024.
Definition LISTENER_CONV_TIMEOUT : Duration := from_secs 120.

Record KcpNoDelayConfig := mkNoDelay {
  nd_nodelay : bool; nd_interval : Z; nd_resend : Z; nd_nc : bool
}.

Definition KcpNoDelayConfig_default : KcpNoDelayConfig := {|
  nd_nodelay := false; nd_interval := 100; nd_resend := 0; nd_nc := false
|}.

Definition fastest : KcpNoDelayConfig := {|
  nd_nodelay := true; nd_interval := 10; nd_resend := 2; nd_nc := true
|}.

Definition normal : KcpNoDelayConfig := {|
  nd_nodelay := false; nd_interval := 40; nd_resend := 0; nd_nc := false
|}.

Record KcpConfig := mkConfig {
  cfg_mtu : Z;
  cfg_nodelay : KcpNoDelayConfig;
  cfg_snd_wnd : Z;
  cfg_rcv_wnd : Z;
  cfg_stream : bool;
  session_key : bytes;
  session_id_len : Z;
  session_expire : Duration;
  connect_timeout : Duration;
  shutdown_timeout : Duration;
  half_close_timeout : Duration
}.

Definition KcpConfig_default : KcpConfig := {|
  cfg_mtu := 1400;
  cfg_nodelay := normal;
  cfg_snd_wnd := 32;
  cfg_rcv_wnd := 256;
  cfg_stream := true;
  session_key := [];
  session_id_len := 16;
  session_expire := from_secs 90;
  connect_timeout := from_secs 15;
  shutdown_timeout := from_secs 10;
  half_close_timeout := from_secs 5
|}.

(** [iter::repeat_with(rand::random::<u8>).take(session_id_len)]: [draw] is the generator. *)
Definition random_session_id (config : KcpConfig) (draw : nat -> Byte.byte) : bytes :=
  map draw (seq 0 (Z.to_nat (session_id_len config))).

Lemma random_session_id_length config draw :
  0 <= session_id_len config -> Zlen (random_session_id config draw) = session_id_len config.
Proof. intros H. unfold random_session_id, Zlen. rewrite length_map, length_seq. lia. Qed.
