(* ===== verification/ConvCache.v ===== *)
(** [src/conv.rs]: the cache that keeps a conversation number out of circulation for a while
    after its session ended. *)
From stdpp Require Import relations.
From S2P Require Import Prelude HashLink Bytes Config Protocol ProtocolSpec.

(** ** The cache *)
Section ConvCache.
(** [Instant]s, in nanoseconds. *)
Context {M : LinkedHashMap Z Z}.

Record Inner := mkInner { map_ : lhm Z Z; timeout : Duration }.

Definition ConvCache_new (timeout : Duration) : Inner := mkInner lhm_new timeout.

(** [now.duration_since(time)] saturates at zero. *)
Definition duration_since (now time : Z) : Duration := Z.max 0 (now - time).

(** [Self::update]: every turn pops an entry, so the number of entries is fuel enough. *)
Fixpoint update_loop (fuel : nat) (m : lhm Z Z) (timeout : Duration) (now : Z) : lhm Z Z :=
  match fuel with
  | O => m
  | S fuel =>
      match lhm_front m with
      | Some (_, time) =>
          if duration_since now time <? timeout then m
          else update_loop fuel (lhm_pop_front m) timeout now
      | None => m
      end
  end.
Definition ConvCache_update (this : Inner) (now : Z) : Inner :=
  mkInner (update_loop (length (lhm_entries (map_ this))) (map_ this) (timeout this) now)
    (timeout this).

(** The loop of [allocate]: [draw] is the generator behind [Kcp::rand_conv]. *)
Fixpoint allocate_loop (fuel : nat) (draw : nat -> Z) (i : nat) (exists_ : Z -> bool) (m : lhm Z Z)
  : option (Z * nat) :=
  match fuel with
  | O => None
  | S fuel =>
      match rand_conv (S fuel) draw i with
      | None => None
      | Some (conv, i) =>
          if negb (exists_ conv) && negb (lhm_contains_key m conv) then Some (conv, i)
          else allocate_loop fuel draw i exists_ m
      end
  end.
Definition ConvCache_allocate (fuel : nat) (draw : nat -> Z) (exists_ : Z -> bool) (now : Z)
    (this : Inner) : option Z * Inner :=
  let this := ConvCache_update this now in
  (option_map fst (allocate_loop fuel draw 0 exists_ (map_ this)), this).

Definition insert_valid (now : Z) (this : Inner) (conv : Z) : Inner :=
  if is_valid_conv conv then mkInner (lhm_insert (map_ this) conv now) (timeout this) else this.

Definition ConvCache_add (conv now : Z) (this : Inner) : Inner :=
  insert_valid now (ConvCache_update this now) conv.

Definition ConvCache_fill (iter : list Z) (now : Z) (this : Inner) : Inner :=
  fold_left (insert_valid now) iter (ConvCache_update this now).

Definition ConvCache_dump (now : Z) (this : Inner) : list Z * Inner :=
  let this := ConvCache_update this now in
  (map fst (lhm_entries (map_ this)), this).

(** ** Specification *)
Context {ML : LinkedHashMapLaws Z Z M}.

Definition entries (this : Inner) : list (Z * Z) := lhm_entries (map_ this).

(** The entries are in the order of their times, none later than [now]. *)
Definition timed (now : Z) (this : Inner) : Prop :=
  StronglySorted (fun a b => snd a <= snd b) (entries this) /\
  Forall (fun e => snd e <= now) (entries this).

Definition alive (this : Inner) (now : Z) (e : Z * Z) : Prop :=
  duration_since now (snd e) < timeout this.

#[export] Instance alive_dec this now e : Decision (alive this now e).
Proof. unfold alive. apply _. Defined.

Lemma update_loop_filter m to now :
  StronglySorted (fun a b => snd a <= snd b) (lhm_entries m) ->
  lhm_entries (update_loop (length (lhm_entries m)) m to now)
    = filter (fun e => duration_since now (snd e) < to) (lhm_entries m).
Proof.
  remember (lhm_entries m) as l eqn:El. intros Hs. revert m El.
  induction Hs as [|[c t] l Hs IH Hlt]; intros m El; [by cbn|].
  cbn [length update_loop]. rewrite lhm_front_law, <- El. cbn [head].
  destruct (Z.ltb_spec (duration_since now t) to) as [Ha|Ha].
  - rewrite <- El, filter_cons_True by done. f_equal. symmetry.
    clear - Ha Hlt. induction Hlt as [|[c' t'] l Ht Hl IH]; [done|]. cbn [snd] in *.
    rewrite filter_cons_True; [by f_equal|]. cbn [snd]. unfold duration_since in *. lia.
  - rewrite filter_cons_False by (cbn [snd]; lia).
    apply IH. by rewrite lhm_pop_front_law, <- El.
Qed.

(** The lazy expiry from the front removes exactly the expired entries. *)
Lemma ConvCache_update_filter this now now' :
  timed now' this ->
  entries (ConvCache_update this now) = filter (alive this now) (entries this).
Proof. intros [Hs _]. apply update_loop_filter, Hs. Qed.

Lemma StronglySorted_filter {A} (R : A -> A -> Prop) (P : A -> Prop) `{forall x, Decision (P x)} l :
  StronglySorted R l -> StronglySorted R (filter P l).
Proof.
  induction 1 as [|x l Hl IH Hx]; [constructor|]. rewrite filter_cons.
  destruct (decide (P x)); [|done]. constructor; [done|].
  apply Forall_forall. intros y [_ Hy]%list_elem_of_filter. rewrite Forall_forall in Hx. by apply Hx.
Qed.

Lemma timed_update this now now' : timed now this -> now <= now' -> timed now' (ConvCache_update this now').
Proof.
  intros Ht Hle. unfold timed. rewrite (ConvCache_update_filter this now' now Ht).
  destruct Ht as [Hs Hf]. split; [by apply StronglySorted_filter|].
  apply Forall_forall. intros e [_ He]%list_elem_of_filter. rewrite Forall_forall in Hf.
  specialize (Hf e He). lia.
Qed.

Lemma timed_insert now this conv : timed now this -> timed now (insert_valid now this conv).
Proof.
  intros [Hs Hf]. unfold insert_valid. destruct (is_valid_conv conv); [|done].
  unfold timed, entries in *. cbn [map_]. rewrite lhm_insert_law. unfold without. split.
  - apply StronglySorted_app. split_and!.
    + intros a b [_ Ha]%list_elem_of_filter ->%list_elem_of_singleton.
      rewrite Forall_forall in Hf. by apply Hf.
    + by apply StronglySorted_filter.
    + repeat constructor.
  - apply Forall_app. split; [|by repeat constructor].
    apply Forall_forall. intros e [_ He]%list_elem_of_filter. rewrite Forall_forall in Hf. by apply Hf.
Qed.

(** ** Histories

    A history is the calls made so far, each with the time it read the clock; the clock does
    not go back. *)
Inductive cache_op := Add (conv : Z) | Fill (iter : list Z) | Dump | Allocate (fuel : nat)
  (draw : nat -> Z) (exists_ : Z -> bool).

Definition cache_exec (op : cache_op) (now : Z) (this : Inner) : Inner :=
  match op with
  | Add conv => ConvCache_add conv now this
  | Fill iter => ConvCache_fill iter now this
  | Dump => snd (ConvCache_dump now this)
  | Allocate fuel draw exists_ => snd (ConvCache_allocate fuel draw exists_ now this)
  end.

(** [runs now this now' this']: from [this] at [now], some calls lead to [this'] at [now']. *)
Inductive runs : Z -> Inner -> Z -> Inner -> Prop :=
| runs_refl now this : runs now this now this
| runs_step now this op now1 now' this' :
    now <= now1 -> runs now1 (cache_exec op now1 this) now' this' -> runs now this now' this'.

Lemma timed_fold now iter this : timed now this -> timed now (fold_left (insert_valid now) iter this).
Proof.
  revert this. induction iter as [|c iter IH]; intros this H; [done|]. cbn [fold_left].
  by apply IH, timed_insert.
Qed.

Lemma timed_exec op now now' this :
  timed now this -> now <= now' -> timed now' (cache_exec op now' this).
Proof.
  intros Ht Hle. pose proof (timed_update this now now' Ht Hle) as Hu.
  destruct op; cbn [cache_exec ConvCache_dump ConvCache_allocate snd]; try done.
  - by apply timed_insert.
  - by apply timed_fold.
Qed.

(** A number is held at [t] or later. *)
Definition held (t : Z) (conv : Z) (this : Inner) : Prop :=
  exists t', t <= t' /\ (conv, t') ∈ entries this.

Lemma held_update t conv this now now' :
  timed now' this -> now - t < timeout this -> held t conv this -> 0 < timeout this ->
  held t conv (ConvCache_update this now).
Proof.
  intros Ht Hage (t' & Hle & Hin) Hpos. exists t'. split; [done|].
  rewrite (ConvCache_update_filter this now now' Ht). apply list_elem_of_filter. split; [|done].
  unfold alive, duration_since. cbn [snd]. lia.
Qed.

Lemma held_insert t conv this now c :
  t <= now -> held t conv this -> held t conv (insert_valid now this c).
Proof.
  intros Hle (t' & Ht & Hin). unfold insert_valid. destruct (is_valid_conv c); [|by exists t'].
  unfold held, entries. cbn [map_]. rewrite lhm_insert_law.
  destruct (decide (conv = c)) as [->|Hne].
  - exists now. split; [done|]. set_solver.
  - exists t'. split; [done|]. apply elem_of_app. left. unfold without.
    apply list_elem_of_filter. done.
Qed.

Lemma held_fold t conv now iter this :
  t <= now -> held t conv this -> held t conv (fold_left (insert_valid now) iter this).
Proof.
  intros Hle. revert this. induction iter as [|c iter IH]; intros this H; [done|].
  cbn [fold_left]. by apply IH, held_insert.
Qed.

Lemma insert_valid_timeout now this c : timeout (insert_valid now this c) = timeout this.
Proof. unfold insert_valid. by destruct (is_valid_conv c). Qed.

Lemma cache_exec_timeout op now this : timeout (cache_exec op now this) = timeout this.
Proof.
  destruct op; cbn [cache_exec ConvCache_dump ConvCache_allocate snd]; try done.
  - unfold ConvCache_add. by rewrite insert_valid_timeout.
  - unfold ConvCache_fill. transitivity (timeout (ConvCache_update this now)); [|done].
    generalize (ConvCache_update this now). induction iter as [|c iter IH]; intros i; [done|].
    cbn [fold_left]. by rewrite IH, insert_valid_timeout.
Qed.

Lemma held_exec t conv op now now' this :
  timed now' this -> t <= now -> now - t < timeout this -> 0 < timeout this ->
  held t conv this -> held t conv (cache_exec op now this).
Proof.
  intros Ht Hle Hage Hpos H. pose proof (held_update t conv this now now' Ht Hage H Hpos) as Hu.
  destruct op; cbn [cache_exec ConvCache_dump ConvCache_allocate snd]; try done.
  - by apply held_insert.
  - by apply held_fold.
Qed.

Lemma runs_held t conv now this now' this' :
  runs now this now' this' -> timed now this -> t <= now -> held t conv this ->
  0 < timeout this -> now' - t < timeout this ->
  held t conv this' /\ timed now' this' /\ timeout this' = timeout this /\ now <= now'.
Proof.
  induction 1 as [now this|now this op now1 now' this' Hle Hr IH]; intros Ht Hle' Hh Hpos Hage.
  - done.
  - assert (now1 <= now') as Hle1 by (clear - Hr; induction Hr; lia).
    destruct IH as (H1 & H2 & H3 & H4).
    + by eapply timed_exec.
    + lia.
    + eapply held_exec; [exact Ht|lia|lia|done|done].
    + by rewrite cache_exec_timeout.
    + rewrite cache_exec_timeout. lia.
    + rewrite cache_exec_timeout in H3. split_and!; try done. lia.
Qed.

(** What [allocate] returns. *)
Lemma allocate_loop_spec fuel draw i exists_ m c j :
  allocate_loop fuel draw i exists_ m = Some (c, j) ->
  is_valid_conv c = true /\ exists_ c = false /\ c ∉ map fst (lhm_entries m).
Proof.
  revert i. induction fuel as [|fuel IH]; intros i; [done|]. cbn [allocate_loop].
  destruct (rand_conv (S fuel) draw i) as [[c' i']|] eqn:E; [|done].
  destruct (negb (exists_ c') && _) eqn:G; [|apply IH]. intros [= <- <-].
  rewrite lhm_contains_law in G. apply andb_prop in G as [G1 G2].
  apply negb_true_iff in G1, G2. apply bool_decide_eq_false in G2.
  split_and!; try done. clear - E. revert i E. generalize (S fuel). intros n.
  induction n as [|n IH]; intros i; cbn [rand_conv]; [done|].
  destruct (is_valid_conv (draw i)) eqn:V; [by intros [= <- _]|apply IH].
Qed.

Lemma first_valid draw i n :
  is_valid_conv (draw (i + n)%nat) = true ->
  exists j, (j <= n)%nat /\ is_valid_conv (draw (i + j)%nat) = true /\
    forall j', (j' < j)%nat -> is_valid_conv (draw (i + j')%nat) = false.
Proof.
  revert i. induction n as [|n IH]; intros i Hv.
  { exists 0%nat. split_and!; [lia|done|lia]. }
  destruct (is_valid_conv (draw i)) eqn:E.
  { exists 0%nat. rewrite Nat.add_0_r. split_and!; [lia|done|lia]. }
  destruct (IH (S i)) as (j & Hj & Hj2 & Hmin); [by rewrite Nat.add_succ_comm|].
  exists (S j). rewrite <- Nat.add_succ_comm. split_and!; [lia|done|].
  intros [|j'] Hlt; [by rewrite Nat.add_0_r|]. rewrite <- Nat.add_succ_comm. apply Hmin. lia.
Qed.

(** The loop ends as soon as the generator gives a number that is valid and free. *)
Lemma allocate_loop_total n fuel draw i exists_ m :
  let free c := is_valid_conv c && negb (exists_ c) && negb (lhm_contains_key m c) in
  (n < fuel)%nat -> free (draw (i + n)%nat) = true ->
  (forall j, (j < n)%nat -> free (draw (i + j)%nat) = false) ->
  allocate_loop fuel draw i exists_ m = Some (draw (i + n)%nat, S (i + n)).
Proof.
  cbv zeta. revert fuel i. induction n as [n IH] using (well_founded_induction lt_wf).
  intros fuel i Hfuel Hn Hlt. destruct fuel as [|fuel]; [lia|]. cbn [allocate_loop].
  assert (exists j, (j <= n)%nat /\ is_valid_conv (draw (i + j)%nat) = true /\
    forall j', (j' < j)%nat -> is_valid_conv (draw (i + j')%nat) = false) as (j & Hj & Hv & Hmin).
  { assert (is_valid_conv (draw (i + n)%nat) = true) as Hvn by (by destruct (is_valid_conv _)).
    by apply first_valid. }
  rewrite (rand_conv_first draw i j Hv Hmin) by lia.
  destruct (Nat.eq_dec j n) as [->|Hne].
  - assert (negb (exists_ (draw (i + n)%nat)) && negb (lhm_contains_key m (draw (i + n)%nat)) = true)
      as -> by (by destruct (is_valid_conv _)). done.
  - specialize (Hlt j ltac:(lia)) as Hbad. rewrite Hv in Hbad. cbn [andb] in Hbad. rewrite Hbad.
    replace (i + n)%nat with (S (i + j) + (n - j - 1))%nat by lia.
    apply IH; [lia|lia| |].
    + replace (S (i + j) + (n - j - 1))%nat with (i + n)%nat by lia. done.
    + intros j' Hj'. replace (S (i + j) + j')%nat with (i + (j + 1 + j'))%nat by lia.
      apply Hlt. lia.
Qed.

Lemma runs_timed now this now' this' :
  runs now this now' this' -> timed now this -> timed now' this' /\ timeout this' = timeout this.
Proof.
  induction 1 as [now this|now this op now1 now' this' Hle Hr IH]; intros Ht; [done|].
  destruct IH as [H1 H2]; [by eapply timed_exec|]. by rewrite cache_exec_timeout in H2.
Qed.

Lemma runs_trans now1 i1 now2 i2 now3 i3 :
  runs now1 i1 now2 i2 -> runs now2 i2 now3 i3 -> runs now1 i1 now3 i3.
Proof.
  induction 1 as [|now this op now' now2 this2 Hle _ IH]; [done|]. intros H.
  eapply runs_step; [exact Hle|by apply IH].
Qed.

Lemma runs_le now this now' this' : runs now this now' this' -> now <= now'.
Proof. induction 1; lia. Qed.

(** A number in the cache is not what [allocate] returns until the timeout has passed. *)
Lemma runs_allocate_fresh t1 conv this t2 this2 t3 fuel draw exists_ c :
  0 < timeout this -> timed t1 this -> held t1 conv this ->
  runs t1 this t2 this2 -> t2 <= t3 -> t3 - t1 < timeout this ->
  fst (ConvCache_allocate fuel draw exists_ t3 this2) = Some c ->
  c <> conv /\ is_valid_conv c = true /\ exists_ c = false.
Proof.
  intros Hto Ht Hh Hr Ht3 Hage Ha. pose proof (runs_le _ _ _ _ Hr) as H12.
  destruct (runs_held t1 conv t1 _ t2 this2 Hr Ht ltac:(lia) Hh) as (Hh2 & Ht2 & Et2 & _); [lia..|].
  destruct (held_update t1 conv this2 t3 t2 Ht2 ltac:(lia) Hh2 ltac:(lia)) as (t' & _ & Hin).
  unfold ConvCache_allocate in Ha. cbn [fst] in Ha.
  destruct (allocate_loop fuel draw 0 exists_ _) as [[c' j]|] eqn:E; [|done].
  injection Ha as ->. destruct (allocate_loop_spec _ _ _ _ _ _ _ E) as (H1 & H2 & H3).
  split; [|done]. intros ->. apply H3. apply list_elem_of_fmap. by exists (conv, t').
Qed.

Lemma timed_new now to : timed now (ConvCache_new to).
Proof.
  unfold timed, entries, ConvCache_new. cbn [map_]. rewrite lhm_new_law. split; constructor.
Qed.

Lemma held_add now this conv : is_valid_conv conv = true -> held now conv (ConvCache_add conv now this).
Proof.
  intros Hv. unfold ConvCache_add, insert_valid. rewrite Hv. exists now. split; [lia|].
  unfold entries. cbn [map_]. rewrite lhm_insert_law. set_solver.
Qed.
End ConvCache.
