(* ===== verification/Stream.v ===== *)
(** [src/stream.rs]: the session task and the stream handle.

    The task is a state machine driven by an event loop.  The clock is the sequence of the
    readings of [time_base.elapsed()], indexed by a counter in the state; channels, the
    transport and the cancellation token appear as the events and outcomes the loop sees.
    A function that can panic returns an [option], and [None] is the panic. *)
From S2P Require Import Prelude Bytes IkcpTypes IkcpSend IkcpInput IkcpFlush Protocol Config.

(** [<[u8]>::strip_prefix] *)
Definition strip_prefix (prefix b : bytes) : option bytes :=
  if decide (take (length prefix) b = prefix) then Some (drop (length prefix) b) else None.

Definition read_session_id (packet session_key : bytes) : option bytes :=
  match read_payload_data packet with
  | Some x => strip_prefix session_key x
  | None => None
  end.

Inductive Output := OutConnected (conv : Z) | OutFrame (b : bytes).

Inductive Handshake := Syn | Connected | FinPending | FinSent | FinWaitPeer | Disconnected.
#[export] Instance Handshake_eq_dec : EqDecision Handshake.
Proof. solve_decision. Defined.

(** The order [derive(PartialOrd)] gives. *)
Definition hs_rank (hs : Handshake) : nat :=
  match hs with
  | Syn => 0 | Connected => 1 | FinPending => 2 | FinSent => 3 | FinWaitPeer => 4
  | Disconnected => 5
  end.
Definition hs_le (a b : Handshake) : Prop := (hs_rank a <= hs_rank b)%nat.

Definition CLIENT : Z := 0x01.
Definition FLUSH : Z := 0x02.
Definition FIN_RECVED : Z := 0x04.
Definition INPUT_CLOSED : Z := 0x08.
Definition CMD_MASK : Z := 0x57.
Definition KCP_SYN : Z := 0x80.
Definition KCP_FIN : Z := 0x20.
Definition KCP_RESET : Z := 0x08.

Section Stream.
Context {BM : BytesMut}.
Context (clock : nat -> Z * Z).

Record Task := mkTask {
  t_kcp : Kcp;
  t_config : KcpConfig;
  t_input_open : bool;        (* [input_rx] has not been closed by the task *)
  t_rx_len : Z;               (* [rx_buf.len()] *)
  t_hs : Handshake;
  t_flags : Z;
  t_hs_end_time : Z;
  t_last_io_time : Z;
  t_session_id : bytes;
  t_ticks : nat               (* readings of the clock so far *)
}.
#[export] Instance eta_Task : Eta Task := fun t =>
  mkTask (t_kcp t) (t_config t) (t_input_open t) (t_rx_len t) (t_hs t) (t_flags t)
    (t_hs_end_time t) (t_last_io_time t) (t_session_id t) (t_ticks t).

Definition Task_new (config : KcpConfig) (conv : Z) : Task :=
  mkTask (Kcp_new conv) config true 0 Syn 0 0 0 [] 0.

(** [self.kcp.get_system_time()] *)
Definition system_time (t : Task) : Z * Task :=
  (get_system_time (clock (t_ticks t)), t <| t_ticks := S (t_ticks t) |>).

Definition has (t : Task) (st : Z) : bool := negb (Z.land (t_flags t) st =? 0).
Definition is_client (t : Task) : bool := has t CLIENT.
Definition set_flag (st : Z) (t : Task) : Task := t <| t_flags := Z.lor (t_flags t) st |>.

Definition set_handshake (hs : Handshake) (t : Task) : Task :=
  if decide (t_hs t = hs) then t else t <| t_hs := hs |>.

Definition is_fin_handshake (t : Task) : bool :=
  (2 <=? hs_rank (t_hs t))%nat && (hs_rank (t_hs t) <? 4)%nat.

Definition Task_kcp_flush (t : Task) : Task :=
  if has t FLUSH then
    let t := t <| t_flags := Z.lxor (t_flags t) FLUSH |> in
    let '(now, t) := system_time t in
    let t := t <| t_kcp := Kcp_update (t_kcp t) now |> in
    let t := t <| t_kcp := Kcp_flush (t_kcp t) |> in
    t <| t_last_io_time := Kcp_current (t_kcp t) |>
  else t.

Definition handshake_send (t : Task) : option Task :=
  let t := set_flag FLUSH t in
  let syn := session_key (t_config t) ++ t_session_id t in
  match Kcp_send (t_kcp t) syn with
  | (Ok _, k) => Some (Task_kcp_flush (t <| t_kcp := k |>))
  | _ => None
  end.

Definition kcp_apply_nodelay (t : Task) : Task :=
  let c := cfg_nodelay (t_config t) in
  t <| t_kcp := Kcp_set_nodelay (t_kcp t) (nd_nodelay c) (nd_interval c) (nd_resend c) (nd_nc c) |>.

Definition kcp_apply_config (malloc_ok : bool) (t : Task) : option Task :=
  let c := t_config t in
  let t := t <| t_kcp := Kcp_set_stream (t_kcp t) (cfg_stream c) |> in
  match Kcp_set_mtu malloc_ok (t_kcp t) (cfg_mtu c) with
  | (Ok _, k) =>
      let t := t <| t_kcp := k |> in
      let t := t <| t_kcp := Kcp_set_wndsize (t_kcp t) (cfg_snd_wnd c) (cfg_rcv_wnd c) |> in
      let t := kcp_apply_nodelay t in
      let size := cfg_mtu c * 3 in
      Some (if t_rx_len t <? size then t <| t_rx_len := size |> else t)
  | _ => None
  end.

(** The check of the FIN frame's key and identifier only writes a log line. *)
Definition Task_kcp_recv (t : Task) : option bytes * Task :=
  if has t FIN_RECVED && (Kcp_nrcv_que (t_kcp t) =? 1) && (Kcp_nrcv_buf (t_kcp t) =? 0) then
    let '(_, k) := Kcp_recv_bytes (t_kcp t) in
    (None, t <| t_kcp := k |>)
  else
    let '(r, k) := Kcp_recv_bytes (t_kcp t) in
    (r, t <| t_kcp := k |>).

Definition process_input (frame : bytes) (t : Task) : option Task :=
  match Kcp_send (t_kcp t) frame with
  | (Ok _, k) =>
      let t := t <| t_kcp := k |> in
      Some (if nd_nodelay (cfg_nodelay (t_config t)) || (Kcp_nsnd_que (t_kcp t) >? 1)
            then set_flag FLUSH t else t)
  | (Err _, k) => Some (t <| t_kcp := k |>)
  | (Panic, _) => None
  end.

(** One turn of [fin_transit_state]: the next state, or [None] for [break]. *)
Definition fin_next (t : Task) : option (option Handshake * Task) :=
  match t_hs t with
  | Syn => Some (Some Disconnected, t)
  | Connected =>
      let '(now, t) := system_time t in
      Some (Some FinPending,
            t <| t_hs_end_time := now +w u32 (as_secs (shutdown_timeout (t_config t))) *w 1000 |>)
  | FinPending =>
      if negb (has t INPUT_CLOSED) || (Kcp_get_waitsnd (t_kcp t) >? 0) then Some (None, t)
      else
        match handshake_send t with
        | Some t => Some (Some FinSent, t)
        | None => None
        end
  | FinSent => if Kcp_get_waitsnd (t_kcp t) >? 0 then Some (None, t) else Some (Some FinWaitPeer, t)
  | FinWaitPeer =>
      if negb (has t FIN_RECVED) || (Kcp_nrcv_que (t_kcp t) +w Kcp_nrcv_buf (t_kcp t) >? 0)
      then Some (None, t) else Some (Some Disconnected, t)
  | Disconnected => Some (None, t)
  end.

(** The loop moves forward in the order of the states, so six turns are enough
    ([fin_loop_fuel]). *)
Fixpoint fin_loop (fuel : nat) (t : Task) : option Task :=
  match fuel with
  | O => None
  | S fuel =>
      match fin_next t with
      | None => None
      | Some (None, t) => Some t
      | Some (Some hs, t) => fin_loop fuel (set_handshake hs t)
      end
  end.
Definition fin_transit_state (t : Task) : option Task := fin_loop 6 t.

(** [Ok(())] is [true]. *)
Definition syn_handshake_input (packet : bytes) (t : Task) : option (bool * Task) :=
  match read_conv packet with
  | Some conv =>
      if is_client t then
        if bool_decide (t_hs t = Syn) && negb (conv =? SYN_CONV) then
          match Kcp_input (Kcp_set_conv (t_kcp t) conv) packet with
          | (Panic, _) => None
          | (r, k) =>
              let k := if is_err r || (Kcp_get_waitsnd k >? 0) then Kcp_set_conv k SYN_CONV else k in
              Some (true, t <| t_kcp := k |>)
          end
        else Some (true, t)
      else if conv =? SYN_CONV then
        let mine := Kcp_conv (t_kcp t) in
        match Kcp_input (Kcp_set_conv (t_kcp t) conv) packet with
        | (Panic, _) => None
        | (_, k) => Some (true, t <| t_kcp := Kcp_set_conv k mine |>)
        end
      else Some (false, t)
  | None => Some (false, t)
  end.

Definition Task_kcp_input (packet : bytes) (t : Task) : option Task :=
  match Kcp_input (t_kcp t) packet with
  | (Ok _, k) => Some (set_flag FLUSH (t <| t_kcp := k |>))
  | (Err NotFound, k) => option_map snd (syn_handshake_input packet (t <| t_kcp := k |>))
  | (Err InvalidData, k) =>
      let t := t <| t_kcp := k |> in
      match read_cmd packet with
      | Ok cmd =>
          if negb (Z.land cmd KCP_RESET =? 0) then Some (set_handshake Disconnected t)
          else if negb (Z.land cmd KCP_FIN =? 0) then
            let t :=
              if negb (has t FIN_RECVED)
              then (set_flag FIN_RECVED t) <| t_input_open := false |> else t in
            match fin_transit_state t, write_cmd packet (Z.lxor cmd KCP_FIN) with
            | Some t, Ok packet =>
                match Kcp_input (t_kcp t) packet with
                | (Panic, _) => None
                | (_, k) => Some (t <| t_kcp := k |>)
                end
            | _, _ => None
            end
          else Some t
      | _ => None
      end
  | (_, _) => None
  end.

(** [tx_ok] is the outcome of [output_tx.try_send].  The result is [Ok(())] or [Err(())] and
    what was sent. *)
Definition syn_handshake_recv (tx_ok : bool) (t : Task) : option (bool * list Output * Task) :=
  let '(syn, t) := Task_kcp_recv t in
  match syn with
  | None => Some (true, [], t)
  | Some syn =>
      match strip_prefix (session_key (t_config t)) syn with
      | Some id =>
          if Zlen id =? session_id_len (t_config t) then
            let established (t : Task) : bool * list Output * Task :=
              let t := set_handshake Connected t in
              (tx_ok, if tx_ok then [OutConnected (Kcp_conv (t_kcp t))] else [], t) in
            if is_client t then
              if decide (t_session_id t = id)
              then Some (established (kcp_apply_nodelay t))
              else Some (false, [], t)
            else
              let t := t <| t_session_id := id |> in
              match handshake_send (kcp_apply_nodelay t) with
              | Some t => Some (established t)
              | None => None
              end
          else Some (false, [], t)
      | None => Some (false, [], t)
      end
  end.

(** ** The event loop *)

(** [KCP_FIN] marks the packets with a payload that leave in [FinSent]. *)
Definition mark_fin (hs : Handshake) (packet : bytes) : option bytes :=
  if decide (hs = FinSent) then
    match read_payload_data packet with
    | Some _ =>
        match read_cmd packet with
        | Ok cmd =>
            match write_cmd packet (Z.lor cmd KCP_FIN) with Ok packet => Some packet | _ => None end
        | _ => None
        end
    | None => Some packet
    end
  else Some packet.

(** [while let Some(packet) = kcp.pop_output()]: [feed_ok i] is the outcome of the [i]-th
    [sink.feed]; the result is what the sink took.  The queue gets shorter at every turn. *)
Fixpoint kcp_output_loop (fuel : nat) (feed_ok : nat -> bool) (i : nat) (hs : Handshake) (k : Kcp)
  : option (list bytes * Kcp) :=
  match fuel with
  | O => None
  | S fuel =>
      match Kcp_pop_output k with
      | (None, k) => Some ([], k)
      | (Some packet, k) =>
          match mark_fin hs (bm_bytes packet) with
          | None => None
          | Some packet =>
              if feed_ok i then
                match kcp_output_loop fuel feed_ok (S i) hs k with
                | Some (ps, k) => Some (packet :: ps, k)
                | None => None
                end
              else Some ([], k <| output_queue := [] |>)
          end
      end
  end.

(** [flush_ok] is the outcome of [sink.flush()]. *)
Definition kcp_output (feed_ok : nat -> bool) (flush_ok : bool) (hs : Handshake) (k : Kcp)
  : option (list bytes * bool * Kcp) :=
  match kcp_output_loop (S (length (output_queue k))) feed_ok 0 hs k with
  | Some (ps, k) => Some (ps, flush_ok, k)
  | None => None
  end.

(** [run] up to the loop. *)
Definition run_start (malloc_ok : bool) (draw : nat -> Byte.byte) (t : Task) : option Task :=
  let '(elapsed, t) := (clock (t_ticks t), t <| t_ticks := S (t_ticks t) |>) in
  let t := t <| t_kcp := Kcp_initialize elapsed (t_kcp t) |> in
  match kcp_apply_config malloc_ok t with
  | None => None
  | Some t =>
      let t := t <| t_hs := Syn |> in
      let '(now, t) := system_time t in
      let t := t <| t_hs_end_time := now +w u32 (as_secs (connect_timeout (t_config t))) *w 1000 |> in
      let t := t <| t_kcp := Kcp_set_nodelay (t_kcp t) true 100 0 false |> in
      let t := t <| t_last_io_time := Kcp_current (t_kcp t) |> in
      if Kcp_conv (t_kcp t) =? SYN_CONV then
        let t := set_flag CLIENT t in
        let t := t <| t_session_id := random_session_id (t_config t) draw |> in
        let t := t <| t_kcp := Kcp_set_conv (t_kcp t) SYN_CONV |> in
        handshake_send t
      else Some t
  end.

(** The head of the loop decides to leave it, to go round again, or to wait. *)
Inductive verdict := Break | Again | Select (interval : Z).

Definition expired (t : Task) : bool :=
  Kcp_is_dead_link (t_kcp t)
  || (Kcp_duration_since (t_kcp t) (t_last_io_time t)
      >=? u32 (as_secs (session_expire (t_config t)) * 1000)).

Definition loop_wait (t : Task) : verdict * Task :=
  let '(current, t) := system_time t in
  let interval := Z.min (Kcp_check (t_kcp t) current -w current) 60000 in
  let wait interval :=
    if interval =? 0 then (Again, t <| t_kcp := Kcp_update (t_kcp t) current |>)
    else (Select interval, t) in
  if decide (t_hs t = Connected) then wait interval
  else
    let timeout := t_hs_end_time t -w current in
    if i32 timeout >? 0 then wait (Z.min interval timeout)
    else (Again, set_handshake Disconnected t).

(** [cancelled]: the token was cancelled while the output was waiting for the sink. *)
Definition loop_head (feed_ok : nat -> bool) (flush_ok cancelled : bool) (t : Task)
  : option (list bytes * verdict * Task) :=
  let rest (ps : list bytes) (t : Task) :=
    if decide (t_hs t = Disconnected) then (ps, Break, t)
    else if expired t then (ps, Break, t)
    else let '(v, t) := loop_wait t in (ps, v, t) in
  if Kcp_has_ouput (t_kcp t) then
    match kcp_output feed_ok flush_ok (t_hs t) (t_kcp t) with
    | None => None
    | Some (ps, ok, k) =>
        if cancelled || negb ok then Some (ps, Break, t <| t_kcp := k |>)
        else Some (rest ps (t <| t_kcp := k |>))
    end
  else Some (rest [] t).

(** What the [select!] of the loop sees: a branch and the outcomes of the calls it makes.

    - [EvInput first more disconnected]: [input_rx.recv()] gave [first]; [try_recv] would then
      give the frames [more], and [Disconnected] rather than [Empty] after them.
    - [EvReserve ok permits]: [output_tx.reserve()] succeeded or not; [try_reserve] would then
      succeed [permits] times.
    - [EvTransport first more tx_ok]: [transport.next()] gave [first]; the packets [more] are
      ready after it; [tx_ok] is the outcome of a [try_send]. *)
Inductive event :=
| EvInput (first : option bytes) (more : list bytes) (disconnected : bool)
| EvReserve (ok : bool) (permits : nat)
| EvTransport (first : option bytes) (more : list bytes) (tx_ok : bool)
| EvSleep
| EvCancelled.

(** The [if] guards of the [select!] branches. *)
Definition event_enabled (ev : event) (t : Task) (tx_frame : option bytes) : bool :=
  match ev with
  | EvInput _ _ _ => negb (has t INPUT_CLOSED) && negb (Kcp_is_send_queue_full (t_kcp t))
  | EvReserve _ _ => match tx_frame with Some _ => true | None => false end
  | _ => true
  end.

(** Returns whether the channel was found closed. *)
Fixpoint input_more (more : list bytes) (disconnected : bool) (t : Task) : option (bool * Task) :=
  if Kcp_is_send_queue_full (t_kcp t) then Some (false, t)
  else
    match more with
    | [] => Some (disconnected, t)
    | frame :: more =>
        match process_input frame t with
        | Some t => input_more more disconnected t
        | None => None
        end
    end.

Definition on_input (first : option bytes) (more : list bytes) (disconnected : bool) (t : Task)
  : option Task :=
  let r :=
    match first with
    | Some frame =>
        match process_input frame t with
        | Some t => input_more more disconnected t
        | None => None
        end
    | None => Some (true, t)
    end in
  match r with
  | None => None
  | Some (closed, t) =>
      let t := if (closed : bool) then fin_transit_state (set_flag INPUT_CLOSED t) else Some t in
      option_map Task_kcp_flush t
  end.

(** [while let Some(frame) = self.kcp_recv()] with [permits] free places in the channel:
    what was sent, and the frame kept for later. *)
Fixpoint reserve_more (permits : nat) (t : Task) : list Output * option bytes * Task :=
  match Task_kcp_recv t with
  | (None, t) => ([], None, t)
  | (Some frame, t) =>
      match permits with
      | O => ([], Some frame, t)
      | S permits =>
          let '(out, tx, t) := reserve_more permits t in (OutFrame frame :: out, tx, t)
      end
  end.

Fixpoint input_packets (ps : list bytes) (t : Task) : option Task :=
  match ps with
  | [] => Some t
  | p :: ps => match Task_kcp_input p t with Some t => input_packets ps t | None => None end
  end.

Definition on_transport (first : bytes) (more : list bytes) (tx_ok : bool) (t : Task)
    (tx_frame : option bytes) : option (list Output * option bytes * Task) :=
  match input_packets (first :: take (Z.to_nat (cfg_rcv_wnd (t_config t) - 1)) more) t with
  | None => None
  | Some t =>
      let r :=
        if decide (t_hs t = Syn) then
          match syn_handshake_recv tx_ok t with
          | Some (ok, out, t) => Some (out, if ok then t else set_handshake Disconnected t)
          | None => None
          end
        else if is_fin_handshake t then option_map (pair []) (fin_transit_state t)
        else Some ([], t) in
      match r with
      | None => None
      | Some (out, t) =>
          let '(tx_frame, t) :=
            match tx_frame with Some f => (Some f, t) | None => Task_kcp_recv t end in
          Some (out, tx_frame, Task_kcp_flush t)
      end
  end.

(** One [select!]: what is sent to the program, whether the loop goes on, the kept frame. *)
Definition select_branch (ev : event) (t : Task) (tx_frame : option bytes)
  : option (list Output * bool * option bytes * Task) :=
  match ev with
  | EvInput first more disconnected =>
      match on_input first more disconnected t with
      | Some t => Some ([], true, tx_frame, t)
      | None => None
      end
  | EvReserve true permits =>
      let '(out, tx, t) := reserve_more permits t in
      Some (match tx_frame with Some f => [OutFrame f] | None => [] end ++ out, true, tx, t)
  | EvReserve false _ => Some ([], false, tx_frame, t)
  | EvTransport (Some first) more tx_ok =>
      match on_transport first more tx_ok t tx_frame with
      | Some (out, tx, t) => Some (out, true, tx, t)
      | None => None
      end
  | EvTransport None _ _ => Some ([], false, tx_frame, t)
  | EvSleep => Some ([], true, tx_frame, t)
  | EvCancelled => Some ([], false, tx_frame, t)
  end.

(** The turns of the loop that go round again, with the kept frame as part of the state.
    [allowed] restricts what the environment does. *)
Inductive run_step (allowed : event -> Task -> Prop)
  : Task * option bytes -> Task * option bytes -> Prop :=
| run_again feed_ok flush_ok t tx_frame ps t' :
    loop_head feed_ok flush_ok false t = Some (ps, Again, t') ->
    run_step allowed (t, tx_frame) (t', tx_frame)
| run_select feed_ok flush_ok t tx_frame ps interval t1 ev out tx_frame' t' :
    loop_head feed_ok flush_ok false t = Some (ps, Select interval, t1) ->
    event_enabled ev t1 tx_frame = true -> allowed ev t1 ->
    select_branch ev t1 tx_frame = Some (out, true, tx_frame', t') ->
    run_step allowed (t, tx_frame) (t', tx_frame').

(** After the loop: the RESET packet handed to the half-close pool, if the session has a
    conversation number, and the number reported to [disconnect]. *)
Definition run_exit (t : Task) : option bytes * Z :=
  let conv := Kcp_conv (t_kcp t) in
  (if is_valid_conv conv
   then Some (bm_bytes (Kcp_write_ack_head (clock (t_ticks t)) (t_kcp t) bm_new KCP_RESET 0))
   else None, conv).
End Stream.
