(* ===== verification/StreamIo.v ===== *)
(** [src/stream.rs]: the program's end of a session, [KcpStream]: [AsyncRead], [AsyncWrite],
    [Stream] and [Sink] over the two channels of the task. *)
From S2P Require Import Prelude Bytes IkcpTypes Protocol Config Stream.

Inductive poll (A : Type) := Ready (a : A) | Pending.
Arguments Ready {A} a.
Arguments Pending {A}.

Record KcpStream := mkStream {
  ks_config : KcpConfig;
  ks_conv : Z;
  ks_input_closed : bool;      (* [input_sink] has been closed *)
  ks_cancelled : bool;         (* [token] has been cancelled *)
  ks_rx_closed : bool;         (* [output_rx] has been closed *)
  ks_read_buf : option bytes
}.
#[export] Instance eta_KcpStream : Eta KcpStream := fun s =>
  mkStream (ks_config s) (ks_conv s) (ks_input_closed s) (ks_cancelled s) (ks_rx_closed s)
    (ks_read_buf s).

Definition KcpStream_new (config : KcpConfig) : KcpStream := mkStream config 0 false false false None.

(** The checks of [accept] before the task is created. *)
Definition accept_check (conv : Z) : io_result unit :=
  if negb (is_valid_conv conv) then Err InvalidInput else Ok tt.

Definition try_close (s : KcpStream) : KcpStream :=
  s <| ks_cancelled := true |> <| ks_rx_closed := true |>.

(** [Drop]. *)
Definition KcpStream_drop (s : KcpStream) : KcpStream := try_close s.

(** [PollSender::close] of the input channel, without waiting. *)
Definition shutdown_immediately (s : KcpStream) : KcpStream := s <| ks_input_closed := true |>.

(** [task_done]: the task's [JoinHandle] is ready, or has been taken before. *)
Definition poll_close (task_done : bool) (s : KcpStream) : poll (io_result unit) * KcpStream :=
  let s := s <| ks_input_closed := true |> in
  let s := try_close s in
  (if task_done then Ready (Ok tt) else Pending, s).

Definition poll_shutdown : bool -> KcpStream -> poll (io_result unit) * KcpStream := poll_close.

(** [first] is what [output_rx.recv()] gives.  On failure the stream is closed and dropped: the
    second component. *)
Definition wait_connection (first : option Output) (s : KcpStream)
  : io_result KcpStream * option KcpStream :=
  match first with
  | Some (OutConnected conv) => (Ok (s <| ks_conv := conv |>), None)
  | _ => (Err TimedOut, Some (KcpStream_drop (snd (poll_close true s))))
  end.

(** [connect] and [accept]: the task that is spawned, if one is, what the caller gets, and the
    stream that is dropped. *)
Definition KcpStream_connect {BM : BytesMut} (config : KcpConfig) (first : option Output)
  : Task * (io_result KcpStream * option KcpStream) :=
  (Task_new config SYN_CONV, wait_connection first (KcpStream_new config)).

Definition KcpStream_accept {BM : BytesMut} (config : KcpConfig) (conv : Z) (first : option Output)
  : option Task * (io_result KcpStream * option KcpStream) :=
  match accept_check conv with
  | Ok _ => (Some (Task_new config conv), wait_connection first (KcpStream_new config))
  | Err e => (None, (Err e, None))
  | Panic => (None, (Panic, None))
  end.

(** The accessors [config] and [conv]. *)
Definition KcpStream_config (s : KcpStream) : KcpConfig := ks_config s.
Definition KcpStream_conv (s : KcpStream) : Z := ks_conv s.

(** [Sink<Bytes>]: [ready] and [sent] are the outcomes of the inner channel. *)
Definition KcpStream_poll_ready (ready : poll bool) : poll (io_result unit) :=
  match ready with
  | Ready true => Ready (Ok tt)
  | Ready false => Ready (Err NotConnected)
  | Pending => Pending
  end.

Definition KcpStream_start_send (sent : bool) : io_result unit :=
  if sent then Ok tt else Err NotConnected.

Definition KcpStream_poll_flush : poll (io_result unit) := Ready (Ok tt).

(** [rx] are the messages in the output channel, [closed] tells what follows them: the end of
    the channel, or nothing yet. *)
Fixpoint next_frame (rx : list Output) (closed : bool) : poll (option bytes) * list Output :=
  match rx with
  | [] => (if closed then Ready None else Pending, [])
  | OutFrame frame :: rx => (Ready (Some frame), rx)
  | OutConnected _ :: rx => next_frame rx closed
  end.

Definition poll_next (rx : list Output) (closed : bool) (s : KcpStream)
  : poll (option bytes) * list Output * KcpStream :=
  match ks_read_buf s with
  | Some b => (Ready (Some b), rx, s <| ks_read_buf := None |>)
  | None => let '(p, rx) := next_frame rx closed in (p, rx, s)
  end.

(** [while this.read_buf.is_none()]: [None] is the exit of the loop, [Some p] the early
    [return].  Every turn takes a message, so their number and one is fuel enough. *)
Fixpoint fill_read_buf (fuel : nat) (rx : list Output) (closed : bool) (s : KcpStream)
  : option (poll (io_result unit)) * list Output * KcpStream :=
  match ks_read_buf s with
  | Some _ => (None, rx, s)
  | None =>
      match fuel with
      | O => (Some Pending, rx, s)
      | S fuel =>
          let '(p, rx, s) := poll_next rx closed s in
          match p with
          | Ready (Some chunk) =>
              fill_read_buf fuel rx closed
                (match chunk with [] => s | _ :: _ => s <| ks_read_buf := Some chunk |> end)
          | Ready None => (Some (Ready (Ok tt)), rx, s)
          | Pending => (Some Pending, rx, s)
          end
      end
  end.

(** [remaining] is the free room of the caller's [ReadBuf]; the second component is what is
    put in it. *)
Definition poll_read (remaining : Z) (rx : list Output) (closed : bool) (s : KcpStream)
  : poll (io_result unit) * bytes * list Output * KcpStream :=
  if remaining =? 0 then (Ready (Ok tt), [], rx, s)
  else
    let '(r, rx, s) := fill_read_buf (S (length rx)) rx closed s in
    match r with
    | Some p => (p, [], rx, s)
    | None =>
        match ks_read_buf s with
        | Some chunk =>
            let len := Z.min (Zlen chunk) remaining in
            let put := take (Z.to_nat len) chunk in
            let s :=
              if len <? Zlen chunk
              then s <| ks_read_buf := Some (drop (Z.to_nat len) chunk) |>
              else s <| ks_read_buf := None |> in
            (Ready (Ok tt), put, rx, s)
        | None => (Ready (Ok tt), [], rx, s)
        end
    end.

(** [buf.chunks(n)]; the caller has checked that [n] is not zero. *)
Fixpoint chunks (fuel : nat) (n : nat) (buf : bytes) : list bytes :=
  match fuel, buf with
  | O, _ | _, [] => []
  | S fuel, _ => take n buf :: chunks fuel n (drop n buf)
  end.

(** [ready i] and [send_ok i] are the outcomes of the [i]-th [poll_ready] and [start_send]. *)
Fixpoint write_loop (cs : list bytes) (ready : nat -> poll bool) (send_ok : nat -> bool) (i : nat)
    (len : Z) : poll (io_result Z) * list bytes :=
  match cs with
  | [] => (Ready (Ok len), [])
  | chunk :: cs =>
      match ready i with
      | Ready true =>
          if send_ok i then
            let '(r, sent) := write_loop cs ready send_ok (S i) (len + Zlen chunk) in
            (r, chunk :: sent)
          else if len >? 0 then (Ready (Ok len), []) else (Ready (Err NotConnected), [])
      | Ready false => if len >? 0 then (Ready (Ok len), []) else (Ready (Err NotConnected), [])
      | Pending => if len >? 0 then (Ready (Ok len), []) else (Pending, [])
      end
  end.

(** The result and the frames put in the input channel; [chunks] panics on a zero size. *)
Definition poll_write (buf : bytes) (ready : nat -> poll bool) (send_ok : nat -> bool)
    (s : KcpStream) : poll (io_result Z) * list bytes :=
  match buf with
  | [] => (Ready (Ok 0), [])
  | _ :: _ =>
      let n := max_frame_size (cfg_mtu (ks_config s)) in
      if n =? 0 then (Ready Panic, [])
      else write_loop (chunks (length buf) (Z.to_nat n) buf) ready send_ok 0 0
  end.

(** [AsyncWrite::poll_flush] gives no more than the one of the sink. *)
Definition write_poll_flush : poll (io_result unit) := Ready (Ok tt).

(** ** Reading and writing whole streams *)

(** The bytes on their way to the program. *)
Definition frame_bytes (o : Output) : bytes :=
  match o with OutFrame b => b | OutConnected _ => [] end.
Definition unread (rx : list Output) (s : KcpStream) : bytes :=
  default [] (ks_read_buf s) ++ concat (map frame_bytes rx).

Lemma next_frame_spec rx closed :
  let '(p, rx') := next_frame rx closed in
  (length rx' <= length rx)%nat /\
  match p with
  | Ready (Some f) => (length rx' < length rx)%nat /\
      concat (map frame_bytes rx) = f ++ concat (map frame_bytes rx')
  | Ready None => closed = true /\ rx' = [] /\ concat (map frame_bytes rx) = []
  | Pending => closed = false /\ rx' = [] /\ concat (map frame_bytes rx) = []
  end.
Proof.
  induction rx as [|[c|f] rx IH]; cbn [next_frame].
  - by destruct closed.
  - destruct (next_frame rx closed) as [p rx']. cbn [length map concat frame_bytes app].
    destruct IH as [Hl IH]. split; [lia|]. destruct p as [[f|]|]; [|done..].
    destruct IH as [? IH]. split; [lia|done].
  - cbn [length map concat frame_bytes]. split; [lia|]. split; [lia|done].
Qed.

Lemma fill_read_buf_spec fuel rx closed s :
  (length rx < fuel)%nat -> (forall b, ks_read_buf s = Some b -> b <> []) ->
  let '(r, rx', s') := fill_read_buf fuel rx closed s in
  unread rx' s' = unread rx s /\
  match r with
  | None => exists b, ks_read_buf s' = Some b /\ b <> []
  | Some p => p = (if closed then Ready (Ok tt) else Pending) /\ unread rx s = [] /\
      ks_read_buf s' = None
  end.
Proof.
  revert rx s. induction fuel as [|fuel IH]; intros rx s Hf Hne; [lia|]. cbn [fill_read_buf].
  destruct (ks_read_buf s) as [b|] eqn:E; [split; [done|]; exists b; auto|].
  unfold poll_next. rewrite E. pose proof (next_frame_spec rx closed) as Hn.
  destruct (next_frame rx closed) as [p rx1]. destruct Hn as [Hl Hn].
  assert (unread rx s = concat (map frame_bytes rx)) as Eu by (unfold unread; by rewrite E).
  destruct p as [[chunk|]|].
  - destruct Hn as [Hl1 Hc].
    set (s1 := match chunk with [] => s | _ :: _ => s <| ks_read_buf := Some chunk |> end).
    assert (unread rx1 s1 = unread rx s) as Eu1.
    { rewrite Eu, Hc. unfold unread, s1. destruct chunk; simp_upd; [by rewrite E|done]. }
    specialize (IH rx1 s1 ltac:(lia)). rewrite Eu1 in IH. apply IH.
    unfold s1. destruct chunk; simp_upd; [by rewrite E|]. by intros b' [= <-].
  - destruct Hn as (-> & -> & Hc). rewrite Eu, Hc. unfold unread. by rewrite E.
  - destruct Hn as (-> & -> & Hc). rewrite Eu, Hc. unfold unread. by rewrite E.
Qed.

Lemma poll_read_spec remaining rx closed s :
  0 <= remaining -> (forall b, ks_read_buf s = Some b -> b <> []) ->
  let '(p, put, rx', s') := poll_read remaining rx closed s in
  put ++ unread rx' s' = unread rx s /\ Zlen put <= remaining /\
  (forall b, ks_read_buf s' = Some b -> b <> []) /\
  (remaining = 0 \/ unread rx s = [] \/ put <> []) /\
  p = (if (remaining =? 0) || negb (bool_decide (unread rx s = [])) || closed
       then Ready (Ok tt) else Pending).
Proof.
  intros Hr Hne. unfold poll_read. destruct (Z.eqb_spec remaining 0) as [->|Hr0].
  { split_and!; try done. by left. }
  pose proof (fill_read_buf_spec (S (length rx)) rx closed s ltac:(lia) Hne) as Hf.
  destruct (fill_read_buf _ rx closed s) as [[[p|] rx1] s1]; destruct Hf as [Eu Hf].
  - destruct Hf as (-> & E0 & E1). rewrite <- Eu in *. cbn [app]. unfold Zlen. cbn [length].
    split_and!; [done|lia|by rewrite E1|by right; left|]. rewrite E0. by destruct closed.
  - destruct Hf as (b & Eb & Hb). rewrite Eb. cbv zeta. pose proof (Zlen_pos b Hb) as Hpos.
    assert (unread rx s <> []) as Hun.
    { rewrite <- Eu. unfold unread. rewrite Eb. cbn. by destruct b. }
    assert (bool_decide (unread rx s = []) = false) as -> by (by apply bool_decide_eq_false).
    cbn [negb orb].
    assert (Zlen (take (Z.to_nat (Z.min (Zlen b) remaining)) b) = Z.min (Zlen b) remaining) as El.
    { unfold Zlen in *. rewrite length_take. lia. }
    split_and!; [|rewrite El; lia| |right; right; intros F; rewrite F in El;
      unfold Zlen in El, Hpos; cbn in El; lia|done].
    + rewrite <- Eu. unfold unread. rewrite Eb. cbn [default].
      destruct (Z.ltb_spec (Z.min (Zlen b) remaining) (Zlen b)) as [Hlt|Hge]; simp_upd; cbn [default id].
      * by rewrite app_assoc, take_drop.
      * rewrite take_ge by (unfold Zlen in *; lia). done.
    + destruct (Z.ltb_spec (Z.min (Zlen b) remaining) (Zlen b)) as [Hlt|Hge]; simp_upd; [|done].
      intros b' [= <-] F. apply (f_equal length) in F. rewrite length_drop in F.
      unfold Zlen in *. cbn in F. lia.
Qed.

(** ** Writing *)

Lemma chunks_spec fuel n buf :
  (length buf <= fuel)%nat -> (0 < n)%nat ->
  concat (chunks fuel n buf) = buf /\
  Forall (fun c => c <> [] /\ (length c <= n)%nat) (chunks fuel n buf).
Proof.
  revert buf. induction fuel as [|fuel IH]; intros [|x buf] Hf Hn; cbn [chunks];
    [done|cbn in Hf; lia|done|].
  destruct (IH (drop n (x :: buf))) as [E H]; [rewrite length_drop; cbn [length] in *; lia|done|].
  cbn [concat]. rewrite E, take_drop. split; [done|]. constructor; [|done].
  split; [destruct n; [lia|done]|]. rewrite length_take. lia.
Qed.

Lemma write_loop_spec cs ready send_ok i len :
  Forall (fun c => c <> []) cs -> 0 <= len ->
  let '(r, sent) := write_loop cs ready send_ok i len in
  (exists rest, cs = sent ++ rest) /\
  match r with
  | Ready (Ok n) => n = len + Zlen (concat sent) /\ (cs <> [] -> 0 < n)
  | Ready (Err e) => e = NotConnected /\ len = 0 /\ sent = []
  | Ready Panic => False
  | Pending => len = 0 /\ sent = []
  end.
Proof.
  revert i len. induction cs as [|c cs IH]; intros i len Hcs Hlen; cbn [write_loop].
  - split; [by exists []|]. unfold Zlen. cbn. split; [lia|done].
  - apply Forall_cons in Hcs as [Hc Hcs]. pose proof (Zlen_pos c Hc) as Hp.
    assert (exists rest, c :: cs = [] ++ rest) as H0 by (by exists (c :: cs)).
    destruct (ready i) as [[|]|].
    + destruct (send_ok i).
      * specialize (IH (S i) (len + Zlen c) Hcs ltac:(lia)).
        destruct (write_loop cs ready send_ok (S i) (len + Zlen c)) as [r sent].
        destruct IH as [[rest ->] IH]. split; [by exists rest|].
        destruct r as [[n|e|]|]; [|destruct IH as (_ & ? & _); lia|done|destruct IH; lia].
        destruct IH as [-> _]. cbn [concat]. rewrite Zlen_app.
        pose proof (Zlen_nonneg (concat sent)). split; [lia|]. lia.
      * destruct (Z.gtb_spec len 0); (split; [done|]); [|split_and!; [done|lia|done]].
        unfold Zlen. cbn. split; lia.
    + destruct (Z.gtb_spec len 0); (split; [done|]); [|split_and!; [done|lia|done]].
      unfold Zlen. cbn. split; lia.
    + destruct (Z.gtb_spec len 0); (split; [done|]); [|split_and!; [lia|done]].
      unfold Zlen. cbn. split; lia.
Qed.

Lemma poll_write_spec buf ready send_ok s :
  max_frame_size (cfg_mtu (ks_config s)) <> 0 ->
  let '(r, sent) := poll_write buf ready send_ok s in
  Forall (fun c => c <> [] /\ Zlen c <= max_frame_size (cfg_mtu (ks_config s))) sent /\
  match r with
  | Ready (Ok n) => concat sent = take (Z.to_nat n) buf /\ n = Zlen (concat sent) /\
      (buf <> [] -> 0 < n)
  | Ready (Err e) => e = NotConnected /\ sent = []
  | Ready Panic => False
  | Pending => sent = []
  end.
Proof.
  intros Hm. unfold poll_write. destruct buf as [|x buf']; [by repeat constructor|].
  set (buf := x :: buf'). destruct (Z.eqb_spec (max_frame_size (cfg_mtu (ks_config s))) 0); [done|].
  assert (0 < max_frame_size (cfg_mtu (ks_config s))) as Hpos.
  { unfold max_frame_size in *. match goal with |- 0 < u32 ?x => pose proof (u32_range x) end. lia. }
  set (mf := max_frame_size _) in *.
  destruct (chunks_spec (length buf) (Z.to_nat mf) buf) as [Ec Hc]; [lia|lia|].
  set (cs := chunks _ _ _) in *.
  pose proof (write_loop_spec cs ready send_ok 0 0) as Hw.
  destruct (write_loop cs ready send_ok 0 0) as [r sent].
  destruct Hw as [[rest Er] Hw]; [eapply Forall_impl; [exact Hc|]; by intros c [? _]|lia|].
  split.
  - rewrite Er in Hc. apply Forall_app in Hc as [Hc _]. eapply Forall_impl; [exact Hc|].
    intros c [? ?]. split; [done|]. unfold Zlen. lia.
  - destruct r as [[k|e|]|]; [|tauto|done|tauto]. destruct Hw as [-> Hk].
    rewrite Z.add_0_l. split_and!; [|done|].
    + rewrite <- Ec, Er, concat_app. unfold Zlen. by rewrite Nat2Z.id, take_app_length.
    + intros _. rewrite <- (Z.add_0_l (Zlen _)). apply Hk. intros F. rewrite F in Ec. done.
Qed.
