(* ===== verification/StreamSpec.v ===== *)
(** The session task as a state machine: its states only move forward, it never panics, and
    the frames that open and close a session are told apart from data. *)
From S2P Require Import Prelude Bytes IkcpTypes IkcpSend IkcpInput IkcpFlush IkcpFlushSpec.
From S2P Require Import IkcpInv Wire Delivery Protocol ProtocolSpec Config Stream.

(** ** Flags *)

Lemma land_pow2_testbit x n : 0 <= n -> negb (Z.land x (2 ^ n) =? 0) = Z.testbit x n.
Proof.
  intros Hn. destruct (Z.testbit x n) eqn:E.
  - destruct (Z.eqb_spec (Z.land x (2 ^ n)) 0) as [F|]; [|done].
    apply (f_equal (fun z => Z.testbit z n)) in F.
    rewrite Z.land_spec, Z.pow2_bits_true, Z.bits_0, E in F; done.
  - replace (Z.land x (2 ^ n)) with 0; [done|]. symmetry. apply Z.bits_inj'. intros i Hi.
    rewrite Z.land_spec, Z.bits_0. destruct (Z.eq_dec i n) as [->|]; [by rewrite E|].
    rewrite Z.pow2_bits_false by lia. apply andb_false_r.
Qed.

Section Task.
Context {BM : BytesMut} (clock : nat -> Z * Z).
Implicit Types t : Task.

Lemma has_bit t n st : 0 <= n -> st = 2 ^ n -> has t st = Z.testbit (t_flags t) n.
Proof. intros Hn ->. unfold has. by apply land_pow2_testbit. Qed.

Lemma has_CLIENT t : has t CLIENT = Z.testbit (t_flags t) 0.
Proof. by apply has_bit. Qed.
Lemma has_FLUSH t : has t FLUSH = Z.testbit (t_flags t) 1.
Proof. by apply has_bit. Qed.
Lemma has_FIN t : has t FIN_RECVED = Z.testbit (t_flags t) 2.
Proof. by apply has_bit. Qed.
Lemma has_CLOSED t : has t INPUT_CLOSED = Z.testbit (t_flags t) 3.
Proof. by apply has_bit. Qed.

(** ** Forward steps

    What every step of the task keeps: the order of the states, the configuration, the role,
    and the flags that are never cleared. *)
Record forward (t t' : Task) : Prop := {
  fw_hs : hs_le (t_hs t) (t_hs t');
  fw_config : t_config t' = t_config t;
  fw_client : is_client t' = is_client t;
  fw_fin : has t FIN_RECVED = true -> has t' FIN_RECVED = true;
  fw_closed : has t INPUT_CLOSED = true -> has t' INPUT_CLOSED = true;
  fw_input : t_input_open t' = true -> t_input_open t = true;
  fw_session : t_hs t <> Syn -> t_session_id t' = t_session_id t
}.

#[export] Instance forward_preorder : PreOrder forward.
Proof.
  split.
  - intros t. split; try done. apply Nat.le_refl.
  - intros t1 t2 t3 [A1 A2 A3 A4 A5 A6 A7] [B1 B2 B3 B4 B5 B6 B7].
    split; [exact (Nat.le_trans _ _ _ A1 B1)|by rewrite B2|by rewrite B3|auto..].
    intros Hs. rewrite B7; [by apply A7|]. intros E. apply Hs. unfold hs_le in A1. rewrite E in A1.
    destruct (t_hs t1); [reflexivity|exfalso; cbn [hs_rank] in A1; lia..].
Qed.

(** A step that only touches the wrapper, the buffer, the clock or the timers. *)
Lemma forward_same t t' :
  t_hs t' = t_hs t -> t_config t' = t_config t -> t_flags t' = t_flags t ->
  t_input_open t' = t_input_open t -> t_session_id t' = t_session_id t -> forward t t'.
Proof.
  intros E1 E2 E3 E4 E5. unfold is_client, has. split; unfold hs_le, is_client, has;
    rewrite ?E1, ?E2, ?E3, ?E4, ?E5; done.
Qed.

Lemma forward_flag st t : Z.testbit st 0 = false -> forward t (set_flag st t).
Proof.
  intros H0. split; unfold hs_le, is_client; rewrite ?has_CLIENT, ?has_FIN, ?has_CLOSED;
    unfold set_flag; simp_upd; rewrite ?Z.lor_spec; [done|done|by rewrite H0, orb_false_r| | |done|done];
    by intros ->.
Qed.

Lemma forward_set_handshake hs t : hs_le (t_hs t) hs -> forward t (set_handshake hs t).
Proof.
  intros H. unfold set_handshake. destruct (decide _); [done|]. by split.
Qed.

Lemma forward_close_input t : forward t (t <| t_input_open := false |>).
Proof. split; try done. apply Nat.le_refl. Qed.

Lemma t_hs_set_handshake hs t : t_hs (set_handshake hs t) = hs.
Proof. unfold set_handshake. by destruct (decide _). Qed.

Lemma hs_le_Disconnected hs : hs_le hs Disconnected.
Proof. unfold hs_le. destruct hs; cbn; lia. Qed.

Ltac fwd_same := apply forward_same; by simp_upd.

(** A step that keeps the state as well. *)
Record steady (t t' : Task) : Prop := {
  sd_forward : forward t t';
  sd_hs : t_hs t' = t_hs t;
  sd_session : t_session_id t' = t_session_id t
}.
#[export] Instance steady_preorder : PreOrder steady.
Proof.
  split; [by split|]. intros t1 t2 t3 [A1 A2 A3] [B1 B2 B3].
  split; [by transitivity t2|congruence|congruence].
Qed.

Lemma steady_same t t' :
  t_hs t' = t_hs t -> t_config t' = t_config t -> t_flags t' = t_flags t ->
  t_input_open t' = t_input_open t -> t_session_id t' = t_session_id t -> steady t t'.
Proof. intros. split; [by apply forward_same|done|done]. Qed.

Lemma steady_flag st t : Z.testbit st 0 = false -> steady t (set_flag st t).
Proof. intros. split; [by apply forward_flag|done|done]. Qed.

Lemma steady_flush t : steady t (Task_kcp_flush clock t).
Proof.
  unfold Task_kcp_flush, system_time. destruct (has t FLUSH) eqn:E; [|done].
  split; [|by simp_upd|by simp_upd].
  split; unfold hs_le, is_client; rewrite ?has_CLIENT, ?has_FIN, ?has_CLOSED; simp_upd; try done;
    rewrite Z.lxor_spec; [by rewrite xorb_false_r|by intros ->..].
Qed.

Lemma steady_handshake_send t t' : handshake_send clock t = Some t' -> steady t t'.
Proof.
  unfold handshake_send. destruct (Kcp_send _ _) as [[n|e|] k]; [|done|done]. intros [= <-].
  etransitivity; [|apply steady_flush]. etransitivity; [by apply (steady_flag FLUSH)|].
  apply steady_same; by simp_upd.
Qed.

Lemma steady_recv t : steady t (snd (Task_kcp_recv t)).
Proof.
  unfold Task_kcp_recv. destruct (_ && _), (Kcp_recv_bytes _); cbn [snd]; by apply steady_same.
Qed.

Lemma steady_process_input frame t t' : process_input frame t = Some t' -> steady t t'.
Proof.
  unfold process_input. destruct (Kcp_send _ _) as [[n|e|] k]; [|..|done]; intros [= <-].
  - destruct (_ || _); [|by apply steady_same].
    etransitivity; [|by apply steady_flag]. by apply steady_same.
  - by apply steady_same.
Qed.

(** ** [fin_transit_state] *)

(** Each turn goes to a later state, and keeps everything else. *)
Lemma fin_next_forward t r t' :
  fin_next clock t = Some (r, t') ->
  steady t t' /\ forall hs, r = Some hs -> (hs_rank (t_hs t) < hs_rank hs)%nat.
Proof.
  unfold fin_next, system_time. destruct (t_hs t) eqn:Eh.
  - intros [= <- <-]. split; [done|]. intros hs [= <-]. cbn. lia.
  - intros [= <- <-]. split; [by apply steady_same|]. intros hs [= <-]. cbn. lia.
  - destruct (_ || _); [by intros [= <- <-]|].
    destruct (handshake_send clock t) as [t1|] eqn:E; [|done]. intros [= <- <-].
    split; [by apply steady_handshake_send|]. intros hs [= <-]. cbn. lia.
  - destruct (_ >? 0); intros [= <- <-]; (split; [done|]); [done|]. intros hs [= <-]. cbn. lia.
  - destruct (_ || _); intros [= <- <-]; (split; [done|]); [done|]. intros hs [= <-]. cbn. lia.
  - by intros [= <- <-].
Qed.

Lemma session_set_handshake hs t : t_session_id (set_handshake hs t) = t_session_id t.
Proof. unfold set_handshake. by destruct (decide _). Qed.

Lemma fin_loop_forward fuel t t' :
  fin_loop clock fuel t = Some t' -> forward t t' /\ t_session_id t' = t_session_id t.
Proof.
  revert t. induction fuel as [|fuel IH]; intros t; cbn [fin_loop]; [done|].
  destruct (fin_next clock t) as [[r t1]|] eqn:E; [|done].
  destruct (fin_next_forward t r t1 E) as [[Hf Hh Hs] Hr].
  destruct r as [hs|]; [|by intros [= <-]]. intros Hl. destruct (IH _ Hl) as [H1 H2].
  split; [|by rewrite H2, session_set_handshake].
  transitivity t1; [done|]. transitivity (set_handshake hs t1); [|done].
  apply forward_set_handshake. unfold hs_le. rewrite Hh. specialize (Hr hs eq_refl). lia.
Qed.

Lemma fin_transit_forward t t' :
  fin_transit_state clock t = Some t' -> forward t t' /\ t_session_id t' = t_session_id t.
Proof. apply fin_loop_forward. Qed.

Lemma fin_loop_step fuel t :
  fin_loop clock (S fuel) t =
    match fin_next clock t with
    | None => None
    | Some (None, t) => Some t
    | Some (Some hs, t) => fin_loop clock fuel (set_handshake hs t)
    end.
Proof. done. Qed.

(** More fuel than the states ahead changes nothing, so six turns are enough. *)
Lemma fin_loop_fuel fuel t :
  (5 < fuel + hs_rank (t_hs t))%nat -> fin_loop clock fuel t = fin_loop clock (S fuel) t.
Proof.
  revert t. induction fuel as [|fuel IH]; intros t Hf.
  - destruct (t_hs t); cbn in Hf; lia.
  - rewrite (fin_loop_step fuel), (fin_loop_step (S fuel)).
    destruct (fin_next clock t) as [[[hs|] t1]|] eqn:E; [|done..].
    destruct (fin_next_forward t _ t1 E) as [_ Hr]. specialize (Hr hs eq_refl).
    apply IH. rewrite t_hs_set_handshake. lia.
Qed.

(** ** The other handlers *)

Lemma forward_syn_input packet t ok t' :
  syn_handshake_input packet t = Some (ok, t') -> steady t t'.
Proof.
  unfold syn_handshake_input. destruct (read_conv packet) as [c|]; [|by intros [= <- <-]].
  destruct (is_client t).
  - destruct (_ && _); [|by intros [= <- <-]].
    destruct (Kcp_input _ packet) as [[[]|e|] k]; [..|done]; intros [= <- <-]; by apply steady_same.
  - destruct (c =? SYN_CONV); [|by intros [= <- <-]].
    destruct (Kcp_input _ packet) as [[[]|e|] k]; [..|done]; intros [= <- <-]; by apply steady_same.
Qed.

Lemma forward_input packet t t' :
  Task_kcp_input clock packet t = Some t' -> forward t t' /\ t_session_id t' = t_session_id t.
Proof.
  assert (forall k, forward t (t <| t_kcp := k |>)) as Hk by (intros k; by apply forward_same).
  unfold Task_kcp_input. destruct (Kcp_input (t_kcp t) packet) as [[[]|e|] k]; [|destruct e|done];
    try done.
  - intros [= <-]. split; [|done]. transitivity (t <| t_kcp := k |>); [done|]. by apply forward_flag.
  - destruct (read_cmd packet) as [cmd|e|]; [|done..].
    destruct (negb (Z.land cmd KCP_RESET =? 0)).
    { intros [= <-]. rewrite session_set_handshake. split; [|done].
      transitivity (t <| t_kcp := k |>); [done|].
      apply forward_set_handshake, hs_le_Disconnected. }
    destruct (negb (Z.land cmd KCP_FIN =? 0)); [|intros [= <-]; by split].
    set (t1 := if negb _ then _ else _).
    assert (forward t t1 /\ t_session_id t1 = t_session_id t) as [H1 Hs1].
    { unfold t1. destruct (negb _); [|done]. split; [|done].
      transitivity (set_flag FIN_RECVED (t <| t_kcp := k |>));
        [transitivity (t <| t_kcp := k |>); [done|by apply forward_flag]|].
      apply forward_close_input. }
    clearbody t1.
    destruct (fin_transit_state clock t1) as [t2|] eqn:E2; [|done].
    destruct (fin_transit_forward _ _ E2) as [H2 Hs2].
    destruct (write_cmd packet _) as [p2|e|]; [|done..].
    assert (forall k, forward t (t2 <| t_kcp := k |>)) as H3.
    { intros k'. transitivity t1; [done|]. transitivity t2; [done|]. by apply forward_same. }
    destruct (Kcp_input (t_kcp t2) p2) as [[[]|e|] k']; [..|done]; intros [= <-];
      (split; [done|]); simp_upd; by rewrite Hs2.
  - unfold option_map. destruct (syn_handshake_input _ _) as [[ok t1]|] eqn:E; [|done].
    intros [= <-]. cbn [snd]. destruct (forward_syn_input _ _ _ _ E) as [Hf _ Hs].
    split; [|done]. by transitivity (t <| t_kcp := k |>).
Qed.

Lemma forward_input_packets ps t t' :
  input_packets clock ps t = Some t' -> forward t t' /\ t_session_id t' = t_session_id t.
Proof.
  revert t. induction ps as [|p ps IH]; intros t; cbn [input_packets]; [by intros [= <-]|].
  destruct (Task_kcp_input clock p t) as [t1|] eqn:E; [|done]. intros H.
  destruct (forward_input _ _ _ E) as [H1 S1]. destruct (IH _ H) as [H2 S2].
  split; [by transitivity t1|congruence].
Qed.

Lemma steady_input_more more d t c t' : input_more more d t = Some (c, t') -> steady t t'.
Proof.
  revert t. induction more as [|f more IH]; intros t; cbn [input_more].
  - destruct (Kcp_is_send_queue_full _); by intros [= <- <-].
  - destruct (Kcp_is_send_queue_full _); [by intros [= <- <-]|].
    destruct (process_input f t) as [t1|] eqn:E; [|done]. intros H.
    transitivity t1; [by apply steady_process_input in E|by apply IH].
Qed.

Lemma forward_on_input first more d t t' :
  on_input clock first more d t = Some t' -> forward t t'.
Proof.
  unfold on_input. set (r := match first with Some _ => _ | None => _ end).
  assert (forall c t1, r = Some (c, t1) -> steady t t1) as Hr.
  { unfold r. intros c t1. destruct first as [f|]; [|by intros [= _ <-]].
    destruct (process_input f t) as [t2|] eqn:E; [|done]. intros H.
    transitivity t2; [by apply steady_process_input in E|by eapply steady_input_more]. }
  clearbody r. destruct r as [[c t1]|]; [|done]. specialize (Hr c t1 eq_refl).
  set (o := if c then _ else _).
  assert (forall t2, o = Some t2 -> forward t1 t2) as Ho.
  { unfold o. intros t2. destruct c; [|by intros [= <-]]. intros H.
    apply fin_transit_forward in H as [H _].
    transitivity (set_flag INPUT_CLOSED t1); [by apply forward_flag|done]. }
  clearbody o. destruct o as [t2|]; [|done]. cbn [option_map]. intros [= <-].
  transitivity t1; [apply Hr|]. transitivity t2; [by apply Ho|]. apply steady_flush.
Qed.

Lemma steady_reserve_more permits t : steady t (snd (reserve_more permits t)).
Proof.
  revert t. induction permits as [|n IH]; intros t; cbn [reserve_more];
    pose proof (steady_recv t) as Hr; destruct (Task_kcp_recv t) as [[f|] t1]; cbn [snd] in *;
    try done.
  specialize (IH t1). destruct (reserve_more n t1) as [[out tx] t2]. cbn [snd] in *.
  by transitivity t1.
Qed.

Lemma steady_nodelay t : steady t (kcp_apply_nodelay t).
Proof. unfold kcp_apply_nodelay. by apply steady_same. Qed.

Lemma forward_session t id : t_hs t = Syn -> forward t (t <| t_session_id := id |>).
Proof. intros E. split; unfold hs_le; simp_upd; try done. Qed.

Lemma forward_syn_recv tx_ok t ok out t' :
  t_hs t = Syn -> syn_handshake_recv clock tx_ok t = Some (ok, out, t') -> forward t t'.
Proof.
  intros Hs. unfold syn_handshake_recv. pose proof (steady_recv t) as Hr.
  destruct (Task_kcp_recv t) as [[syn|] t1]; cbn [snd] in Hr;
    [|intros [= <- <- <-]; apply Hr].
  destruct (strip_prefix _ syn) as [id|]; [|intros [= <- <- <-]; apply Hr].
  destruct (Zlen id =? _); [|intros [= <- <- <-]; apply Hr].
  assert (forall t2, steady t1 t2 \/ steady (t1 <| t_session_id := id |>) t2 ->
    forward t (set_handshake Connected t2)) as Hc.
  { intros t2 Ht2. transitivity t1; [apply Hr|].
    assert (forward t1 t2 /\ t_hs t2 = t_hs t1) as [Hf Hh].
    { destruct Ht2 as [[H1 H2 _] | [H1 H2 _]]; [done|]. split; [|done].
      transitivity (t1 <| t_session_id := id |>); [apply forward_session; by rewrite (sd_hs _ _ Hr)|done]. }
    transitivity t2; [done|]. apply forward_set_handshake.
    rewrite Hh, (sd_hs _ _ Hr), Hs. unfold hs_le. cbn. lia. }
  destruct (is_client t1).
  - destruct (decide _); [|intros [= <- <- <-]; apply Hr].
    intros [= <- <- <-]. apply Hc. left. apply steady_nodelay.
  - destruct (handshake_send clock _) as [t2|] eqn:E; [|done].
    intros [= <- <- <-]. apply Hc. right.
    etransitivity; [apply steady_nodelay|by apply steady_handshake_send].
Qed.

Lemma forward_on_transport first more tx_ok t tx_frame out tx t' :
  on_transport clock first more tx_ok t tx_frame = Some (out, tx, t') -> forward t t'.
Proof.
  unfold on_transport.
  destruct (input_packets clock _ t) as [t1|] eqn:E; [|done].
  apply forward_input_packets in E as [H1 _].
  set (r := if decide (t_hs t1 = Syn) then _ else _).
  assert (forall o t2, r = Some (o, t2) -> forward t1 t2) as Hr.
  { unfold r. intros o t2. destruct (decide (t_hs t1 = Syn)) as [Hs|_].
    - destruct (syn_handshake_recv clock tx_ok t1) as [[[ok o'] t3]|] eqn:Es; [|done].
      apply forward_syn_recv in Es; [|done]. intros [= _ <-]. destruct ok; [done|].
      transitivity t3; [done|]. apply forward_set_handshake, hs_le_Disconnected.
    - destruct (is_fin_handshake t1); [|by intros [= _ <-]].
      destruct (fin_transit_state clock t1) as [t3|] eqn:Ef; [|done]. cbn.
      intros [= _ <-]. by apply fin_transit_forward in Ef as [? _]. }
  clearbody r. destruct r as [[o t2]|]; [|done]. specialize (Hr o t2 eq_refl).
  destruct tx_frame as [f|].
  - intros [= <- <- <-]. transitivity t1; [done|]. transitivity t2; [done|]. apply steady_flush.
  - pose proof (steady_recv t2) as [H3 _ _]. destruct (Task_kcp_recv t2) as [f t3]. cbn [snd] in H3.
    intros [= <- <- <-]. transitivity t1; [done|]. transitivity t2; [done|].
    transitivity t3; [done|]. apply steady_flush.
Qed.

Lemma forward_select ev t tx_frame out go tx t' :
  select_branch clock ev t tx_frame = Some (out, go, tx, t') -> forward t t'.
Proof.
  destruct ev as [first more d|[|] permits|[first|] more tx_ok| |]; cbn [select_branch];
    try (by intros [= <- <- <- <-]).
  - destruct (on_input clock first more d t) as [t1|] eqn:E; [|done]. intros [= <- <- <- <-].
    by apply forward_on_input in E.
  - pose proof (steady_reserve_more permits t) as [H _ _].
    destruct (reserve_more permits t) as [[o x] t1]. by intros [= <- <- <- <-].
  - destruct (on_transport clock first more tx_ok t tx_frame) as [[[o x] t1]|] eqn:E; [|done].
    intros [= <- <- <- <-]. by apply forward_on_transport in E.
Qed.

Lemma forward_loop_wait t : forward t (snd (loop_wait clock t)).
Proof.
  unfold loop_wait, system_time. set (t1 := t <| t_ticks := _ |>).
  assert (forward t t1) as H1 by (by apply forward_same).
  assert (forall k, forward t (t1 <| t_kcp := k |>)) as H2.
  { intros k. transitivity t1; [done|]. by apply forward_same. }
  destruct (decide _).
  - destruct (_ =? 0); [apply H2|done].
  - destruct (_ >? 0); [destruct (_ =? 0); [apply H2|done]|]. cbn [snd].
    transitivity t1; [done|]. apply forward_set_handshake, hs_le_Disconnected.
Qed.

Lemma forward_loop_head feed_ok flush_ok cancelled t ps v t' :
  loop_head clock feed_ok flush_ok cancelled t = Some (ps, v, t') -> forward t t'.
Proof.
  unfold loop_head.
  assert (forall ps0 k, (if decide (t_hs k = Disconnected) then (ps0, Break, k)
     else if expired k then (ps0, Break, k)
     else let '(v, k) := loop_wait clock k in (ps0, v, k)) = (ps, v, t') -> forward k t') as Hrest.
  { intros ps0 k. destruct (decide _); [by intros [= _ _ <-]|].
    destruct (expired k); [by intros [= _ _ <-]|].
    pose proof (forward_loop_wait k). destruct (loop_wait clock k). by intros [= _ _ <-]. }
  destruct (Kcp_has_ouput (t_kcp t)).
  - destruct (kcp_output feed_ok flush_ok (t_hs t) (t_kcp t)) as [[[ps0 ok] k]|]; [|done].
    assert (forward t (t <| t_kcp := k |>)) as Hk by (by apply forward_same).
    destruct (_ || _); [by intros [= _ _ <-]|]. intros [= H].
    transitivity (t <| t_kcp := k |>); [done|]. by eapply Hrest.
  - intros [= H]. by eapply Hrest.
Qed.
End Task.
