(* ===== verification/StreamSafe.v ===== *)
(** The session task never panics: the invariant under which every [unwrap], index and
    [unreachable!()] of [src/stream.rs] and [src/protocol.rs] is safe, and its preservation by
    every branch of the event loop. *)
From stdpp Require Import relations.
From S2P Require Import Prelude Bytes IkcpTypes IkcpSend IkcpInput IkcpFlush IkcpFlushSpec.
From S2P Require Import IkcpInv Wire Delivery Protocol ProtocolSpec Config Stream StreamSpec.

(** ** Sessions that wait for their conversation number

    A client starts with [SYN_CONV] and takes the number of the server's first packet.  It may
    do so only while nothing it sent is in flight under the old number. *)
Definition idle (k : IKCPCB) : Prop := snd_queue k = [] /\ snd_buf k = [].

Definition link (k : IKCPCB) : Prop :=
  (conv k = SYN_CONV \/ idle k) /\ Zlen (snd_queue k) <= 255.

Lemma snd_keep_nil k k' : snd_keep k k' -> snd_buf k = [] -> snd_buf k' = [].
Proof.
  intros (_ & _ & _ & _ & H) E. specialize (H (fun _ => False) ltac:(done)).
  rewrite E in H. destruct (snd_buf k'); [done|]. specialize (H (Forall_nil_2 _)). by inversion H.
Qed.

Lemma idle_keep k k' : snd_keep k k' -> idle k -> idle k'.
Proof.
  intros Hk [Hq Hb]. pose proof Hk as (_ & Eq & _). split; [by rewrite Eq|by eapply snd_keep_nil].
Qed.

Lemma link_keep k k' : snd_keep k k' -> link k -> link k'.
Proof.
  intros Hk [Hc Hq]. pose proof Hk as (_ & Eq & _ & Ec & _). unfold link, idle. rewrite Eq, Ec.
  split; [|done]. destruct Hc as [|Hi]; [by left|right].
  apply (idle_keep _ _ Hk) in Hi as [? Hb]. split; [congruence|done].
Qed.

Lemma snd_buf_with_cc k b x st ss cw inc :
  snd_buf (with_cc (k <| snd_buf := b |> <| xmit := x |> <| state := st |>) ss cw inc) = b.
Proof. done. Qed.

Lemma idle_flush k : kcp_ok k -> idle k -> idle (fst (ikcp_flush k)).
Proof.
  intros Hok [Hn Hb]. destruct (Z.eqb_spec (updated k) 0) as [E|Hu].
  { unfold ikcp_flush. rewrite E. done. }
  destruct (flush_queue k Hok Hu) as (_ & Eq & _).
  split; [rewrite Hn, take_nil in Eq; by symmetry|].
  destruct (ikcp_flush_shape k Hok Hu) as (x & st & ss & cw & inc & _ & ->).
  assert (flush_admitted k = []) as Ha by (unfold flush_admitted; by rewrite Hn, take_nil).
  rewrite snd_buf_with_cc. by rewrite Ha, Hb.
Qed.

Lemma link_flush k : kcp_ok k -> link k -> link (fst (ikcp_flush k)).
Proof.
  intros Hok [Hc Hq]. pose proof (static_flush k Hok) as [Ec _]. split.
  - rewrite Ec. destruct Hc as [|]; [by left|right; by apply idle_flush].
  - destruct (Z.eqb_spec (updated k) 0) as [E|Hu]; [unfold ikcp_flush; by rewrite E|].
    destruct (flush_queue k Hok Hu) as (_ & Eq & _).
    apply (f_equal Zlen) in Eq. rewrite Zlen_app in Eq.
    pose proof (Zlen_nonneg (take (move_count k (flush_window k)) (snd_queue k))). lia.
Qed.

Lemma link_exec k op :
  kcp_ok k -> (forall b, op <> OpSend b) -> link k -> link (kcp_exec op k).
Proof.
  intros Hok Hop Hl. destruct op; cbn [kcp_exec].
  - by destruct (Hop b).
  - by apply (link_keep k); [apply snd_keep_recv|].
  - by apply (link_keep k); [apply snd_keep_input|].
  - destruct (ikcp_update_cases k now) as (u & ts & _ & [-> | ->]); [|done].
    apply (link_flush (with_clock k now u ts)); [by apply kcp_ok_clock|done].
  - by apply link_flush.
  - by apply (link_keep k); [apply ikcp_setmtu_frame|].
  - done.
  - by apply (link_keep k); [apply ikcp_nodelay_frame|].
  - by apply (link_keep k); [apply ikcp_wndsize_frame|].
Qed.

Lemma kcp_ok_conv k c : kcp_ok k -> snd_buf k = [] -> kcp_ok (k <| conv := c |>).
Proof.
  intros [Hi (H1 & H2 & _ & H4)] Hb. split; [exact Hi|]. unfold flush_ok. simp_upd. rewrite Hb.
  exact (conj H1 (conj H2 (conj (Forall_nil_2 _) H4))).
Qed.

(** Receiving a packet under another conversation number. *)
Lemma input_switched k c data :
  kcp_ok k ->
  let k' := snd (ikcp_input (k <| conv := c |>) data) in
  conv k' = c /\ kcp_ok (k' <| conv := conv k |>) /\ snd_keep k (k' <| conv := conv k |>) /\
  (snd_buf k' = [] -> kcp_ok k').
Proof.
  intros [Hi Hf]. cbv zeta. set (k1 := k <| conv := c |>).
  assert (kcp_inv k1) as Hi1 by exact Hi.
  assert (flush_ok_conv (conv k) k1) as Hf1.
  { apply (proj2 (flush_ok_conv_same k)) in Hf. exact Hf. }
  pose proof (ikcp_input_inv k1 data Hi1) as Hi2.
  pose proof (ikcp_input_flush_ok _ k1 data Hi1 Hf1) as Hf2.
  pose proof (snd_keep_input k1 data) as Hk. pose proof (ikcp_input_conv k1 data) as Ec.
  set (k' := snd (ikcp_input k1 data)) in *. clearbody k'. split_and!.
  - exact Ec.
  - split; [exact Hi2|exact Hf2].
  - destruct Hk as (E1 & E2 & E3 & _ & H). exact (conj E1 (conj E2 (conj E3 (conj eq_refl H)))).
  - intros Hb. split; [exact Hi2|]. unfold flush_ok_conv, flush_ok in *. simp_upd.
    rewrite Hb. destruct Hf2 as (H1 & H2 & _ & H4).
    exact (conj H1 (conj H2 (conj (Forall_nil_2 _) H4))).
Qed.

(** The first message a client sends. *)
Lemma link_first_send k b :
  kcp_ok k -> Zlen b < 2147483648 -> conv k = SYN_CONV -> snd_queue k = [] ->
  link (snd (ikcp_send k b (Zlen b))).
Proof.
  intros Hok Hb Hc Hq. destruct (static_send k b Hok Hb) as [Ec _].
  split; [left; by rewrite Ec|]. destruct Hok as [((Hm & Hn & Hfit) & _) _].
  destruct (ikcp_send_spec k b Hm Hb) as (q & _ & Hlen & _ & _ & E);
    [rewrite Hn; apply u32_range|done|]. cbv zeta in E. rewrite E. clear E Ec.
  rewrite Hq in Hlen. destruct q; [|done].
  set (n := frag_count _ _). destruct (_ && _); [done|].
  destruct (Z.leb_spec 256 n); [done|]. cbn [snd]. simp_upd. cbn [app].
  unfold Zlen. rewrite length_frag_segs. lia.
Qed.

(** ** The invariant of the task *)
Section Safe.
Context {BM : BytesMut} {BML : BytesMutLaws BM} (clock : nat -> Z * Z).
Implicit Types t : Task.

(** A configuration the task accepts: the mtu is one [ikcp_setmtu] takes, and the handshake
    frame fits in 255 segments of the smallest size. *)
Definition config_ok (c : KcpConfig) : Prop :=
  50 <= cfg_mtu c < 1073741824 /\ 0 <= session_id_len c /\
  Zlen (session_key c) + session_id_len c <= 6630.

Record task_ok (t : Task) : Prop := {
  tk_kcp : wrapper_ok (t_kcp t);
  tk_config : config_ok (t_config t);
  tk_session : Zlen (t_session_id t) <= session_id_len (t_config t);
  tk_link : is_client t = true -> t_hs t = Syn -> link (handle (t_kcp t))
}.

(** A step that only changes the wrapper. *)
Definition link_step (k k' : Kcp) : Prop := link (handle k) -> link (handle k').

Lemma task_ok_kcp t k :
  task_ok t -> wrapper_ok k -> link_step (t_kcp t) k -> task_ok (t <| t_kcp := k |>).
Proof. intros [H1 H2 H3 H4] Hk Hl. split; simp_upd; try done. intros Hc Hs. by apply Hl, H4. Qed.

(** A step to a later state, or of the flags, the timers and the clock. *)
Lemma task_ok_forward t t' :
  task_ok t -> forward t t' -> t_kcp t' = t_kcp t -> t_session_id t' = t_session_id t -> task_ok t'.
Proof.
  intros [H1 H2 H3 H4] [F1 F2 F3 _ _ _] Ek Es. split.
  - by rewrite Ek.
  - by rewrite F2.
  - by rewrite Es, F2.
  - rewrite Ek, F3. intros Hc Hs. apply H4; [done|]. unfold hs_le in F1. rewrite Hs in F1.
    destruct (t_hs t); cbn in F1; [done|lia..].
Qed.

Lemma task_ok_flag st t : Z.testbit st 0 = false -> task_ok t -> task_ok (set_flag st t).
Proof. intros Hb Ht. apply (task_ok_forward t); [done|by apply forward_flag|done|done]. Qed.

Lemma task_ok_set_handshake hs t :
  hs_le (t_hs t) hs -> task_ok t -> task_ok (set_handshake hs t).
Proof.
  intros Hl Ht. apply (task_ok_forward t); [done|by apply forward_set_handshake|..];
    unfold set_handshake; by destruct (decide _).
Qed.

Lemma link_wrapper (k : Kcp) op :
  wrapper_ok k -> (forall b, op <> OpSend b) ->
  link_step k (k <| handle := kcp_exec op (handle k) |>).
Proof. intros (Hk & _) Hop Hl. by apply link_exec. Qed.

Lemma handle_after_output (k : Kcp) r : wrapper_ok k -> handle (after_output k r) = fst r.
Proof. intros (_ & Hb & _). by destruct (after_output_spec k r Hb) as (_ & _ & ->). Qed.

Lemma task_ok_flush t : task_ok t -> task_ok (Task_kcp_flush clock t).
Proof.
  intros Ht. unfold Task_kcp_flush, system_time. destruct (has t FLUSH) eqn:E; [|done].
  set (now := get_system_time _).
  assert (forward t (t <| t_flags := Z.lxor (t_flags t) FLUSH |>)) as Hf.
  { split; unfold hs_le, is_client; rewrite ?has_CLIENT, ?has_FIN, ?has_CLOSED; simp_upd; try done;
      rewrite Z.lxor_spec; [by rewrite xorb_false_r|by intros ->..]. }
  pose proof (task_ok_forward t _ Ht Hf eq_refl eq_refl) as H1.
  set (t1 := t <| t_flags := _ |>) in *. clearbody t1. clear Hf E Ht.
  pose proof (tk_kcp _ H1) as Hw. pose proof (Kcp_update_ok _ now Hw) as Hw2.
  pose proof (Kcp_flush_ok _ Hw2) as Hw3. simp_upd.
  apply (task_ok_forward ((t1 <| t_kcp := Kcp_flush (Kcp_update (t_kcp t1) now) |>)
    <| t_ticks := S (t_ticks t1) |>)); [|by apply forward_same|done|done].
  apply (task_ok_forward (t1 <| t_kcp := Kcp_flush (Kcp_update (t_kcp t1) now) |>));
    [|by apply forward_same|done|done].
  apply task_ok_kcp; [done|done|]. intros Hl. unfold Kcp_flush, Kcp_update.
  rewrite !handle_after_output by done.
  apply (link_exec _ OpFlush); [by apply ikcp_update_ok, Hw|done|].
  apply (link_exec _ (OpUpdate now)); [apply Hw|done|done].
Qed.

(** ** Writes *)

(** A handshake frame always fits. *)
Lemma Kcp_send_handshake (k : Kcp) syn :
  wrapper_ok k -> Zlen syn <= 6630 ->
  exists k', Kcp_send k syn = (Ok 0, k') /\ wrapper_ok k'.
Proof.
  intros Hw Hl. destruct (Kcp_send_spec k syn Hw ltac:(lia)) as (H1 & _ & H3).
  pose proof Hw as ((_ & Hm & Hs & _) & _). pose proof (send_room_nonneg (handle k)).
  destruct (Z.leb_spec (Zlen syn) (send_room (handle k) + 255 * mss (handle k))); [|lia].
  exists (snd (Kcp_send k syn)). by rewrite <- H3, <- surjective_pairing.
Qed.

(** In the [Syn] state of a client the frame must be the first thing sent. *)
Lemma handshake_send_ok t :
  task_ok t ->
  (is_client t = true -> t_hs t = Syn ->
     conv (handle (t_kcp t)) = SYN_CONV /\ snd_queue (handle (t_kcp t)) = []) ->
  exists t', handshake_send clock t = Some t' /\ task_ok t'.
Proof.
  intros Ht Hfirst. unfold handshake_send.
  pose proof (task_ok_flag FLUSH t eq_refl Ht) as Ht1. set (t1 := set_flag FLUSH t) in *.
  assert (is_client t1 = is_client t) as Ec by (apply forward_flag; done).
  assert (t_hs t1 = t_hs t /\ t_kcp t1 = t_kcp t) as [Eh Ek] by done.
  rewrite <- Ec, <- Eh, <- Ek in Hfirst. clearbody t1. clear Ec Eh Ek Ht t.
  destruct Ht1 as [Hw (Hm & Hi & Hl) Hs Hlink].
  assert (Zlen (session_key (t_config t1) ++ t_session_id t1) <= 6630) as Hsyn
    by (rewrite Zlen_app; lia).
  destruct (Kcp_send_handshake (t_kcp t1) _ Hw Hsyn) as (k' & E & Hw').
  set (syn := _ ++ _) in *. rewrite E. eexists. split; [done|]. apply task_ok_flush.
  split; simp_upd; [done|done|done|].
  intros Hc Hsyn1. change (is_client t1 = true) in Hc. destruct (Hfirst Hc Hsyn1) as [Hcv Hq].
  apply (f_equal snd) in E. cbn [snd] in E. rewrite <- E.
  destruct Hw as (Hk & _). unfold Kcp_send. clearbody syn. destruct syn as [|b syn].
  { cbn [snd]. split; [by left|]. by rewrite Hq. }
  rewrite i32_small by (pose proof (Zlen_nonneg (b :: syn)); lia).
  pose proof (link_first_send (handle (t_kcp t1)) (b :: syn) Hk ltac:(lia) Hcv Hq) as Hlk.
  destruct (ikcp_send _ _ _) as [r k2]. cbn [snd] in Hlk.
  destruct (r >=? 0); [done|]. by destruct (_ || _).
Qed.

(** ** The other handlers *)

Lemma Kcp_send_total (k : Kcp) frame :
  wrapper_ok k -> Zlen frame < 2147483648 ->
  wrapper_ok (snd (Kcp_send k frame)) /\ fst (Kcp_send k frame) <> Panic.
Proof.
  intros Hw Hl. destruct (Kcp_send_spec k frame Hw Hl) as (H1 & _ & H3). split; [done|].
  rewrite H3. by destruct (_ <=? _).
Qed.

(** The program writes only once the session is connected. *)
Definition may_write t : Prop := is_client t = true -> t_hs t <> Syn.

Lemma may_write_steady t t' : steady t t' -> may_write t -> may_write t'.
Proof.
  intros [[_ _ Hc _ _ _] Hh _] Hm. unfold may_write. by rewrite Hc, Hh.
Qed.

Lemma process_input_ok frame t :
  task_ok t -> Zlen frame < 2147483648 -> may_write t ->
  exists t', process_input frame t = Some t' /\ task_ok t'.
Proof.
  intros Ht Hl Hm. unfold process_input.
  destruct (Kcp_send_total (t_kcp t) frame (tk_kcp t Ht) Hl) as [Hw Hp].
  assert (forall k, wrapper_ok k -> task_ok (t <| t_kcp := k |>)) as Hk.
  { intros k Hk. destruct Ht as [H1 H2 H3 H4]. split; simp_upd; try done.
    intros Hc Hs. by destruct (Hm Hc). }
  destruct (Kcp_send _ _) as [[n|e|] k]; cbn [fst snd] in *; [|..|done]; eexists; (split; [done|]).
  - destruct (_ || _); [|by apply Hk]. apply task_ok_flag; [done|by apply Hk].
  - by apply Hk.
Qed.

Lemma Kcp_recv_bytes_safe (k : Kcp) :
  wrapper_ok k -> wrapper_ok (snd (Kcp_recv_bytes k)) /\ link_step k (snd (Kcp_recv_bytes k)).
Proof.
  intros Hw. unfold Kcp_recv_bytes, Kcp_peek_size, link_step.
  set (size := Z.max _ 0). destruct (Z.gtb_spec size 0) as [Hs|_]; [|done].
  set (k1 := if _ <? _ then _ else k).
  assert (bm_bytes (read_buf k1) = [] /\ size <= bm_capacity (read_buf k1) /\
    write_buf k1 = write_buf k /\ handle k1 = handle k) as (H1 & H2 & H3 & H4).
  { unfold k1. destruct Hw as (_ & [Hb1 Hb2] & _).
    destruct (Z.ltb_spec (bm_capacity (read_buf k)) size); [|done]. simp_upd.
    destruct (bm_reserve_law (read_buf k) (Z.max (snd (buffer_size k)) size)) as [-> Hc]; [lia|].
    rewrite Hb2 in Hc. change (Zlen []) with 0 in Hc. split_and!; try done; lia. }
  clearbody k1. simp_upd.
  pose proof (bm_set_len_law (read_buf k1) size ltac:(lia)) as Hl.
  pose proof (bm_split_to_law (bm_set_len (read_buf k1) size) size) as Hsp.
  rewrite Hl in Hsp. destruct (bm_split_to _ _) as [buf rest]. cbn [fst snd] in Hsp.
  destruct Hsp as [_ Hrest]; [lia|].
  assert (bm_bytes rest = []) as Hrest0.
  { rewrite Hrest. apply drop_ge. unfold Zlen in Hl. lia. }
  unfold Kcp_recv, recv_result. simp_upd. rewrite H4.
  pose proof (wrapper_exec k (OpRecv (i32 (Zlen (bm_bytes buf)))) Hw I) as He.
  pose proof (link_wrapper k (OpRecv (i32 (Zlen (bm_bytes buf)))) Hw ltac:(done)) as Hlk.
  unfold link_step in Hlk. cbn [kcp_exec] in *. simp_upd.
  destruct (ikcp_recv (handle k) (i32 (Zlen (bm_bytes buf)))) as [[n data] k2]. cbn [snd] in *.
  destruct He as (G1 & G2 & G3). unfold buffers_ok in *. simp_upd.
  assert (wrapper_ok ((k1 <| read_buf := bm_set_len (read_buf k1) size |>
    <| read_buf := rest |>) <| handle := k2 |>) /\
    (link (handle k) -> link (handle ((k1 <| read_buf := bm_set_len (read_buf k1) size |>
    <| read_buf := rest |>) <| handle := k2 |>)))) as [Hr1 Hr2].
  { unfold wrapper_ok, buffers_ok. simp_upd. rewrite H3. split; [|done].
    split; [done|]. split; [|done]. split; [apply G2|done]. }
  destruct (n >=? 0); [done|]. destruct (_ || _); [done|]. by destruct (n =? -3).
Qed.

Lemma Task_kcp_recv_ok t : task_ok t -> task_ok (snd (Task_kcp_recv t)).
Proof.
  intros Ht. destruct (Kcp_recv_bytes_safe (t_kcp t) (tk_kcp t Ht)) as [Hw Hl].
  unfold Task_kcp_recv. destruct (_ && _), (Kcp_recv_bytes _); cbn [snd] in *; by apply task_ok_kcp.
Qed.

Lemma fin_next_ok t :
  task_ok t -> exists r t', fin_next clock t = Some (r, t') /\ task_ok t'.
Proof.
  intros Ht. unfold fin_next, system_time. destruct (t_hs t) eqn:Eh; try by eexists _, _.
  - eexists _, _. split; [done|]. apply (task_ok_forward t); [done|by apply forward_same|done|done].
  - destruct (_ || _); [by eexists _, _|].
    destruct (handshake_send_ok t Ht) as (t' & -> & Ht'); [congruence|]. by eexists _, _.
  - destruct (_ >? 0); by eexists _, _.
  - destruct (_ || _); by eexists _, _.
Qed.

Lemma fin_loop_ok fuel t :
  (5 < fuel + hs_rank (t_hs t))%nat -> task_ok t ->
  exists t', fin_loop clock fuel t = Some t' /\ task_ok t'.
Proof.
  revert t. induction fuel as [|fuel IH]; intros t Hf Ht.
  { destruct (t_hs t); cbn in Hf; lia. }
  rewrite fin_loop_step. destruct (fin_next_ok t Ht) as (r & t1 & E & Ht1). rewrite E.
  destruct (fin_next_forward clock t r t1 E) as [[_ Hh _] Hr].
  destruct r as [hs|]; [|by eexists]. specialize (Hr hs eq_refl). apply IH.
  - rewrite t_hs_set_handshake. lia.
  - apply task_ok_set_handshake; [|done]. unfold hs_le. rewrite Hh. lia.
Qed.

Lemma fin_transit_ok t : task_ok t -> exists t', fin_transit_state clock t = Some t' /\ task_ok t'.
Proof. apply fin_loop_ok. lia. Qed.

(** ** Packets *)

Lemma Kcp_input_handle (k : Kcp) packet :
  let '(r, k') := Kcp_input k packet in
  k' = k <| handle := snd (ikcp_input (handle k) packet) |> /\ r <> Panic.
Proof.
  unfold Kcp_input. pose proof (ikcp_input_result_cases (handle k) packet _ eq_refl) as Hr.
  destruct (ikcp_input (handle k) packet) as [r kcb]. cbn [fst snd] in *.
  destruct Hr as [-> | [-> | [-> | ->]]]; done.
Qed.

Lemma Kcp_input_ok (k : Kcp) packet :
  wrapper_ok k -> wrapper_ok (snd (Kcp_input k packet)) /\ link_step k (snd (Kcp_input k packet)).
Proof.
  intros Hw. pose proof (Kcp_input_handle k packet) as H. destruct (Kcp_input k packet) as [r k'].
  destruct H as [-> _]. cbn [snd]. split; [by apply (wrapper_exec k (OpInput packet))|].
  by apply (link_wrapper k (OpInput packet)).
Qed.

Lemma read_conv_range packet c : read_conv packet = Some c -> 0 <= c < 4294967296.
Proof.
  rewrite read_conv_getconv. destruct (_ <? _); [done|]. intros [= <-]. apply u32_range.
Qed.

(** The number of waiting segments is zero only when nothing is in flight. *)
Lemma waitsnd_idle (k : Kcp) :
  kcp_inv (handle k) -> Zlen (snd_queue (handle k)) <= 255 -> Kcp_get_waitsnd k <= 0 ->
  idle (handle k).
Proof.
  intros ((_ & Hn & _) & Hw & _) Hq Hz. pose proof (snd_window_nsnd _ Hw) as Hb.
  destruct Hw as (_ & _ & _ & _ & Hbuf). unfold Kcp_get_waitsnd, ikcp_waitsnd in Hz.
  pose proof (Zlen_nonneg (snd_queue (handle k))). rewrite u32_small in Hn by lia.
  rewrite u32_i32, u32_idemp, u32_small in Hz by lia.
  split; apply length_zero_iff_nil; unfold Zlen in *; lia.
Qed.

Lemma syn_handshake_input_ok packet t :
  task_ok t -> exists ok t', syn_handshake_input packet t = Some (ok, t') /\ task_ok t'.
Proof.
  intros Ht. unfold syn_handshake_input.
  destruct (read_conv packet) as [c|] eqn:Ec; [|by eexists _, _]. apply read_conv_range in Ec.
  pose proof Ht as [Hw Hc Hs Hl]. pose proof Hw as (Hk & Hb & Hcv).
  destruct (input_switched (handle (t_kcp t)) c packet Hk) as (S1 & S2 & S3 & S4).
  pose proof (Kcp_input_handle (Kcp_set_conv (t_kcp t) c) packet) as Hin.
  destruct (Kcp_input (Kcp_set_conv (t_kcp t) c) packet) as [r k].
  destruct Hin as [-> Hp]. unfold Kcp_set_conv in *. simp_upd.
  set (k' := snd (ikcp_input _ packet)) in *. clearbody k'.
  destruct (is_client t) eqn:Eclient.
  - destruct (bool_decide (t_hs t = Syn) && negb (c =? SYN_CONV)) eqn:Eg;
      [|by eexists _, _].
    apply andb_true_iff in Eg as [Eg _]. apply bool_decide_eq_true in Eg.
    destruct (Hl eq_refl Eg) as [Hlc Hq]. pose proof S3 as (_ & Eq & _). simp_upd.
    set (k1 := if _ || _ then _ else _).
    assert (wrapper_ok k1 /\ link (handle k1)) as [G1 G2].
    { unfold k1. match goal with |- context [is_err r || (Kcp_get_waitsnd ?w >? 0)] =>
        set (kw := w) end.
      assert (wrapper_ok (kw <| handle := (handle kw) <| conv := conv (handle (t_kcp t)) |> |>))
        as Hback by (by unfold kw).
      assert (snd_buf k' = [] -> wrapper_ok kw) as Hnew.
      { intros Hnil. unfold kw, wrapper_ok, buffers_ok. simp_upd. rewrite S1.
        split; [by apply S4|]. split; [exact Hb|done]. }
      destruct Hlc as [Hsyn | [Hi1 Hi2]].
      - rewrite Hsyn in *. destruct (is_err r || (Kcp_get_waitsnd kw >? 0)) eqn:Ew.
        + split; [exact Hback|]. unfold kw, link. simp_upd. rewrite Eq. by split; [left|].
        + apply orb_false_iff in Ew as [_ Ew].
          assert (idle k') as Hid.
          { apply (waitsnd_idle kw); [apply S2|unfold kw; simp_upd; by rewrite Eq|lia]. }
          split; [by apply Hnew, Hid|]. unfold kw, link. simp_upd. rewrite Eq. by split; [right|].
      - pose proof (snd_keep_nil _ _ S3 Hi2) as Hnil. simp_upd.
        specialize (Hnew Hnil). destruct (_ || _).
        + split.
          * unfold kw, wrapper_ok, buffers_ok in *. simp_upd.
            split; [by apply kcp_ok_conv, Hnil; apply S4|].
            split; [exact Hb|unfold SYN_CONV; lia].
          * unfold kw, link. simp_upd. rewrite Eq. by split; [left|].
        + split; [exact Hnew|]. unfold kw, link, idle. simp_upd. rewrite Eq. by split; [right|]. }
    destruct r as [[]|e|]; [..|done]; eexists _, _; (split; [done|]);
      (apply task_ok_kcp; [exact Ht|exact G1|intros _; exact G2]).
  - destruct (c =? SYN_CONV); [|by eexists _, _].
    destruct r as [[]|e|]; [..|done]; eexists _, _; (split; [done|]);
      (split; simp_upd; [done..|]); intros Hcl; change (is_client t = true) in Hcl; congruence.
Qed.

(** Only a packet of at least one header is found invalid. *)
Lemma ikcp_input_invalid_length k data :
  fst (ikcp_input k data) = -2 \/ fst (ikcp_input k data) = -3 -> 24 <= Zlen data.
Proof.
  assert (forall fuel k l d e, fst (ikcp_input_loop fuel k l d) = inl e -> 24 <= Zlen d) as Hl.
  { intros [|fuel] k0 l d e; [done|]. cbn [ikcp_input_loop]. unfold IKCP_OVERHEAD.
    by destruct (Z.ltb_spec (Zlen d) 24). }
  unfold ikcp_input. destruct (_ <? _); [cbn [fst]; lia|].
  specialize (Hl (length data) k (mklocals false 0 0) data).
  destruct (ikcp_input_loop _ _ _ _) as [[e|l] k']; cbn [fst] in *; [|lia].
  intros _. by apply (Hl e).
Qed.

Lemma Kcp_input_invalid_length (k : Kcp) packet :
  fst (Kcp_input k packet) = Err InvalidData -> 24 <= Zlen packet.
Proof.
  unfold Kcp_input. pose proof (ikcp_input_invalid_length (handle k) packet) as Hl.
  pose proof (ikcp_input_result_cases (handle k) packet _ eq_refl) as Hr.
  destruct (ikcp_input (handle k) packet) as [r kcb]. cbn [fst] in *.
  destruct Hr as [-> | [-> | [-> | ->]]]; cbn; intros E; try done; apply Hl; lia.
Qed.

(** The third kind of error, [InvalidInput], is not among the results of [input]. *)
Lemma Kcp_input_errors (k : Kcp) packet e :
  fst (Kcp_input k packet) = Err e -> e = NotFound \/ e = InvalidData.
Proof.
  unfold Kcp_input. pose proof (ikcp_input_result_cases (handle k) packet _ eq_refl) as Hr.
  destruct (ikcp_input (handle k) packet) as [r kcb]. cbn [fst] in *.
  destruct Hr as [-> | [-> | [-> | ->]]]; cbn; intros [= <-]; auto.
Qed.

Lemma read_cmd_ok (packet : bytes) : 24 <= Zlen packet -> exists b, packet !! 4%nat = Some b.
Proof. intros H. apply lookup_lt_is_Some. unfold Zlen in H. lia. Qed.

Lemma Task_kcp_input_ok packet t :
  task_ok t -> exists t', Task_kcp_input clock packet t = Some t' /\ task_ok t'.
Proof.
  intros Ht. unfold Task_kcp_input.
  destruct (Kcp_input_ok (t_kcp t) packet (tk_kcp t Ht)) as [Hw Hl].
  pose proof (Kcp_input_handle (t_kcp t) packet) as Hp.
  pose proof (Kcp_input_invalid_length (t_kcp t) packet) as Hlen.
  pose proof (Kcp_input_errors (t_kcp t) packet) as He.
  destruct (Kcp_input (t_kcp t) packet) as [r k]. cbn [fst snd] in *.
  destruct Hp as [_ Hp]. pose proof (task_ok_kcp t k Ht Hw Hl) as Ht1.
  destruct r as [[]|e|]; [|destruct (He e eq_refl) as [-> | ->]|done].
  - eexists. split; [done|]. by apply task_ok_flag.
  - destruct (syn_handshake_input_ok packet _ Ht1) as (ok & t' & -> & Ht'). by eexists.
  - destruct (read_cmd_ok packet (Hlen eq_refl)) as [b Eb]. unfold read_cmd, write_cmd. rewrite Eb.
    destruct (negb (Z.land _ KCP_RESET =? 0)).
    { eexists. split; [done|]. apply task_ok_set_handshake; [apply hs_le_Disconnected|done]. }
    destruct (negb (Z.land _ KCP_FIN =? 0)); [|by eexists].
    set (t1 := if negb _ then _ else _).
    assert (task_ok t1) as Ht2.
    { unfold t1. destruct (negb _); [|done].
      apply (task_ok_forward (set_flag FIN_RECVED (t <| t_kcp := k |>)));
        [by apply task_ok_flag|apply forward_close_input|done|done]. }
    destruct (fin_transit_ok t1 Ht2) as (t2 & -> & Ht3).
    set (p2 := <[4%nat := _]> packet).
    destruct (Kcp_input_ok (t_kcp t2) p2 (tk_kcp t2 Ht3)) as [Hw2 Hl2].
    pose proof (Kcp_input_handle (t_kcp t2) p2) as Hp2.
    destruct (Kcp_input (t_kcp t2) p2) as [[[]|e|] k2]; cbn [snd] in *;
      [..|by destruct Hp2]; eexists; (split; [done|]); by apply task_ok_kcp.
Qed.

Lemma input_packets_ok ps t :
  task_ok t -> exists t', input_packets clock ps t = Some t' /\ task_ok t'.
Proof.
  revert t. induction ps as [|p ps IH]; intros t Ht; cbn [input_packets]; [by eexists|].
  destruct (Task_kcp_input_ok p t Ht) as (t1 & -> & Ht1). by apply IH.
Qed.

(** ** The handshake *)

Lemma kcp_apply_nodelay_ok t : task_ok t -> task_ok (kcp_apply_nodelay t).
Proof.
  intros Ht. unfold kcp_apply_nodelay. set (c := cfg_nodelay _).
  apply task_ok_kcp; [done|by apply Kcp_set_nodelay_ok, tk_kcp|].
  apply (link_wrapper (t_kcp t) (OpNodelay (Z.b2z (nd_nodelay c)) (i32 (nd_interval c))
    (i32 (nd_resend c)) (Z.b2z (nd_nc c)))); [by apply tk_kcp|done].
Qed.

Lemma strip_prefix_length p b r : strip_prefix p b = Some r -> Zlen r = Zlen b - Zlen p.
Proof.
  unfold strip_prefix. destruct (decide _) as [E|]; [|done]. intros [= <-].
  apply (f_equal length) in E. rewrite length_take in E. unfold Zlen. rewrite length_drop. lia.
Qed.

Lemma syn_handshake_recv_ok tx_ok t :
  task_ok t -> t_hs t = Syn ->
  exists ok out t', syn_handshake_recv clock tx_ok t = Some (ok, out, t') /\ task_ok t'.
Proof.
  intros Ht Hsyn. unfold syn_handshake_recv. pose proof (Task_kcp_recv_ok t Ht) as H1.
  destruct (steady_recv t) as [_ Hh _].
  destruct (Task_kcp_recv t) as [[syn|] t1]; cbn [snd] in *; [|by eexists _, _, _].
  destruct (strip_prefix _ syn) as [id|]; [|by eexists _, _, _].
  destruct (Z.eqb_spec (Zlen id) (session_id_len (t_config t1))) as [El|]; [|by eexists _, _, _].
  assert (forall t2, task_ok t2 -> hs_le (t_hs t2) Connected ->
    task_ok (set_handshake Connected t2)) as Hconn
    by (intros t2 H2 Hl; by apply task_ok_set_handshake).
  assert (hs_le Syn Connected) as Hle by (unfold hs_le; cbn; lia).
  destruct (is_client t1) eqn:Ec.
  - destruct (decide _); [|by eexists _, _, _]. eexists _, _, _. split; [done|].
    apply Hconn; [by apply kcp_apply_nodelay_ok|].
    destruct (steady_nodelay t1) as [_ -> _]. by rewrite Hh, Hsyn.
  - set (t2 := t1 <| t_session_id := id |>).
    assert (task_ok t2) as Ht2.
    { destruct H1 as [G1 G2 G3 G4]. split; unfold t2; simp_upd; [done|done|lia|].
      intros F. change (is_client t1 = true) in F. congruence. }
    assert (t_hs t2 = Syn /\ is_client t2 = false) as [Eh2 Ec2].
    { unfold t2. simp_upd. by rewrite Hh. }
    clearbody t2.
    pose proof (kcp_apply_nodelay_ok t2 Ht2) as H3. destruct (steady_nodelay t2) as [[_ _ Ec3 _ _ _] Eh3 _].
    destruct (handshake_send_ok _ H3) as (t3 & E3 & H4); [congruence|]. rewrite E3.
    apply steady_handshake_send in E3 as [_ Eh4 _].
    eexists _, _, _. split; [done|]. apply Hconn; [done|]. by rewrite Eh4, Eh3, Eh2.
Qed.

(** ** Output *)

(** The packet as it leaves in a given state. *)
Definition marked (hs : Handshake) (p : bytes) : bytes := default p (mark_fin hs p).

Lemma read_payload_length p d : read_payload_data p = Some d -> 24 <= Zlen p.
Proof.
  unfold read_payload_data. destruct p as [|b p]; [done|]. cbn [length].
  rewrite read_payload_loop_step. by destruct (Z.ltb_spec (Zlen (b :: p)) 24).
Qed.

Lemma mark_fin_total hs p : mark_fin hs p = Some (marked hs p).
Proof.
  unfold marked. unfold mark_fin. destruct (decide (hs = FinSent)); [|done].
  destruct (read_payload_data p) as [d|] eqn:E; [|done].
  apply read_payload_length in E. destruct (read_cmd_ok p E) as [b Eb].
  unfold read_cmd, write_cmd. by rewrite Eb.
Qed.

(** What the sink takes of a queue: everything before the first failure. *)
Fixpoint fed (feed_ok : nat -> bool) (i : nat) (l : list bytes) : list bytes :=
  match l with
  | [] => []
  | p :: l => if feed_ok i then p :: fed feed_ok (S i) l else []
  end.

Lemma kcp_output_loop_spec fuel feed_ok i hs (k : Kcp) :
  (length (output_queue k) < fuel)%nat ->
  kcp_output_loop fuel feed_ok i hs k =
    Some (fed feed_ok i (map (marked hs) (outputs k)), k <| output_queue := [] |>).
Proof.
  clear clock. unfold outputs. revert i k. induction fuel as [|fuel IH]; intros i k Hf; [lia|].
  cbn [kcp_output_loop]. unfold Kcp_pop_output.
  destruct (output_queue k) as [|p q] eqn:Eq.
  { cbn [map fed]. do 2 f_equal. destruct k. cbn in Eq. by subst. }
  rewrite mark_fin_total. cbn [map fed]. destruct (feed_ok i); [|done].
  rewrite IH by (simp_upd; cbn [length] in Hf; lia). by simp_upd.
Qed.

Lemma kcp_output_spec feed_ok flush_ok hs (k : Kcp) :
  kcp_output feed_ok flush_ok hs k =
    Some (fed feed_ok 0 (map (marked hs) (outputs k)), flush_ok, k <| output_queue := [] |>).
Proof. clear clock. unfold kcp_output. by rewrite kcp_output_loop_spec by lia. Qed.

(** ** The event loop *)

Lemma Kcp_update_task t now :
  task_ok t -> task_ok (t <| t_kcp := Kcp_update (t_kcp t) now |>).
Proof.
  intros Ht. pose proof (tk_kcp t Ht) as Hw. apply task_ok_kcp; [done|by apply Kcp_update_ok|].
  intros Hl. unfold Kcp_update. rewrite handle_after_output by done.
  by apply (link_exec _ (OpUpdate now)); [apply Hw| |].
Qed.

Lemma loop_wait_ok t : task_ok t -> task_ok (snd (loop_wait clock t)).
Proof.
  intros Ht. unfold loop_wait, system_time. set (now := get_system_time _).
  set (t1 := t <| t_ticks := _ |>).
  assert (task_ok t1) as H1
    by (apply (task_ok_forward t); [done|by apply forward_same|done|done]).
  clearbody t1. destruct (decide _).
  - destruct (_ =? 0); [by apply Kcp_update_task|done].
  - destruct (_ >? 0); [destruct (_ =? 0); [by apply Kcp_update_task|done]|].
    apply task_ok_set_handshake; [apply hs_le_Disconnected|done].
Qed.

Lemma loop_head_ok feed_ok flush_ok cancelled t :
  task_ok t ->
  exists ps v t', loop_head clock feed_ok flush_ok cancelled t = Some (ps, v, t') /\ task_ok t'.
Proof.
  intros Ht. unfold loop_head.
  assert (forall (ps0 : list bytes) t1, task_ok t1 -> exists (ps : list bytes) (v : verdict) (t' : Task),
    (if decide (t_hs t1 = Disconnected) then (ps0, Break, t1)
     else if expired t1 then (ps0, Break, t1)
     else let '(v, t1) := loop_wait clock t1 in (ps0, v, t1)) = (ps, v, t') /\ task_ok t') as Hrest.
  { intros ps0 t1 H1. destruct (decide _); [by eexists _, _, _|].
    destruct (expired t1); [by eexists _, _, _|].
    pose proof (loop_wait_ok t1 H1). destruct (loop_wait clock t1). by eexists _, _, _. }
  destruct (Kcp_has_ouput (t_kcp t)).
  - rewrite kcp_output_spec.
    assert (task_ok (t <| t_kcp := (t_kcp t) <| output_queue := [] |> |>)) as H1.
    { destruct Ht as [G1 G2 G3 G4]. by split. }
    destruct (_ || _); [by eexists _, _, _|].
    destruct (Hrest (fed feed_ok 0 (map (marked (t_hs t)) (outputs (t_kcp t)))) _ H1)
      as (ps & v & t' & E & H'). exists ps, v, t'. by rewrite <- E.
  - destruct (Hrest [] t Ht) as (ps & v & t' & E & H'). exists ps, v, t'. by rewrite <- E.
Qed.

(** What the environment promises: frames are shorter than 2^31 bytes, and the program writes
    only after [wait_connection] returned. *)
Definition event_ok (ev : event) t : Prop :=
  match ev with
  | EvInput (Some f) more _ =>
      may_write t /\ Forall (fun f : bytes => Zlen f < 2147483648) (f :: more)
  | _ => True
  end.

Lemma input_more_ok more d t :
  task_ok t -> may_write t -> Forall (fun f : bytes => Zlen f < 2147483648) more ->
  exists c t', input_more more d t = Some (c, t') /\ task_ok t'.
Proof.
  revert t. induction more as [|f more IH]; intros t Ht Hm Hl; cbn [input_more];
    (destruct (Kcp_is_send_queue_full _); [by eexists _, _|]); [by eexists _, _|].
  apply Forall_cons in Hl as [Hf Hl].
  destruct (process_input_ok f t Ht Hf Hm) as (t1 & E & H1). rewrite E. apply IH; [done| |done].
  apply steady_process_input in E. by eapply may_write_steady.
Qed.

Lemma on_input_ok first more d t :
  task_ok t -> event_ok (EvInput first more d) t ->
  exists t', on_input clock first more d t = Some t' /\ task_ok t'.
Proof.
  intros Ht Hev. unfold on_input. set (r := match first with Some _ => _ | None => _ end).
  assert (exists c t1, r = Some (c, t1) /\ task_ok t1) as (c & t1 & -> & H1).
  { unfold r. destruct first as [f|]; [|by eexists _, _]. cbn [event_ok] in Hev.
    destruct Hev as [Hm Hl]. apply Forall_cons in Hl as [Hf Hl].
    destruct (process_input_ok f t Ht Hf Hm) as (t1 & E & H1). rewrite E.
    apply input_more_ok; [done| |done]. apply steady_process_input in E.
    by eapply may_write_steady. }
  destruct c; cbn [option_map].
  - destruct (fin_transit_ok (set_flag INPUT_CLOSED t1)) as (t2 & -> & H2);
      [by apply task_ok_flag|]. eexists. split; [done|]. by apply task_ok_flush.
  - eexists. split; [done|]. by apply task_ok_flush.
Qed.

Lemma reserve_more_ok permits t : task_ok t -> task_ok (snd (reserve_more permits t)).
Proof.
  revert t. induction permits as [|n IH]; intros t Ht; cbn [reserve_more];
    pose proof (Task_kcp_recv_ok t Ht) as Hr; destruct (Task_kcp_recv t) as [[f|] t1];
    cbn [snd] in *; try done.
  specialize (IH t1 Hr). by destruct (reserve_more n t1) as [[out tx] t2].
Qed.

Lemma on_transport_ok first more tx_ok t tx_frame :
  task_ok t ->
  exists out tx t', on_transport clock first more tx_ok t tx_frame = Some (out, tx, t') /\ task_ok t'.
Proof.
  intros Ht. unfold on_transport.
  destruct (input_packets_ok (first :: take (Z.to_nat (cfg_rcv_wnd (t_config t) - 1)) more) t Ht)
    as (t1 & -> & H1).
  set (r := if decide (t_hs t1 = Syn) then _ else _).
  assert (exists o t2, r = Some (o, t2) /\ task_ok t2) as (o & t2 & -> & H2).
  { unfold r. destruct (decide (t_hs t1 = Syn)) as [Hs|_].
    - destruct (syn_handshake_recv_ok tx_ok t1 H1 Hs) as (ok & o & t2 & -> & H2).
      eexists _, _. split; [done|]. destruct ok; [done|].
      apply task_ok_set_handshake; [apply hs_le_Disconnected|done].
    - destruct (is_fin_handshake t1); [|by eexists _, _].
      destruct (fin_transit_ok t1 H1) as (t2 & -> & H2). by eexists _, _. }
  destruct tx_frame as [f|].
  - eexists _, _, _. split; [done|]. by apply task_ok_flush.
  - pose proof (Task_kcp_recv_ok t2 H2) as H3. destruct (Task_kcp_recv t2) as [f t3].
    cbn [snd] in H3. eexists _, _, _. split; [done|]. by apply task_ok_flush.
Qed.

Lemma select_branch_ok ev t tx_frame :
  task_ok t -> event_ok ev t ->
  exists out go tx t', select_branch clock ev t tx_frame = Some (out, go, tx, t') /\ task_ok t'.
Proof.
  intros Ht Hev.
  destruct ev as [first more d|[|] permits|[first|] more tx_ok| |]; cbn [select_branch];
    try by eexists _, _, _, _.
  - destruct (on_input_ok first more d t Ht Hev) as (t' & -> & H'). by eexists _, _, _, _.
  - pose proof (reserve_more_ok permits t Ht) as H1.
    destruct (reserve_more permits t) as [[o x] t1]. by eexists _, _, _, _.
  - destruct (on_transport_ok first more tx_ok t tx_frame Ht) as (o & x & t' & -> & H').
    by eexists _, _, _, _.
Qed.

(** ** The start of the task *)

Lemma Task_new_ok c cv :
  config_ok c -> 0 <= cv < 4294967296 -> task_ok (Task_new c cv) /\ idle (handle (t_kcp (Task_new c cv))).
Proof.
  intros Hc Hcv. split; [|done]. split; cbn [Task_new t_kcp t_config t_session_id]; [|done| |done].
  - unfold wrapper_ok, Kcp_new, buffers_ok. cbn [handle write_buf read_buf].
    rewrite bm_new_law. split; [apply ikcp_create_ok|done].
  - change (Zlen []) with 0. destruct Hc as (_ & H & _). lia.
Qed.

Lemma Kcp_set_mtu_keep malloc_ok (k : Kcp) m :
  snd_keep (handle k) (handle (snd (Kcp_set_mtu malloc_ok k m))).
Proof.
  unfold Kcp_set_mtu. destruct (_ =? m); [done|].
  destruct (ikcp_setmtu_frame (handle k) malloc_ok (i32 m)) as [Hkeep _].
  destruct (ikcp_setmtu _ _ _) as [r kcb]. cbn [snd] in Hkeep.
  destruct (r =? 0); [done|]. destruct (r =? -1); [done|]. by destruct (r =? -2).
Qed.

(** The wrapper while the task starts. *)
Definition starting (c : Z) (k : Kcp) : Prop :=
  wrapper_ok k /\ idle (handle k) /\ conv (handle k) = c.

Lemma starting_keep c (k k' : Kcp) :
  wrapper_ok k' -> snd_keep (handle k) (handle k') -> starting c k -> starting c k'.
Proof.
  intros Hw Hk (_ & Hi & Hc). split; [done|]. split; [by apply (idle_keep _ _ Hk)|].
  by destruct Hk as (_ & _ & _ & -> & _).
Qed.

Lemma starting_nodelay c (k : Kcp) nd iv resend nc :
  starting c k -> starting c (Kcp_set_nodelay k nd iv resend nc).
Proof.
  intros H. apply (starting_keep c k); [by apply Kcp_set_nodelay_ok, H| |done].
  apply ikcp_nodelay_frame.
Qed.

Lemma starting_apply_config c t :
  config_ok (t_config t) -> starting c (t_kcp t) ->
  exists k n, kcp_apply_config true t = Some (t <| t_kcp := k |> <| t_rx_len := n |>) /\
    starting c k.
Proof.
  intros (Hm & _) Hk. unfold kcp_apply_config.
  set (k1 := Kcp_set_stream (t_kcp t) (cfg_stream (t_config t))).
  assert (starting c k1) as S1 by exact Hk. simp_upd. clearbody k1. clear Hk.
  set (m := cfg_mtu (t_config t)) in *.
  destruct (Kcp_set_mtu_spec true k1 m (proj1 S1) ltac:(lia)) as (W2 & R2 & _).
  { destruct S1 as (_ & [-> ->] & _). constructor. }
  pose proof (starting_keep c k1 _ W2 (Kcp_set_mtu_keep true k1 m) S1) as S2.
  destruct (Kcp_set_mtu true k1 m) as [r k2]. cbn [fst snd] in *.
  assert (r = Ok tt) as ->.
  { rewrite R2. destruct (_ =? m); [done|]. destruct (Z.ltb_spec m 50); [lia|done]. }
  simp_upd. set (k3 := Kcp_set_wndsize k2 (cfg_snd_wnd (t_config t)) (cfg_rcv_wnd (t_config t))).
  assert (starting c k3) as S3.
  { apply (starting_keep c k2); [by apply Kcp_set_wndsize_ok, S2| |done]. apply ikcp_wndsize_frame. }
  clearbody k3. unfold kcp_apply_nodelay. simp_upd.
  set (nd := cfg_nodelay _). pose proof (starting_nodelay c k3 (nd_nodelay nd) (nd_interval nd)
    (nd_resend nd) (nd_nc nd) S3) as S4.
  set (k4 := Kcp_set_nodelay _ _ _ _ _) in *. clearbody k4. clear R2. cbv zeta. subst m.
  destruct (_ <? _); [exists k4, (cfg_mtu (t_config t) * 3)|exists k4, (t_rx_len t)];
    (split; [|exact S4]); f_equal; destruct t; reflexivity.
Qed.

Lemma starting_task_ok t :
  starting (conv (handle (t_kcp t))) (t_kcp t) -> config_ok (t_config t) ->
  Zlen (t_session_id t) <= session_id_len (t_config t) -> task_ok t.
Proof.
  intros (Hw & Hi & _) Hc Hs. split; try done. intros _ _.
  split; [by right|]. destruct Hi as [-> _]. unfold Zlen. cbn. lia.
Qed.

Lemma is_client_flag t : is_client (set_flag CLIENT t) = true.
Proof.
  unfold is_client. rewrite has_CLIENT. unfold set_flag. simp_upd. rewrite Z.lor_spec.
  by rewrite orb_true_r.
Qed.

Lemma starting_initialize cv elapsed (k : Kcp) :
  starting cv k -> starting cv (Kcp_initialize elapsed k).
Proof.
  intros (Hw & Hi & Hc). unfold Kcp_initialize. set (now := get_system_time _). clearbody now.
  split; [by apply Kcp_update_ok|]. unfold Kcp_update. rewrite handle_after_output by done.
  pose proof Hw as (Hk & _).
  destruct (exec_static _ (OpUpdate now) Hk I) as [Ecv _]. cbn [kcp_exec] in Ecv. rewrite Ecv.
  split; [|done]. clear Ecv. destruct (ikcp_update_cases (handle k) now) as (u & ts & _ & [-> | ->]);
    [|done].
  apply idle_flush; [by apply kcp_ok_clock|done].
Qed.

(** The last lines before the loop, for a client. *)
Lemma start_client t id :
  config_ok (t_config t) -> Zlen id <= session_id_len (t_config t) ->
  starting SYN_CONV (t_kcp t) ->
  exists t', handshake_send clock
      ((set_flag CLIENT t) <| t_session_id := id |>
         <| t_kcp := Kcp_set_conv (t_kcp t) SYN_CONV |>) = Some t' /\
    task_ok t' /\ is_client t' = true /\ t_hs t' = t_hs t.
Proof.
  intros Hc Hid (Hw & Hi & Hcv).
  pose proof (is_client_flag t) as Ec.
  assert (t_hs (set_flag CLIENT t) = t_hs t /\ t_config (set_flag CLIENT t) = t_config t)
    as [Eh Eg] by done.
  rewrite <- Eg in *. rewrite <- Eh. clear Eh Eg.
  generalize dependent (set_flag CLIENT t). intros t1 Hc Hid Ec.
  generalize dependent (t_kcp t). intros k Hw Hi Hcv. clear t.
  assert (wrapper_ok (Kcp_set_conv k SYN_CONV)) as W3.
  { destruct Hw as (Hk & Hb & _). split; [by apply kcp_ok_conv, Hi|]. by split. }
  assert (starting SYN_CONV (Kcp_set_conv k SYN_CONV)) as S3 by (by split_and!).
  generalize dependent (Kcp_set_conv k SYN_CONV). intros k1 W3 S3.
  set (t2 := t1 <| t_session_id := id |> <| t_kcp := k1 |>).
  assert (is_client t2 = true /\ t_hs t2 = t_hs t1 /\ t_kcp t2 = k1 /\ t_config t2 = t_config t1
    /\ t_session_id t2 = id) as (Ec2 & Eh2 & Ek2 & Eg2 & Es2) by done.
  clearbody t2. rewrite <- Ek2 in S3. pose proof S3 as (_ & [Hq _] & E3).
  assert (task_ok t2) as Ht2.
  { apply starting_task_ok; [by rewrite E3|by rewrite Eg2|by rewrite Es2, Eg2]. }
  destruct (handshake_send_ok t2 Ht2 ltac:(done)) as (t3 & E & H3).
  exists t3. split; [done|]. split; [done|].
  apply steady_handshake_send in E as [[_ _ E1 _ _ _] E2 _]. by rewrite E1, E2.
Qed.

(** A task starts without a panic, whatever the clock and the random numbers. *)
Lemma run_start_task_ok t cv draw :
  starting cv (t_kcp t) -> config_ok (t_config t) -> t_session_id t = [] -> is_client t = false ->
  exists t', run_start clock true draw t = Some t' /\ task_ok t' /\
    is_client t' = (cv =? SYN_CONV) /\ t_hs t' = Syn.
Proof.
  intros S0 Hc Hid Hcl. unfold run_start. cbn zeta. simp_upd.
  apply (starting_initialize cv (clock (t_ticks t))) in S0.
  generalize dependent (Kcp_initialize (clock (t_ticks t)) (t_kcp t)). intros k0 S0.
  set (t1 := (t <| t_ticks := _ |>) <| t_kcp := k0 |>).
  assert (t_config t1 = t_config t /\ t_session_id t1 = [] /\ is_client t1 = false /\ t_kcp t1 = k0)
    as (E1 & E2 & E3 & E4) by (unfold t1; simp_upd; done).
  clearbody t1. rewrite <- E4 in S0. rewrite <- E1 in Hc. clear E4 E1 Hid Hcl t k0.
  destruct (starting_apply_config cv t1 Hc S0) as (k1 & n & -> & S1).
  unfold system_time. simp_upd. set (now := get_system_time _). clearbody now.
  apply (starting_nodelay cv k1 true 100 0 false) in S1.
  generalize dependent (Kcp_set_nodelay k1 true 100 0 false). intros k2 S2.
  unfold Kcp_conv. pose proof S2 as (W2 & I2 & C2). rewrite C2.
  match goal with |- context [if _ then _ else Some ?x] => set (t2 := x) end.
  assert (t_config t2 = t_config t1 /\ t_session_id t2 = [] /\ is_client t2 = false /\
    t_kcp t2 = k2 /\ t_hs t2 = Syn) as (F1 & F2 & F3 & F4 & F5) by (unfold t2; by simp_upd).
  rewrite <- F4 in *. rewrite <- F1 in *. clearbody t2. clear k1 n now t1 S0 E2 E3 F1 F4.
  change (t_kcp (set_flag CLIENT t2)) with (t_kcp t2).
  change (t_config (set_flag CLIENT t2)) with (t_config t2).
  destruct (Z.eqb_spec cv SYN_CONV) as [Es|Es].
  - rewrite Es in S2. destruct (start_client t2 (random_session_id (t_config t2) draw) Hc)
      as (t3 & H1 & H2 & H3 & H4); [rewrite random_session_id_length; [lia|apply Hc]|done|].
    exists t3. by rewrite H4.
  - exists t2. split; [done|]. split; [|done].
    apply starting_task_ok; [by rewrite C2|done|]. rewrite F2. apply Hc.
Qed.

Lemma run_start_ok c cv draw :
  config_ok c -> 0 <= cv < 4294967296 ->
  exists t, run_start clock true draw (Task_new c cv) = Some t /\ task_ok t /\
    is_client t = (cv =? SYN_CONV) /\ t_hs t = Syn.
Proof.
  intros Hc Hcv. destruct (Task_new_ok c cv Hc Hcv) as [Ht Hi].
  apply run_start_task_ok; [|done..]. split; [apply Ht|done].
Qed.

(** ** Reachable states *)

Lemma run_step_ok s s' : run_step clock event_ok s s' -> task_ok (fst s) -> task_ok (fst s').
Proof.
  intros [feed fl t tx ps t' E|feed fl t tx ps iv t1 ev out tx' t' E _ Hev Es] Ht; cbn [fst] in *;
    destruct (loop_head_ok feed fl false t Ht) as (ps' & v & t2 & E' & H2).
  - rewrite E in E'. by injection E' as _ _ <-.
  - rewrite E in E'. injection E' as _ _ <-.
    destruct (select_branch_ok ev t1 tx H2 Hev) as (o & go & x & t3 & E3 & H3).
    rewrite Es in E3. by injection E3 as _ _ _ <-.
Qed.

Lemma run_reachable_ok s s' : rtc (run_step clock event_ok) s s' -> task_ok (fst s) -> task_ok (fst s').
Proof. induction 1 as [|s1 s2 s3 Hs _ IH]; [done|]. intros Ht. by apply IH, (run_step_ok s1). Qed.

Lemma run_step_forward allowed s s' : run_step clock allowed s s' -> forward (fst s) (fst s').
Proof.
  intros [feed fl t tx ps t' E|feed fl t tx ps iv t1 ev out tx' t' E _ _ Es]; cbn [fst].
  - by apply forward_loop_head in E.
  - apply forward_loop_head in E. apply forward_select in Es. by transitivity t1.
Qed.
End Safe.
