(* ===== verification/StreamWire.v ===== *)
(** The frames that open and close a session: the FIN mark, the RESET packet and the SYN
    exchange, from the task that sends them to the task that receives them. *)
From S2P Require Import Prelude Bytes IkcpTypes IkcpSend IkcpInput IkcpFlush IkcpFlushSpec.
From S2P Require Import IkcpInv Wire Delivery Protocol ProtocolSpec Config Stream StreamSpec.
From S2P Require Import StreamSafe.

(** ** The header writer *)

Lemma byte_of_Z_u8 z : byte_of_Z (u8 z) = byte_of_Z z.
Proof. unfold byte_of_Z. by rewrite u8_idemp. Qed.

Lemma le_bytes_encode8 z : le_bytes 1 z = ikcp_encode8u [] z.
Proof. done. Qed.

Lemma byte_of_Z_mod z : byte_of_Z (z mod 256) = byte_of_Z z.
Proof. exact (byte_of_Z_u8 z). Qed.

Lemma le_bytes_encode16 z : le_bytes 2 z = ikcp_encode16u [] z.
Proof.
  unfold ikcp_encode16u. cbn [le_bytes app]. rewrite land_255, byte_of_Z_u8.
  by rewrite Z.shiftr_div_pow2 by lia.
Qed.

Lemma le_bytes_encode32 z : le_bytes 4 z = ikcp_encode32u [] z.
Proof.
  unfold ikcp_encode32u. cbn [le_bytes app]. rewrite !land_255, !byte_of_Z_u8.
  rewrite !Z.shiftr_div_pow2 by lia. rewrite Z.div_1_r, !Z.div_div by lia. done.
Qed.

Section Head.
Context {BM : BytesMut} {BML : BytesMutLaws BM}.

(** The segment whose header [write_ack_head] writes. *)
Definition ack_head (elapsed : Z * Z) (this : Kcp) (cmd_flags : Z) : IKCPSEG :=
  mkIKCPSEG (conv (handle this)) (Z.lor IKCP_CMD_ACK cmd_flags) 0 (rcv_wnd (handle this))
    (get_system_time elapsed) (snd_nxt (handle this)) (rcv_nxt (handle this)) 0
    0 0 0 0 [].

(** It writes 28 bytes: a complete header whose length field is zero, and then the payload
    size, where the payload should start. *)
Lemma Kcp_write_ack_head_spec elapsed this buf flags n :
  0 <= n < 4294967296 ->
  bm_bytes (Kcp_write_ack_head elapsed this buf flags n) =
    bm_bytes buf ++ ikcp_encode_seg [] (ack_head elapsed this flags) ++ ikcp_encode32u [] n.
Proof.
  intros Hn. unfold Kcp_write_ack_head, IKCP_OVERHEAD.
  rewrite !put_u32_le_law, !put_u16_le_law, !put_u8_law, !put_u32_le_law.
  destruct (bm_reserve_law buf (24 + n)) as [-> _]; [lia|].
  rewrite u32_small, !le_bytes_encode32, !le_bytes_encode16, !le_bytes_encode8 by lia.
  rewrite <- !app_assoc. f_equal. unfold ikcp_encode_seg, ack_head.
  cbn [seg_conv seg_cmd seg_frg seg_wnd seg_ts seg_sn seg_una seg_len].
  change (u8 IKCP_CMD_ACK) with IKCP_CMD_ACK.
  unfold ikcp_encode8u. rewrite byte_of_Z_u8. reflexivity.
Qed.

Lemma Kcp_write_ack_head_decode elapsed this flags n :
  0 <= n < 4294967296 ->
  ikcp_decode_header (bm_bytes (Kcp_write_ack_head elapsed this bm_new flags n)) =
    (ikcp_encode32u [] n, seg_header (ack_head elapsed this flags)).
Proof.
  intros Hn. rewrite Kcp_write_ack_head_spec, bm_new_law by done. apply ikcp_decode_encode_seg.
Qed.
End Head.

(** ** Rewriting the command byte *)

(** The header of a packet whose command byte is replaced. *)
Lemma decode_header_cmd (p : bytes) c :
  24 <= Zlen p ->
  let h := snd (ikcp_decode_header p) in
  ikcp_decode_header (<[4%nat := c]> p) =
    (drop 24 p, mkheader (h_conv h) (byte_to_Z c) (h_frg h) (h_wnd h) (h_ts h) (h_sn h)
                  (h_una h) (h_len h)) /\
  p !! 4%nat = Some (byte_of_Z (h_cmd h)) /\ 0 <= h_cmd h < 256.
Proof.
  intros Hp. do 24 (destruct p as [|? p]; [unfold Zlen in Hp; cbn [length] in Hp; lia|]).
  cbv zeta. split; [reflexivity|]. split; [|apply byte_to_Z_range].
  cbn. f_equal. symmetry. apply byte_of_to_Z.
Qed.

Lemma insert_back (p : bytes) i c d : p !! i = Some d -> <[i := d]> (<[i := c]> p) = p.
Proof. intros H. rewrite list_insert_insert_eq. by apply list_insert_id. Qed.

(** A packet whose first segment a control block of the same conversation takes. *)
Definition packet_for (cv : Z) (p : bytes) : Prop :=
  let h := snd (ikcp_decode_header p) in
  24 <= Zlen p < 2147483648 /\ h_conv h = cv /\ h_len h <= Zlen p - 24 /\ 81 <= h_cmd h <= 84.

Lemma read_cmd_header p : 24 <= Zlen p -> read_cmd p = Ok (h_cmd (snd (ikcp_decode_header p))).
Proof.
  intros Hp. destruct (decode_header_cmd p (byte_of_Z 0) Hp) as (_ & E & Hr).
  unfold read_cmd. rewrite E, byte_to_of_Z, u8_small by lia. done.
Qed.

Lemma write_cmd_insert p c : 24 <= Zlen p -> write_cmd p c = Ok (<[4%nat := byte_of_Z c]> p).
Proof. intros Hp. unfold write_cmd. by destruct (read_cmd_ok p Hp) as [b ->]. Qed.

(** A command byte with a flag outside [CMD_MASK] is not a command, and loses the flag to an
    exclusive or. *)
Lemma flagged_cmd cmd flag :
  81 <= cmd <= 84 -> flag = KCP_FIN \/ flag = KCP_RESET ->
  let c := Z.lor cmd flag in
  0 <= c < 256 /\ ~ (81 <= c <= 84) /\ Z.lxor c flag = cmd /\
  (Z.land c KCP_FIN =? 0) = (flag =? KCP_RESET) /\ (Z.land c KCP_RESET =? 0) = (flag =? KCP_FIN).
Proof.
  intros Hc Hf. assert (cmd = 81 \/ cmd = 82 \/ cmd = 83 \/ cmd = 84) as Hcases by lia.
  destruct Hcases as [-> | [-> | [-> | ->]]], Hf as [-> | ->]; vm_compute;
    (split; [split; congruence|]); (split; [intros []; congruence|done]).
Qed.

(** With such a flag the first segment is refused, and nothing else happens. *)
Lemma flagged_rejected k p flag :
  packet_for (conv k) p -> flag = KCP_FIN \/ flag = KCP_RESET ->
  let c := Z.lor (h_cmd (snd (ikcp_decode_header p))) flag in
  let p' := <[4%nat := byte_of_Z c]> p in
  ikcp_input k p' = (-3, k) /\ read_cmd p' = Ok c /\
  write_cmd p' (Z.lxor c flag) = Ok p.
Proof.
  intros (Hlen & Hcv & Hl & Hcmd) Hf. cbv zeta.
  destruct (flagged_cmd _ flag Hcmd Hf) as (Hr & Hn & Hx & _).
  set (c := Z.lor _ flag) in *. set (p' := <[4%nat := byte_of_Z c]> p).
  destruct (decode_header_cmd p (byte_of_Z c) ltac:(lia)) as (Hd & H4 & _).
  fold p' in Hd. rewrite byte_to_of_Z, u8_small in Hd by lia.
  assert (Zlen p' = Zlen p) as El by (unfold p', Zlen; by rewrite length_insert).
  split_and!.
  - destruct (ikcp_input_rejects k p' ltac:(lia)) as (_ & _ & H3). rewrite Hd in H3.
    cbn [snd h_conv h_cmd h_len] in H3. apply H3; [lia|done|lia|done].
  - rewrite read_cmd_header by lia. by rewrite Hd.
  - rewrite write_cmd_insert by lia. rewrite Hx. unfold p'. by rewrite insert_back.
Qed.

Section Frames.
Context {BM : BytesMut} {BML : BytesMutLaws BM} (clock : nat -> Z * Z).
Implicit Types t : Task.

(** The first mark of a FIN frame closes the input. *)
Definition fin_received t : Task :=
  if has t FIN_RECVED then t else (set_flag FIN_RECVED t) <| t_input_open := false |>.

(** A data packet sent in [FinSent] carries the FIN mark; the receiver takes the mark off,
    moves its own state first, and then takes the packet as it was before it was marked. *)
Lemma Task_kcp_input_fin p t d :
  packet_for (conv (handle (t_kcp t))) p -> read_payload_data p = Some d ->
  Task_kcp_input clock (marked FinSent p) t =
    match fin_transit_state clock (fin_received t) with
    | Some t' => Some (t' <| t_kcp := snd (Kcp_input (t_kcp t') p) |>)
    | None => None
    end.
Proof.
  intros Hp Hd. pose proof Hp as (Hlen & _ & _ & Hcmd).
  set (c := Z.lor (h_cmd (snd (ikcp_decode_header p))) KCP_FIN).
  assert (marked FinSent p = <[4%nat := byte_of_Z c]> p) as ->.
  { unfold marked, mark_fin. rewrite decide_True, Hd, read_cmd_header, write_cmd_insert by (done || lia).
    done. }
  destruct (flagged_rejected (handle (t_kcp t)) p KCP_FIN Hp ltac:(by left)) as (Hin & Hrd & Hwr).
  fold c in Hin, Hrd, Hwr. destruct (flagged_cmd _ KCP_FIN Hcmd ltac:(by left)) as (_ & _ & _ & F1 & F2).
  fold c in F1, F2. unfold Task_kcp_input, Kcp_input at 1. rewrite Hin. cbn [Z.eqb orb Pos.eqb].
  rewrite handle_id, Hrd, F1, F2. cbn [negb Z.eqb Pos.eqb KCP_FIN KCP_RESET].
  replace (t <| t_kcp := t_kcp t |>) with t by (by destruct t).
  assert ((if negb (has t FIN_RECVED) then (set_flag FIN_RECVED t) <| t_input_open := false |> else t)
    = fin_received t) as -> by (unfold fin_received; by destruct (has t FIN_RECVED)).
  destruct (fin_transit_state clock (fin_received t)) as [t1|]; [|done]. rewrite Hwr.
  pose proof (Kcp_input_handle (t_kcp t1) p) as Hh.
  destruct (Kcp_input (t_kcp t1) p) as [[[]|e|] k]; cbn [snd]; [done|done|]. by destruct Hh.
Qed.

(** The RESET packet a leaving task hands to the half-close pool ends the session of a peer of
    the same conversation, whatever state it is in. *)
Lemma Task_kcp_input_reset (clock' : nat -> Z * Z) t t' p c :
  run_exit clock t = (Some p, c) -> 0 <= c < 4294967296 -> conv (handle (t_kcp t')) = c ->
  Task_kcp_input clock' p t' = Some (set_handshake Disconnected t').
Proof.
  unfold run_exit. destruct (is_valid_conv _); [|done]. intros [= <- <-] Hc Hcv.
  set (k := t_kcp t) in *. unfold Kcp_conv in *.
  pose proof (Kcp_write_ack_head_decode (clock (t_ticks t)) k KCP_RESET 0 ltac:(lia)) as Hd.
  pose proof (Kcp_write_ack_head_spec (clock (t_ticks t)) k bm_new KCP_RESET 0 ltac:(lia)) as Hs.
  rewrite bm_new_law in Hs. cbn [app] in Hs.
  set (p := bm_bytes _) in *.
  assert (Zlen p = 28) as Hl by (rewrite Hs, Zlen_app, length_ikcp_encode_seg; done).
  clearbody p. clear Hs.
  destruct (ikcp_input_rejects (handle (t_kcp t')) p ltac:(lia)) as (_ & _ & H3).
  rewrite Hd in H3. unfold seg_header, ack_head in H3, Hd.
  cbn [snd h_conv h_cmd h_len seg_conv seg_cmd seg_frg seg_wnd seg_ts seg_sn seg_una seg_len] in H3, Hd.
  change (u8 (Z.lor IKCP_CMD_ACK KCP_RESET)) with 90 in *. change (u32 0) with 0 in *.
  assert (ikcp_input (handle (t_kcp t')) p = (-3, handle (t_kcp t'))) as Hin.
  { apply H3; [lia|rewrite Hcv; by apply u32_small|lia|lia]. }
  unfold Task_kcp_input, Kcp_input. rewrite Hin. cbn [Z.eqb orb Pos.eqb].
  rewrite handle_id, read_cmd_header, Hd by lia. cbn [snd h_cmd].
  change (negb (Z.land 90 KCP_RESET =? 0)) with true. cbv iota.
  by replace (t' <| t_kcp := t_kcp t' |>) with t' by (by destruct t').
Qed.

(** ** The SYN exchange *)

(** The connection is established exactly on a frame that is the session key followed by an
    identifier of the configured length, for a client its own. *)
Lemma syn_handshake_recv_spec tx_ok t ok out t' :
  t_hs t = Syn -> syn_handshake_recv clock tx_ok t = Some (ok, out, t') ->
  match fst (Task_kcp_recv t) with
  | None => ok = true /\ out = [] /\ t_hs t' = Syn
  | Some syn =>
      (t_hs t' = Connected <-> exists id, syn = session_key (t_config t) ++ id /\
         Zlen id = session_id_len (t_config t) /\ (is_client t = true -> t_session_id t = id)) /\
      (t_hs t' = Connected -> syn = session_key (t_config t) ++ t_session_id t' /\ ok = tx_ok) /\
      (t_hs t' <> Connected -> ok = false /\ out = [])
  end.
Proof.
  intros Hs. unfold syn_handshake_recv. destruct (steady_recv t) as [[_ Ec Ecl _ _ _ _] Eh Eid].
  destruct (Task_kcp_recv t) as [[syn|] t1]; cbn [fst snd] in *;
    [|intros [= <- <- <-]; by rewrite Eh].
  rewrite <- Ec, <- Ecl, <- Eid. rewrite Hs in Eh. clear Ec Ecl Eid Hs t.
  assert (forall id, strip_prefix (session_key (t_config t1)) syn = Some id <->
    syn = session_key (t_config t1) ++ id) as Hstrip.
  { intros id. unfold strip_prefix. split.
    - destruct (decide _) as [E|]; [|done]. intros [= <-].
      rewrite <- E at 1. by rewrite take_drop.
    - intros ->. rewrite take_app_length, decide_True by done. by rewrite drop_app_length. }
  assert (forall P : Prop, (P -> False) ->
    (t_hs t1 = Connected <-> P) /\
    (t_hs t1 = Connected -> syn = session_key (t_config t1) ++ t_session_id t1 /\ false = tx_ok) /\
    (t_hs t1 <> Connected -> false = false /\ @nil Output = [])) as Hno.
  { intros P HP. rewrite Eh. split_and!; try done. }
  destruct (strip_prefix _ syn) as [id|] eqn:Es.
  2: { intros [= <- <- <-]. apply Hno. intros (id & E & _). apply Hstrip in E. congruence. }
  assert (syn = session_key (t_config t1) ++ id) as E by (by apply Hstrip).
  destruct (Z.eqb_spec (Zlen id) (session_id_len (t_config t1))) as [El|El].
  2: { intros [= <- <- <-]. apply Hno. intros (id' & E' & El' & _). apply Hstrip in E'. congruence. }
  destruct (is_client t1) eqn:Ecl.
  - destruct (decide (t_session_id t1 = id)) as [Eid|Eid].
    2: { intros [= <- <- <-]. apply Hno. intros (id' & E' & _ & H). apply Hstrip in E'.
         specialize (H eq_refl). congruence. }
    intros [= <- _ <-]. rewrite t_hs_set_handshake, session_set_handshake.
    destruct (steady_nodelay t1) as [_ _ ->]. rewrite Eid. split_and!; try done.
    split; [|done]. intros _. by exists id.
  - destruct (handshake_send clock _) as [t2|] eqn:E2; [|done].
    intros [= <- _ <-]. rewrite t_hs_set_handshake, session_set_handshake.
    apply steady_handshake_send in E2 as [_ _ ->].
    destruct (steady_nodelay (t1 <| t_session_id := id |>)) as [_ _ ->]. simp_upd.
    split_and!; try done. split; [|done]. intros _. by exists id.
Qed.
End Frames.
