(* ===== verification/Handshake.v ===== *)
(** The handshake completes: a client and a server that was given a number, both started by
    [run] and waiting for each other, connect as soon as the client's first packets reach the
    server and the server's answer reaches the client. *)
From stdpp Require Import relations.
From S2P Require Import Prelude Bytes IkcpTypes IkcpSend IkcpInput IkcpFlush IkcpFlushSpec.
From S2P Require Import IkcpInv Wire Delivery Progress Exchange Acks Rounds Acked.
From S2P Require Import Protocol ProtocolSpec Config.
From S2P Require Import Stream StreamSpec StreamSafe.

(** A configuration whose handshake frame fits one segment, and whose receive window fits the
    16 bits of the header. *)
Definition greeting_ok (c : KcpConfig) : Prop :=
  config_ok c /\ 0 <= cfg_rcv_wnd c < 65536 /\
  0 < Zlen (session_key c) + session_id_len c <= cfg_mtu c - 24.

Section Handshake.
Context {BM : BytesMut} {BML : BytesMutLaws BM} (clock : nat -> Z * Z).
Implicit Types t : Task.

(** ** The wrapper before the exchange *)
Record opening (S : list entry) (m cv : Z) (out : list bytes) (k : Kcp) : Prop := {
  op_greeter : greeter S m (handle k);
  op_conv : conv (handle k) = cv;
  op_buffers : buffers_ok k;
  op_out : outputs k = out;
  op_acks : ackcount (handle k) = 0
}.

Lemma opening_handle S m m' cv out k h :
  opening S m cv out k -> greeter S m' h /\ conv h = conv (handle k) ->
  ackcount h = ackcount (handle k) ->
  opening S m' cv out (k <| handle := h |>).
Proof.
  intros [_ H2 H3 H4 H5] [Hg Hc] Ha. split; [done|by simp_upd; rewrite Hc|done|done|by simp_upd; rewrite Ha].
Qed.

Lemma opening_nodelay S m cv out k nd iv resend nc :
  opening S m cv out k -> opening S m cv out (Kcp_set_nodelay k nd iv resend nc).
Proof. intros H. apply (opening_handle S m); [done|apply greeter_nodelay, H|]. apply nodelay_kept. Qed.

Lemma opening_wndsize S m cv out k s r :
  0 <= r < 65536 -> opening S m cv out k -> opening S m cv out (Kcp_set_wndsize k s r).
Proof.
  intros Hr H. apply (opening_handle S m); [done| |apply wndsize_kept].
  apply greeter_wndsize; [pose proof (i32_range s); lia|rewrite i32_small; lia|apply H].
Qed.

Lemma opening_mtu m m' cv out k :
  50 <= m' < 1073741824 -> opening [] m cv out k ->
  exists k', Kcp_set_mtu true k m' = (Ok tt, k') /\ opening [] m' cv out k'.
Proof.
  intros Hm H. pose proof (op_greeter _ _ _ _ _ H) as Hg. unfold Kcp_set_mtu.
  destruct (Z.eqb_spec (mtu (handle k)) m') as [E|_].
  { exists k. split; [done|]. rewrite (gr_mtu _ _ _ Hg) in E. by subst. }
  rewrite i32_small by lia.
  destruct (setmtu_kept (handle k) true m') as [[Ha _] _].
  destruct (greeter_setmtu m m' (handle k) Hm Hg) as (h & E & H'). rewrite E in *.
  eexists. split; [done|]. by apply (opening_handle [] m).
Qed.

Lemma opening_initialize cv elapsed :
  0 <= cv < 4294967296 -> opening [] IKCP_MTU_DEF cv [] (Kcp_initialize elapsed (Kcp_new cv)).
Proof.
  intros Hcv. unfold Kcp_initialize, Kcp_update. set (now := get_system_time _).
  assert (buffers_ok (Kcp_new cv)) as Hb by (unfold buffers_ok, Kcp_new; cbn; by rewrite bm_new_law).
  destruct (greeter_create cv now Hcv) as (Hg & Hc & Ho). cbn [handle Kcp_new].
  destruct (after_output_spec (Kcp_new cv) (ikcp_update (ikcp_create cv) now) Hb) as (H1 & H2 & H3).
  rewrite Ho in H2. cbv zeta in *. split; [by rewrite H3|by rewrite H3|done|exact H2|].
  rewrite H3. destruct (ikcp_update_cases (ikcp_create cv) now) as (u & ts & Hu & [-> | ->]); [|done].
  cbn [fst]. set (k := with_clock _ _ _ _). destruct (decide (updated k = 0)) as [E|E].
  - unfold ikcp_flush. by rewrite E.
  - apply ackcount_flush; [|done]. by apply kcp_ok_clock, ikcp_create_ok.
Qed.

Lemma opening_apply_config m cv out t :
  greeting_ok (t_config t) -> opening [] m cv out (t_kcp t) ->
  exists k n, kcp_apply_config true t = Some (t <| t_kcp := k |> <| t_rx_len := n |>) /\
    opening [] (cfg_mtu (t_config t)) cv out k.
Proof.
  intros ((Hm & _) & Hr & _) Hk. unfold kcp_apply_config. cbv zeta.
  set (k1 := Kcp_set_stream (t_kcp t) (cfg_stream (t_config t))).
  assert (opening [] m cv out k1) as S1.
  { apply (opening_handle [] m); [done| |done]. split; [|done]. apply greeter_stream, Hk. }
  simp_upd. clearbody k1. clear Hk. set (mt := cfg_mtu (t_config t)) in *.
  destruct (opening_mtu m mt cv out k1 ltac:(lia) S1) as (k2 & -> & S2). simp_upd.
  apply (opening_wndsize _ _ _ _ _ (cfg_snd_wnd (t_config t)) (cfg_rcv_wnd (t_config t)) Hr) in S2.
  generalize dependent (Kcp_set_wndsize k2 (cfg_snd_wnd (t_config t)) (cfg_rcv_wnd (t_config t))).
  intros k3 S3. unfold kcp_apply_nodelay. simp_upd. set (nd := cfg_nodelay _).
  pose proof (opening_nodelay _ _ _ _ _ (nd_nodelay nd) (nd_interval nd) (nd_resend nd) (nd_nc nd) S3)
    as S4.
  set (k4 := Kcp_set_nodelay _ _ _ _ _) in *. clearbody k4. cbv zeta.
  destruct (_ <? _); [exists k4, (mt * 3)|exists k4, (t_rx_len t)];
    (split; [|exact S4]); f_equal; destruct t; reflexivity.
Qed.

(** ** Sending the handshake frame *)

(** An update and a flush of the wrapper. *)
Lemma update_flush_spec (w : Kcp) now :
  buffers_ok w ->
  let r := ikcp_update (handle w) now in let r' := ikcp_flush (fst r) in
  let w' := Kcp_flush (Kcp_update w now) in
  buffers_ok w' /\ outputs w' = outputs w ++ snd r ++ snd r' /\ handle w' = fst r'.
Proof.
  intros Hb. cbv zeta. unfold Kcp_flush, Kcp_update.
  destruct (after_output_spec w (ikcp_update (handle w) now) Hb) as (B1 & O1 & H1).
  generalize dependent (after_output w (ikcp_update (handle w) now)). intros w1 B1 O1 H1.
  destruct (after_output_spec w1 (ikcp_flush (handle w1)) B1) as (B2 & O2 & H2).
  rewrite H1 in *. split; [exact B2|]. split; [|exact H2]. by rewrite O2, O1, app_assoc.
Qed.

Lemma Task_kcp_flush_spec t :
  has t FLUSH = true -> buffers_ok (t_kcp t) ->
  exists now, let r := ikcp_update (handle (t_kcp t)) now in let r' := ikcp_flush (fst r) in
    let t' := Task_kcp_flush clock t in
    t_flags t' = Z.lxor (t_flags t) FLUSH /\ buffers_ok (t_kcp t') /\
    outputs (t_kcp t') = outputs (t_kcp t) ++ snd r ++ snd r' /\ handle (t_kcp t') = fst r'.
Proof.
  intros Hf Hb. unfold Task_kcp_flush. rewrite Hf. clear Hf. unfold system_time.
  set (t1 := t <| t_flags := _ |>).
  assert (t_kcp t1 = t_kcp t /\ t_flags t1 = Z.lxor (t_flags t) FLUSH) as [Ek Ef] by done.
  clearbody t1. rewrite <- Ef, <- Ek in *. clear Ef Ek t. set (now := get_system_time _).
  exists now. cbv zeta. simp_upd. split; [done|]. by apply update_flush_spec.
Qed.

Definition syn_frame (t : Task) : bytes := session_key (t_config t) ++ t_session_id t.

Lemma handshake_send_spec t :
  outbox [] (handle (t_kcp t)) -> snd_queue (handle (t_kcp t)) = [] -> buffers_ok (t_kcp t) ->
  0 < Zlen (syn_frame t) <= mss (handle (t_kcp t)) ->
  exists t' qs, handshake_send clock t = Some t' /\
    t_flags t' = Z.lxor (Z.lor (t_flags t) FLUSH) FLUSH /\ buffers_ok (t_kcp t') /\
    outputs (t_kcp t') = outputs (t_kcp t) ++ qs /\ snd_queue (handle (t_kcp t')) = [] /\
    emits_step True [] [(0, syn_frame t)] (handle (t_kcp t)) (handle (t_kcp t')) qs.
Proof.
  intros Ho Hq Hb. unfold handshake_send, syn_frame. set (t1 := set_flag FLUSH t).
  assert (t_kcp t1 = t_kcp t /\ t_config t1 = t_config t /\ t_session_id t1 = t_session_id t /\
    t_flags t1 = Z.lor (t_flags t) FLUSH) as (Ek & Ec & Ei & Ef) by done.
  assert (has t1 FLUSH = true) as Hfl by (rewrite has_FLUSH, Ef, Z.lor_spec; apply orb_true_r).
  clearbody t1. rewrite Ec, Ei, Ek, <- Ef. clear Ec Ei Ef.
  set (syn := _ ++ _). clearbody syn. intros Hl. rewrite <- Ek in *. clear Ek.
  pose proof (ob_ok _ _ Ho) as [((Hm & _) & _) _].
  unfold Kcp_send. rewrite i32_small by lia.
  destruct syn as [|x xs] eqn:Esyn; [change (Zlen []) with 0 in Hl; lia|].
  rewrite <- Esyn in *. clear Esyn x xs.
  destruct (outbox_write syn _ Ho Hq Hl) as (_ & E & _). rewrite E. cbn [Z.geb Z.compare]. clear E.
  set (w0 := (t_kcp t1) <| handle := _ |>).
  assert (buffers_ok w0 /\ outputs w0 = outputs (t_kcp t1) /\
    handle w0 = snd (ikcp_send (handle (t_kcp t1)) syn (Zlen syn))) as (Hb0 & Eo0 & Eh0).
  { unfold w0, buffers_ok. by simp_upd. }
  clearbody w0.
  set (t2 := t1 <| t_kcp := w0 |>).
  assert (has t2 FLUSH = true /\ t_kcp t2 = w0 /\ t_flags t2 = t_flags t1) as (Hfl2 & Ek2 & Ef2) by done.
  clearbody t2. rewrite <- Ek2 in *.
  destruct (Task_kcp_flush_spec t2 Hfl2 Hb0) as (now & F & B & O & H). rewrite Ef2 in F.
  cbv zeta in *. rewrite Eo0 in O. rewrite Eh0 in *.
  destruct (outbox_send (handle (t_kcp t1)) syn now Ho Hq Hl) as (_ & Q & Hstep).
  eexists _, _. split; [reflexivity|]. split; [exact F|]. split; [exact B|]. split; [exact O|].
  rewrite H. done.
Qed.

(** ** The two tasks while they wait *)

(** [S] is what the task has sent, [cv] its number, [fl] its flags and [id] its identifier. *)
Record waiting (S : list entry) (c : KcpConfig) (cv fl : Z) (id : bytes) (t : Task) : Prop := {
  wt_ok : task_ok t;
  wt_config : t_config t = c;
  wt_flags : t_flags t = fl;
  wt_id : t_session_id t = id;
  wt_greeter : greeter S (cfg_mtu c) (handle (t_kcp t));
  wt_conv : conv (handle (t_kcp t)) = cv;
  wt_buffers : buffers_ok (t_kcp t)
}.

(** The lines of [run] that client and server share. *)
Lemma run_start_common c cv draw :
  greeting_ok c -> 0 <= cv < 4294967296 ->
  exists t, t_config t = c /\ t_flags t = 0 /\ t_session_id t = [] /\ t_hs t = Syn /\
    opening [] (cfg_mtu c) cv [] (t_kcp t) /\
    run_start clock true draw (Task_new c cv) =
      if cv =? SYN_CONV then
        handshake_send clock ((set_flag CLIENT t) <| t_session_id := random_session_id c draw |>
                                <| t_kcp := Kcp_set_conv (t_kcp t) SYN_CONV |>)
      else Some t.
Proof.
  intros Hc Hcv. unfold run_start. cbn zeta. simp_upd.
  pose proof (opening_initialize cv (clock (t_ticks (Task_new c cv))) Hcv) as S0.
  cbn [t_kcp Task_new] in *. change (t_kcp (Task_new c cv)) with (Kcp_new cv).
  generalize dependent (Kcp_initialize (clock (t_ticks (Task_new c cv))) (Kcp_new cv)). intros k0 S0.
  set (t1 := ((Task_new c cv) <| t_ticks := _ |>) <| t_kcp := k0 |>).
  assert (t_config t1 = c /\ t_session_id t1 = [] /\ t_flags t1 = 0 /\ t_kcp t1 = k0)
    as (E1 & E2 & E3 & E4) by done.
  clearbody t1. rewrite <- E4 in S0. rewrite <- E1 in Hc. clear E4 k0.
  destruct (opening_apply_config _ cv [] t1 Hc S0) as (k1 & n & -> & S1). rewrite E1 in S1.
  unfold system_time. simp_upd. set (now := get_system_time _). clearbody now.
  apply (opening_nodelay _ _ _ _ k1 true 100 0 false) in S1.
  generalize dependent (Kcp_set_nodelay k1 true 100 0 false). intros k2 S2.
  unfold Kcp_conv. rewrite (op_conv _ _ _ _ _ S2).
  match goal with |- context [if _ then _ else Some ?x] => set (t2 := x) end.
  exists t2. assert (t_config t2 = t_config t1 /\ t_session_id t2 = t_session_id t1 /\
    t_flags t2 = t_flags t1 /\ t_kcp t2 = k2 /\ t_hs t2 = Syn) as (F1 & F2 & F3 & F4 & F5) by done.
  clearbody t2. rewrite F1, F2, F3, F4, E1. split_and!; try done.
  destruct (cv =? SYN_CONV); [|done].
  change (t_config (set_flag CLIENT t2)) with (t_config t2).
  change (t_kcp (set_flag CLIENT t2)) with (t_kcp t2). by rewrite F1, F4, E1.
Qed.

Lemma Kcp_set_conv_same (k : Kcp) : Kcp_set_conv k (conv (handle k)) = k.
Proof. unfold Kcp_set_conv. destruct k as [h ? ? ? ?]. by destruct h. Qed.

Lemma greeter_emits f S S' m k k' qs :
  greeter S m k -> emits_step f S S' k k' qs -> snd_queue k' = [] -> greeter S' m k'.
Proof.
  intros [_ _ Hf Hw Hm] (Ho & [Hr Ew] & [_ Em] & _) Hq.
  split; [done|done|by apply (rcv_fresh_same k)|lia|congruence].
Qed.

(** A server has started, and has sent nothing. *)
Lemma run_start_server c cv draw t :
  greeting_ok c -> 0 <= cv < 4294967296 -> cv <> SYN_CONV ->
  run_start clock true draw (Task_new c cv) = Some t -> waiting [] c cv 0 [] t /\ t_hs t = Syn.
Proof.
  intros Hc Hcv Hne E. destruct (run_start_ok clock c cv draw (proj1 Hc) Hcv) as (t0 & E0 & Hok & _).
  destruct (run_start_common c cv draw Hc Hcv) as (t1 & F1 & F2 & F3 & F4 & [G1 G2 G3 _ _] & Er).
  rewrite Er in *. destruct (Z.eqb_spec cv SYN_CONV); [done|].
  injection E as ->. injection E0 as ->. by split.
Qed.

Definition syn_of (c : KcpConfig) (draw : nat -> Byte.byte) : bytes :=
  session_key c ++ random_session_id c draw.

Lemma syn_of_length c draw :
  greeting_ok c -> 0 < Zlen (syn_of c draw) <= cfg_mtu c - 24.
Proof.
  intros ((_ & H & _) & _ & Hl). unfold syn_of. rewrite Zlen_app, random_session_id_length; done.
Qed.

(** A client has started, and has sent its frame, with an open window. *)
Lemma run_start_client c draw t :
  greeting_ok c -> run_start clock true draw (Task_new c SYN_CONV) = Some t ->
  waiting [(0, syn_of c draw)] c SYN_CONV CLIENT (random_session_id c draw) t /\ t_hs t = Syn /\
  exists gs wnd, outputs (t_kcp t) = map packet gs /\ 1 <= wnd /\
    emission SYN_CONV wnd 0 [(0, syn_of c draw)] gs /\ has_first gs.
Proof.
  intros Hc E. assert (0 <= SYN_CONV < 4294967296) as Hcv by (unfold SYN_CONV; lia).
  destruct (run_start_ok clock c SYN_CONV draw (proj1 Hc) Hcv) as (t0 & E0 & Hok & _ & Hhs).
  rewrite E in E0. injection E0 as <-.
  destruct (run_start_common c SYN_CONV draw Hc Hcv) as (t1 & F1 & F2 & F3 & F4 & [G1 G2 G3 G4 _] & Er).
  rewrite Er in E. cbn [Z.eqb SYN_CONV Pos.eqb] in E. clear Er.
  rewrite <- G2, Kcp_set_conv_same in E.
  set (t2 := (set_flag CLIENT t1) <| t_session_id := _ |> <| t_kcp := _ |>) in E.
  assert (t_kcp t2 = t_kcp t1 /\ t_flags t2 = Z.lor (t_flags t1) CLIENT /\
    syn_frame t2 = session_key (t_config t1) ++ random_session_id c draw) as (K1 & K2 & K3) by done.
  rewrite F1 in K3. fold (syn_of c draw) in K3. rewrite F2 in K2.
  assert (t_session_id t2 = random_session_id c draw /\ t_config t2 = t_config t1) as [K4 K5] by done.
  clearbody t2. rewrite <- K1 in *. pose proof (syn_of_length c draw Hc) as Hl. rewrite <- K3 in Hl.
  pose proof (gr_outbox _ _ _ G1) as Ho. pose proof (gr_queue _ _ _ G1) as Hq.
  rewrite <- (greeter_mss _ _ _ G1) in Hl.
  destruct (handshake_send_spec t2 Ho Hq G3 Hl) as (t' & qs & E' & Hf & Hb & Hout & Hq' & Hst).
  rewrite E in E'. injection E' as <-. pose proof (steady_handshake_send clock _ _ E) as [[_ Ecf _ _ _ _ _] _ Eid].
  rewrite K3 in Hst. pose proof (greeter_emits _ _ _ _ _ _ _ G1 Hst Hq') as G1'.
  destruct Hst as (_ & _ & [Ecv _] & gs & Eqs & Hem & Hfst).
  split; [|split; [done|]].
  - split; [done|congruence|by rewrite Hf, K2|congruence|exact G1'|congruence|done].
  - destruct (greeter_advertises _ _ _ G1) as [Ew Hw]. exists gs, (rcv_wnd (handle (t_kcp t2))).
    rewrite Hout, G4, Eqs. split; [done|]. split; [done|]. split; [|auto].
    destruct (gr_fresh _ _ _ G1) as (En & _). by rewrite G2, Ew, En in Hem.
Qed.

(** ** Waiting *)

Lemma waiting_update S c cv fl id t now :
  waiting S c cv fl id t -> waiting S c cv fl id (t <| t_kcp := Kcp_update (t_kcp t) now |>).
Proof.
  intros [H1 H2 H3 H4 H5 H6 H7].
  destruct (after_output_spec (t_kcp t) (ikcp_update (handle (t_kcp t)) now) H7) as (B & _ & E).
  destruct (greeter_update _ _ _ now H5) as [G C].
  split; [by apply Kcp_update_task|done|done|done|..]; simp_upd; unfold Kcp_update.
  - by rewrite E.
  - by rewrite E, C.
  - done.
Qed.

(** Nothing but the clock, the state and the output queue changes. *)
Lemma waiting_same S c cv fl id t t' :
  waiting S c cv fl id t -> task_ok t' -> t_config t' = t_config t -> t_flags t' = t_flags t ->
  t_session_id t' = t_session_id t -> handle (t_kcp t') = handle (t_kcp t) ->
  buffers_ok (t_kcp t') -> waiting S c cv fl id t'.
Proof. intros [H1 H2 H3 H4 H5 H6 H7] Hok E1 E2 E3 E4 Hb. split; congruence. Qed.

Lemma waiting_loop_wait S c cv fl id t :
  waiting S c cv fl id t -> waiting S c cv fl id (snd (loop_wait clock t)).
Proof.
  intros Hw. unfold loop_wait, system_time. set (now := get_system_time _).
  set (t1 := t <| t_ticks := _ |>).
  assert (waiting S c cv fl id t1) as H1.
  { apply (waiting_same S c cv fl id t); try done; [|apply Hw].
    apply (task_ok_forward t); [apply Hw|by apply forward_same|done|done]. }
  clearbody t1 now. clear Hw t.
  assert (waiting S c cv fl id (set_handshake Disconnected t1)) as H2.
  { apply (waiting_same S c cv fl id t1); [done|apply task_ok_set_handshake; [apply hs_le_Disconnected|apply H1]|..];
      unfold set_handshake; destruct (decide _); try done; apply H1. }
  destruct (decide _).
  - destruct (_ =? 0); [by apply waiting_update|done].
  - destruct (_ >? 0); [destruct (_ =? 0); [by apply waiting_update|done]|done].
Qed.

Lemma waiting_loop_head S c cv fl id feed flush can t ps v t' :
  waiting S c cv fl id t -> loop_head clock feed flush can t = Some (ps, v, t') ->
  waiting S c cv fl id t'.
Proof.
  intros Hw. unfold loop_head.
  assert (forall (ps0 : list bytes) t1 r, waiting S c cv fl id t1 ->
    (if decide (t_hs t1 = Disconnected) then (ps0, Break, t1)
     else if expired t1 then (ps0, Break, t1)
     else let '(v, t1) := loop_wait clock t1 in (ps0, v, t1)) = r -> waiting S c cv fl id (snd r))
    as Hrest.
  { intros ps0 t1 r H1 <-. destruct (decide _); [done|]. destruct (expired t1); [done|].
    pose proof (waiting_loop_wait _ _ _ _ _ _ H1). by destruct (loop_wait clock t1). }
  assert (waiting S c cv fl id (t <| t_kcp := (t_kcp t) <| output_queue := [] |> |>)) as H1.
  { destruct Hw as [G1 G2 G3 G4 G5 G6 G7]. split; try done. by destruct G1. }
  destruct (Kcp_has_ouput (t_kcp t)).
  - rewrite kcp_output_spec. destruct (_ || _); [by intros [= <- <- <-]|].
    intros [= E]. by apply (Hrest _ _ _ H1 E).
  - intros [= E]. by apply (Hrest _ _ _ Hw E).
Qed.

(** The peer is silent: the loop only goes round. *)
Definition silent (ev : event) (t : Task) : Prop := ev = EvSleep.

Lemma waiting_silent S c cv fl id s s' :
  rtc (run_step clock silent) s s' -> waiting S c cv fl id (fst s) ->
  waiting S c cv fl id (fst s') /\ snd s' = snd s.
Proof.
  induction 1 as [s|s1 s2 s3 Hs _ IH]; intros Hw; [done|].
  assert (waiting S c cv fl id (fst s2) /\ snd s2 = snd s1) as [H2 E2].
  { destruct Hs as [feed fls t tx ps t' E|feed fls t tx ps iv t1 ev out tx' t' E _ Hev Es];
      cbn [fst snd] in *; pose proof (waiting_loop_head _ _ _ _ _ _ _ _ _ _ _ _ Hw E) as H; [done|].
    rewrite Hev in Es. cbn [select_branch] in Es. by injection Es as <- <- <-. }
  destruct (IH H2) as [H3 E3]. split; [done|congruence].
Qed.

(** ** The packets of one end at the other *)

Lemma packet_conv cv g :
  g <> [] -> Forall (seg_accept cv) g ->
  24 <= Zlen (packet g) /\ h_conv (snd (ikcp_decode_header (packet g))) = cv.
Proof.
  destruct g as [|s g]; [done|]. intros _ [(Hc & _) _]%Forall_cons.
  change (packet (s :: g)) with (wire s ++ packet g). unfold wire. rewrite <- app_assoc. split.
  - rewrite Zlen_app, length_ikcp_encode_seg.
    pose proof (Zlen_nonneg (take (Z.to_nat (seg_len s)) (seg_data s) ++ packet g)). lia.
  - by rewrite ikcp_decode_encode_seg.
Qed.

Lemma read_conv_packet cv g :
  g <> [] -> Forall (seg_accept cv) g -> read_conv (packet g) = Some cv.
Proof.
  intros Hg Ha. destruct (packet_conv cv g Hg Ha) as [Hl Hc]. rewrite read_conv_getconv.
  destruct (Z.ltb_spec (Zlen (packet g)) 24); [lia|]. f_equal. rewrite <- Hc.
  unfold ikcp_getconv, ikcp_decode_header, ikcp_decode32u, ikcp_decode16u, ikcp_decode8u.
  by cbn [fst snd h_conv].
Qed.

Lemma Kcp_input_foreign (k : Kcp) cv g :
  g <> [] -> Zlen (packet g) < 2147483648 -> Forall (seg_accept cv) g -> conv (handle k) <> cv ->
  Kcp_input k (packet g) = (Err NotFound, k).
Proof.
  intros Hg Hl Ha Hne. destruct (packet_conv cv g Hg Ha) as [_ Hc]. unfold Kcp_input.
  destruct (ikcp_input_rejects (handle k) (packet g) Hl) as (Hr & _). rewrite Hr by (right; congruence).
  cbn [Z.eqb]. by rewrite handle_id.
Qed.

Lemma Kcp_input_accepted (k : Kcp) g :
  g <> [] -> Zlen (packet g) < 2147483648 -> Forall (seg_accept (conv (handle k))) g ->
  Kcp_input k (packet g) = (Ok tt, k <| handle := receive_packet (handle k) g |>).
Proof. intros Hg Hl Ha. unfold Kcp_input. by rewrite ikcp_input_packet_eq. Qed.

(** A server takes packets numbered [SYN_CONV] under that number, and keeps its own. *)
Definition under (cv : Z) (f : IKCPCB -> IKCPCB) (k : IKCPCB) : IKCPCB :=
  (f (k <| conv := cv |>)) <| conv := conv k |>.

Lemma server_input t g :
  is_client t = false -> conv (handle (t_kcp t)) <> SYN_CONV ->
  g <> [] -> Zlen (packet g) < 2147483648 -> Forall (seg_accept SYN_CONV) g ->
  Task_kcp_input clock (packet g) t =
    Some (t <| t_kcp := (t_kcp t) <| handle :=
       under SYN_CONV (fun k => receive_packet k g) (handle (t_kcp t)) |> |>).
Proof.
  intros Hcl Hne Hg Hl Ha. unfold Task_kcp_input.
  rewrite (Kcp_input_foreign (t_kcp t) SYN_CONV) by done.
  replace (t <| t_kcp := t_kcp t |>) with t by (by destruct t).
  unfold syn_handshake_input. rewrite (read_conv_packet SYN_CONV), Hcl, Z.eqb_refl by done.
  rewrite Kcp_input_accepted by done. reflexivity.
Qed.

Lemma conv_back (k : IKCPCB) a b : conv k = b -> k <| conv := a |> <| conv := b |> = k.
Proof. intros <-. by destruct k. Qed.

Lemma server_inputs t gs :
  is_client t = false -> conv (handle (t_kcp t)) <> SYN_CONV ->
  sound_packets gs -> Forall (seg_accept SYN_CONV) (concat gs) ->
  input_packets clock (map packet gs) t =
    Some (t <| t_kcp := (t_kcp t) <| handle :=
       under SYN_CONV (deliver (map packet gs)) (handle (t_kcp t)) |> |>).
Proof.
  revert t. induction gs as [|g gs IH]; intros t Hcl Hne Hgs Ha; cbn [map input_packets].
  - f_equal. destruct t as [[h ? ? ? ?] ? ? ? ? ? ? ? ? ?]. by destruct h.
  - apply Forall_cons in Hgs as [[Hg Hl] Hgs]. cbn [concat] in Ha. apply Forall_app in Ha as [Ha1 Ha2].
    rewrite server_input by done. set (t1 := t <| t_kcp := _ |>).
    assert (is_client t1 = is_client t) as Ecl by done.
    assert (handle (t_kcp t1) = under SYN_CONV (fun k => receive_packet k g) (handle (t_kcp t))) as Eh by done.
    rewrite IH; [|by rewrite Ecl|rewrite Eh; exact Hne|done|done].
    f_equal. unfold t1, deliver, under. cbn [fold_left]. simp_upd.
    rewrite ikcp_input_packet_eq by done. cbn [snd].
    pose proof (ikcp_input_conv ((handle (t_kcp t)) <| conv := SYN_CONV |>) (packet g)) as Ec.
    rewrite ikcp_input_packet_eq in Ec by done. cbn [snd] in Ec. clear - Ec. simp_upd.
    generalize dependent (receive_packet ((handle (t_kcp t)) <| conv := SYN_CONV |>) g).
    intros k1 Ec. by rewrite (conv_back k1 _ _ Ec).
Qed.

(** Packets of the session's own number are taken as they come, and ask for a flush. *)
Lemma own_inputs t gs :
  sound_packets gs -> Forall (seg_accept (conv (handle (t_kcp t)))) (concat gs) ->
  exists fl, (fl = t_flags t \/ fl = Z.lor (t_flags t) FLUSH) /\
    input_packets clock (map packet gs) t =
      Some (t <| t_flags := fl |> <| t_kcp := (t_kcp t) <| handle :=
         deliver (map packet gs) (handle (t_kcp t)) |> |>).
Proof.
  revert t. induction gs as [|g gs IH]; intros t Hgs Ha; cbn [map input_packets].
  - exists (t_flags t). split; [by left|]. f_equal.
    destruct t as [[h ? ? ? ?] ? ? ? ? ? ? ? ? ?]. done.
  - apply Forall_cons in Hgs as [[Hg Hl] Hgs]. cbn [concat] in Ha. apply Forall_app in Ha as [Ha1 Ha2].
    unfold Task_kcp_input. rewrite Kcp_input_accepted by done.
    set (t1 := set_flag FLUSH _).
    pose proof (ikcp_input_conv (handle (t_kcp t)) (packet g)) as Ec.
    unfold deliver. cbn [fold_left]. rewrite ikcp_input_packet_eq in * by done. cbn [snd] in *.
    assert (t_flags t1 = Z.lor (t_flags t) FLUSH /\
      t_kcp t1 = (t_kcp t) <| handle := receive_packet (handle (t_kcp t)) g |>) as [Ef Ek] by done.
    destruct (IH t1) as (fl & Hfl & E); [done|rewrite Ek; simp_upd; by rewrite Ec|]. exists fl. rewrite E. split.
    + right. rewrite Ef in Hfl. destruct Hfl as [-> | ->]; [done|].
      by rewrite <- Z.lor_assoc, Z.lor_diag.
    + rewrite Ek. unfold t1, deliver. reflexivity.
Qed.

Lemma settled_waitsnd (k : Kcp) :
  kcp_inv (handle k) -> snd_buf (handle k) = [] -> snd_queue (handle k) = [] ->
  Kcp_get_waitsnd k = 0.
Proof.
  intros ((_ & Hq & _) & (_ & _ & _ & _ & Hb) & _) Eb Eq. unfold Kcp_get_waitsnd, ikcp_waitsnd.
  by rewrite Hq, Hb, Eb, Eq.
Qed.

(** A client takes the number of the first packet, which acknowledges all it has sent, and from
    then on the packets are its own. *)
Lemma client_inputs t gs cv wnd :
  kcp_inv (handle (t_kcp t)) -> is_client t = true -> t_hs t = Syn ->
  conv (handle (t_kcp t)) = SYN_CONV -> cv <> SYN_CONV -> snd_queue (handle (t_kcp t)) = [] ->
  gs <> [] -> sound_packets gs ->
  Forall (stamped cv wnd (snd_nxt (handle (t_kcp t)))) (concat gs) ->
  exists fl, (fl = t_flags t \/ fl = Z.lor (t_flags t) FLUSH) /\
    input_packets clock (map packet gs) t =
      Some (t <| t_flags := fl |> <| t_kcp := (t_kcp t) <| handle :=
         deliver (map packet gs) ((handle (t_kcp t)) <| conv := cv |>) |> |>).
Proof.
  intros Hi Hcl Hs Hcv Hne Hq Hgne Hgs Hst. destruct gs as [|g gs]; [done|]. clear Hgne.
  apply Forall_cons in Hgs as [[Hg Hl] Hgs]. cbn [concat map input_packets] in *.
  apply Forall_app in Hst as [Hst1 Hst2].
  assert (Forall (seg_accept cv) g) as Ha1 by (by eapply stamped_accept).
  unfold Task_kcp_input. rewrite (Kcp_input_foreign (t_kcp t) cv) by (try done; congruence).
  replace (t <| t_kcp := t_kcp t |>) with t by (by destruct t).
  unfold syn_handshake_input. rewrite (read_conv_packet cv), Hcl, Hs by done.
  rewrite bool_decide_true by done. destruct (Z.eqb_spec cv SYN_CONV); [done|]. cbn [negb andb].
  rewrite Kcp_input_accepted by done. cbn [is_err orb].
  set (h0 := (handle (t_kcp t)) <| conv := cv |>).
  assert (kcp_inv h0 /\ conv h0 = cv /\ snd_nxt h0 = snd_nxt (handle (t_kcp t)) /\ snd_queue h0 = [])
    as (Hi0 & Ec0 & En0 & Eq0) by done.
  assert (handle (Kcp_set_conv (t_kcp t) cv) = h0) as Eh by done. rewrite Eh.
  rewrite <- En0, <- Ec0 in Hst1. destruct (packet_settles h0 g wnd Hg Hi0 Hst1) as [Hset _].
  set (k1 := (Kcp_set_conv (t_kcp t) cv) <| handle := receive_packet h0 g |>).
  assert (handle k1 = receive_packet h0 g /\
    k1 = (t_kcp t) <| handle := receive_packet h0 g |>) as [Eh1 Ek1] by done.
  pose proof (settled_conv _ _ _ Hset) as Ec1. destruct Hset as [I1 B1 (_ & _ & _ & _ & Q1 & _) _ _].
  simp_upd. rewrite (settled_waitsnd k1) by (rewrite Eh1; congruence || done). cbn [Z.gtb Z.compare].
  cbn [option_map snd].
  set (t1 := t <| t_kcp := k1 |>). assert (handle (t_kcp t1) = receive_packet h0 g) as Et1 by done.
  destruct (own_inputs t1 gs Hgs) as (fl & Hfl & E).
  { rewrite Et1, Ec1, Ec0. by eapply stamped_accept. }
  exists fl. split; [exact Hfl|]. rewrite E, Et1. unfold deliver. cbn [fold_left].
  rewrite ikcp_input_packet_eq by (try done; by rewrite Ec0). cbn [snd].
  unfold t1. rewrite Ek1. reflexivity.
Qed.

(** ** Reading the frame *)

(** The frame is the only thing in order. *)
Definition greeted (b : bytes) (k : IKCPCB) : Prop :=
  tracks [(0, b)] 1 [] k /\ exists s, rcv_queue k = [s] /\ seg_entry s = (0, b).

Lemma recv_greeting t b :
  task_ok t -> has t FIN_RECVED = false -> greeted b (handle (t_kcp t)) -> 0 < Zlen b < 2147483648 ->
  exists k, Task_kcp_recv t = (Some b, t <| t_kcp := k |>) /\
    handle k = snd (ikcp_recv (handle (t_kcp t)) (Zlen b)) /\ outputs k = outputs (t_kcp t) /\
    buffers_ok k /\ rcv_queue (handle k) = [] /\ rcv_nxt (handle k) = 1.
Proof.
  intros Ht Hf (Htr & s & Eq & Es) Hb. pose proof (tk_kcp t Ht) as ([Hi _] & Hbuf & _).
  destruct (recv_first _ s b Hi Htr Eq Es ltac:(lia)) as (Hok & Hh & Hm & Hq & Hn).
  pose proof (Kcp_recv_bytes_spec (t_kcp t) Hok Hbuf) as Hr. cbv zeta in Hr. rewrite Hh, Hm in Hr.
  unfold Task_kcp_recv. rewrite Hf. cbn [andb]. destruct (Kcp_recv_bytes (t_kcp t)) as [r k].
  destruct Hr as (B & O & Hr). destruct (Z.eqb_spec (Zlen b) 0); [lia|]. cbn [orb] in Hr.
  destruct Hr as [-> E]. exists k. rewrite E. unfold outputs. rewrite O. done.
Qed.

Lemma recv_nothing t :
  has t FIN_RECVED = false -> rcv_queue (handle (t_kcp t)) = [] -> Task_kcp_recv t = (None, t).
Proof.
  intros Hf Hq. unfold Task_kcp_recv. rewrite Hf. cbn [andb].
  unfold Kcp_recv_bytes, Kcp_peek_size, ikcp_peeksize. rewrite Hq. cbn. by destruct t.
Qed.

Lemma strip_prefix_app (p b : bytes) : strip_prefix p (p ++ b) = Some b.
Proof. unfold strip_prefix. by rewrite take_app_length, decide_True, drop_app_length by done. Qed.

Lemma flush_nothing t : has t FLUSH = false -> Task_kcp_flush clock t = t.
Proof. intros H. unfold Task_kcp_flush. by rewrite H. Qed.

Lemma outbox_nodelay k nd iv resend nc :
  outbox [] k ->
  let k' := ikcp_nodelay k nd iv resend nc in
  outbox [] k' /\ conv k' = conv k /\ mss k' = mss k /\ rcv_kept k k'.
Proof.
  intros Ho. destruct (ikcp_nodelay_frame k nd iv resend nc) as [Hk Hr].
  pose proof (ikcp_nodelay_ok k nd iv resend nc (ob_ok _ _ Ho)) as Hok.
  pose proof (ob_open _ _ Ho) as (_ & _ & Hrm). cbv zeta. revert Hok Hk Hr. unfold ikcp_nodelay. cbv zeta.
  destruct (nd >=? 0), (negb (nd =? 0)), (iv >=? 0), (resend >=? 0), (nc >=? 0); intros Hok Hk Hr;
    (split; [by apply (outbox_same k)|]); done.
Qed.

(** ** The server answers *)
Lemma server_answers t c cv b id :
  task_ok t -> t_hs t = Syn -> t_flags t = 0 -> t_config t = c -> greeting_ok c ->
  b = session_key c ++ id -> Zlen id = session_id_len c ->
  outbox [] (handle (t_kcp t)) -> snd_queue (handle (t_kcp t)) = [] -> mss (handle (t_kcp t)) = cfg_mtu c - 24 ->
  conv (handle (t_kcp t)) = cv -> greeted b (handle (t_kcp t)) ->
  exists t' gs wnd, syn_handshake_recv clock true t = Some (true, [OutConnected cv], t') /\
    t_hs t' = Connected /\ t_session_id t' = id /\ t_flags t' = 0 /\
    outputs (t_kcp t') = outputs (t_kcp t) ++ map packet gs /\ rcv_queue (handle (t_kcp t')) = [] /\
    emission cv wnd 1 [(0, b)] gs /\ has_first gs.
Proof.
  intros Ht Hs Hfl Hc Hgr Eb Hid Ho Hq Hm Hcv Hg.
  assert (0 < Zlen b <= cfg_mtu c - 24) as Hb by (rewrite Eb, Zlen_app, Hid; apply Hgr).
  assert (has t FIN_RECVED = false /\ is_client t = false) as [Hfin Hcl]
    by (unfold is_client, has; by rewrite Hfl).
  destruct (recv_greeting t b Ht Hfin Hg) as (k & Er & Eh & Eo & Hbuf & Erq & Ern).
  { destruct Hgr as ((H & _) & _). lia. }
  unfold syn_handshake_recv. rewrite Er.
  assert (outbox [] (handle k) /\ conv (handle k) = cv /\ snd_queue (handle k) = [] /\
    mss (handle k) = cfg_mtu c - 24) as (Ok & Ck & Qk & Mk).
  { rewrite Eh. destruct (outbox_recv _ (Zlen b) Ho) as (G1 & -> & -> & ->). done. }
  change (t_config (t <| t_kcp := k |>)) with (t_config t).
  change (is_client (t <| t_kcp := k |>)) with (is_client t).
  rewrite Hc, Hcl, Eb, strip_prefix_app, <- Eb, Hid, Z.eqb_refl.
  unfold kcp_apply_nodelay. simp_upd. rewrite Hc. set (nd := cfg_nodelay c).
  set (t3 := _ <| t_kcp := Kcp_set_nodelay _ _ _ _ _ |>).
  destruct (outbox_nodelay (handle k) (Z.b2z (nd_nodelay nd)) (i32 (nd_interval nd)) (i32 (nd_resend nd))
    (Z.b2z (nd_nc nd)) Ok) as (O3 & C3 & M3 & [R3 _]). cbv zeta in *.
  destruct (ikcp_nodelay_frame (handle k) (Z.b2z (nd_nodelay nd)) (i32 (nd_interval nd)) (i32 (nd_resend nd))
    (Z.b2z (nd_nc nd))) as [(_ & Q3 & _) _].
  set (h3 := ikcp_nodelay _ _ _ _ _) in *.
  assert (handle (t_kcp t3) = h3 /\ outputs (t_kcp t3) = outputs k /\ buffers_ok (t_kcp t3) /\
    syn_frame t3 = session_key (t_config t) ++ id /\ t_flags t3 = t_flags t)
    as (E31 & E32 & E33 & E34 & E35) by done.
  assert (t_session_id t3 = id) as E36 by done.
  clearbody t3. rewrite Hc, <- Eb in E34. clearbody h3. rewrite <- E31 in *.
  destruct (handshake_send_spec t3 O3 ltac:(congruence) E33) as (t4 & qs & E4 & F4 & B4 & P4 & Q4 & S4).
  { rewrite E34. lia. }
  rewrite E4. pose proof (steady_handshake_send clock _ _ E4) as [_ _ I4].
  destruct S4 as (_ & [(_ & R4 & _) _] & [C4 _] & gs & -> & Hem & Hfst).
  exists (set_handshake Connected t4), gs, (u16 (flush_wnd (handle (t_kcp t3)))).
  assert (t_kcp (set_handshake Connected t4) = t_kcp t4 /\ t_flags (set_handshake Connected t4) = t_flags t4)
    as [-> ->] by (unfold set_handshake; by destruct (decide _)).
  rewrite t_hs_set_handshake, session_set_handshake. unfold Kcp_conv.
  destruct R3 as (N3 & Rq3 & _). split_and!; try congruence.
  - by rewrite F4, E35, Hfl.
  - auto.
Qed.

(** What one batch of packets does to a fresh control block of the number they carry. *)
Lemma deliver_greeting k cv wnd una b gs :
  kcp_inv k -> rcv_fresh k -> conv k = cv -> snd_nxt k = una ->
  emission cv wnd una [(0, b)] gs -> has_first gs ->
  let k' := deliver (map packet gs) k in
  greeted b k' /\ settled k wnd k' /\ (snd_buf k = [] -> cwnd k' = cwnd k).
Proof.
  intros Hi Hf Hc Hu [Hs Hst Hh] Hfst. cbv zeta. rewrite <- Hc, <- Hu in Hst.
  destruct (deliver_first (0, b) gs k Hi Hf Hs) as (s & Eq & Es & _ & Ht); [|done|done|].
  { by eapply stamped_accept. }
  split; [split; [done|by exists s]|].
  apply deliver_settles; [by apply has_first_nonempty|done|done|done].
Qed.

Lemma greeted_conv b c k : greeted b k -> greeted b (k <| conv := c |>).
Proof. intros ([H1 H2 H3 H4] & s & H). split; [by split|by exists s]. Qed.

(** The server, when the client's packets arrive in one turn. *)
Lemma server_connects t c cv b id gs wnd p ps :
  waiting [] c cv 0 [] t -> t_hs t = Syn -> greeting_ok c -> cv <> SYN_CONV ->
  b = session_key c ++ id -> Zlen id = session_id_len c ->
  emission SYN_CONV wnd 0 [(0, b)] gs -> 1 <= wnd -> has_first gs ->
  map packet gs = p :: ps -> Zlen ps < cfg_rcv_wnd c ->
  exists t' gs' wnd', on_transport clock p ps true t None = Some ([OutConnected cv], None, t') /\
    t_hs t' = Connected /\ t_session_id t' = id /\
    outputs (t_kcp t') = outputs (t_kcp t) ++ map packet gs' /\
    emission cv wnd' 1 [(0, b)] gs' /\ has_first gs'.
Proof.
  intros [Ht Hc Hfl _ Hg Hcv Hb] Hs Hgr Hne Eb Hid Hem Hw Hfst Ep Hlen.
  unfold on_transport. rewrite Hc, take_ge by (unfold Zlen in Hlen; lia). rewrite <- Ep.
  assert (is_client t = false) as Hcl by (unfold is_client, has; by rewrite Hfl).
  destruct (input_packets_ok clock (map packet gs) t Ht) as (t1 & E1 & Ht1).
  assert (Forall (seg_accept SYN_CONV) (concat gs)) as Hacc by (eapply stamped_accept, Hem).
  pose proof (server_inputs t gs Hcl ltac:(congruence) (em_sound _ _ _ _ _ Hem) Hacc) as Ein.
  rewrite Ein in *. injection E1 as E1. rewrite E1. clear Ein.
  set (h := handle (t_kcp t)) in *. unfold under in E1. set (h0 := h <| conv := SYN_CONV |>) in *.
  pose proof (gr_outbox _ _ _ Hg) as Ho. pose proof (ob_ok _ _ Ho) as [Hi _].
  assert (kcp_inv h0 /\ rcv_fresh h0 /\ snd_nxt h0 = 0) as (Hi0 & Hf0 & En0).
  { split; [exact Hi|]. split; [apply Hg|]. destruct (ob_emits _ _ Ho) as [En _]. exact En. }
  destruct (deliver_greeting h0 SYN_CONV wnd 0 b gs Hi0 Hf0 eq_refl En0 Hem Hfst) as (Hgd & Hset & Hcw).
  apply (greeted_conv b (conv h)) in Hgd.
  assert (handle (t_kcp t1) = (deliver (map packet gs) h0) <| conv := conv h |>) as Eh1 by (by rewrite <- E1).
  assert (t_hs t1 = Syn /\ t_flags t1 = 0 /\ t_config t1 = c /\ outputs (t_kcp t1) = outputs (t_kcp t))
    as (F1 & F2 & F3 & F4) by (by rewrite <- E1).
  assert (outbox [] (handle (t_kcp t1)) /\ conv (handle (t_kcp t1)) = cv /\
    snd_queue (handle (t_kcp t1)) = [] /\ mss (handle (t_kcp t1)) = cfg_mtu c - 24) as (O1 & C1 & Q1 & M1).
  { pose proof (tk_kcp t1 Ht1) as (Hok1 & _). rewrite Eh1 in *.
    specialize (Hcw (emits_nothing h (ob_emits _ _ Ho))).
    destruct (outbox_settled h SYN_CONV wnd _ Ho Hset Hcw Hw Hok1) as (G1 & -> & -> & ->).
    rewrite (gr_queue _ _ _ Hg), (greeter_mss _ _ _ Hg). done. }
  clear E1 Hset Hcw. rewrite <- Eh1 in Hgd. rewrite decide_True by done.
  destruct (server_answers t1 c cv b id Ht1 F1 F2 F3 Hgr Eb Hid O1 Q1 M1 C1 Hgd)
    as (t2 & gs' & wnd' & E2 & G1 & G2 & G3 & G4 & G5 & G6 & G7).
  rewrite E2. cbn iota. rewrite recv_nothing; [|unfold has; by rewrite G3|done].
  rewrite flush_nothing by (unfold has; by rewrite G3).
  exists t2, gs', wnd'. rewrite <- F4. done.
Qed.

Lemma conv_kcp_flush t :
  task_ok t -> conv (handle (t_kcp (Task_kcp_flush clock t))) = conv (handle (t_kcp t)).
Proof.
  intros Ht. destruct (has t FLUSH) eqn:E; [|by rewrite flush_nothing].
  pose proof (tk_kcp t Ht) as (Hok & Hb & _).
  destruct (Task_kcp_flush_spec t E Hb) as (now & _ & _ & _ & ->). cbv zeta.
  destruct (exec_static _ (OpUpdate now) Hok I) as [<- _].
  by apply static_flush, ikcp_update_ok.
Qed.

(** The client that reads its own frame back. *)
Lemma client_establishes t c b id :
  task_ok t -> t_hs t = Syn -> t_config t = c -> greeting_ok c -> t_session_id t = id ->
  b = session_key c ++ id -> Zlen id = session_id_len c -> is_client t = true ->
  has t FIN_RECVED = false -> greeted b (handle (t_kcp t)) ->
  exists t', syn_handshake_recv clock true t = Some (true, [OutConnected (conv (handle (t_kcp t)))], t') /\
    task_ok t' /\ t_hs t' = Connected /\ t_session_id t' = id /\ has t' FIN_RECVED = false /\
    conv (handle (t_kcp t')) = conv (handle (t_kcp t)) /\ rcv_queue (handle (t_kcp t')) = [].
Proof.
  intros Ht Hs Hc Hgr Hi Eb Hid Hcl Hfin Hgd.
  assert (0 < Zlen b < 2147483648) as Hbl.
  { rewrite Eb, Zlen_app, Hid. destruct Hgr as ((H1 & _) & _ & H2). lia. }
  destruct (recv_greeting t b Ht Hfin Hgd Hbl) as (k & Er & Eh & _ & _ & Erq & _).
  destruct (syn_handshake_recv_ok clock true t Ht Hs) as (ok & out & t3 & E3 & Ht3).
  rewrite E3. unfold syn_handshake_recv in E3. rewrite Er in E3.
  set (t2 := t <| t_kcp := k |>) in E3.
  assert (t_kcp t2 = k /\ t_session_id t2 = id /\ t_config t2 = c /\ is_client t2 = true /\
    has t2 FIN_RECVED = false) as (K1 & K2 & K3 & K4 & K5) by done.
  clearbody t2. rewrite K2, K3, K4, Eb, strip_prefix_app, Hid, Z.eqb_refl, decide_True in E3 by done.
  injection E3 as <- <- E3.
  pose proof (snd_keep_recv (handle (t_kcp t)) (Zlen b)) as (_ & _ & _ & C2 & _).
  destruct (steady_nodelay t2) as [_ _ N3].
  assert (t_kcp t3 = t_kcp (kcp_apply_nodelay t2) /\ has t3 FIN_RECVED = has t2 FIN_RECVED) as [K6 K7]
    by (rewrite <- E3; unfold set_handshake; by destruct (decide _)).
  assert (conv (handle (t_kcp t3)) = conv (handle k) /\
    rcv_queue (handle (t_kcp t3)) = rcv_queue (handle k)) as [C3 R3].
  { rewrite K6. unfold kcp_apply_nodelay, Kcp_set_nodelay. simp_upd. rewrite K1.
    destruct (ikcp_nodelay_frame (handle k) (Z.b2z (nd_nodelay (cfg_nodelay (t_config t2))))
      (i32 (nd_interval (cfg_nodelay (t_config t2)))) (i32 (nd_resend (cfg_nodelay (t_config t2))))
      (Z.b2z (nd_nc (cfg_nodelay (t_config t2))))) as [(_ & _ & _ & H1 & _) (_ & H2 & _)]. done. }
  exists t3. unfold Kcp_conv. rewrite E3, C3, R3, Eh, C2. split; [done|]. split; [done|].
  rewrite <- E3, t_hs_set_handshake, session_set_handshake, N3, E3, K7, <- Eh. done.
Qed.

(** The client, when the server's packets arrive in one turn. *)
Lemma client_connects t c cv b id gs wnd p ps :
  waiting [(0, b)] c SYN_CONV CLIENT id t -> t_hs t = Syn -> greeting_ok c -> cv <> SYN_CONV ->
  b = session_key c ++ id -> Zlen id = session_id_len c ->
  emission cv wnd 1 [(0, b)] gs -> has_first gs ->
  map packet gs = p :: ps -> Zlen ps < cfg_rcv_wnd c ->
  exists t', on_transport clock p ps true t None = Some ([OutConnected cv], None, t') /\
    t_hs t' = Connected /\ t_session_id t' = id /\ Kcp_conv (t_kcp t') = cv.
Proof.
  intros [Ht Hc Hfl Hti Hg Hcv Hb] Hs Hgr Hne Eb Hid Hem Hfst Ep Hlen.
  unfold on_transport. rewrite Hc, take_ge by (unfold Zlen in Hlen; lia). rewrite <- Ep.
  assert (is_client t = true) as Hcl by (unfold is_client, has; by rewrite Hfl).
  destruct (input_packets_ok clock (map packet gs) t Ht) as (t1 & E1 & Ht1).
  set (h := handle (t_kcp t)) in *. set (h0 := h <| conv := cv |>).
  pose proof (gr_outbox _ _ _ Hg) as Ho. pose proof (ob_ok _ _ Ho) as [Hi _].
  assert (kcp_inv h0 /\ rcv_fresh h0 /\ snd_nxt h0 = 1 /\ snd_nxt h = 1) as (Hi0 & Hf0 & En0 & En).
  { split; [exact Hi|]. split; [apply Hg|]. by destruct (ob_emits _ _ Ho) as [En _]. }
  destruct (client_inputs t gs cv wnd Hi Hcl Hs Hcv Hne (gr_queue _ _ _ Hg) (has_first_nonempty _ Hfst)
    (em_sound _ _ _ _ _ Hem)) as (fl & Hflag & Ein).
  { fold h. rewrite En. apply Hem. }
  rewrite Ein in *. injection E1 as E1. rewrite E1. clear Ein. fold h h0 in E1.
  destruct (deliver_greeting h0 cv wnd 1 b gs Hi0 Hf0 eq_refl En0 Hem Hfst) as (Hgd & Hset & _).
  pose proof (settled_conv _ _ _ Hset) as C1. change (conv h0) with cv in C1.
  assert (handle (t_kcp t1) = deliver (map packet gs) h0) as Eh1 by (by rewrite <- E1).
  assert (t_hs t1 = Syn /\ t_flags t1 = fl /\ t_config t1 = c /\ t_session_id t1 = id)
    as (F1 & F2 & F3 & F4) by (by rewrite <- E1).
  clear Hset E1. rewrite <- Eh1 in *. clear Eh1. rewrite decide_True by done.
  assert (has t1 FIN_RECVED = false /\ is_client t1 = true) as [Hfin Hcl1].
  { unfold is_client, has. rewrite F2. by destruct Hflag as [-> | ->]; rewrite Hfl. }
  destruct (client_establishes t1 c b id Ht1 F1 F3 Hgr F4 Eb Hid Hcl1 Hfin Hgd)
    as (t3 & -> & Ht3 & T1 & T2 & T3 & T4 & T5).
  cbn iota. rewrite recv_nothing by done. exists (Task_kcp_flush clock t3).
  destruct (steady_flush clock t3) as [_ -> ->]. unfold Kcp_conv. rewrite conv_kcp_flush, T4, C1 by done.
  done.
Qed.
End Handshake.

(** ** Both ends *)

(** C8: the handshake completes.  A client and a server that was given the number [cv], with
    the same key and identifier length, start; each waits any number of turns in which nothing
    arrives.  The client has sent packets; when they reach a server that still waits, it connects,
    tells its program once, under its own number and the client's identifier, and answers with
    packets of its own; when those reach a client that still waits, it connects too, takes the
    server's number, and tells its program once.  Each batch arrives in one turn of the loop. *)
Theorem handshake_completes {BM : BytesMut} {BML : BytesMutLaws BM}
    clock_c clock_s cc cs cv draw draw' c0 c1 s0 s1 :
  greeting_ok cc -> greeting_ok cs -> session_key cs = session_key cc ->
  session_id_len cs = session_id_len cc -> 0 <= cv -> is_valid_conv cv = true ->
  run_start clock_c true draw (Task_new cc SYN_CONV) = Some c0 ->
  run_start clock_s true draw' (Task_new cs cv) = Some s0 ->
  rtc (run_step clock_c silent) (c0, None) (c1, None) -> t_hs c1 = Syn ->
  rtc (run_step clock_s silent) (s0, None) (s1, None) -> t_hs s1 = Syn ->
  exists p ps, outputs (t_kcp c0) = p :: ps /\ (Zlen ps < cfg_rcv_wnd cs ->
    exists s2 q qs,
      on_transport clock_s p ps true s1 None = Some ([OutConnected cv], None, s2) /\
      t_hs s2 = Connected /\ t_session_id s2 = t_session_id c0 /\
      outputs (t_kcp s2) = outputs (t_kcp s1) ++ q :: qs /\ (Zlen qs < cfg_rcv_wnd cc ->
      exists c2,
        on_transport clock_c q qs true c1 None = Some ([OutConnected cv], None, c2) /\
        t_hs c2 = Connected /\ t_session_id c2 = t_session_id c0 /\ Kcp_conv (t_kcp c2) = cv)).
Proof.
  intros Hcc Hcs Ekey Elen Hcv0 Hcv Ec0 Es0 Hc1 Hcs1 Hs1 Hss1.
  apply is_valid_conv_spec in Hcv as [_ Hcv]. unfold SYN_CONV in Hcv.
  assert (cv <> SYN_CONV /\ 0 <= cv < 4294967296) as [Hne Hr] by (unfold SYN_CONV; lia).
  destruct (run_start_client clock_c cc draw c0 Hcc Ec0) as (Wc & _ & gs & wnd & Eo & Hw & Hem & Hf).
  destruct (run_start_server clock_s cs cv draw' s0 Hcs Hr Hne Es0) as [Ws _].
  destruct (waiting_silent _ _ _ _ _ _ _ _ Hc1 Wc) as [Wc1 _].
  destruct (waiting_silent _ _ _ _ _ _ _ _ Hs1 Ws) as [Ws1 _]. cbn [fst] in *.
  set (b := syn_of cc draw) in *. set (id := random_session_id cc draw) in *.
  assert (Zlen id = session_id_len cc) as Hid by (apply random_session_id_length; apply Hcc).
  assert (b = session_key cs ++ id) as Eb by (by rewrite Ekey).
  destruct gs as [|g gs]; [by apply has_first_nonempty in Hf|].
  exists (packet g), (map packet gs). split; [exact Eo|]. intros Hl.
  destruct (server_connects clock_s s1 cs cv b id (g :: gs) wnd _ _ Ws1 Hss1 Hcs Hne Eb
    ltac:(congruence) Hem Hw Hf eq_refl Hl) as (s2 & gs' & wnd' & E2 & G1 & G2 & G3 & G4 & G5).
  destruct gs' as [|g' gs']; [by apply has_first_nonempty in G5|].
  exists s2, (packet g'), (map packet gs'). rewrite (wt_id _ _ _ _ _ _ Wc), G2.
  split; [done|]. split; [done|]. split; [done|]. split; [exact G3|]. intros Hl'.
  exact (client_connects clock_c c1 cc cv b id (g' :: gs') wnd' _ _ Wc1 Hcs1 Hcc Hne eq_refl Hid
    G4 G5 eq_refl Hl').
Qed.
