(* ===== verification/Session.v ===== *)
(** A concrete configuration, clock and source of random bytes, for the examples of sessions. *)
From Stdlib Require Import Strings.Byte.
From S2P Require Import Prelude Bytes IkcpTypes IkcpSend IkcpInput IkcpFlush Protocol.
From S2P Require Import ProtocolSpec Config Stream StreamSpec.

#[local] Existing Instance list_bytes_mut.

Definition demo_clock (n : nat) : Z * Z := (0, 20 * Z.of_nat n).
Definition demo_config : KcpConfig := {|
  cfg_mtu := 1400; cfg_nodelay := normal; cfg_snd_wnd := 32; cfg_rcv_wnd := 256;
  cfg_stream := true; session_key := [x6b; x65; x79]; session_id_len := 4;
  session_expire := from_secs 90; connect_timeout := from_secs 15;
  shutdown_timeout := from_secs 10; half_close_timeout := from_secs 5
|}.
Definition demo_draw (i : nat) : byte := byte_of_Z (Z.of_nat i + 33).
