(* ===== verification/Calls.v ===== *)
(** A session's task and its control block: what the task does in one turn is a sequence of
    calls of the C library.  Such a sequence is described by what goes in and out of it, and two
    lemmas carry the two halves of delivery over it. *)
From S2P Require Import Prelude Bytes IkcpTypes IkcpSend IkcpInput IkcpFlush IkcpFlushSpec.
From S2P Require Import IkcpInv Wire Delivery Network Protocol ProtocolSpec.

(** ** No segment of data is empty *)
Definition filled (e : entry) : Prop := snd e <> [].

Lemma filled_count (l : list entry) : Forall filled l -> Zlen l <= Zlen (entry_bytes l).
Proof.
  induction 1 as [|e l He _ IH]; [done|]. unfold entry_bytes in *. cbn [map concat].
  rewrite Zlen_cons, Zlen_app. pose proof (Zlen_pos (snd e) He). lia.
Qed.

Lemma frag_segs_filled n m msg b :
  0 < m -> (n = 0%nat \/ (Z.of_nat n - 1) * m < Zlen b) ->
  Forall (fun s => seg_data s <> []) (frag_segs n m msg b).
Proof.
  intros Hm. revert b. induction n as [|n IH]; intros b Hb; cbn [frag_segs]; constructor.
  - unfold frag_seg. simp_upd. cbn [seg_data ikcp_segment_new]. intros F.
    apply (f_equal length) in F. rewrite length_take in F. unfold Zlen in Hb. cbn in F. nia.
  - apply IH. destruct n as [|n]; [by left|right].
    unfold Zlen in *. rewrite length_drop. nia.
Qed.

Lemma frag_count_filled m len : 0 < m -> 0 < len -> (frag_count m len - 1) * m < len.
Proof.
  intros Hm Hl. unfold frag_count.
  pose proof (Z.mod_pos_bound (len + m - 1) m Hm).
  pose proof (Z.div_mod (len + m - 1) m ltac:(lia)). nia.
Qed.

Definition data_filled (s : IKCPSEG) : Prop := seg_data s <> [].

(** The queue when the write has filled up its last segment. *)
Definition extended (q0 q : list IKCPSEG) : Prop :=
  q = q0 \/ exists old s, q0 = removelast q0 ++ [old] /\ q = removelast q0 ++ [s] /\ seg_frg s = 0 /\
    (data_filled old -> data_filled s).

Lemma send_extend_extended k b :
  Forall (seg_fits (mss k)) (snd_queue k) ->
  extended (snd_queue k) (snd_queue (fst (fst (ikcp_send_extend k b (Zlen b))))).
Proof.
  intros Hf. unfold ikcp_send_extend. destruct (last (snd_queue k)) as [old|] eqn:El; [|by left].
  destruct (_ <? _); [|by left]. cbn [fst]. simp_upd. right.
  apply last_Some in El as [q El]. rewrite El in *. rewrite removelast_snoc.
  apply Forall_app in Hf as [_ [(Hw & _) _]%Forall_cons].
  eexists _, _. split; [done|]. split; [done|]. split; [done|]. unfold data_filled, seg_wf, Zlen in *.
  simp_upd. cbn [seg_data ikcp_segment_new]. rewrite take_ge by lia. by destruct (seg_data old).
Qed.

(** A write fills up the last segment, and puts what is left in new ones. *)
Lemma ikcp_send_parts k b :
  send_ok k -> b <> [] -> Zlen b < 2147483648 ->
  let q' := snd_queue (snd (ikcp_send k b (Zlen b))) in
  exists q, extended (snd_queue k) q /\
    (q' = q \/ exists b1, 0 < Zlen b1 /\
       q' = q ++ frag_segs (Z.to_nat (frag_count (mss k) (Zlen b1))) (mss k) (stream k =? 0) b1).
Proof.
  cbv zeta. intros (Hm & Hn & Hq) Hne Hb. unfold ikcp_send. pose proof (Zlen_pos b Hne) as Hpos.
  destruct (Z.ltb_spec (Zlen b) 0) as [?|_]; [lia|].
  set (r := if stream k =? 0 then _ else _).
  assert (exists q b1, r = (k <| snd_queue := q |>, b1, Zlen b1) /\ Zlen b1 <= Zlen b /\
    extended (snd_queue k) q /\ (stream k = 0 -> b1 = b)) as (q & b1 & -> & Hl & Hq1 & Hb1).
  { unfold r. destruct (Z.eqb_spec (stream k) 0) as [|Hst].
    - exists (snd_queue k), b. split; [by destruct k|]. split; [done|]. split; [by left|done].
    - destruct (ikcp_send_extend_spec k b ltac:(lia) ltac:(lia) Hq) as (q & E & _).
      pose proof (send_extend_extended k b Hq) as H. rewrite E in *. cbn [fst] in H.
      exists q, (drop (Z.to_nat (tail_room k)) b). split; [done|].
      split; [unfold Zlen; rewrite length_drop; lia|done]. }
  exists q. split; [done|]. simp_upd. pose proof (Zlen_nonneg b1).
  destruct (negb (stream k =? 0) && (Zlen b1 <=? 0)) eqn:E0; [by left|].
  assert (0 < Zlen b1) as Hp1.
  { destruct (Z.eqb_spec (stream k) 0) as [Hs|]; [by rewrite (Hb1 Hs)|]. cbn [negb andb] in E0. lia. }
  rewrite ikcp_send_count_spec by (simp_upd; lia). simp_upd. cbv zeta.
  destruct (_ >=? _) eqn:Ec; [by left|]. cbn [snd]. change (i32 IKCP_WND_RCV) with 256 in Ec.
  assert (1 <= frag_count (mss k) (Zlen b1) < 256) as Hc
    by (split; [unfold frag_count; lia|by rewrite Z.geb_leb in Ec; lia]).
  destruct (Z.eqb_spec (frag_count (mss k) (Zlen b1)) 0); [lia|].
  rewrite ikcp_send_fragment_spec; simp_upd; try lia; [|by rewrite Hn; apply u32_range].
  right. by exists b1.
Qed.

Lemma ikcp_send_filled k b :
  send_ok k -> b <> [] -> Zlen b < 2147483648 -> Forall data_filled (snd_queue k) ->
  Forall data_filled (snd_queue (snd (ikcp_send k b (Zlen b)))).
Proof.
  intros Hs Hne Hb Hfill. destruct (ikcp_send_parts k b Hs Hne Hb) as (q & Hq & H).
  assert (Forall data_filled q) as Hq1.
  { destruct Hq as [->|(old & s & E & -> & _ & Hs')]; [done|]. rewrite E in Hfill.
    apply Forall_app in Hfill as [H1 [H2 _]%Forall_cons]. apply Forall_app. auto. }
  destruct H as [->|(b1 & Hp & ->)]; [done|]. apply Forall_app. split; [done|].
  destruct Hs as (Hm & _). apply frag_segs_filled; [lia|]. right.
  rewrite Z2Nat.id by (unfold frag_count; lia). by apply frag_count_filled; lia.
Qed.

(** The last segment of the queue ends a message. *)
Definition ends_message (q : list IKCPSEG) : Prop := forall s, last q = Some s -> seg_frg s = 0.

Lemma frag_segs_end n m msg b s : last (frag_segs n m msg b) = Some s -> seg_frg s = 0.
Proof.
  revert b. induction n as [|n IH]; intros b; [done|]. cbn [frag_segs].
  destruct n as [|n]; [intros [= <-]; by destruct msg|]. intros E. apply (IH (drop (Z.to_nat m) b)).
  revert E. cbn [frag_segs]. done.
Qed.

Lemma ikcp_send_ends k b :
  send_ok k -> b <> [] -> Zlen b < 2147483648 -> ends_message (snd_queue k) ->
  ends_message (snd_queue (snd (ikcp_send k b (Zlen b)))).
Proof.
  intros Hs Hne Hb He. destruct (ikcp_send_parts k b Hs Hne Hb) as (q & Hq & H).
  assert (ends_message q) as Hq1.
  { destruct Hq as [->|(old & s & E & -> & Hf & _)]; [done|]. intros s'. rewrite last_snoc. by intros [= <-]. }
  destruct H as [->|(b1 & Hp & ->)]; [done|]. intros s. rewrite last_app.
  destruct (last (frag_segs _ _ _ b1)) as [s'|] eqn:E; [|apply Hq1].
  intros [= <-]. by eapply frag_segs_end.
Qed.

(** ** The segment size is set once *)
Lemma mss_recv k len : mss (snd (ikcp_recv k len)) = mss k.
Proof.
  unfold ikcp_recv. destruct (rcv_queue k); [done|]. cbv zeta.
  destruct (_ <? 0); [done|]. destruct (_ >? _); [done|].
  destruct (ikcp_recv_merge _ _ _ _ _) as [[[buf n] rest] nq]. cbn [snd].
  match goal with |- context [ikcp_move_rcv ?q ?k1] =>
    pose proof (snd_frame_move_rcv q k1) as (_ & H & _) end.
  by destruct (_ && _).
Qed.

Lemma mss_input k data : mss (snd (ikcp_input k data)) = mss k.
Proof.
  unfold ikcp_input. destruct (_ <? _); [done|].
  pose proof (snd_frame_input_loop (length data) k (mklocals false 0 0) data) as (_ & Hl & _).
  destruct (ikcp_input_loop _ _ _ _) as [[e|l] k']; cbn [snd] in *; [done|].
  set (k2 := if l_flag l then _ else _).
  assert (mss k2 = mss k) as H2.
  { unfold k2. destruct (l_flag l); [|done].
    by destruct (snd_frame_fastack k' (l_maxack l) (l_latest_ts l)) as (_ & -> & _). }
  destruct (_ >? 0); [|done]. by destruct (ikcp_input_cwnd_frame k2) as (c & i & -> & _).
Qed.

Lemma mss_flush k : kcp_ok k -> mss (fst (ikcp_flush k)) = mss k.
Proof.
  intros Hok. destruct (decide (updated k = 0)) as [E|Hu].
  { unfold ikcp_flush. by rewrite E. }
  destruct (ikcp_flush_shape k Hok Hu) as (x & st & ss & cw & inc & _ & ->).
  destruct (flush_moved_eq k Hok) as [-> _].
  destruct (flush_probed_shape k) as (a & b & ->). done.
Qed.

Lemma mss_exec k op :
  kcp_ok k -> op_allowed op k -> (forall b m, op <> OpSetMtu b m) -> mss (kcp_exec op k) = mss k.
Proof.
  intros Hok Ha Hm. destruct op as [b|len|data|now| |b m|iv|nd iv re nc|s r]; cbn [kcp_exec op_allowed] in *.
  - pose proof Hok as [((Hs & Hn & Hfit) & _) _].
    destruct (ikcp_send_spec k b Hs Ha) as (q & _ & _ & _ & _ & E);
      [rewrite Hn; apply u32_range|done|]. cbv zeta in E. rewrite E. clear E.
    destruct (_ && _); [done|]. by destruct (256 <=? _).
  - apply mss_recv.
  - apply mss_input.
  - destruct (ikcp_update_cases k now) as (u & ts & _ & [-> | ->]); [|done].
    apply (mss_flush (with_clock k now u ts)). by apply kcp_ok_clock.
  - by apply mss_flush.
  - by destruct (Hm b m).
  - done.
  - unfold ikcp_nodelay. cbv zeta.
    by destruct (nd >=? 0), (negb (nd =? 0)), (iv >=? 0), (re >=? 0), (nc >=? 0).
  - unfold ikcp_wndsize. cbv zeta. by destruct (s >? 0), (r >? 0).
Qed.

(** ** Sequences of calls *)
Section Calls.
Context {BM : BytesMut} {BML : BytesMutLaws BM}.
Implicit Types k : Kcp.

(** What passes between the session and its control block: a write taken, a message read, a
    packet given to [input].  Some cases of these are told apart: [Fin] is a write when nothing
    waits, nor in the output queue, [Settled] finds that nothing waits, [Later] is a read when
    there is more than one segment, [Dropped] is a read, of the only segment there is, of a
    message nobody gets, and [Heard] is a packet with the number of the session. *)
Inductive act :=
| Wrote (b : bytes) | Fin (b : bytes) | Settled
| Read (m : bytes) | Later (m : bytes) | Dropped (m : bytes) | Took (p : bytes) | Heard (p : bytes).

Definition wrotes : list act -> list bytes :=
  omap (fun a => match a with Wrote b | Fin b => Some b | _ => None end).
Definition fins : list act -> list bytes := omap (fun a => match a with Fin b => Some b | _ => None end).
Definition reads : list act -> list bytes :=
  omap (fun a => match a with Read m | Later m => Some m | _ => None end).
Definition drops : list act -> list bytes :=
  omap (fun a => match a with Dropped m => Some m | _ => None end).
Definition tooks : list act -> list bytes :=
  omap (fun a => match a with Took p | Heard p => Some p | _ => None end).

(** The calls that carry no data in or out. *)
Definition silent_op (op : kcp_op) : Prop :=
  match op with OpSend _ | OpRecv _ | OpInput _ | OpSetMtu _ _ | OpWndsize _ _ => False | _ => True end.

Definition write_act (a : act) (b : bytes) k : Prop :=
  a = Wrote b \/ a = Fin b /\ ikcp_waitsnd (handle k) = 0 /\ outputs k = [].
Definition read_act (a : act) (m : bytes) (h : IKCPCB) : Prop :=
  a = Read m \/ a = Later m /\ (nrcv_que h <> 1 \/ nrcv_buf h <> 0) \/
  a = Dropped m /\ nrcv_que h = 1 /\ nrcv_buf h = 0.
Definition took_act (a : act) (p : bytes) (h : IKCPCB) : Prop :=
  a = Took p \/ a = Heard p /\ h_conv (snd (ikcp_decode_header p)) = conv h.

(** One call.  A read of an ordinary receive queue gives its first message; in the handshake a
    packet is taken under another conversation number [c], and one of the two is kept. *)
Inductive call : list act -> Kcp -> Kcp -> Prop :=
| call_silent op k k' :
    silent_op op -> op_allowed op (handle k) -> handle k' = kcp_exec op (handle k) ->
    outputs k' = outputs k ++ kcp_packets op (handle k) -> call [] k k'
| call_settled k k' :
    handle k' = handle k -> outputs k' = outputs k -> ikcp_waitsnd (handle k) = 0 ->
    call [Settled] k k'
| call_write a b k k' :
    write_act a b k ->
    b <> [] -> Zlen b < 2147483648 -> fst (ikcp_send (handle k) b (Zlen b)) = 0 ->
    handle k' = snd (ikcp_send (handle k) b (Zlen b)) -> outputs k' = outputs k ->
    call [a] k k'
| call_read a m len k k' :
    read_act a m (handle k) ->
    handle k' = snd (ikcp_recv (handle k) len) -> outputs k' = outputs k ->
    (recv_ok (handle k) -> m = seg_bytes (fst (msg_prefix (rcv_queue (handle k)))) /\
       head_incomplete (handle k) = false /\ handle k' = snd (ikcp_recv (handle k) (Zlen m))) ->
    call [a] k k'
| call_take a p k k' :
    took_act a p (handle k) ->
    handle k' = snd (ikcp_input (handle k) p) -> outputs k' = outputs k -> call [a] k k'
| call_take_as p c c' k k' :
    handle k' = (snd (ikcp_input ((handle k) <| conv := c |>) p)) <| conv := c' |> ->
    outputs k' = outputs k -> call [Took p] k k'.

Inductive calls : list act -> Kcp -> Kcp -> Prop :=
| calls_nil k k' : handle k' = handle k -> outputs k' = outputs k -> calls [] k k'
| calls_cons l l' k1 k2 k3 :
    kcp_ok (handle k1) -> 0 <= conv (handle k1) < 4294967296 ->
    call l k1 k2 -> calls l' k2 k3 -> calls (l ++ l') k1 k3.

Lemma calls_refl k : calls [] k k.
Proof. by apply calls_nil. Qed.

Lemma calls_same l k1 k2 k3 :
  handle k2 = handle k1 -> outputs k2 = outputs k1 -> calls l k2 k3 -> calls l k1 k3.
Proof.
  intros E1 E2 H. destruct H as [k k' H1 H2|l l' k k' k'' Hok Hc H1 H2].
  - apply calls_nil; congruence.
  - apply (calls_cons l l' k1 k' k''); [congruence|congruence| |done].
    destruct H1 as [| |a b k k' Hact| | |]; [eapply (call_silent op)|eapply call_settled|eapply call_write|eapply call_read
      |eapply call_take|eapply call_take_as]; unfold write_act in *; rewrite <- ?E1, <- ?E2; eauto.
Qed.

Lemma calls_app l l' k1 k2 k3 : calls l k1 k2 -> calls l' k2 k3 -> calls (l ++ l') k1 k3.
Proof.
  induction 1 as [k k' H1 H2|l0 l1 k k' k'' Hok Hc H1 _ IH]; intros H.
  - by apply (calls_same _ k k').
  - rewrite <- app_assoc. by apply (calls_cons l0 _ k k'); [..|apply IH].
Qed.

Lemma calls_split l l' k k' : calls (l ++ l') k k' -> exists km, calls l k km /\ calls l' km k'.
Proof.
  intros H. remember (l ++ l') as l0 eqn:E. revert l E.
  induction H as [k k' E1 E2|l1 l2 k1 k2 k3 Hok Hc H1 H2 IH]; intros l E.
  - symmetry in E. apply app_eq_nil in E as [-> ->]. exists k'. split; [by apply calls_nil|apply calls_refl].
  - destruct l1 as [|a [|a' l1]]; [| |by inversion H1].
    + destruct (IH l E) as (km & G1 & G2). exists km. split; [|done]. by apply (calls_cons [] l k1 k2).
    + destruct l as [|a' l]; cbn [app] in E.
      * exists k1. split; [apply calls_refl|]. rewrite <- E. by apply (calls_cons [a] l2 k1 k2).
      * injection E as -> E. destruct (IH l E) as (km & G1 & G2). exists km. split; [|done].
        by apply (calls_cons [a'] l k1 k2).
Qed.

Lemma call_heard p k k' :
  call [Heard p] k k' ->
  h_conv (snd (ikcp_decode_header p)) = conv (handle k) /\
  handle k' = snd (ikcp_input (handle k) p) /\ outputs k' = outputs k.
Proof.
  intros H. inversion H as [| |a b k0 k0' Hact|a m len k0 k0' Hact|a p0 k0 k0' Hact|]; subst.
  - by destruct Hact as [?|[? _]].
  - by destruct Hact as [?|[[? _]|[? _]]].
  - by destruct Hact as [?|[[= ->] Hours]].
Qed.

(** One act, and what is before and after it. *)
Lemma calls_at l a l' k k' :
  calls (l ++ a :: l') k k' ->
  exists k1 k2, calls l k k1 /\ kcp_ok (handle k1) /\ 0 <= conv (handle k1) < 4294967296 /\
    call [a] k1 k2 /\ calls l' k2 k'.
Proof.
  intros (km & H1 & H2)%calls_split. remember (a :: l') as l0 eqn:E. revert l H1.
  induction H2 as [k0 k0' E1 E2|l1 l2 k1 k2 k3 Hok Hc H2 H3 IH]; intros l H1; [done|].
  destruct l1 as [|a' [|a'' l1]]; [| |by inversion H2].
  - apply (IH E l). rewrite <- (app_nil_r l). eapply calls_app; [exact H1|].
    apply (calls_cons [] [] k1 k2); [done..|apply calls_refl].
  - injection E as -> ->. by exists k1, k2.
Qed.

Lemma calls_one l k k' : wrapper_ok k -> call l k k' -> calls l k k'.
Proof.
  intros (Hok & _ & Hc) H. rewrite <- (app_nil_r l).
  apply (calls_cons l [] k k'); [done|done|done|apply calls_refl].
Qed.

Lemma reads_app l l' : reads (l ++ l') = reads l ++ reads l'.
Proof. apply omap_app. Qed.
Lemma wrotes_app l l' : wrotes (l ++ l') = wrotes l ++ wrotes l'.
Proof. apply omap_app. Qed.
Lemma tooks_app l l' : tooks (l ++ l') = tooks l ++ tooks l'.
Proof. apply omap_app. Qed.
Lemma fins_app l l' : fins (l ++ l') = fins l ++ fins l'.
Proof. apply omap_app. Qed.
Lemma drops_app l l' : drops (l ++ l') = drops l ++ drops l'.
Proof. apply omap_app. Qed.

(** ** The writer *)

(** [W] is every byte written so far: the admitted stream [S] and the send queue hold them. *)
Record writing (S : list entry) (W : bytes) (k : Kcp) : Prop := {
  wr_emits : emits S (handle k);
  wr_filled : Forall filled (pending S (handle k));
  wr_bytes : entry_bytes (pending S (handle k)) = W
}.

Lemma writing_filled S W (k : Kcp) : writing S W k -> Forall filled S.
Proof. intros [_ H _]. unfold pending in H. by apply Forall_app in H as [H _]. Qed.

Lemma writing_le S W (k : Kcp) : writing S W k -> Zlen (entry_bytes S) <= Zlen W.
Proof.
  intros [_ _ <-]. unfold pending. rewrite entry_bytes_app, Zlen_app.
  pose proof (Zlen_nonneg (entry_bytes (map seg_entry (snd_queue (handle k))))). lia.
Qed.

Lemma filled_segs q : Forall filled (map seg_entry q) <-> Forall data_filled q.
Proof. by rewrite Forall_map. Qed.

Lemma writing_same S W k k' : handle k' = handle k -> writing S W k -> writing S W k'.
Proof. intros E [H1 H2 H3]. split; by rewrite E. Qed.

Lemma wrotes_write a b k : write_act a b k -> wrotes [a] = [b].
Proof. by intros [->|[-> _]]. Qed.

Lemma took_acts a p h :
  took_act a p h -> wrotes [a] = [] /\ fins [a] = [] /\ reads [a] = [] /\ drops [a] = [] /\ tooks [a] = [p].
Proof. by intros [->|[-> _]]. Qed.

Lemma wrotes_read a m h : read_act a m h -> wrotes [a] = [].
Proof. by intros [->|[[-> _]|[-> _]]]. Qed.

(** A call extends the stream by what leaves the send queue. *)
Lemma call_writing l k k' S W :
  kcp_ok (handle k) -> 0 <= conv (handle k) < 4294967296 -> call l k k' -> writing S W k ->
  let S' := S ++ moved_entries (handle k) (handle k') in
  exists ps, writing S' (W ++ concat (wrotes l)) k' /\
    outputs k' = outputs k ++ ps /\ Forall (honest (Zlen S - 65535) S') ps.
Proof.
  intros Hok Hc Hcall [He Hf Hb]. cbv zeta.
  assert (forall op, (forall b, op <> OpSend b) -> handle k' = kcp_exec op (handle k) ->
    op_allowed op (handle k) -> outputs k' = outputs k ++ kcp_packets op (handle k) ->
    exists ps, writing (S ++ moved_entries (handle k) (handle k')) (W ++ []) k' /\
      outputs k' = outputs k ++ ps /\
      Forall (honest (Zlen S - 65535) (S ++ moved_entries (handle k) (handle k'))) ps) as Hother.
  { intros op Hop Eh Ha Eo. destruct (exec_other S (handle k) op Hok Hc He Hop) as (H1 & H2 & H3).
    exists (kcp_packets op (handle k)). rewrite Eh.
    split; [|split; [done|]].
    - split; rewrite ?Eh; [done|by rewrite H3|by rewrite H3, app_nil_r].
    - eapply Forall_impl; [exact H2|]. intros p Hp. rewrite <- (app_nil_r (S ++ _)).
      eapply honest_weaken; [|exact Hp]. rewrite Zlen_app.
      pose proof (Zlen_nonneg (moved_entries (handle k) (kcp_exec op (handle k)))). lia. }
  destruct Hcall as [op k k' Hs Ha Eh Eo|k k' Eh Eo _|a b k k' Hact Hne Hl Hr Eh Eo
    |a m len k k' Hact Eh Eo _|a p k k' Hact Eh Eo|p c c' k k' Eh Eo].
  - apply (Hother op); [by intros b ->|done..].
  - exists []. rewrite Eh, moved_entries_same, !app_nil_r by done. by split; [split; rewrite Eh|].
  - rewrite (wrotes_write _ _ _ Hact). exists []. rewrite Eh, moved_entries_send, !app_nil_r by done.
    split; [|done].
    destruct (send_pending S (handle k) b Hok Hl) as (E & _).
    pose proof Hok as [(Hso & _) _].
    split; rewrite ?Eh; [by apply emits_send| |].
    + unfold pending in *. apply Forall_app in Hf as [Hf1 Hf2]. apply Forall_app. split; [done|].
      apply filled_segs, ikcp_send_filled; [done..|]. by apply filled_segs.
    + rewrite E, Hb. unfold written. rewrite Hr. cbn [Z.eqb concat]. by rewrite app_nil_r.
  - rewrite (wrotes_read _ _ _ Hact).
    apply (Hother (OpRecv len)); cbn; [done|done|done|by rewrite app_nil_r].
  - destruct (took_acts _ _ _ Hact) as [-> _].
    apply (Hother (OpInput p)); cbn; [done|done|done|by rewrite app_nil_r].
  - destruct (snd_keep_input ((handle k) <| conv := c |>) p) as (E1 & E2 & _ & _ & E3). simp_upd.
    exists []. rewrite moved_entries_same, !app_nil_r by (rewrite Eh; by simp_upd).
    split; [|done]. destruct He as [Hn Hbuf].
    split; rewrite ?Eh; unfold pending in *; simp_upd; rewrite ?E2;
      [|done|exact Hb].
    split; simp_upd; [by rewrite E1|]. apply E3; [|done]. intros s n. by apply recent_entry.
Qed.

Lemma calls_writing l k k' S W m :
  calls l k k' -> writing S W k -> m <= Zlen S -> Forall (honest (m - 65535) S) (outputs k) ->
  exists T, writing (S ++ T) (W ++ concat (wrotes l)) k' /\
    Forall (honest (m - 65535) (S ++ T)) (outputs k').
Proof.
  intros Hc. revert S W. induction Hc as [k k' E1 E2|l l' k1 k2 k3 Hok Hcv Hone _ IH]; intros S W Hw Hm Ho.
  - exists []. cbn. rewrite !app_nil_r, E2. split; [by apply (writing_same S W k)|done].
  - destruct (call_writing l k1 k2 S W Hok Hcv Hone Hw) as (ps & Hw2 & Eo & Hps).
    set (T := moved_entries (handle k1) (handle k2)) in *.
    destruct (IH (S ++ T) _ Hw2) as (T' & Hw3 & Ho3).
    + rewrite Zlen_app. pose proof (Zlen_nonneg T). lia.
    + rewrite Eo. apply Forall_app. split; (eapply Forall_impl; [eassumption|]); intros p Hp.
      * by eapply honest_weaken; [|exact Hp].
      * rewrite <- (app_nil_r (S ++ T)). eapply honest_weaken; [|exact Hp]. lia.
    + exists (T ++ T'). rewrite wrotes_app, concat_app, !app_assoc. done.
Qed.

Lemma call_mss l k k' : kcp_ok (handle k) -> call l k k' -> mss (handle k') = mss (handle k).
Proof.
  intros Hok Hone. destruct Hone as [op k k' Hs Ha Eh _|k k' Eh _ _|a b k k' _ _ Hl _ Eh _|a m len k k' _ Eh _ _
    |a p k k' Hact Eh _|p c c' k k' Eh _]; rewrite Eh.
  - apply mss_exec; [done|done|]. intros b m ->. done.
  - done.
  - by apply (mss_exec (handle k) (OpSend b)).
  - apply mss_recv.
  - apply mss_input.
  - simp_upd. by rewrite mss_input.
Qed.

Lemma calls_mss l k k' : calls l k k' -> mss (handle k') = mss (handle k).
Proof.
  induction 1 as [k k' E1 E2|l l' k1 k2 k3 Hok Hcv Hone _ IH]; [by rewrite E1|].
  rewrite IH. by apply (call_mss l).
Qed.

Lemma call_conv l k k' : kcp_ok (handle k) -> call l k k' -> tooks l = [] -> conv (handle k') = conv (handle k).
Proof.
  intros Hok Hone Et. destruct Hone as [op k k' Hs Ha Eh _|k k' Eh _ _|a b k k' _ _ Hl _ Eh _|a m len k k' _ Eh _ _
    |a p k k' Hact _ _|p c c' k k' _ _]; rewrite ?Eh; try done.
  - by apply exec_static.
  - by apply (exec_static (handle k) (OpSend b)).
  - by apply (exec_static (handle k) (OpRecv len)).
  - by destruct (took_acts _ _ _ Hact) as (_ & _ & _ & _ & E); rewrite E in Et.
Qed.

Lemma calls_conv l k k' : calls l k k' -> tooks l = [] -> conv (handle k') = conv (handle k).
Proof.
  induction 1 as [k k' E1 E2|l l' k1 k2 k3 Hok Hcv Hone _ IH]; [by rewrite E1|].
  rewrite tooks_app. intros [H1 H2]%app_eq_nil. rewrite IH by done. by apply (call_conv l).
Qed.

(** ** The reader *)

Lemma entry_bytes_take R (S : list entry) : Zlen (entry_bytes (take R S)) <= Zlen (entry_bytes S).
Proof.
  rewrite <- (take_drop R S) at 2. rewrite entry_bytes_app, Zlen_app.
  pose proof (Zlen_nonneg (entry_bytes (drop R S))). lia.
Qed.

(** What is queued is part of what the writer is ahead. *)
Lemma tracks_recv_ok S R got (h : IKCPCB) :
  kcp_ok h -> tracks S R got h -> Zlen (entry_bytes S) - Zlen (entry_bytes got) < 2147483648 ->
  recv_ok h.
Proof.
  intros [(_ & _ & _ & (_ & _ & _ & _ & Hn & Hl & _ & Hf) & _) _] [_ _ Hp _] Hlt.
  apply (f_equal entry_bytes) in Hp. rewrite entry_bytes_app, entry_bytes_segs in Hp.
  pose proof (entry_bytes_take (Z.to_nat R) S) as Ht. rewrite <- Hp, Zlen_app in Ht.
  pose proof (Zlen_nonneg (entry_bytes got)). unfold recv_ok. split_and!; try done; lia.
Qed.

(** A message read is the head of the queue. *)
Lemma read_tracks m (h h' : IKCPCB) S R got :
  let e := map seg_entry (fst (msg_prefix (rcv_queue h))) in
  kcp_ok h -> tracks S R got h -> Zlen (entry_bytes S) - Zlen (entry_bytes got) < 2147483648 ->
  (recv_ok h -> m = seg_bytes (fst (msg_prefix (rcv_queue h))) /\ head_incomplete h = false /\
     h' = snd (ikcp_recv h (Zlen m))) ->
  recv_ok h /\ 0 <= Zlen m < 2147483648 /\ h' = snd (ikcp_recv h (Zlen m)) /\ entry_bytes e = m /\
  exists R', tracks S R' (got ++ e) h'.
Proof.
  cbv zeta. intros Hok Ht Hlt Hm. pose proof (tracks_recv_ok S R got _ Hok Ht Hlt) as Hr.
  destruct (Hm Hr) as (Em & Hhead & Eh'). clear Hm. split; [done|].
  pose proof Hok as [(_ & _ & _ & Hw & _) _].
  assert (0 <= Zlen m < 2147483648) as Hlm.
  { split; [apply Zlen_nonneg|]. destruct Hr as (_ & Hb & _). subst m.
    pose proof (msg_prefix_app (rcv_queue h)) as E. rewrite E, seg_bytes_app, Zlen_app in Hb.
    pose proof (Zlen_nonneg (seg_bytes (snd (msg_prefix (rcv_queue h))))). lia. }
  split; [done|]. split; [done|]. split; [by rewrite entry_bytes_segs|]. subst h'.
  pose proof (tracks_recv S R got h (Zlen m) Hw Hr ltac:(lia) Ht) as Htr.
  pose proof (ikcp_recv_spec h (Zlen m) Hr ltac:(lia)) as E. cbv zeta in E.
  rewrite Hhead, <- Em in E.
  assert (Zlen (rcv_queue h) <> 0) as Hne.
  { intros E0. unfold head_incomplete in Hhead. destruct (rcv_queue h); [done|].
    rewrite Zlen_cons in E0. pose proof (Zlen_nonneg l). lia. }
  destruct (Z.eqb_spec (Zlen (rcv_queue h)) 0) as [|_]; [done|].
  destruct (Z.ltb_spec (Z.abs (Zlen m)) (Zlen m)); [lia|]. rewrite E in *. clear E.
  destruct Htr as (R' & Ht' & _). cbn [snd] in *.
  destruct (Z.ltb_spec (Zlen m) 0); [lia|]. cbn [orb] in Ht'. by exists R'.
Qed.

Lemma call_reading l k k' S R got :
  kcp_ok (handle k) -> call l k k' -> tracks S R got (handle k) ->
  Zlen (entry_bytes S) - Zlen (entry_bytes got) < 2147483648 ->
  Forall (honest (Zlen S - 2147483647) S) (tooks l) -> drops l = [] ->
  exists R' e, tracks S R' (got ++ e) (handle k') /\ entry_bytes e = concat (reads l).
Proof.
  intros Hok Hcall Ht Hlt Hh Hd.
  destruct Hcall as [op k k' Hs Ha Eh _|k k' Eh _ _|a b k k' Hact _ Hl _ Eh _|a m len k k' Hact Eh _ Hm
    |a p k k' Hact Eh _|p c c' k k' Eh _]; [| | | | |cbn [tooks omap list_omap] in Hh].
  - rewrite Eh. exists R, []. rewrite app_nil_r. split; [|done]. eapply tracks_same; [|done].
    apply exec_receiver; [done|done|by intros ? ->|by intros ? ->].
  - rewrite Eh. exists R, []. by rewrite app_nil_r.
  - rewrite Eh. exists R, []. rewrite app_nil_r. split; [|by destruct Hact as [->|[-> _]]].
    eapply tracks_same; [|done]. by apply rcv_same_send.
  - assert (reads [a] = [m]) as -> by (by destruct Hact as [->|[[-> _]|[-> _]]]). cbn [concat].
    destruct (read_tracks m _ (handle k') S R got Hok Ht Hlt Hm) as (_ & _ & _ & E & R' & Ht').
    exists R'. eexists. split; [exact Ht'|]. by rewrite E, app_nil_r.
  - destruct (took_acts _ _ _ Hact) as (_ & _ & -> & _ & Et). rewrite Et in Hh.
    apply Forall_cons in Hh as [Hp _].
    destruct (tracks_input S R got (handle k) p (proj1 Hok) Ht Hp) as [R' H'].
    exists R', []. by rewrite Eh, app_nil_r.
  - apply Forall_cons in Hh as [Hp _].
    assert (kcp_inv ((handle k) <| conv := c |>)) as Hinv by exact (proj1 Hok).
    destruct (tracks_input S R got ((handle k) <| conv := c |>) p Hinv) as [R' H'];
      [by destruct Ht|done|].
    exists R', []. rewrite Eh, app_nil_r. split; [|done]. by destruct H'.
Qed.

Lemma calls_reading l k k' S R got :
  calls l k k' -> tracks S R got (handle k) ->
  Zlen (entry_bytes S) - Zlen (entry_bytes got) < 2147483648 ->
  Forall (honest (Zlen S - 2147483647) S) (tooks l) -> drops l = [] ->
  exists R' e, tracks S R' (got ++ e) (handle k') /\ entry_bytes e = concat (reads l).
Proof.
  intros Hc. revert R got. induction Hc as [k k' E1 E2|l l' k1 k2 k3 Hok Hcv Hone _ IH];
    intros R got Ht Hlt Hh Hd.
  - exists R, []. rewrite app_nil_r, E1. done.
  - rewrite tooks_app in Hh. apply Forall_app in Hh as [Hh1 Hh2].
    rewrite drops_app in Hd. apply app_eq_nil in Hd as [Hd1 Hd2].
    destruct (call_reading l k1 k2 S R got Hok Hone Ht Hlt Hh1 Hd1) as (R1 & e1 & Ht1 & E1).
    destruct (IH R1 (got ++ e1) Ht1) as (R2 & e2 & Ht2 & E2); [|done|done|].
    + rewrite entry_bytes_app, Zlen_app. pose proof (Zlen_nonneg (entry_bytes e1)). lia.
    + exists R2, (e1 ++ e2). rewrite app_assoc. split; [done|].
      by rewrite entry_bytes_app, E1, E2, reads_app, concat_app.
Qed.
End Calls.
