(* ===== verification/TaskCalls.v ===== *)
(** Every handler of the session's task is a sequence of calls of the control block: what it
    writes, reads and gives to [input]. *)
From S2P Require Import Prelude Bytes IkcpTypes IkcpSend IkcpInput IkcpFlush IkcpFlushSpec.
From S2P Require Import IkcpInv Wire Delivery Protocol ProtocolSpec Config Stream StreamSpec.
From S2P Require Import StreamSafe StreamWire Calls.

(** What is left of a list of writes when the empty ones do nothing. *)
Definition solid (b : bytes) : list bytes := match b with [] => [] | _ :: _ => [b] end.

Lemma concat_solid b : concat (solid b) = b.
Proof. destruct b; [done|]. cbn [solid concat]. apply app_nil_r. Qed.

Definition solids (fs : list bytes) : list bytes := concat (map solid fs).

Lemma concat_solids fs : concat (solids fs) = concat fs.
Proof.
  unfold solids. induction fs as [|f fs IH]; [done|]. cbn [map concat].
  by rewrite concat_app, concat_solid, IH.
Qed.

Definition opt_list {A} (x : option A) : list A := match x with Some a => [a] | None => [] end.

(** ** The acts of a session

    What the program writes apart, a session's writes are its greeting and its FIN frame. *)
Definition inert (a : act) : Prop :=
  match a with Took _ | Heard _ | Read _ | Later _ | Dropped _ => True | _ => False end.
Definition got_act (a : act) : Prop := match a with Read _ | Later _ | Dropped _ => True | _ => False end.
(** A read that may not be of the FIN frame. *)
Definition late (a : act) : Prop := match a with Read _ => False | _ => True end.
Definition fin_act (a : act) : Prop := match a with Fin _ | Settled => True | _ => False end.

Lemma fin_acts l : Forall fin_act l -> wrotes l = fins l /\ reads l = [] /\ drops l = [] /\ tooks l = [].
Proof.
  induction 1 as [|a l Ha _ (IH1 & IH2 & IH3 & IH4)]; [done|].
  destruct a; try done; split_and!; try done; by apply (f_equal (cons _)).
Qed.

Lemma inert_acts l : Forall inert l -> wrotes l = [] /\ fins l = [].
Proof. induction 1 as [|a l Ha _ [IH1 IH2]]; [done|]. by destruct a. Qed.

Lemma got_acts l : Forall got_act l -> Forall inert l /\ wrotes l = [] /\ fins l = [] /\ tooks l = [].
Proof.
  induction 1 as [|a l Ha _ (IH1 & IH2 & IH3 & IH4)]; [done|].
  destruct a; try done; (split_and!; [by constructor|done..]).
Qed.

Lemma wrote_acts fs :
  wrotes (map Wrote fs) = fs /\ fins (map Wrote fs) = [] /\ reads (map Wrote fs) = [] /\
  drops (map Wrote fs) = [] /\ tooks (map Wrote fs) = [].
Proof.
  induction fs as [|f fs (H1 & H2)]; [done|]. split; [|exact H2]. by apply (f_equal (cons f)).
Qed.

Lemma late_acts l : reads l = [] -> Forall late l.
Proof.
  induction l as [|a l IH]; [done|]. intros E. destruct a; try done; constructor; try done; by apply IH.
Qed.

(** A session goes through three phases: 0 before its FIN frame is written, 1 while that waits to
    be acknowledged, 2 after. *)
Definition phase_of (hs : Handshake) : nat := match hs with FinSent => 1 | FinWaitPeer => 2 | _ => 0 end.

Definition phase_step (ph : nat) (a : act) : option nat :=
  match a, ph with
  | Wrote _, 0%nat => Some 0%nat
  | Fin _, 0%nat => Some 1%nat
  | Settled, 1%nat => Some 2%nat
  | (Took _ | Heard _ | Read _ | Later _ | Dropped _), _ => Some ph
  | _, _ => None
  end.

Fixpoint run_phase (l : list act) (ph : nat) : option nat :=
  match l with
  | [] => Some ph
  | a :: l => match phase_step ph a with Some ph => run_phase l ph | None => None end
  end.

Lemma run_phase_app l l' ph :
  run_phase (l ++ l') ph = match run_phase l ph with Some ph => run_phase l' ph | None => None end.
Proof.
  revert ph. induction l as [|a l IH]; intros ph; [done|]. cbn [app run_phase].
  by destruct (phase_step ph a).
Qed.

(** The phases go forward, and from the first on nothing is written. *)
Lemma run_phase_ge l ph ph' :
  run_phase l ph = Some ph' -> (ph <= ph')%nat /\ ((1 <= ph)%nat -> wrotes l = []).
Proof.
  revert ph. induction l as [|a l IH]; intros ph; cbn [run_phase]; [by intros [= ->]|].
  destruct (phase_step ph a) as [ph1|] eqn:E; [|done]. intros H. destruct (IH ph1 H) as [H1 H2].
  destruct a, ph as [|[|ph]]; cbn in E; try done; injection E as <-; (split; [lia|]); intros ?;
    try lia; apply H2; lia.
Qed.

(** No FIN frame is written in phase 0. *)
Lemma run_phase_no_fin l : run_phase l 0 = Some 0%nat -> fins l = [].
Proof.
  induction l as [|a l IH]; [done|]. cbn [run_phase]. destruct a; cbn [phase_step]; try done.
  intros H. apply run_phase_ge in H as [H _]. lia.
Qed.

Lemma fins_wrotes l : wrotes l = [] -> fins l = [].
Proof. induction l as [|[] l IH]; intros E; try done; by apply IH. Qed.

Lemma run_phase_inert l ph : Forall inert l -> run_phase l ph = Some ph.
Proof. induction 1 as [|a l Ha _ IH]; [done|]. cbn [run_phase]. by destruct a. Qed.

Lemma run_phase_wrote fs : run_phase (map Wrote fs) 0 = Some 0%nat.
Proof. by induction fs. Qed.

(** With nothing but reads and greetings a session stays in phase 0. *)
Lemma run_phase_open l ph : run_phase l 0 = Some ph -> fins l = [] -> ph = 0%nat.
Proof.
  induction l as [|a l IH]; [by intros [= <-]|]. cbn [run_phase]. by destruct a; try (intros H E; apply IH).
Qed.

(** [cause] is a reason for which a session whose FIN frame is on its way may come to an end. *)
Section TaskCalls.
Context {BM : BytesMut} {BML : BytesMutLaws BM} (clock : nat -> Z * Z) (cause : Prop).
Implicit Types t : Task.

(** ** The wrapper *)

Lemma silent_calls (k k' : Kcp) op :
  wrapper_ok k -> silent_op op -> op_allowed op (handle k) -> handle k' = kcp_exec op (handle k) ->
  outputs k' = outputs k ++ kcp_packets op (handle k) -> calls [] k k'.
Proof. intros Hw. intros. apply calls_one; [done|]. by apply (call_silent op). Qed.

Lemma Kcp_update_calls (k : Kcp) now : wrapper_ok k -> calls [] k (Kcp_update k now).
Proof.
  intros Hw. destruct (after_output_spec k (ikcp_update (handle k) now)) as (_ & Ho & Hh); [apply Hw|].
  by apply (silent_calls _ _ (OpUpdate now)).
Qed.

Lemma Kcp_flush_calls (k : Kcp) : wrapper_ok k -> calls [] k (Kcp_flush k).
Proof.
  intros Hw. destruct (after_output_spec k (ikcp_flush (handle k))) as (_ & Ho & Hh); [apply Hw|].
  by apply (silent_calls _ _ OpFlush).
Qed.

Lemma Kcp_set_nodelay_calls (k : Kcp) nd iv resend nc :
  wrapper_ok k -> calls [] k (Kcp_set_nodelay k nd iv resend nc).
Proof.
  intros Hw. apply (silent_calls _ _ (OpNodelay (Z.b2z nd) (i32 iv) (i32 resend) (Z.b2z nc))); try done.
  cbn [kcp_packets]. by rewrite app_nil_r.
Qed.

Lemma Kcp_send_calls (k : Kcp) b (A : bytes -> act) :
  wrapper_ok k -> (forall b, write_act (A b) b k) ->
  Zlen b <= 255 * mss (handle k) -> Zlen b < 2147483648 ->
  fst (Kcp_send k b) = Ok 0 /\ calls (map A (solid b)) k (snd (Kcp_send k b)).
Proof.
  intros Hw HA Hb Hl. unfold Kcp_send. destruct b as [|x b]; [split; [done|apply calls_refl]|].
  set (f := x :: b) in *. pose proof (Zlen_nonneg f). rewrite i32_small by lia.
  pose proof Hw as ((Hinv & _) & _). pose proof Hinv as (Hs & _).
  pose proof (ikcp_send_accepts (handle k) f Hs Hl) as Ha. pose proof (send_room_nonneg (handle k)).
  destruct (Z.leb_spec (Zlen f) (send_room (handle k) + 255 * mss (handle k))); [|lia].
  destruct (ikcp_send (handle k) f (Zlen f)) as [r h] eqn:E. cbn [fst] in Ha. subst r.
  cbn [Z.geb Z.compare fst snd]. split; [done|].
  apply calls_one; [done|]. apply (call_write _ f); try done; by rewrite E.
Qed.

Lemma Kcp_recv_bytes_calls (k : Kcp) (A : bytes -> act) :
  wrapper_ok k -> (forall m, read_act (A m) m (handle k)) ->
  match Kcp_recv_bytes k with
  | (None, k') => k' = k
  | (Some m, k') => calls [A m] k k'
  end.
Proof.
  intros Hw HA. pose proof (fun Hr => Kcp_recv_bytes_spec k Hr (proj1 (proj2 Hw))) as Hs. cbv zeta in Hs.
  assert (match Kcp_recv_bytes k with
    | (None, k') => k' = k
    | (Some m, k') => (exists len, handle k' = snd (ikcp_recv (handle k) len)) /\
        output_queue k' = output_queue k end) as Hg.
  { clear Hs. unfold Kcp_recv_bytes. destruct (_ >? 0); [|done].
    set (k1 := if _ <? _ then _ else k).
    assert (handle k1 = handle k /\ output_queue k1 = output_queue k) as [H1 H2]
      by (unfold k1; by destruct (_ <? _)).
    clearbody k1. simp_upd. destruct (bm_split_to _ _) as [buf rest].
    unfold Kcp_recv, recv_result. simp_upd. rewrite H1.
    destruct (ikcp_recv (handle k) _) as [[n data] h] eqn:E. simp_upd.
    destruct (n >=? 0); [|destruct (_ || _); [|destruct (n =? -3)]];
      (split; [eexists; by rewrite E|done]). }
  destruct (Kcp_recv_bytes k) as [[m|] k']; [|done]. destruct Hg as [(len & Eh) Eo].
  apply calls_one; [done|]. apply (call_read _ m len); [done|done|unfold outputs; by rewrite Eo|].
  intros Hr. destruct (Hs Hr) as (_ & _ & H). destruct (head_incomplete (handle k)); cbn [orb] in H.
  - by destruct H.
  - destruct (_ =? 0); [by destruct H|]. destruct H as [[= ->] ->]. done.
Qed.

Lemma Kcp_input_calls (k : Kcp) p a :
  wrapper_ok k -> took_act a p (handle k) -> calls [a] k (snd (Kcp_input k p)).
Proof.
  intros Hw Ha. pose proof (Kcp_input_handle k p) as H. destruct (Kcp_input k p) as [r k'].
  destruct H as [-> _]. apply calls_one; [done|]. by apply (call_take _ p).
Qed.

(** ** The task

    [does t t' l]: on the way from [t] to [t'] the control block goes through [l]. *)
Definition does t t' (l : list act) : Prop := calls l (t_kcp t) (t_kcp t').

Lemma does_nothing t t' : t_kcp t' = t_kcp t -> does t t' [].
Proof. intros E. unfold does. rewrite E. apply calls_refl. Qed.

Lemma does_trans t1 t2 t3 l l' : does t1 t2 l -> does t2 t3 l' -> does t1 t3 (l ++ l').
Proof. apply calls_app. Qed.

Lemma does_quiet_l t1 t2 t3 l : does t1 t2 [] -> does t2 t3 l -> does t1 t3 l.
Proof. exact (does_trans _ _ _ [] l). Qed.

Lemma does_quiet_r t1 t2 t3 l : does t1 t2 l -> does t2 t3 [] -> does t1 t3 l.
Proof. intros H H'. pose proof (does_trans _ _ _ _ _ H H') as E. by rewrite app_nil_r in E. Qed.

Lemma does_mss t t' l : does t t' l -> mss (handle (t_kcp t')) = mss (handle (t_kcp t)).
Proof. apply calls_mss. Qed.

Lemma does_flush t : task_ok t -> does t (Task_kcp_flush clock t) [].
Proof.
  intros Ht. unfold Task_kcp_flush, system_time. destruct (has t FLUSH); [|by apply does_nothing].
  set (now := get_system_time _). unfold does. simp_upd.
  pose proof (tk_kcp t Ht) as Hw.
  exact (calls_app [] [] _ _ _ (Kcp_update_calls _ now Hw) (Kcp_flush_calls _ (Kcp_update_ok _ now Hw))).
Qed.

(** The smallest mtu still takes a handshake frame. *)
Lemma task_mss t : task_ok t -> 26 <= mss (handle (t_kcp t)).
Proof. intros Ht. destruct (tk_kcp t Ht) as ((_ & Hm & Hs & _) & _). lia. Qed.

(** The length of a handshake frame. *)
Definition greeting_len (c : KcpConfig) : Z := Zlen (session_key c) + session_id_len c.

Lemma does_handshake_send t t' (A : bytes -> act) :
  task_ok t -> (forall b, write_act (A b) b (t_kcp t)) -> handshake_send clock t = Some t' ->
  does t t' (map A (solid (session_key (t_config t) ++ t_session_id t))) /\
  Zlen (session_key (t_config t) ++ t_session_id t) <= greeting_len (t_config t) <= 6630.
Proof.
  intros Ht HA. unfold handshake_send. set (t1 := set_flag FLUSH t).
  change (t_config t1) with (t_config t). change (t_session_id t1) with (t_session_id t).
  pose proof (tk_config t Ht) as (Hm & Hi & Hl). pose proof (tk_session t Ht) as Hs.
  set (syn := _ ++ _).
  assert (Zlen syn <= greeting_len (t_config t) <= 6630) as Hsyn
    by (unfold syn, greeting_len; rewrite Zlen_app; lia).
  pose proof (task_ok_flag FLUSH t eq_refl Ht) as Ht1. pose proof (task_mss t Ht) as Hmss.
  change (t_kcp t) with (t_kcp t1) in Hmss. pose proof (tk_kcp t1 Ht1) as Hw.
  destruct (Kcp_send_calls (t_kcp t1) syn A Hw HA ltac:(lia) ltac:(lia)) as (Hr & Hc).
  destruct (Kcp_send_handshake (t_kcp t1) syn Hw ltac:(lia)) as (k' & E & Hw').
  rewrite E in *. cbn [fst snd] in *. intros [= <-]. split; [|done].
  apply (does_quiet_r _ (t1 <| t_kcp := k' |>)); [exact Hc|].
  unfold Task_kcp_flush, system_time. destruct (has _ FLUSH); [|by apply does_nothing].
  set (now := get_system_time _). unfold does. simp_upd.
  exact (calls_app [] [] _ _ _ (Kcp_update_calls _ now Hw') (Kcp_flush_calls _ (Kcp_update_ok _ now Hw'))).
Qed.

Lemma does_process_input frame t t' :
  task_ok t -> Zlen frame <= 255 * mss (handle (t_kcp t)) -> Zlen frame < 2147483648 ->
  process_input frame t = Some t' -> does t t' (map Wrote (solid frame)).
Proof.
  intros Ht Hf Hl. unfold process_input.
  destruct (Kcp_send_calls (t_kcp t) frame Wrote (tk_kcp t Ht) (fun b => or_introl eq_refl) Hf Hl)
    as (Hr & Hc).
  destruct (Kcp_send (t_kcp t) frame) as [r k]. cbn [fst snd] in *. subst r.
  intros [= <-]. unfold does. by destruct (_ || _).
Qed.

(** [ms] is handed over in the acts [l]; without a FIN mark nothing that is read is kept back, and
    with it no read is of the FIN frame. *)
Record hands_over t t' (l : list act) (ms : list bytes) : Prop := {
  ho_does : does t t' l;
  ho_kind : Forall got_act l;
  ho_reads : reads l = ms;
  ho_drops : has t FIN_RECVED = false -> drops l = [];
  ho_late : has t FIN_RECVED = true -> Forall late l
}.

Lemma hands_over_trans t1 t2 t3 l l' ms ms' :
  steady t1 t2 -> t_flags t2 = t_flags t1 -> hands_over t1 t2 l ms -> hands_over t2 t3 l' ms' ->
  hands_over t1 t3 (l ++ l') (ms ++ ms').
Proof.
  intros Hs Ef [A1 A2 A3 A4 A5] [B1 B2 B3 B4 B5]. split.
  - by eapply does_trans.
  - by apply Forall_app.
  - by rewrite reads_app, A3, B3.
  - intros Hf. rewrite drops_app, A4, B4; [done|unfold has in *; by rewrite Ef|done].
  - intros Hf. apply Forall_app. split; [by apply A5|]. apply B5. unfold has in *. by rewrite Ef.
Qed.

Lemma flags_recv t : t_flags (snd (Task_kcp_recv t)) = t_flags t.
Proof. unfold Task_kcp_recv. destruct (_ && _), (Kcp_recv_bytes _); by cbn [snd]. Qed.

Lemma does_recv t :
  task_ok t -> exists l, hands_over t (snd (Task_kcp_recv t)) l (opt_list (fst (Task_kcp_recv t))).
Proof.
  intros Ht. unfold Task_kcp_recv. destruct (has t FIN_RECVED && _ && _) eqn:E.
  - apply andb_true_iff in E as [E Eb]. apply andb_true_iff in E as [Ef Eq].
    assert (forall m, read_act (Dropped m) m (handle (t_kcp t))) as HA.
    { intros b. right; right. unfold Kcp_nrcv_que, Kcp_nrcv_buf in *. split; [done|lia]. }
    pose proof (Kcp_recv_bytes_calls (t_kcp t) Dropped (tk_kcp t Ht) HA) as H.
    destruct (Kcp_recv_bytes (t_kcp t)) as [[m|] k]; cbn [fst snd].
    + exists [Dropped m]. split; [exact H|by repeat constructor|done|by rewrite Ef|by repeat constructor].
    + exists []. subst k. split; [by apply does_nothing|done..].
  - destruct (has t FIN_RECVED) eqn:Ef.
    + assert (forall m, read_act (Later m) m (handle (t_kcp t))) as HA.
      { intros m. right; left. split; [done|]. unfold Kcp_nrcv_que, Kcp_nrcv_buf in *. cbn [andb] in E.
        apply andb_false_iff in E as [E|E]; [left|right]; lia. }
      pose proof (Kcp_recv_bytes_calls (t_kcp t) Later (tk_kcp t Ht) HA) as H.
      destruct (Kcp_recv_bytes (t_kcp t)) as [[m|] k]; cbn [fst snd].
      * exists [Later m]. split; [exact H|by repeat constructor|done|done|by repeat constructor].
      * exists []. subst k. split; [by apply does_nothing|done..].
    + pose proof (Kcp_recv_bytes_calls (t_kcp t) Read (tk_kcp t Ht) (fun b => or_introl eq_refl)) as H.
      destruct (Kcp_recv_bytes (t_kcp t)) as [[m|] k]; cbn [fst snd].
      * exists [Read m]. split; [exact H|by repeat constructor|done|done|congruence].
      * exists []. subst k. split; [by apply does_nothing|done..|congruence].
Qed.

(** Nothing read is nothing changed. *)
Lemma recv_none t :
  task_ok t -> has t FIN_RECVED = false -> fst (Task_kcp_recv t) = None -> snd (Task_kcp_recv t) = t.
Proof.
  intros Ht Hf.
  pose proof (Kcp_recv_bytes_calls (t_kcp t) Read (tk_kcp t Ht) (fun b => or_introl eq_refl)) as H.
  unfold Task_kcp_recv. rewrite Hf. cbn [andb].
  destruct (Kcp_recv_bytes (t_kcp t)) as [[m|] k]; [done|]. intros _. rewrite H. by destruct t.
Qed.

(** ** The phases of a session

    A session that is not over is in the phase its state says; from the first phase on its input
    is over, and it has a name once it has been greeted. *)
Definition named t : Prop :=
  0 < greeting_len (t_config t) /\ (t_hs t = Syn \/ session_key (t_config t) ++ t_session_id t <> []).

Definition in_phase (ph : nat) t : Prop :=
  ((1 <= ph)%nat -> has t INPUT_CLOSED = true) /\
  (t_hs t <> Disconnected -> phase_of (t_hs t) = ph /\ named t) /\
  (t_hs t = Disconnected -> ph = 1%nat -> cause).

Lemma in_phase_of ph t : in_phase ph t -> t_hs t <> Disconnected -> phase_of (t_hs t) = ph.
Proof. intros (_ & H & _) Hd. by destruct (H Hd). Qed.

Definition phased t t' (l : list act) : Prop :=
  forall ph, in_phase ph t -> exists ph', run_phase l ph = Some ph' /\ in_phase ph' t'.

Lemma phased_trans t1 t2 t3 l l' : phased t1 t2 l -> phased t2 t3 l' -> phased t1 t3 (l ++ l').
Proof.
  intros H H' ph Hp. destruct (H ph Hp) as (ph1 & E1 & H1). destruct (H' ph1 H1) as (ph2 & E2 & H2).
  exists ph2. by rewrite run_phase_app, E1.
Qed.

Lemma phased_steady t t' l : Forall inert l -> steady t t' -> phased t t' l.
Proof.
  intros Hl [F Eh Ei] ph [Hc Hp]. exists ph. split; [by apply run_phase_inert|]. split.
  - intros H. by apply (fw_closed _ _ F), Hc.
  - unfold named. rewrite Eh, Ei, (fw_config _ _ F). exact Hp.
Qed.

Lemma phased_over t t' l :
  Forall inert l -> forward t t' -> t_hs t' = Disconnected -> (t_hs t = FinSent -> cause) -> phased t t' l.
Proof.
  intros Hl F E HC ph Hp. exists ph. split; [by apply run_phase_inert|]. split; [|split; [done|]].
  - intros H. by apply (fw_closed _ _ F), Hp.
  - intros _ ->. destruct (decide (t_hs t = Disconnected)) as [Ed|Hd]; [by apply Hp|].
    apply HC. pose proof (in_phase_of _ _ Hp Hd) as H. by destruct (t_hs t).
Qed.

(** ** The FIN frame

    It is the session key and the identifier of the session; it is written once, by a session that
    was open, and when its input is over. *)
Definition fin_frame t : bytes := session_key (t_config t) ++ t_session_id t.

Lemma fin_frame_forward t t' : forward t t' -> t_hs t <> Syn -> fin_frame t' = fin_frame t.
Proof. intros F Hs. unfold fin_frame. by rewrite (fw_config _ _ F), (fw_session _ _ F). Qed.

Lemma open_not_syn t : (1 <= hs_rank (t_hs t))%nat -> t_hs t <> Syn.
Proof. intros H E. rewrite E in H. cbn in H. lia. Qed.

Record fin_step t t' (l : list act) : Prop := {
  fs_forward : forward t t';
  fs_syn : t_hs t = Syn -> t_hs t' = Syn \/ t_hs t' = Disconnected;
  fs_fin : wrotes l <> [] -> (1 <= hs_rank (t_hs t) <= 2)%nat /\ (3 <= hs_rank (t_hs t'))%nat /\
    has t' INPUT_CLOSED = true /\ Zlen (concat (wrotes l)) <= greeting_len (t_config t) <= 6630 /\
    concat (wrotes l) = fin_frame t;
  fs_own : wrotes l = fins l;
  fs_phase : phased t t' l
}.

Lemma fin_step_steady t t' l : Forall inert l -> steady t t' -> fin_step t t' l.
Proof.
  intros Hl Hs. pose proof (inert_acts l Hl) as [Ew Ef]. pose proof Hs as [F Eh _].
  split; [done|left; congruence|by rewrite Ew|by rewrite Ew|by apply phased_steady].
Qed.

Lemma fin_step_over t t' l :
  Forall inert l -> forward t t' -> t_hs t' = Disconnected -> (t_hs t = FinSent -> cause) -> fin_step t t' l.
Proof.
  intros Hl F E HC. pose proof (inert_acts l Hl) as [Ew Ef].
  split; [done|by right|by rewrite Ew|by rewrite Ew|by apply phased_over].
Qed.

Lemma fin_step_trans t1 t2 t3 l l' :
  fin_step t1 t2 l -> fin_step t2 t3 l' -> fin_step t1 t3 (l ++ l').
Proof.
  intros [F1 S1 W1 O1 P1] [F2 S2 W2 O2 P2].
  pose proof (fw_hs _ _ F1) as H1. pose proof (fw_hs _ _ F2) as H2. unfold hs_le in *. split.
  - by transitivity t2.
  - intros E. destruct (S1 E) as [E2|E2]; [by apply S2|]. right. rewrite E2 in H2.
    by destruct (t_hs t3); cbn in H2; try lia.
  - rewrite wrotes_app. destruct (wrotes l) as [|w ws]; cbn [app].
    + intros Hne. destruct (W2 Hne) as (A & B & C & D & E). rewrite (fw_config _ _ F1) in D.
      assert (1 <= hs_rank (t_hs t1))%nat as A1.
      { destruct (t_hs t1); cbn in *; try lia. destruct (S1 eq_refl) as [E1|E1]; rewrite E1 in A; cbn in A; lia. }
      rewrite (fin_frame_forward _ _ F1 (open_not_syn _ A1)) in E.
      split_and!; [done|lia|lia|done|apply D|apply D|exact E].
    + intros _. destruct (W1 ltac:(done)) as (A & B & C & D & E).
      destruct (wrotes l') as [|w' ws']; [|destruct (W2 ltac:(done)); lia]. rewrite app_nil_r.
      split_and!; [lia|lia|lia|by apply (fw_closed _ _ F2)|apply D|apply D|exact E].
  - by rewrite wrotes_app, fins_app, O1, O2.
  - by eapply phased_trans.
Qed.

(** Nothing is in the output queue when the FIN frame may be written. *)
Definition ready t : Prop := (hs_rank (t_hs t) <= 2)%nat -> outputs (t_kcp t) = [].

Lemma kcp_set_handshake hs t : t_kcp (set_handshake hs t) = t_kcp t.
Proof. unfold set_handshake. by destruct (decide _). Qed.

Definition fin_to (r : option Handshake) t : Task :=
  match r with Some hs => set_handshake hs t | None => t end.

(** A step of [fin_next] to [hs], which goes through [l]. *)
Lemma phased_to t t' hs l ph :
  steady t t' -> phase_of (t_hs t) = ph -> t_hs t <> Disconnected -> t_hs t <> Syn -> hs <> Disconnected ->
  run_phase l ph = Some (phase_of hs) -> ((1 <= phase_of hs)%nat -> has t' INPUT_CLOSED = true) ->
  phased t (set_handshake hs t') l.
Proof.
  intros [F Eh Ei] Eph Hnd Hns Hhs El Hc ph0 (_ & Hp & _). destruct (Hp Hnd) as [<- Hn]. rewrite Eph.
  exists (phase_of hs). split; [done|].
  assert (t_config (set_handshake hs t') = t_config t /\ t_session_id (set_handshake hs t') = t_session_id t /\
    has (set_handshake hs t') INPUT_CLOSED = has t' INPUT_CLOSED) as (E1 & E2 & E3).
  { unfold set_handshake. rewrite <- (fw_config _ _ F), <- Ei. by destruct (decide _). }
  split; [by rewrite E3|]. rewrite t_hs_set_handshake. split; [|done]. intros _. split; [done|].
  unfold named in *. rewrite E1, E2. destruct Hn as [Hl [|Hn]]; [done|auto].
Qed.

Lemma fin_next_ready t r t' : ready t -> fin_next clock t = Some (r, t') -> ready (fin_to r t').
Proof.
  unfold ready, fin_next, system_time. intros Hr. destruct (t_hs t) eqn:Eh; cbn [hs_rank] in Hr;
    repeat (destruct (_ || _)); try (destruct (handshake_send clock t); [|done]);
    try (destruct (_ >? 0)); intros [= <- <-]; cbn [fin_to]; rewrite ?t_hs_set_handshake, ?kcp_set_handshake;
    simp_upd; rewrite ?Eh; cbn [hs_rank]; auto; lia.
Qed.

Lemma fin_next_does t r t' :
  task_ok t -> ready t -> fin_next clock t = Some (r, t') ->
  exists l, does t t' l /\ Forall fin_act l /\ fin_step t (fin_to r t') l.
Proof.
  intros Ht Hrdy E. destruct (fin_next_forward clock t r t' E) as [Hst Hr]. pose proof Hst as [Hf Hh Hid].
  assert (forward t (fin_to r t')) as Hfw.
  { destruct r as [hs|]; [|done]. transitivity t'; [done|]. apply forward_set_handshake.
    unfold hs_le. specialize (Hr hs eq_refl). rewrite Hh. lia. }
  assert (t_kcp t' = t_kcp t -> r = None ->
    exists l, does t t' l /\ Forall fin_act l /\ fin_step t (fin_to r t') l) as Hnone.
  { intros Ek ->. exists []. split; [by apply does_nothing|]. split; [done|]. by apply fin_step_steady. }
  assert (t_kcp t' = t_kcp t -> r = Some Disconnected -> t_hs t <> FinSent ->
    exists l, does t t' l /\ Forall fin_act l /\ fin_step t (fin_to r t') l) as Hover.
  { intros Ek -> Hn. exists []. split; [by apply does_nothing|]. split; [done|].
    by apply fin_step_over; [done|done|apply t_hs_set_handshake|]. }
  assert (forall hs l, r = Some hs -> wrotes l = [] -> t_hs t <> Syn -> phased t (fin_to r t') l ->
    Forall fin_act l -> fin_step t (fin_to r t') l) as Hmove.
  { intros hs l _ Ew Hs Hp Hl. destruct (fin_acts l Hl) as [Eo _].
    split; [done|done|by rewrite Ew|done|done]. }
  revert E Hover Hnone Hmove Hfw. unfold ready in Hrdy. unfold fin_next, system_time.
  destruct (t_hs t) eqn:Eh.
  - intros [= <- <-] Hover _ _ _. by apply Hover.
  - intros [= <- <-] _ _ Hmove Hfw. exists []. split; [by apply does_nothing|]. split; [done|].
    apply (Hmove FinPending); [done..| |done]. apply (phased_to _ _ _ _ 0%nat); rewrite ?Eh; try done.
    cbn. lia.
  - destruct (_ || _) eqn:Eg; [intros [= <- <-] _ Hnone _ _; by apply Hnone|].
    apply orb_false_iff in Eg as [Eg Ew]. apply negb_false_iff in Eg.
    destruct (handshake_send clock t) as [t1|] eqn:E1; [|done]. intros [= <- <-] _ _ _ Hfw.
    assert (ikcp_waitsnd (handle (t_kcp t)) = 0) as Hz.
    { unfold Kcp_get_waitsnd, ikcp_waitsnd in *. revert Ew. words. }
    destruct (does_handshake_send t t1 Fin Ht (fun b => or_intror (conj eq_refl (conj Hz (Hrdy ltac:(cbn; lia))))) E1) as [Hd Hl].
    eexists. split; [exact Hd|]. set (syn := _ ++ _) in *.
    assert (has t1 INPUT_CLOSED = true) as Hc1 by by apply (fw_closed _ _ Hf).
    assert (wrotes (map Fin (solid syn)) = solid syn /\ fins (map Fin (solid syn)) = solid syn) as [E2 E3]
      by by destruct syn.
    split; [by destruct syn; repeat constructor|].
    split; [done|by rewrite Eh| |by rewrite E2, E3|].
    + intros _. cbn [fin_to]. rewrite E2, Eh, t_hs_set_handshake, concat_solid.
      split_and!; [cbn; lia|cbn; lia|cbn; lia| |apply Hl|apply Hl|done].
      unfold set_handshake. by destruct (decide _).
    + intros ph Hp. pose proof Hp as (_ & Hp2 & _). destruct (Hp2 ltac:(congruence)) as [Eph [_ [Hn|Hn]]];
        [congruence|]. rewrite Eh in Eph. cbn in Eph. subst ph. fold syn in Hn.
      revert Hp. apply (phased_to t t1 FinSent _ 0%nat); rewrite ?Eh; try done. by destruct syn.
  - destruct (_ >? 0) eqn:Ew; [intros [= <- <-] _ Hnone _ _; by apply Hnone|].
    intros [= <- <-] _ _ Hmove Hfw. exists [Settled].
    assert (ikcp_waitsnd (handle (t_kcp t)) = 0) as Hz.
    { unfold Kcp_get_waitsnd, ikcp_waitsnd in *. revert Ew. words. }
    split; [apply calls_one; [by apply tk_kcp|by apply call_settled]|].
    split; [by repeat constructor|].
    apply (Hmove FinWaitPeer); [done..| |by repeat constructor].
    intros ph Hp. pose proof Hp as (Hc & Hp2 & _). destruct (Hp2 ltac:(congruence)) as [Eph _].
    rewrite Eh in Eph. cbn in Eph. subst ph.
    apply (phased_to t t FinWaitPeer [Settled] 1%nat); rewrite ?Eh; try done. intros _. by apply Hc.
  - destruct (_ || _); intros [= <- <-] Hover Hnone _ _; [by apply Hnone|by apply Hover].
  - intros [= <- <-] _ Hnone _ _. by apply Hnone.
Qed.

Lemma fin_loop_does fuel t t' :
  task_ok t -> ready t -> fin_loop clock fuel t = Some t' ->
  exists l, does t t' l /\ Forall fin_act l /\ fin_step t t' l /\ ready t'.
Proof.
  revert t. induction fuel as [|fuel IH]; intros t Ht Hrdy; [done|]. rewrite fin_loop_step.
  destruct (fin_next_ok clock t Ht) as (r & t1 & E & H1). rewrite E.
  destruct (fin_next_does t r t1 Ht Hrdy E) as (l & Hd & Hl & Hs).
  pose proof (fin_next_ready t r t1 Hrdy E) as Hrdy1.
  destruct (fin_next_forward clock t r t1 E) as [[Hf Hh Hid] Hr].
  destruct r as [hs|]; cbn [fin_to] in *; [|intros [= <-]; by exists l].
  specialize (Hr hs eq_refl). intros El.
  assert (task_ok (set_handshake hs t1)) as H2.
  { apply task_ok_set_handshake; [|done]. unfold hs_le. rewrite Hh. lia. }
  destruct (IH _ H2 Hrdy1 El) as (l' & Hd' & Hl' & Hs' & Hrdy'). exists (l ++ l').
  split; [|split; [by apply Forall_app|split; [by eapply fin_step_trans|done]]].
  apply (does_trans t (set_handshake hs t1) t' l l'); [|done].
  apply (does_quiet_r _ t1); [done|]. apply does_nothing. unfold set_handshake. by destruct (decide _).
Qed.

Lemma fin_transit_does t t' :
  task_ok t -> ready t -> fin_transit_state clock t = Some t' ->
  exists l, does t t' l /\ Forall fin_act l /\ fin_step t t' l /\ ready t'.
Proof. apply fin_loop_does. Qed.

(** ** Packets *)

Lemma does_input (k : Kcp) t t' p a :
  task_ok t -> k = snd (Kcp_input (t_kcp t) p) -> t_kcp t' = k -> took_act a p (handle (t_kcp t)) ->
  does t t' [a].
Proof. intros Ht -> E Ha. unfold does. rewrite E. by apply Kcp_input_calls; [apply tk_kcp|]. Qed.

(** A packet is refused for its content only when it has the number of the session. *)
Lemma invalid_is_ours (k k' : Kcp) p :
  Kcp_input k p = (Err InvalidData, k') ->
  24 <= Zlen p /\ h_conv (snd (ikcp_decode_header p)) = conv (handle k).
Proof.
  unfold Kcp_input. destruct (ikcp_input (handle k) p) as [r h] eqn:E. intros Er.
  assert (r <> -1) as Hr by (by intros ->). revert E. unfold ikcp_input.
  destruct (Z.ltb_spec (i32 (Zlen p)) IKCP_OVERHEAD) as [|Hl]; [congruence|].
  assert (24 <= Zlen p) as Hlen.
  { revert Hl. unfold IKCP_OVERHEAD. pose proof (Zlen_nonneg p). words. }
  clear Hl. intros E. split; [done|]. revert E. destruct p as [|b p]; [done|]. cbn [length ikcp_input_loop].
  destruct (Z.ltb_spec (Zlen (b :: p)) IKCP_OVERHEAD) as [Hs|_]; [unfold IKCP_OVERHEAD in Hs; lia|].
  destruct (ikcp_decode_header (b :: p)) as [rest hd]. cbn [snd].
  destruct (Z.eqb_spec (h_conv hd) (conv (handle k))); [done|]. cbn [negb]. congruence.
Qed.

(** The mark is only on the command. *)
Lemma unmarked_conv q cmd p :
  24 <= Zlen q -> write_cmd q cmd = Ok p ->
  h_conv (snd (ikcp_decode_header p)) = h_conv (snd (ikcp_decode_header q)).
Proof.
  intros Hl. rewrite write_cmd_insert by done. intros [= <-].
  destruct (decode_header_cmd q (byte_of_Z cmd) Hl) as (-> & _). done.
Qed.

Lemma syn_input_does packet t ok t' :
  task_ok t -> syn_handshake_input packet t = Some (ok, t') ->
  exists l, does t t' l /\ (l = [] \/ l = [Took packet]).
Proof.
  intros Ht. unfold syn_handshake_input. destruct (read_conv packet) as [c|]; [|intros [= <- <-]].
  2: { exists []. split; [by apply does_nothing|by left]. }
  pose proof (Kcp_input_handle (Kcp_set_conv (t_kcp t) c) packet) as Hin.
  destruct (input_switched (handle (t_kcp t)) c packet (proj1 (tk_kcp t Ht))) as (Ec & _).
  destruct (Kcp_input (Kcp_set_conv (t_kcp t) c) packet) as [r k]. destruct Hin as [Ek Hp].
  assert (forall k' c', handle k' = (snd (ikcp_input ((handle (t_kcp t)) <| conv := c |>) packet))
      <| conv := c' |> -> outputs k' = outputs (t_kcp t) ->
    exists l, does t (t <| t_kcp := k' |>) l /\ (l = [] \/ l = [Took packet])) as Hk.
  { intros k' c' Eh Eo. exists [Took packet]. split; [|by right].
    apply calls_one; [by apply tk_kcp|]. by apply (call_take_as packet c c'). }
  assert (forall c', handle (Kcp_set_conv k c') = (snd (ikcp_input ((handle (t_kcp t)) <| conv := c |>) packet))
      <| conv := c' |>) as Hset by (intros c'; by rewrite Ek).
  assert (handle k = (snd (ikcp_input ((handle (t_kcp t)) <| conv := c |>) packet)) <| conv := c |>) as Hid.
  { rewrite Ek. change (handle (Kcp_set_conv (t_kcp t) c)) with ((handle (t_kcp t)) <| conv := c |>).
    revert Ec. generalize (snd (ikcp_input ((handle (t_kcp t)) <| conv := c |>) packet)).
    intros h <-. by destruct h. }
  assert (outputs k = outputs (t_kcp t)) as Eo by (by rewrite Ek). clear Ek Ec.
  assert (forall r' : io_result unit, exists l, does t (t <| t_kcp := if is_err r' || (Kcp_get_waitsnd k >? 0)
    then Kcp_set_conv k SYN_CONV else k |>) l /\ (l = [] \/ l = [Took packet])) as Hif.
  { intros r'. destruct (_ || _); [by apply (Hk _ SYN_CONV)|by apply (Hk _ c)]. }
  assert (exists l, does t t l /\ (l = [] \/ l = [Took packet])) as Hnone
    by (exists []; split; [by apply does_nothing|by left]).
  destruct (is_client t).
  - destruct (_ && _); [|by intros [= <- <-]].
    destruct r as [u|e|]; [..|done]; intros [= <- <-]; [exact (Hif (Ok u))|exact (Hif (Err e))].
  - destruct (c =? SYN_CONV); [|by intros [= <- <-]].
    destruct r as [u|e|]; [..|done]; intros [= <- <-]; by eapply Hk.
Qed.

Lemma syn_input_kept packet t ok t' :
  syn_handshake_input packet t = Some (ok, t') -> t_hs t' = t_hs t /\ outputs (t_kcp t') = outputs (t_kcp t).
Proof.
  unfold syn_handshake_input. destruct (read_conv packet) as [c|]; [|by intros [= <- <-]].
  pose proof (Kcp_input_handle (Kcp_set_conv (t_kcp t) c) packet) as Hin.
  destruct (Kcp_input _ packet) as [r k]. destruct Hin as [-> _].
  destruct (is_client t).
  - destruct (_ && _); [|by intros [= <- <-]].
    destruct r as [[]|e|]; [..|done]; cbn [is_err]; try destruct (_ || _); by intros [= <- <-].
  - destruct (_ =? _); [|by intros [= <- <-]]. by destruct r as [[]|e|]; [..|done]; intros [= <- <-].
Qed.

Lemma flags_syn_input packet t ok t' : syn_handshake_input packet t = Some (ok, t') -> t_flags t' = t_flags t.
Proof.
  unfold syn_handshake_input. destruct (read_conv packet) as [c|]; [|by intros [= <- <-]].
  destruct (is_client t).
  - destruct (_ && _); [|by intros [= <- <-]].
    by destruct (Kcp_input _ packet) as [[[]|e|] k]; [..|done]; intros [= <- <-].
  - destruct (_ =? _); [|by intros [= <- <-]].
    by destruct (Kcp_input _ packet) as [[[]|e|] k]; [..|done]; intros [= <- <-].
Qed.

Lemma has_set_FIN t : has (set_flag FIN_RECVED t) FIN_RECVED = true.
Proof. rewrite has_FIN. unfold set_flag. simp_upd. rewrite Z.lor_spec. apply orb_true_r. Qed.

Lemma no_fin_back t t' : forward t t' -> has t' FIN_RECVED = false -> has t FIN_RECVED = false.
Proof. intros Hf. pose proof (fw_fin _ _ Hf). destruct (has t FIN_RECVED); [by rewrite H|done]. Qed.

(** A packet with the FIN mark, and the packet [p] without it. *)
Definition unmarks (q p : bytes) : Prop :=
  exists cmd, read_cmd q = Ok cmd /\ Z.land cmd KCP_FIN <> 0 /\ write_cmd q (Z.lxor cmd KCP_FIN) = Ok p.
Definition reset_marked (q : bytes) : Prop := exists cmd, read_cmd q = Ok cmd /\ Z.land cmd KCP_RESET <> 0.
Definition fin_marked (q : bytes) : Prop := exists cmd, read_cmd q = Ok cmd /\ Z.land cmd KCP_FIN <> 0.

(** Of the packets [qs] a session that has a FIN mark gets some without theirs as well. *)
Definition took_from t (qs : list bytes) (p : bytes) : Prop :=
  p ∈ qs \/ has t FIN_RECVED = true /\ exists q, q ∈ qs /\ unmarks q p.

(** The first packet with the mark is given to [input] without it, before anything is dropped. *)
Definition mark_heard (qs : list bytes) (l : list act) : Prop :=
  exists q p l1 l2, q ∈ qs /\ unmarks q p /\ l = l1 ++ Heard p :: l2 /\ drops l1 = [].

Lemma unmarks_marked q p : unmarks q p -> fin_marked q.
Proof. intros (cmd & Er & Hm & _). by exists cmd. Qed.

Lemma mark_heard_app qs qs' l l' l'' :
  (forall q, q ∈ qs -> q ∈ qs') -> drops l = [] -> mark_heard qs l' -> mark_heard qs' (l ++ l' ++ l'').
Proof.
  intros Hq Hd (q & p & l1 & l2 & Hin & Hu & -> & Hd1). exists q, p, (l ++ l1), (l2 ++ l'').
  split; [auto|]. split; [done|]. split; [by rewrite <- !app_assoc|]. by rewrite drops_app, Hd, Hd1.
Qed.

(** What a run of packets does to a session. *)
Record takes_in t t' (qs : list bytes) (l : list act) : Prop := {
  ti_does : does t t' l;
  ti_step : fin_step t t' l;
  ti_reads : reads l = [] /\ drops l = [];
  ti_tooks : Forall (took_from t' qs) (tooks l);
  ti_marked : has t FIN_RECVED = false -> has t' FIN_RECVED = true ->
    t_hs t' <> Syn /\ mark_heard qs l;
  ti_ready : ready t'
}.

Lemma hs_syn_rank hs : (hs_rank hs <= 0)%nat -> hs = Syn.
Proof. by destruct hs; cbn; try lia. Qed.

Lemma hs_over_rank hs : (5 <= hs_rank hs)%nat -> hs = Disconnected.
Proof. by destruct hs; cbn; try lia. Qed.

Lemma hs_not_syn t t' : forward t t' -> t_hs t <> Syn -> t_hs t' <> Syn.
Proof.
  intros [H _ _ _ _ _] Hs E. apply Hs, hs_syn_rank. unfold hs_le in H. by rewrite E in H.
Qed.

Lemma over_forward t t' : forward t t' -> t_hs t = Disconnected -> t_hs t' = Disconnected.
Proof. intros [H _ _ _ _ _] E. apply hs_over_rank. unfold hs_le in H. by rewrite E in H. Qed.

Lemma fin_transit_leaves t t' : fin_transit_state clock t = Some t' -> t_hs t' <> Syn.
Proof.
  intros E. destruct (decide (t_hs t = Syn)) as [Hs|Hs].
  - revert E. unfold fin_transit_state. rewrite fin_loop_step.
    replace (fin_next clock t) with (Some (Some Disconnected, t)) by (unfold fin_next; by rewrite Hs).
    intros [F _]%fin_loop_forward. apply fw_hs in F. unfold hs_le in F.
    rewrite t_hs_set_handshake in F. intros E. rewrite E in F. cbn in F. lia.
  - apply fin_transit_forward in E as [F _]. by apply (hs_not_syn t).
Qed.

Lemma took_from_le t t' qs qs' p :
  forward t t' -> (forall q, q ∈ qs -> q ∈ qs') -> took_from t qs p -> took_from t' qs' p.
Proof.
  intros F Hq [H|(Hf & q & Hin & Hu)]; [left; auto|right].
  split; [by apply (fw_fin _ _ F)|]. exists q. auto.
Qed.

Lemma takes_in_trans t1 t2 t3 qs qs' l l' :
  takes_in t1 t2 qs l -> takes_in t2 t3 qs' l' -> takes_in t1 t3 (qs ++ qs') (l ++ l').
Proof.
  intros [D F [R1 R2] T M _] [D' F' [R1' R2'] T' M' Hr]. split; [| | | | |done].
  - by eapply does_trans.
  - by eapply fin_step_trans.
  - by rewrite reads_app, drops_app, R1, R2, R1', R2'.
  - rewrite tooks_app. apply Forall_app. split; (eapply Forall_impl; [eassumption|]); intros p.
    + apply took_from_le; [apply F'|set_solver].
    + apply took_from_le; [done|set_solver].
  - intros H1 H3. destruct (has t2 FIN_RECVED) eqn:H2.
    + destruct (M H1 eq_refl) as [Hs Hm]. split; [by apply (hs_not_syn t2); [apply F'|]|].
      apply (mark_heard_app qs _ []); [set_solver|done|done].
    + destruct (M' eq_refl H3) as [Hs Hm]. split; [done|]. rewrite <- (app_nil_r l').
      by apply (mark_heard_app qs'); [set_solver|..].
Qed.

(** A packet given to [input] as it is. *)
Lemma takes_in_one t t' packet :
  does t t' [Took packet] -> fin_step t t' [Took packet] ->
  (has t FIN_RECVED = false -> has t' FIN_RECVED = false) -> ready t' ->
  takes_in t t' [packet] [Took packet].
Proof.
  intros D F M R. split; [done|done|done|repeat constructor; by left| |done].
  intros H1 H2. specialize (M H1). congruence.
Qed.

(** A packet with the FIN mark, once the mark is seen. *)
Lemma fin_packet_takes packet k t t1 t' cmd :
  task_ok t -> ready t -> Kcp_input (t_kcp t) packet = (Err InvalidData, k) -> t1 = t <| t_kcp := k |> ->
  read_cmd packet = Ok cmd -> Z.land cmd KCP_FIN <> 0 -> task_ok t1 ->
  (let t2 := if negb (has t1 FIN_RECVED)
     then (set_flag FIN_RECVED t1) <| t_input_open := false |> else t1 in
   match fin_transit_state clock t2, write_cmd packet (Z.lxor cmd KCP_FIN) with
   | Some t, Ok packet =>
       match Kcp_input (t_kcp t) packet with
       | (Panic, _) => None
       | (_, k) => Some (t <| t_kcp := k |>)
       end
   | _, _ => None
   end) = Some t' -> exists l, takes_in t t' [packet] l.
Proof.
  intros Ht Hrdy Ei Et1 Hcmd Hm Ht1. cbv zeta. set (t2 := if negb _ then _ else _).
  destruct (invalid_is_ours _ _ _ Ei) as [Hlen Hours].
  pose proof (Kcp_input_handle (t_kcp t) packet) as Eh. rewrite Ei in Eh. destruct Eh as [Eh _].
  assert (k = snd (Kcp_input (t_kcp t) packet)) as Ek by (by rewrite Ei).
  assert (task_ok t2 /\ steady t t2 /\ t_kcp t2 = k /\ has t2 FIN_RECVED = true)
    as (Ht2 & F1 & Ek2 & Hfin).
  { assert (steady t t1) as Fs by (subst t1; by apply steady_same).
    unfold t2. destruct (has t1 FIN_RECVED) eqn:Eg; cbn [negb]; [by subst t1|].
    split; [apply (task_ok_forward (set_flag FIN_RECVED t1));
      [by apply task_ok_flag|apply forward_close_input|done|done]|].
    split; [|split; [by subst t1|apply has_set_FIN]].
    transitivity (set_flag FIN_RECVED t1); [|split; [apply forward_close_input|done|done]].
    transitivity t1; [done|by apply steady_flag]. }
  assert (ready t2) as Hrdy2.
  { intros Hr. rewrite Ek2, Eh. apply Hrdy. by rewrite <- (sd_hs _ _ F1). }
  destruct (fin_transit_ok clock t2 Ht2) as (t3 & E3 & Ht3). rewrite E3.
  destruct (fin_transit_does t2 t3 Ht2 Hrdy2 E3) as (l & D & Hl & S & Hrdy3).
  destruct (write_cmd packet _) as [p2|e|] eqn:E4; [|done..]. intros E5.
  pose proof (fin_acts l Hl) as (_ & L2 & L3 & L4).
  pose proof (fw_fin _ _ (fs_forward _ _ _ S) Hfin) as Hf3.
  assert (exists k', k' = snd (Kcp_input (t_kcp t3) p2) /\ t' = t3 <| t_kcp := k' |>) as (k' & E6 & ->).
  { destruct (Kcp_input (t_kcp t3) p2) as [[u|e|] k']; [..|done]; injection E5 as <-; by exists k'. }
  assert (steady t3 (t3 <| t_kcp := k' |>)) as F3 by by apply steady_same.
  assert (took_act (Heard p2) p2 (handle (t_kcp t3))) as Hheard.
  { right. split; [done|]. rewrite (unmarked_conv packet _ p2 Hlen E4), Hours.
    rewrite (calls_conv _ _ _ D L4), Ek2, Eh. simp_upd.
    symmetry. apply (snd_keep_input (handle (t_kcp t)) packet). }
  exists ([Took packet] ++ l ++ [Heard p2]). split.
  - apply (does_trans t t2); [by apply (does_input k t t2 packet); [..|left]|].
    apply (does_trans t2 t3); [done|by apply (does_input k' _ _ p2)].
  - apply (fin_step_trans t t2); [by apply fin_step_steady; [repeat constructor|]|].
    apply (fin_step_trans t2 t3); [done|by apply fin_step_steady; [repeat constructor|]].
  - by rewrite !reads_app, !drops_app, L2, L3.
  - rewrite !tooks_app, L4. constructor; [left; by left|]. constructor; [|done]. right.
    split; [done|]. exists packet. split; [by left|]. by exists cmd.
  - intros _ _. split; [exact (fin_transit_leaves t2 t3 E3)|].
    exists packet, p2, ([Took packet] ++ l), []. split; [by left|]. split; [by exists cmd|].
    split; [by rewrite <- app_assoc|]. by rewrite drops_app, L3.
  - intros Hr. rewrite <- (Hrdy3 Hr). subst k'. simp_upd.
    pose proof (Kcp_input_handle (t_kcp t3) p2) as H6. destruct (Kcp_input (t_kcp t3) p2) as [r6 k6].
    destruct H6 as [-> _]. done.
Qed.

Lemma Task_kcp_input_takes packet t t' :
  task_ok t -> ready t -> (reset_marked packet -> cause) -> Task_kcp_input clock packet t = Some t' ->
  exists l, takes_in t t' [packet] l.
Proof.
  intros Ht Hrdy Hcause. unfold Task_kcp_input.
  destruct (Kcp_input_ok (t_kcp t) packet (tk_kcp t Ht)) as [Hw Hl].
  pose proof (Kcp_input_handle (t_kcp t) packet) as Hp.
  pose proof (Kcp_input_errors (t_kcp t) packet) as He.
  assert (forall t1 k, k = snd (Kcp_input (t_kcp t) packet) -> t_kcp t1 = k ->
    does t t1 [Took packet]) as Hd by (intros t1 k E1 E2; apply (does_input k t t1 packet); [done..|by left]).
  assert (forall k t1, Kcp_input (t_kcp t) packet = (Err InvalidData, k) -> t1 = t <| t_kcp := k |> ->
    forall cmd, read_cmd packet = Ok cmd -> Z.land cmd KCP_FIN <> 0 -> task_ok t1 -> _) as Hfin
    by (intros k t1 E1 E2 cmd Ec Hm H1; exact (fin_packet_takes packet k t t1 t' cmd Ht Hrdy E1 E2 Ec Hm H1)).
  assert (forall t1, t_flags t1 = t_flags t -> has t FIN_RECVED = false -> has t1 FIN_RECVED = false)
    as Hno by (intros t1 Ef H1; unfold has in *; congruence).
  destruct (Kcp_input (t_kcp t) packet) as [r k]. cbn [fst snd] in *.
  destruct Hp as [Ek Hp]. pose proof (task_ok_kcp t k Ht Hw Hl) as Ht1.
  assert (forall t1, t_kcp t1 = k -> t_hs t1 = t_hs t -> ready t1) as Hr1.
  { intros t1 E1 E2. unfold ready. rewrite E1, E2, Ek. exact Hrdy. }
  assert (steady t (t <| t_kcp := k |>)) as Hs1 by (by apply steady_same).
  destruct r as [u|e|]; [|destruct (He e eq_refl) as [-> | ->]|done].
  - intros [= <-]. exists [Took packet]. apply takes_in_one; [by apply (Hd _ k)| | |by apply Hr1].
    + apply fin_step_steady; [by repeat constructor|]. etransitivity; [exact Hs1|by apply steady_flag].
    + rewrite !has_FIN. intros H1.
      change (Z.testbit (Z.lor (t_flags t) FLUSH) 2 = false). by rewrite Z.lor_spec, H1.
  - destruct (syn_handshake_input packet _) as [[ok t2]|] eqn:E; [|done]. cbn [option_map snd].
    intros [= <-]. destruct (syn_input_does packet _ ok t2 Ht1 E) as (l & D & P).
    pose proof (forward_syn_input _ _ _ _ E) as F. pose proof (flags_syn_input _ _ _ _ E) as Ef.
    exists ([Took packet] ++ l). split.
    + by apply (does_trans t (t <| t_kcp := k |>)); [by apply (Hd _ k)|].
    + apply fin_step_steady; [by destruct P as [-> | ->]; repeat constructor|].
      by transitivity (t <| t_kcp := k |>).
    + by destruct P as [-> | ->].
    + destruct P as [-> | ->]; repeat constructor; by left.
    + intros H1 H2. assert (has t2 FIN_RECVED = false) by by apply Hno. congruence.
    + destruct (syn_input_kept _ _ _ _ E) as [E1 E2]. unfold ready. rewrite E1, E2. by apply Hr1.
  - destruct (read_cmd packet) as [cmd|e|] eqn:Ec; [|done..].
    destruct (Z.eqb_spec (Z.land cmd KCP_RESET) 0) as [_|Hreset]; cbn [negb]; cycle 1.
    { intros [= <-]. exists [Took packet]. apply takes_in_one.
      - apply (Hd _ k); [done|]. unfold set_handshake. by destruct (decide _).
      - apply fin_step_over; [by repeat constructor| |apply t_hs_set_handshake|]; cycle 1.
        { intros _. apply Hcause. by exists cmd. }
        transitivity (t <| t_kcp := k |>); [apply Hs1|].
        apply forward_set_handshake, hs_le_Disconnected.
      - apply Hno. unfold set_handshake. by destruct (decide _).
      - unfold ready. rewrite t_hs_set_handshake. cbn. lia. }
    destruct (Z.eqb_spec (Z.land cmd KCP_FIN) 0) as [|Hm]; cbn [negb].
    { intros [= <-]. exists [Took packet]. apply takes_in_one; [by apply (Hd _ k)| |by apply Hno|by apply Hr1].
      by apply fin_step_steady; [repeat constructor|]. }
    exact (Hfin k _ eq_refl eq_refl cmd eq_refl Hm Ht1).
Qed.

Lemma input_packets_takes qs t t' :
  task_ok t -> ready t -> (forall q, q ∈ qs -> reset_marked q -> cause) ->
  input_packets clock qs t = Some t' -> exists l, takes_in t t' qs l.
Proof.
  revert t. induction qs as [|q qs IH]; intros t Ht Hrdy Hcause; cbn [input_packets].
  - intros [= <-]. exists []. split; [by apply does_nothing|by apply fin_step_steady|done|constructor| |done].
    intros H1 H2. congruence.
  - destruct (Task_kcp_input_ok clock q t Ht) as (t1 & E & H1). rewrite E. intros El.
    destruct (Task_kcp_input_takes q t t1 Ht Hrdy (Hcause q ltac:(by left)) E) as (l & Hl).
    destruct (IH t1 H1 (ti_ready _ _ _ _ Hl)) as (l' & Hl'); [|done|].
    { intros q' Hq'. apply Hcause. by right. }
    exists (l ++ l'). by apply (takes_in_trans t t1 t' [q] qs).
Qed.

(** ** The handshake *)

Lemma does_nodelay t : task_ok t -> does t (kcp_apply_nodelay t) [].
Proof.
  intros Ht. unfold does, kcp_apply_nodelay. simp_upd. by apply Kcp_set_nodelay_calls, tk_kcp.
Qed.

Lemma does_set_handshake hs t t' l : does t t' l -> does t (set_handshake hs t') l.
Proof. unfold does. by rewrite kcp_set_handshake. Qed.

Lemma phased_greeted t t' l :
  t_hs t = Syn -> t_hs t' = Connected -> run_phase l 0 = Some 0%nat -> t_config t' = t_config t ->
  Zlen (t_session_id t') = session_id_len (t_config t) -> phased t t' l.
Proof.
  intros Hs Hc El Ec Ei ph (_ & Hp & _). destruct (Hp ltac:(congruence)) as [<- [Hl _]]. rewrite Hs.
  exists 0%nat. split; [exact El|]. split; [intros F; lia|]. rewrite Hc. split; [|done]. intros _. split; [done|].
  split; rewrite Ec; [done|]. right. intros F. apply (f_equal Zlen) in F.
  rewrite Zlen_app, Ei in F. unfold greeting_len in Hl. change (Zlen []) with 0 in F. lia.
Qed.

(** How the greeting of the peer is answered. *)
Record syn_step (tx_ok : bool) t (ok : bool) t' (l : list act) : Prop := {
  ss_does : does t t' l;
  ss_tooks : tooks l = [] /\ fins l = [];
  ss_drops : has t FIN_RECVED = false -> drops l = [];
  ss_late : has t FIN_RECVED = true -> Forall late l;
  ss_phase : phased t t' l;
  ss_wrote : t_hs t' = Connected /\ is_client t = false /\
      Zlen (concat (wrotes l)) = greeting_len (t_config t) \/
    wrotes l = [] /\ (t_hs t' = Connected -> is_client t = true);
  ss_read : match fst (Task_kcp_recv t) with
    | None => reads l = [] /\ ok = true /\ (has t FIN_RECVED = false -> t' = t)
    | Some syn => reads l = [syn] /\
        (t_hs t' = Connected /\ Zlen syn = greeting_len (t_config t) \/ ok = false)
    end
}.

Lemma syn_recv_does tx_ok t ok out t' :
  task_ok t -> t_hs t = Syn -> syn_handshake_recv clock tx_ok t = Some (ok, out, t') ->
  exists l, syn_step tx_ok t ok t' l.
Proof.
  intros Ht Hs. unfold syn_handshake_recv. destruct (does_recv t Ht) as (l & [D K Hr Hd Hl]).
  pose proof (steady_recv t) as Hst. pose proof Hst as [[_ Ec Ecl _ _ _ _] Eh Eid].
  pose proof (Task_kcp_recv_ok t Ht) as H1. destruct (got_acts l K) as (Ki & Kw & Kf & Kt).
  pose proof (recv_none t Ht) as Hnone. pose proof (phased_steady t _ l Ki Hst) as Hph.
  destruct (fst (Task_kcp_recv t)) as [syn|] eqn:Esyn;
    rewrite (surjective_pairing (Task_kcp_recv t)), Esyn; cbv iota beta;
    set (t1 := snd (Task_kcp_recv t)) in *; cbn [opt_list] in Hr.
  2: { intros [= <- <- <-]. exists l. split; [done|done|done|done|done|right; split; [done|congruence]|].
       rewrite Esyn. split; [done|]. split; [done|]. intros Hf. by apply Hnone. }
  rewrite Hs in Eh.
  assert (forall ok0, Some (ok0, @nil Output, t1) = Some (ok, out, t') -> ok0 = false ->
    exists l, syn_step tx_ok t ok t' l) as Hno.
  { intros ok0 [= -> <- <-] ->. exists l. split; [done|done|done|done|done|right; split; [done|congruence]|].
    rewrite Esyn. split; [done|by right]. }
  destruct (strip_prefix _ syn) as [id|] eqn:Es; [|intros E; by apply (Hno false)].
  apply strip_prefix_length in Es.
  destruct (Z.eqb_spec (Zlen id) (session_id_len (t_config t1))) as [El|]; [|intros E; by apply (Hno false)].
  assert (Zlen syn = greeting_len (t_config t)) as Elen by (unfold greeting_len; rewrite <- Ec; lia).
  destruct (is_client t1) eqn:Ecl1.
  - destruct (decide _) as [Eid1|]; [|intros E; by apply (Hno false)]. intros [= <- <- <-]. exists l.
    destruct (steady_nodelay t1) as [F2 _ Eid2].
    split; [|done|done|done| |right; split; [done|by rewrite <- Ecl]|].
    + apply does_set_handshake. apply (does_quiet_r _ t1); [done|by apply does_nodelay].
    + apply phased_greeted; [done|apply t_hs_set_handshake|by apply run_phase_inert| |];
        unfold set_handshake; destruct (decide _); simp_upd; rewrite ?(fw_config _ _ F2), ?Eid2;
        congruence.
    + rewrite Esyn, t_hs_set_handshake. split; [done|by left].
  - set (t2 := t1 <| t_session_id := id |>).
    assert (task_ok t2) as Ht2.
    { destruct H1 as [G1 G2 G3 G4]. split; unfold t2; simp_upd; [done|done|lia|].
      intros F. change (is_client t1 = true) in F. congruence. }
    pose proof (kcp_apply_nodelay_ok t2 Ht2) as H3. destruct (steady_nodelay t2) as [[_ Ec2 _ _ _ _ _] _ Eid2].
    destruct (handshake_send clock _) as [t3|] eqn:E3; [|done].
    destruct (does_handshake_send _ t3 Wrote H3 (fun b => or_introl eq_refl) E3) as [D3 _].
    destruct (steady_handshake_send _ _ _ E3) as [[_ Ec3 _ _ _ _ _] _ Eid3]. intros [= <- _ <-].
    rewrite Ec2, Eid2 in D3. change (t_config t2) with (t_config t1) in *.
    change (t_session_id t2) with id in *. set (syn' := session_key (t_config t1) ++ id) in *.
    destruct (wrote_acts (solid syn')) as (V1 & V2 & V3 & V4 & V5).
    exists (l ++ map Wrote (solid syn')). split.
    + apply does_set_handshake. apply (does_trans t t1); [done|].
      apply (does_quiet_l _ t2); [by apply does_nothing|].
      by apply (does_quiet_l _ (kcp_apply_nodelay t2)); [apply does_nodelay|].
    + by rewrite tooks_app, fins_app, Kt, Kf, V2, V5.
    + intros Hf. by rewrite drops_app, Hd, V4.
    + intros Hf. apply Forall_app. split; [by apply Hl|]. by apply late_acts.
    + apply phased_greeted; [done|apply t_hs_set_handshake| | |].
      * rewrite run_phase_app, run_phase_inert by done. apply run_phase_wrote.
      * unfold set_handshake. destruct (decide _); simp_upd; congruence.
      * unfold set_handshake. destruct (decide _); simp_upd; rewrite Eid3, Eid2; congruence.
    + left. rewrite t_hs_set_handshake, wrotes_app, Kw, V1. split; [done|]. split; [congruence|].
      cbn [app]. rewrite concat_solid. unfold syn'. rewrite Zlen_app. unfold greeting_len. congruence.
    + rewrite Esyn, reads_app, Hr, V3, t_hs_set_handshake. split; [done|by left].
Qed.

(** ** A turn at the writing side *)

(** What the task writes on its own account in one turn, going through [l]: its greeting, if it
    is a server and has been greeted, or the FIN frame. *)
Inductive own_ws t t' (l : list act) : Prop :=
| own_none : wrotes l = [] ->
    (t_hs t = Syn -> is_client t = false -> t_hs t' = Syn \/ t_hs t' = Disconnected) -> own_ws t t' l
| own_greeting : fins l = [] -> t_hs t = Syn -> is_client t = false -> t_hs t' <> Syn ->
    Zlen (concat (wrotes l)) = greeting_len (t_config t) -> own_ws t t' l
| own_fin : wrotes l = fins l -> (1 <= hs_rank (t_hs t) <= 2)%nat -> (3 <= hs_rank (t_hs t'))%nat ->
    has t' INPUT_CLOSED = true -> Zlen (concat (wrotes l)) <= greeting_len (t_config t) <= 6630 ->
    concat (wrotes l) = fin_frame t -> own_ws t t' l.

Record owns t t' (l : list act) : Prop := { ow_ws : own_ws t t' l; ow_phase : phased t t' l }.

Lemma own_fin_step t t' l : fin_step t t' l -> owns t t' l.
Proof.
  intros [_ Hs Hw Ho Hp]. split; [|done].
  destruct (wrotes l) as [|w ws] eqn:E; [by apply own_none; auto|].
  destruct (Hw ltac:(done)) as (A & B & C & D & G). apply own_fin; rewrite ?E; done.
Qed.

(** Acts that write nothing may follow. *)
Lemma owns_steady t t' t'' l l' : owns t t' l -> Forall inert l' -> steady t' t'' -> owns t t'' (l ++ l').
Proof.
  intros [H P] Hl Hs. pose proof Hs as [Hf Hh _]. destruct (inert_acts l' Hl) as [Ew Ef].
  split; [|by eapply phased_trans; [|apply phased_steady]].
  destruct H as [E H|A B C D E|A B C D E G].
  - apply own_none; rewrite ?wrotes_app, ?Ew, ?Hh, ?app_nil_r; done.
  - apply own_greeting; rewrite ?wrotes_app, ?fins_app, ?Ew, ?Ef, ?Hh, ?app_nil_r; done.
  - apply own_fin; rewrite ?wrotes_app, ?fins_app, ?Ew, ?Ef, ?Hh, ?app_nil_r; try done.
    by apply (fw_closed _ _ Hf).
Qed.

(** ** A turn at the reading side

    [tx0] and [tx] are the kept frame before and after, [out] what the program gets. *)
Definition frames (out : list Output) : list bytes :=
  omap (fun o => match o with OutFrame b => Some b | OutConnected _ => None end) out.

Inductive turn_rs (tx0 : option bytes) t t' (out : list Output) (tx : option bytes)
  : list bytes -> Prop :=
| rs_frame rs : t_hs t <> Syn -> frames out ++ opt_list tx = opt_list tx0 ++ rs ->
    turn_rs tx0 t t' out tx rs
| rs_waiting : t_hs t = Syn -> t_hs t' = Syn -> frames out = [] -> tx = tx0 ->
    turn_rs tx0 t t' out tx []
| rs_over rs : t_hs t = Syn -> t_hs t' = Disconnected -> frames out = [] -> turn_rs tx0 t t' out tx rs
| rs_greeting syn rs : t_hs t = Syn -> t_hs t' <> Syn -> frames out = [] ->
    Zlen syn = greeting_len (t_config t) -> rs = syn :: opt_list tx -> turn_rs tx0 t t' out tx rs.

Lemma frames_app out out' : frames (out ++ out') = frames out ++ frames out'.
Proof. apply omap_app. Qed.

Lemma syn_recv_frames tx_ok t ok out t' :
  syn_handshake_recv clock tx_ok t = Some (ok, out, t') -> frames out = [].
Proof.
  unfold syn_handshake_recv. destruct (Task_kcp_recv t) as [[syn|] t1]; [|by intros [= _ <- _]].
  destruct (strip_prefix _ _) as [id|]; [|by intros [= _ <- _]].
  destruct (_ =? _); [|by intros [= _ <- _]].
  destruct (is_client t1).
  - destruct (decide _); [|by intros [= _ <- _]]. by destruct tx_ok; intros [= _ <- _].
  - destruct (handshake_send clock _); [|done]. by destruct tx_ok; intros [= _ <- _].
Qed.

(** The middle of [on_transport], between the packets and the read. *)
Definition after_input (tx_ok : bool) t : option (list Output * Task) :=
  if decide (t_hs t = Syn) then
    match syn_handshake_recv clock tx_ok t with
    | Some (ok, out, t) => Some (out, if ok then t else set_handshake Disconnected t)
    | None => None
    end
  else if is_fin_handshake t then option_map (pair []) (fin_transit_state clock t)
  else Some ([], t).

Lemma after_input_does tx_ok t out t' :
  task_ok t -> ready t -> after_input tx_ok t = Some (out, t') ->
  exists l, does t t' l /\ tooks l = [] /\ (has t FIN_RECVED = false -> drops l = []) /\
    (has t FIN_RECVED = true -> Forall late l) /\ frames out = [] /\ owns t t' l /\ (t_hs t <> Syn -> reads l = []) /\
    (t_hs t = Syn -> has t FIN_RECVED = false ->
       reads l = [] /\ t' = t /\ fst (Task_kcp_recv t) = None \/ t_hs t' = Disconnected \/
       exists syn, reads l = [syn] /\ Zlen syn = greeting_len (t_config t) /\ t_hs t' = Connected).
Proof.
  intros Ht Hrdy. unfold after_input. destruct (decide (t_hs t = Syn)) as [Hs|Hs].
  - destruct (syn_handshake_recv clock tx_ok t) as [[[ok o] t1]|] eqn:E; [|done].
    pose proof (syn_recv_frames _ _ _ _ _ E) as Ho.
    destruct (syn_recv_does tx_ok t ok o t1 Ht Hs E) as (l & [D [Kt Kf] Kd Kl P Hw Hr]).
    pose proof (syn_handshake_recv_spec clock tx_ok t ok o t1 Hs E) as Hspec.
    pose proof (forward_syn_recv clock tx_ok t ok o t1 Hs E) as F.
    intros [= <- <-]. exists l.
    split; [destruct ok; [done|by apply does_set_handshake]|].
    split; [done|]. split; [done|]. split; [done|]. split; [done|]. split; [|split; [done|]].
    + split.
      * destruct Hw as [(A & B & C)|(Ew & A)].
        -- apply own_greeting; [done|done|done| |done]. destruct ok; [congruence|].
           by rewrite t_hs_set_handshake.
        -- apply own_none; [done|]. intros _ Hc. destruct ok; [|right; apply t_hs_set_handshake]. left.
           destruct (fst (Task_kcp_recv t)) as [syn|]; [|apply Hspec]. destruct Hspec as (H1 & _ & H2).
           destruct (decide (t_hs t1 = Connected)) as [E1|E1]; [|by destruct (H2 E1)].
           rewrite (A E1) in Hc. done.
      * destruct ok; [done|]. intros ph Hp. destruct (P ph Hp) as (ph1 & Er & [Hc1 _]). exists ph1.
        split; [done|]. split; [intros Hph; unfold set_handshake; destruct (decide _); by apply Hc1|].
        rewrite t_hs_set_handshake. split; [done|]. intros _ ->.
        pose proof (in_phase_of _ _ Hp ltac:(congruence)) as Eph. rewrite Hs in Eph. cbn in Eph. subst ph.
        by apply run_phase_open in Er.
    + intros _ Hf. destruct (fst (Task_kcp_recv t)) as [syn|].
      * destruct Hr as [-> [[Ec El]| ->]]; [|right; left; apply t_hs_set_handshake].
        destruct ok; [right; right; eauto|right; left; apply t_hs_set_handshake].
      * destruct Hr as (-> & -> & Hr). rewrite (Hr Hf). auto.
  - destruct (is_fin_handshake t).
    + destruct (fin_transit_state clock t) as [t1|] eqn:E; [|done]. intros [= <- <-].
      destruct (fin_transit_does t t1 Ht Hrdy E) as (l & D & Hl & S & _).
      pose proof (fin_acts l Hl) as (_ & L2 & L3 & L4). exists l.
      split; [done|]. split; [done|]. split; [done|]. split; [intros _; by apply late_acts|]. split; [done|].
      split; [by apply own_fin_step|]. done.
    + intros [= <- <-]. exists []. split; [by apply does_nothing|]. split; [done|]. split; [done|].
      split; [done|]. split; [done|]. split; [|done]. apply own_fin_step. by apply fin_step_steady.
Qed.

Lemma own_after_fin t1 t2 t3 l l' :
  fin_step t1 t2 l -> forward t2 t3 -> owns t2 t3 l' -> owns t1 t3 (l ++ l').
Proof.
  intros [F1 S1 W1 O1 P1] F2 [H P2]. split; [|by eapply phased_trans].
  pose proof (fw_hs _ _ F1) as H1. pose proof (fw_hs _ _ F2) as H2. unfold hs_le in *.
  destruct H as [E H|A B C D E|A B C D E G].
  - destruct (wrotes l) as [|w ws] eqn:Ew.
    + apply own_none; [by rewrite wrotes_app, Ew, E|]. intros Es Ec. rewrite <- (fw_client _ _ F1) in Ec.
      destruct (S1 Es) as [E1|E1]; [by apply H|]. right. by apply (over_forward t2).
    + destruct (W1 ltac:(done)) as (A & B & C & D & G). rewrite <- Ew in D, G.
      pose proof (fins_wrotes l' E) as Ef.
      apply own_fin; rewrite ?wrotes_app, ?fins_app, ?E, ?Ef, ?app_nil_r, ?Ew in *;
        [done|done|lia|by apply (fw_closed _ _ F2)|done|done].
  - assert (wrotes l = []) as Ew.
    { destruct (wrotes l) as [|w ws]; [done|]. destruct (W1 ltac:(done)) as (_ & F & _).
      rewrite B in F. cbn in F. lia. }
    rewrite B in H1. apply own_greeting; rewrite ?wrotes_app, ?fins_app, <- ?O1, ?Ew;
      [done|by apply hs_syn_rank|by rewrite <- (fw_client _ _ F1)|done|by rewrite <- (fw_config _ _ F1)].
  - assert (wrotes l = []) as Ew.
    { destruct (wrotes l) as [|w ws]; [done|]. destruct (W1 ltac:(done)) as (_ & F & _). lia. }
    assert (1 <= hs_rank (t_hs t1))%nat as B1.
    { destruct (t_hs t1) eqn:E1; cbn; try lia.
      destruct (S1 eq_refl) as [E2|E2]; rewrite E2 in B; cbn in B; lia. }
    apply own_fin; rewrite ?wrotes_app, ?fins_app, <- ?O1, ?Ew; [done|lia|done|done| |].
    + by rewrite <- (fw_config _ _ F1).
    + by rewrite <- (fin_frame_forward _ _ F1 (open_not_syn _ B1)).
Qed.

Lemma on_transport_eq first more tx_ok t tx0 :
  on_transport clock first more tx_ok t tx0 =
    match input_packets clock (first :: take (Z.to_nat (cfg_rcv_wnd (t_config t) - 1)) more) t with
    | None => None
    | Some t =>
        match after_input tx_ok t with
        | None => None
        | Some (out, t) =>
            let '(tx, t) := match tx0 with Some f => (Some f, t) | None => Task_kcp_recv t end in
            Some (out, tx, Task_kcp_flush clock t)
        end
    end.
Proof. done. Qed.

Lemma syn_recv_forward tx_ok t out t' :
  task_ok t -> after_input tx_ok t = Some (out, t') -> forward t t'.
Proof.
  intros Ht. unfold after_input. destruct (decide (t_hs t = Syn)) as [Hs|_].
  - destruct (syn_handshake_recv clock tx_ok t) as [[[ok o'] t3]|] eqn:Es; [|done].
    apply forward_syn_recv in Es; [|done]. intros [= _ <-]. destruct ok; [done|].
    transitivity t3; [done|]. apply forward_set_handshake, hs_le_Disconnected.
  - destruct (is_fin_handshake t); [|by intros [= _ <-]].
    destruct (fin_transit_state clock t) as [t3|] eqn:Ef; [|done]. cbn.
    intros [= _ <-]. by apply fin_transit_forward in Ef as [? _].
Qed.

Lemma after_input_ok tx_ok t :
  task_ok t -> exists out t', after_input tx_ok t = Some (out, t') /\ task_ok t'.
Proof.
  intros Ht. unfold after_input. destruct (decide (t_hs t = Syn)) as [Hs|_].
  - destruct (syn_handshake_recv_ok clock tx_ok t Ht Hs) as (ok & o & t2 & -> & H2).
    eexists _, _. split; [done|]. destruct ok; [done|].
    apply task_ok_set_handshake; [apply hs_le_Disconnected|done].
  - destruct (is_fin_handshake t); [|by eexists _, _].
    destruct (fin_transit_ok clock t Ht) as (t2 & -> & H2). by eexists _, _.
Qed.

(** Only a packet sets the FIN mark. *)
Lemma same_fin_flush t : has (Task_kcp_flush clock t) FIN_RECVED = has t FIN_RECVED.
Proof.
  rewrite !has_FIN. unfold Task_kcp_flush, system_time. destruct (has t FLUSH); [|done]. simp_upd.
  rewrite Z.lxor_spec. apply xorb_false_r.
Qed.

Lemma same_fin_flag t : has (set_flag FLUSH t) FIN_RECVED = has t FIN_RECVED.
Proof. rewrite !has_FIN. unfold set_flag. simp_upd. rewrite Z.lor_spec. apply orb_false_r. Qed.

Lemma same_fin_handshake_send t t' :
  handshake_send clock t = Some t' -> has t' FIN_RECVED = has t FIN_RECVED.
Proof.
  unfold handshake_send. destruct (Kcp_send _ _) as [[n|e|] k]; [|done|done]. intros [= <-].
  rewrite same_fin_flush. exact (same_fin_flag t).
Qed.

Lemma same_fin_set_handshake hs t : has (set_handshake hs t) FIN_RECVED = has t FIN_RECVED.
Proof. unfold set_handshake. by destruct (decide _). Qed.

Lemma same_fin_loop fuel t t' :
  fin_loop clock fuel t = Some t' -> has t' FIN_RECVED = has t FIN_RECVED.
Proof.
  revert t. induction fuel as [|fuel IH]; intros t; [done|]. rewrite fin_loop_step.
  assert (forall r t1, fin_next clock t = Some (r, t1) -> has t1 FIN_RECVED = has t FIN_RECVED) as Hn.
  { intros r t1. unfold fin_next, system_time. destruct (t_hs t); try by intros [= _ <-].
    - destruct (_ || _); [by intros [= _ <-]|]. destruct (handshake_send clock t) eqn:E; [|done].
      intros [= _ <-]. by apply same_fin_handshake_send.
    - destruct (_ >? 0); by intros [= _ <-].
    - destruct (_ || _); by intros [= _ <-]. }
  destruct (fin_next clock t) as [[[hs|] t1]|]; [|intros [= <-]; by eapply Hn|done].
  intros E. rewrite (IH _ E), same_fin_set_handshake. by eapply Hn.
Qed.

Lemma same_fin_after_input tx_ok t out t' :
  after_input tx_ok t = Some (out, t') -> has t' FIN_RECVED = has t FIN_RECVED.
Proof.
  unfold after_input. destruct (decide _) as [_|_].
  - destruct (syn_handshake_recv clock tx_ok t) as [[[ok o] t1]|] eqn:E; [|done]. intros [= _ <-].
    assert (has t1 FIN_RECVED = has t FIN_RECVED) as <-;
      [|destruct ok; [done|apply same_fin_set_handshake]].
    revert E. unfold syn_handshake_recv. pose proof (flags_recv t) as Ef.
    destruct (Task_kcp_recv t) as [[syn|] t2]; cbn [snd] in Ef;
      assert (has t2 FIN_RECVED = has t FIN_RECVED) as E2 by (unfold has; by rewrite Ef);
      [|by intros [= _ _ <-]].
    destruct (strip_prefix _ _) as [id|]; [|by intros [= _ _ <-]].
    destruct (_ =? _); [|by intros [= _ _ <-]]. destruct (is_client t2).
    + destruct (decide _); [|by intros [= _ _ <-]]. intros [= _ _ <-]. by rewrite same_fin_set_handshake.
    + destruct (handshake_send clock _) eqn:E; [|done]. intros [= _ _ <-].
      rewrite same_fin_set_handshake, (same_fin_handshake_send _ _ E). exact E2.
  - destruct (is_fin_handshake t); [|by intros [= _ <-]].
    destruct (fin_transit_state clock t) eqn:E; [|done]. intros [= _ <-]. by eapply same_fin_loop.
Qed.

(** What one event makes of a session: the acts [l], of which the first, [fs], are the frames the
    program gives; [qs] are the packets. *)
Record event_effect t t' (fs qs : list bytes) (out : list Output) (tx0 tx : option bytes)
    (l : list act) : Prop := {
  ee_does : does t t' (map Wrote (solids fs) ++ l);
  ee_owns : owns t t' l;
  ee_tooks : Forall (took_from t' qs) (tooks l);
  ee_drops : has t' FIN_RECVED = false -> drops l = [];
  ee_late : has t' FIN_RECVED = true -> Forall late l;
  ee_marked : has t FIN_RECVED = false -> has t' FIN_RECVED = true ->
    t_hs t' <> Syn /\ mark_heard qs l;
  ee_read : tx0 = None /\ has t FIN_RECVED = false \/ t_hs t <> Syn -> turn_rs tx0 t t' out tx (reads l)
}.

Lemma on_transport_does first more tx_ok t tx0 out tx t' :
  task_ok t -> ready t -> (forall q, q ∈ first :: more -> reset_marked q -> cause) ->
  on_transport clock first more tx_ok t tx0 = Some (out, tx, t') ->
  exists l, event_effect t t' [] (first :: more) out tx0 tx l.
Proof.
  intros Ht Hrdy Hcause. rewrite on_transport_eq. set (qs := first :: take _ more).
  assert (forall q, q ∈ qs -> q ∈ first :: more) as Hqs.
  { unfold qs. intros q [->|Hq]%elem_of_cons; [by left|]. right.
    apply elem_of_take in Hq as (i & Hq & _). by apply list_elem_of_lookup_2 in Hq. }
  destruct (input_packets_ok clock qs t Ht) as (t1 & E1 & H1). rewrite E1.
  destruct (input_packets_takes qs t t1 Ht Hrdy (fun q Hq => Hcause q (Hqs q Hq)) E1)
    as (l1 & [D1 S1 [R1 X1] T1 M1 Hrdy1]).
  destruct (after_input_ok tx_ok t1 H1) as (o & t2 & E2 & H2). rewrite E2.
  destruct (after_input_does tx_ok t1 o t2 H1 Hrdy1 E2) as (l2 & D2 & T2 & X2 & L2 & Ho & W2 & Ra & Rb).
  pose proof (syn_recv_forward tx_ok t1 o t2 H1 E2) as F2.
  pose proof (same_fin_after_input _ _ _ _ E2) as Efin.
  set (r := match tx0 with Some f => _ | None => _ end).
  assert (exists l3 rs3, hands_over t2 (snd r) l3 rs3 /\ steady t2 (snd r) /\
    t_flags (snd r) = t_flags t2 /\ task_ok (snd r) /\
    opt_list (fst r) = opt_list tx0 ++ rs3 /\ (fst (Task_kcp_recv t2) = None -> fst r = tx0))
    as (l3 & rs3 & [D3 K3 R3 X3 L3] & F3 & Ef3 & H3 & Ex & Ex0).
  { unfold r. destruct tx0 as [f|].
    - exists [], []. split; [by split; [apply does_nothing|..]|]. done.
    - destruct (does_recv t2 H2) as (l & D). exists l, (opt_list (fst (Task_kcp_recv t2))).
      split; [done|]. split; [apply steady_recv|]. split; [apply flags_recv|].
      split; [by apply Task_kcp_recv_ok|]. done. }
  destruct r as [x t3]. cbn [fst snd] in *. intros [= <- <- <-].
  pose proof (steady_flush clock t3) as F4. destruct (got_acts l3 K3) as (K3i & _ & _ & T3).
  pose proof (sd_forward _ _ F4) as G4. pose proof (sd_forward _ _ F3) as G3.
  exists (l1 ++ l2 ++ l3). split.
  - change (does t (Task_kcp_flush clock t3) (l1 ++ l2 ++ l3)).
    apply (does_quiet_r _ t3); [|by apply does_flush].
    apply (does_trans t t1); [done|]. by apply (does_trans t1 t2).
  - rewrite app_assoc. apply (owns_steady t t2); [by apply (own_after_fin t t1)|done|].
    by transitivity t3.
  - rewrite !tooks_app, T2, T3. apply Forall_app. split; [|done].
    eapply Forall_impl; [exact T1|]. intros p. apply took_from_le.
    + transitivity t2; [done|]. by transitivity t3.
    + exact Hqs.
  - intros Hf. pose proof (no_fin_back _ _ G4 Hf) as Hf3. pose proof (no_fin_back _ _ G3 Hf3) as Hf2.
    pose proof (no_fin_back _ _ F2 Hf2) as Hf1. by rewrite !drops_app, X1, X2, X3.
  - intros Hf. rewrite same_fin_flush in Hf.
    assert (has t2 FIN_RECVED = true) as Hf2 by (unfold has in *; by rewrite <- Ef3).
    apply Forall_app. split; [by apply late_acts|]. apply Forall_app. split; [|by apply L3].
    apply L2. by rewrite <- Efin.
  - assert (has (Task_kcp_flush clock t3) FIN_RECVED = has t1 FIN_RECVED) as ->.
    { rewrite same_fin_flush, <- Efin. unfold has. by rewrite Ef3. }
    intros Hf Hf1. destruct (M1 Hf Hf1) as [Hs Hm]. split.
    + apply (hs_not_syn t1); [|done]. transitivity t2; [done|]. by transitivity t3.
    + by apply (mark_heard_app qs _ []).
  - assert (t_hs (Task_kcp_flush clock t3) = t_hs t2) as Eh4
      by (rewrite (sd_hs _ _ F4); apply (sd_hs _ _ F3)).
    rewrite !reads_app, R1. cbn [app]. intros Htx. destruct (decide (t_hs t = Syn)) as [Hs|Hs].
    + destruct Htx as [[-> Hf]|]; [|done].
      destruct (fs_syn _ _ _ S1 Hs) as [E|E]; [|apply rs_over; [done|rewrite Eh4; by apply (over_forward t1)|done]].
      assert (has t1 FIN_RECVED = false) as Hf1.
      { destruct (has t1 FIN_RECVED) eqn:Hf1; [|done]. by destruct (M1 Hf eq_refl). }
      destruct (Rb E Hf1) as [(-> & -> & En)|[Ed|(syn & -> & El & Ec)]].
      * assert (x = None) as -> by (by apply Ex0). rewrite R3. destruct rs3 as [|y ys]; [|done].
        apply rs_waiting; [done|congruence|done|done].
      * apply rs_over; [done|congruence|done].
      * apply (rs_greeting _ _ _ _ _ syn); [done|rewrite Eh4; congruence|done| |].
        -- by rewrite El, (fw_config _ _ (fs_forward _ _ _ S1)).
        -- cbn [app]. by rewrite R3, Ex.
    + apply rs_frame; [done|]. rewrite Ho, Ra, R3; [by rewrite Ex|].
      by apply (hs_not_syn t); [apply S1|].
Qed.

(** ** Input from the program *)

(** The frames [on_input] takes from the channel: it stops when the send queue is full. *)
Fixpoint more_taken (more : list bytes) t : list bytes :=
  if Kcp_is_send_queue_full (t_kcp t) then []
  else
    match more with
    | [] => []
    | f :: more => match process_input f t with Some t => f :: more_taken more t | None => [] end
    end.

Definition frames_taken (ev : event) t : list bytes :=
  match ev with
  | EvInput (Some f) more _ =>
      f :: match process_input f t with Some t => more_taken more t | None => [] end
  | _ => []
  end.

Lemma process_input_outputs f t t' :
  process_input f t = Some t' -> outputs (t_kcp t') = outputs (t_kcp t) /\ t_hs t' = t_hs t.
Proof.
  unfold process_input. assert (outputs (snd (Kcp_send (t_kcp t) f)) = outputs (t_kcp t)) as Eo.
  { unfold Kcp_send. destruct f as [|b f]; [done|]. destruct (ikcp_send _ _ _) as [n h].
    destruct (n >=? 0); [done|]. by destruct (_ || _). }
  destruct (Kcp_send (t_kcp t) f) as [[n|e|] k]; cbn [snd] in Eo; [..|done]; intros [= <-]; [|done].
  by destruct (_ || _).
Qed.

Lemma input_more_outputs more d t c t' :
  input_more more d t = Some (c, t') -> outputs (t_kcp t') = outputs (t_kcp t) /\ t_hs t' = t_hs t.
Proof.
  revert t. induction more as [|f more IH]; intros t; cbn [input_more];
    (destruct (Kcp_is_send_queue_full _); [by intros [= _ <-]|]); [by intros [= _ <-]|].
  destruct (process_input f t) as [t1|] eqn:E; [|done]. intros [E1 E2]%IH.
  apply process_input_outputs in E as [<- <-]. done.
Qed.

(** A frame that [poll_write] cuts. *)
Definition frame_fits (m : Z) (f : bytes) : Prop := Zlen f <= 255 * m /\ Zlen f < 2147483648.

Lemma process_input_takes f t :
  task_ok t -> may_write t -> frame_fits (mss (handle (t_kcp t))) f ->
  exists t', process_input f t = Some t' /\ task_ok t' /\ may_write t' /\ steady t t' /\
    has t' FIN_RECVED = has t FIN_RECVED /\
    mss (handle (t_kcp t')) = mss (handle (t_kcp t)) /\ does t t' (map Wrote (solid f)).
Proof.
  intros Ht Hm [Hf Hl]. destruct (process_input_ok f t Ht Hl Hm) as (t' & E & H').
  pose proof (steady_process_input _ _ _ E) as Hs.
  pose proof (does_process_input f t t' Ht Hf Hl E) as D.
  exists t'. split_and!; try done; [by eapply may_write_steady| |by eapply does_mss].
  revert E. unfold process_input. destruct (Kcp_send _ _) as [[n|e|] k]; [|..|done]; intros [= <-]; [|done].
  destruct (_ || _); [exact (same_fin_flag t)|done].
Qed.

Lemma input_more_does more d t c t' :
  task_ok t -> may_write t -> Forall (frame_fits (mss (handle (t_kcp t)))) more ->
  input_more more d t = Some (c, t') ->
  does t t' (map Wrote (solids (more_taken more t))) /\ has t' FIN_RECVED = has t FIN_RECVED.
Proof.
  revert t. induction more as [|f more IH]; intros t Ht Hm Hl; cbn [input_more more_taken];
    (destruct (Kcp_is_send_queue_full _); [intros [= <- <-]; by split; [apply does_nothing|]|]);
    [intros [= <- <-]; by split; [apply does_nothing|]|].
  apply Forall_cons in Hl as [Hf Hl].
  destruct (process_input_takes f t Ht Hm Hf) as (t1 & -> & H1 & Hm1 & _ & Ef & Em & D). intros E.
  rewrite <- Em in Hl. destruct (IH t1 H1 Hm1 Hl E) as [D' Ef']. split; [|congruence].
  unfold solids. cbn [map concat]. rewrite map_app. by apply (does_trans t t1).
Qed.

Lemma on_input_does first more d t t' :
  task_ok t -> ready t -> event_ok (EvInput first more d) t ->
  (forall f, first = Some f -> Forall (frame_fits (mss (handle (t_kcp t)))) (f :: more)) ->
  on_input clock first more d t = Some t' ->
  exists l, does t t' (map Wrote (solids (frames_taken (EvInput first more d) t)) ++ l) /\
    Forall fin_act l /\ fin_step t t' l /\ has t' FIN_RECVED = has t FIN_RECVED.
Proof.
  intros Ht Hrdy Hev Hfit. unfold on_input. set (r := match first with Some _ => _ | None => _ end).
  assert (exists c t1, r = Some (c, t1) /\ task_ok t1 /\ steady t t1 /\
    does t t1 (map Wrote (solids (frames_taken (EvInput first more d) t))) /\
    has t1 FIN_RECVED = has t FIN_RECVED /\ ready t1) as (c & t1 & -> & H1 & F1 & D1 & Ef1 & Hrdy1).
  { unfold r, frames_taken. destruct first as [f|].
    2: { exists true, t. split; [done|]. split; [done|]. split; [done|]. by split; [apply does_nothing|]. }
    destruct Hev as [Hm _]. specialize (Hfit f eq_refl). apply Forall_cons in Hfit as [Hf Hl].
    destruct (process_input_takes f t Ht Hm Hf) as (t1 & Et1 & H1 & Hm1 & F1 & Ef1 & Em & D1). rewrite Et1.
    apply process_input_outputs in Et1 as [Eo1 Eh1]. rewrite <- Em in Hl.
    destruct (input_more_ok more d t1 H1 Hm1) as (c & t2 & E & H2);
      [by eapply Forall_impl; [exact Hl|intros g [_ Hg]]|].
    destruct (input_more_does more d t1 c t2 H1 Hm1 Hl E) as [D2 Ef2].
    rewrite E. exists c, t2. split; [done|]. split; [done|].
    split; [transitivity t1; [done|by eapply steady_input_more]|].
    apply input_more_outputs in E as [Eo2 Eh2].
    split; [|split; [congruence|unfold ready; rewrite Eo2, Eh2, Eo1, Eh1; exact Hrdy]].
    unfold solids. cbn [map concat]. rewrite map_app. by apply (does_trans t t1). }
  pose proof (steady_flag INPUT_CLOSED t1 eq_refl) as Fc.
  destruct c; cbn [option_map].
  - assert (task_ok (set_flag INPUT_CLOSED t1)) as H2 by (by apply task_ok_flag).
    destruct (fin_transit_ok clock _ H2) as (t2 & E & H3). rewrite E.
    destruct (fin_transit_does _ t2 H2 Hrdy1 E) as (l & D2 & Hl & S2 & _). intros [= <-]. exists l. split; [|split; [done|split]].
    + apply (does_quiet_r _ t2); [|by apply does_flush].
      apply (does_trans t t1 t2); [done|].
      apply (does_quiet_l _ (set_flag INPUT_CLOSED t1)); [by apply does_nothing|done].
    + rewrite <- (app_nil_r l). apply (fin_step_trans _ t2); [|by apply fin_step_steady, steady_flush].
      apply (fin_step_trans _ (set_flag INPUT_CLOSED t1) _ []); [|done].
      apply fin_step_steady; [done|]. by transitivity t1.
    + rewrite same_fin_flush, (same_fin_loop _ _ _ E), <- Ef1. rewrite !has_FIN. unfold set_flag. simp_upd.
      rewrite Z.lor_spec. apply orb_false_r.
  - intros [= <-]. exists []. rewrite app_nil_r.
    split; [apply (does_quiet_r _ t1); [done|by apply does_flush]|]. split; [done|].
    split; [|by rewrite same_fin_flush].
    apply fin_step_steady; [done|]. transitivity t1; [done|apply steady_flush].
Qed.

(** ** Output to the program *)
Lemma flags_reserve_more permits t : t_flags (snd (reserve_more permits t)) = t_flags t.
Proof.
  revert t. induction permits as [|n IH]; intros t; cbn [reserve_more];
    pose proof (flags_recv t) as Hr; destruct (Task_kcp_recv t) as [[f|] t1]; cbn [snd] in *; try done.
  specialize (IH t1). destruct (reserve_more n t1) as [[out tx] t2]. cbn [snd] in *. congruence.
Qed.

Lemma reserve_more_does permits t :
  task_ok t -> let '(out, tx, t') := reserve_more permits t in
  exists l, hands_over t t' l (frames out ++ opt_list tx).
Proof.
  revert t. induction permits as [|n IH]; intros t Ht; cbn [reserve_more];
    destruct (does_recv t Ht) as (l & D); pose proof (Task_kcp_recv_ok t Ht) as H1;
    pose proof (steady_recv t) as Hs; pose proof (flags_recv t) as Ef;
    destruct (Task_kcp_recv t) as [[f|] t1]; cbn [fst snd] in *; try (by exists l).
  specialize (IH t1 H1). destruct (reserve_more n t1) as [[out tx] t2].
  destruct IH as (l' & D'). exists (l ++ l'). by apply (hands_over_trans t t1 t2 l l' [f]).
Qed.

(** ** A whole turn of the loop *)

Definition packets_of (ev : event) : list bytes :=
  match ev with EvTransport (Some first) more _ => first :: more | _ => [] end.

Lemma event_effect_quiet t t' fs tx0 l :
  does t t' (map Wrote (solids fs) ++ l) -> fin_step t t' l -> Forall fin_act l ->
  has t' FIN_RECVED = has t FIN_RECVED -> event_effect t t' fs [] [] tx0 tx0 l.
Proof.
  intros D S Hl Ef. pose proof (fin_acts l Hl) as (_ & L2 & L3 & L4).
  split; [done|by apply own_fin_step|rewrite L4; constructor|done|intros _; by apply late_acts|congruence|].
  intros _. rewrite L2. destruct (decide (t_hs t = Syn)) as [E|E].
  - destruct (fs_syn _ _ _ S E); [by apply rs_waiting|by apply rs_over].
  - apply rs_frame; [done|]. by rewrite app_nil_r.
Qed.

Lemma select_does ev t tx0 out tx t' :
  task_ok t -> ready t -> event_ok ev t -> event_enabled ev t tx0 = true ->
  (forall q, q ∈ packets_of ev -> reset_marked q -> cause) ->
  Forall (frame_fits (mss (handle (t_kcp t))))
    (match ev with EvInput (Some f) more _ => f :: more | _ => [] end) ->
  select_branch clock ev t tx0 = Some (out, true, tx, t') ->
  exists l, event_effect t t' (frames_taken ev t) (packets_of ev) out tx0 tx l.
Proof.
  intros Ht Hrdy Hev Hen Hcause Hfit.
  destruct ev as [first more d|[|] permits|[first|] more tx_ok| |]; cbn [select_branch packets_of] in *;
    [| |done| |done| |done].
  - destruct (on_input clock first more d t) as [t1|] eqn:E; [|done]. intros [= <- <- <-].
    destruct (on_input_does first more d t t1 Ht Hrdy Hev) as (l & D & Hl & S & Ef); [|done|].
    { intros f ->. exact Hfit. }
    exists l. by apply event_effect_quiet.
  - pose proof (reserve_more_does permits t Ht) as H. pose proof (steady_reserve_more permits t) as Hs.
    pose proof (flags_reserve_more permits t) as Ef.
    destruct (reserve_more permits t) as [[o x] t1]. cbn [snd] in Hs, Ef. intros [= <- <- <-].
    destruct H as (l & [D K R X L]). destruct (got_acts l K) as (Ki & _ & _ & Kt). exists l.
    split; [done|by apply own_fin_step, fin_step_steady|rewrite Kt; constructor| | | |].
    + intros Hf. apply X. unfold has in *. by rewrite <- Ef.
    + intros Hf. apply L. unfold has in *. by rewrite <- Ef.
    + intros H1 H2. unfold has in *. congruence.
    + intros Htx. destruct tx0 as [f|]; [|done]. destruct Htx as [[? _]|Hns]; [done|].
      apply rs_frame; [done|]. by rewrite R, frames_app.
  - destruct (on_transport clock first more tx_ok t tx0) as [[[o x] t1]|] eqn:E; [|done].
    intros [= <- <- <-]. by apply (on_transport_does first more tx_ok).
  - intros [= <- <- <-]. exists []. apply event_effect_quiet; [by apply does_nothing|by apply fin_step_steady|done..].
Qed.

(** The drained queue of the head of the loop. *)
Definition drained (k : Kcp) : Kcp := k <| output_queue := [] |>.

Lemma loop_wait_does t :
  task_ok t -> let '(v, t') := loop_wait clock t in
  does t t' [] /\ t_flags t' = t_flags t /\ t_config t' = t_config t /\ t_session_id t' = t_session_id t /\
  (t_hs t' = t_hs t \/ t_hs t' = Disconnected /\ t_kcp t' = t_kcp t) /\
  (forall i, v = Select i -> t_hs t' = t_hs t /\ outputs (t_kcp t') = outputs (t_kcp t)).
Proof.
  intros Ht. unfold loop_wait, system_time. set (now := get_system_time _).
  assert (forall t1 n, t1 = t <| t_ticks := n |> ->
    does t (t1 <| t_kcp := Kcp_update (t_kcp t1) now |>) []) as Hup.
  { intros t1 n ->. unfold does. simp_upd. by apply Kcp_update_calls, tk_kcp. }
  destruct (decide _).
  - destruct (_ =? 0); [|by split; [by apply does_nothing|split_and!; auto; done]].
    split; [by eapply Hup|split_and!; auto; done].
  - destruct (_ >? 0); [destruct (_ =? 0); [by split; [by eapply Hup|split_and!; auto; done]|by split; [by apply does_nothing|split_and!; auto; done]]|].
    split; [apply does_nothing; by rewrite kcp_set_handshake|]. rewrite t_hs_set_handshake.
    unfold set_handshake. destruct (decide _); (split; [done|]; split; [done|]; split; [done|]; split; [by right|done]).
Qed.

Lemma fed_elem feed_ok i l : Forall (fun p => p ∈ l) (fed feed_ok i l).
Proof.
  revert i. induction l as [|p l IH]; intros i; cbn [fed]; [constructor|].
  destruct (feed_ok i); [|constructor]. constructor; [by left|].
  eapply Forall_impl; [apply IH|]. intros q Hq. by right.
Qed.

Lemma loop_head_does feed_ok flush_ok t ps v t' :
  task_ok t -> loop_head clock feed_ok flush_ok false t = Some (ps, v, t') -> v <> Break ->
  calls [] (drained (t_kcp t)) (t_kcp t') /\
  Forall (fun p => p ∈ map (marked (t_hs t)) (outputs (t_kcp t))) ps /\
  t_flags t' = t_flags t /\ t_config t' = t_config t /\ t_session_id t' = t_session_id t /\
  (t_hs t' = t_hs t \/ t_hs t' = Disconnected /\ outputs (t_kcp t') = []) /\
  t_hs t <> Disconnected /\ (forall i, v = Select i -> t_hs t' = t_hs t /\ outputs (t_kcp t') = []).
Proof.
  intros Ht. unfold loop_head.
  assert (forall (ps0 : list bytes) t1, task_ok t1 -> t_hs t1 = t_hs t -> t_flags t1 = t_flags t ->
    t_config t1 = t_config t -> t_session_id t1 = t_session_id t -> t_kcp t1 = drained (t_kcp t) ->
    Forall (fun p => p ∈ map (marked (t_hs t)) (outputs (t_kcp t))) ps0 ->
    (if decide (t_hs t1 = Disconnected) then (ps0, Break, t1)
     else if expired t1 then (ps0, Break, t1)
     else let '(v, t1) := loop_wait clock t1 in (ps0, v, t1)) = (ps, v, t') -> v <> Break ->
    calls [] (drained (t_kcp t)) (t_kcp t') /\
    Forall (fun p => p ∈ map (marked (t_hs t)) (outputs (t_kcp t))) ps /\
    t_flags t' = t_flags t /\ t_config t' = t_config t /\ t_session_id t' = t_session_id t /\
    (t_hs t' = t_hs t \/ t_hs t' = Disconnected /\ outputs (t_kcp t') = []) /\
    t_hs t <> Disconnected /\ (forall i, v = Select i -> t_hs t' = t_hs t /\ outputs (t_kcp t') = [])) as Hrest.
  { intros ps0 t1 H1 Eh Ef Eg Ei Ek Hps. destruct (decide _) as [|Hnd]; [by intros [= _ <- _]|].
    destruct (expired t1); [by intros [= _ <- _]|].
    pose proof (loop_wait_does t1 H1) as Hw. destruct (loop_wait clock t1) as [v1 t2].
    intros [= <- <- <-] _. destruct Hw as (D & Ef2 & Eg2 & Ei2 & Hh & Hsel).
    unfold does in D. rewrite Ek in D. split; [exact D|]. split; [done|].
    split; [congruence|]. split; [congruence|]. split; [congruence|].
    split; [rewrite <- Eh; destruct Hh as [Hh|[Hh ->]]; [by left|right; by rewrite Ek]|].
    split; [by rewrite <- Eh|]. intros i Esel. destruct (Hsel i Esel) as [-> ->]. by rewrite Ek. }
  destruct (Kcp_has_ouput (t_kcp t)) eqn:Eo.
  - rewrite kcp_output_spec. destruct flush_ok; cbn [negb orb]; [|by intros [= _ <- _]].
    intros [= E].
    refine (Hrest _ (t <| t_kcp := drained (t_kcp t) |>) _ eq_refl eq_refl eq_refl eq_refl eq_refl _ E).
    + destruct Ht as [G1 G2 G3 G4]. by split.
    + apply fed_elem.
  - intros [= E]. refine (Hrest [] t Ht eq_refl eq_refl eq_refl eq_refl _ (Forall_nil_2 _) E).
    unfold drained, Kcp_has_ouput in *. destruct (t_kcp t) as [h b w r q]. cbn in *.
    by destruct q.
Qed.

(** The pass that leaves the loop still empties the output queue. *)
Lemma loop_head_leaves feed_ok flush_ok cancelled t ps t' :
  loop_head clock feed_ok flush_ok cancelled t = Some (ps, Break, t') ->
  calls [] (drained (t_kcp t)) (t_kcp t') /\ outputs (t_kcp t') = [] /\
  Forall (fun p => p ∈ map (marked (t_hs t)) (outputs (t_kcp t))) ps /\
  t_flags t' = t_flags t /\ t_config t' = t_config t /\ t_session_id t' = t_session_id t /\
  t_hs t' = t_hs t.
Proof.
  unfold loop_head.
  assert (forall (ps0 : list bytes) t1,
    (if decide (t_hs t1 = Disconnected) then (ps0, Break, t1)
     else if expired t1 then (ps0, Break, t1)
     else let '(v, t1) := loop_wait clock t1 in (ps0, v, t1)) = (ps, Break, t') ->
    ps = ps0 /\ t' = t1) as Hrest.
  { intros ps0 t1. destruct (decide _); [by intros [= -> ->]|]. destruct (expired t1); [by intros [= -> ->]|].
    assert (fst (loop_wait clock t1) <> Break) as Hw.
    { unfold loop_wait, system_time. destruct (decide _); [by destruct (_ =? 0)|].
      destruct (_ >? 0); [by destruct (_ =? 0)|done]. }
    destruct (loop_wait clock t1) as [v t2]. cbn [fst] in Hw. by intros [= _ ? _]. }
  destruct (Kcp_has_ouput (t_kcp t)) eqn:Eo.
  - rewrite kcp_output_spec.
    intros E. assert (ps = fed feed_ok 0 (map (marked (t_hs t)) (outputs (t_kcp t))) /\
      t' = t <| t_kcp := drained (t_kcp t) |>) as [-> ->].
    { destruct (cancelled || _); [by injection E as <- <-|]. injection E as E.
      exact (Hrest _ (t <| t_kcp := drained (t_kcp t) |>) E). }
    split; [apply calls_refl|]. split; [done|]. split; [apply fed_elem|done].
  - intros [= E]. apply Hrest in E as [-> ->].
    assert (outputs (t_kcp t) = []) as En.
    { unfold Kcp_has_ouput, outputs in *. by destruct (output_queue (t_kcp t)). }
    split; [|by split]. apply calls_nil; [done|]. by rewrite En.
Qed.
End TaskCalls.
