(* ===== verification/Sessions.v ===== *)
(** Two sessions end to end: the frames one task takes from its program and the frames the other
    gives to its own, with both tasks and a network between them. *)
From Stdlib Require Import Strings.Byte.
From stdpp Require Import relations.
From S2P Require Import Prelude Bytes IkcpTypes IkcpSend IkcpInput IkcpFlush IkcpFlushSpec.
From S2P Require Import IkcpInv Wire Delivery Network Progress Exchange Protocol ProtocolSpec Config.
From S2P Require Import Stream StreamSpec StreamSafe StreamWire Handshake Session Calls TaskCalls.

(** ** One turn of the loop of [run], with what goes in and out

    [fs] are the frames taken from the program, [ps] the packets put on the transport and [out]
    what is sent to the program.  The pass that leaves the loop empties the output queue as well and
    is a turn; nothing here keeps a session that has left from a further one, so that every result
    about turns holds in particular for those that stop there. *)
Section Turn.
Context {BM : BytesMut} (clock : nat -> Z * Z).

Inductive turn : Task * option bytes -> option event -> list bytes -> list bytes -> list Output ->
  Task * option bytes -> Prop :=
| turn_again feed_ok flush_ok t x ps t' :
    loop_head clock feed_ok flush_ok false t = Some (ps, Again, t') ->
    turn (t, x) None [] ps [] (t', x)
| turn_select feed_ok flush_ok t x ps i t1 ev out x' t' :
    loop_head clock feed_ok flush_ok false t = Some (ps, Select i, t1) ->
    event_enabled ev t1 x = true -> select_branch clock ev t1 x = Some (out, true, x', t') ->
    turn (t, x) (Some ev) (frames_taken ev t1) ps out (t', x')
| turn_leaves feed_ok flush_ok cancelled t x ps t' :
    loop_head clock feed_ok flush_ok cancelled t = Some (ps, Break, t') ->
    turn (t, x) None [] ps [] (t', x).

(** The program writes when it has its stream, and as [poll_write] does. *)
Definition writes_ok (ev : option event) (t : Task) : Prop :=
  match ev with
  | Some (EvInput (Some f) more _) =>
      t_hs t <> Syn /\
      Forall (fun f => Zlen f <= max_frame_size (cfg_mtu (t_config t)) /\ Zlen f < 2147483648)
        (f :: more)
  | _ => True
  end.
End Turn.

Section Sessions.
Context {BM : BytesMut} {BML : BytesMutLaws BM} (clock_a clock_b : nat -> Z * Z).

(** ** The two sessions and the network between them

    [ss_a] writes and [ss_b] reads, each with its kept frame.  [ss_in] are the frames [ss_a]'s
    task took from its program, [ss_out] those given to [ss_b]'s program.  The network [ss_net]
    is every packet [ss_a] put on its transport, with the number of bytes the reader had when the
    packet was made; [ss_mark] is that number for the packets still in [ss_a]'s output queue. *)
Record session_sys := mkSessions {
  ss_a : Task * option bytes;
  ss_b : Task * option bytes;
  ss_net : list (Z * bytes);
  ss_mark : Z;
  ss_in : list bytes;
  ss_out : list bytes
}.

(** How far the writer may be ahead of the reader, in bytes. *)
Definition AHEAD : Z := 2147483648 - 131072.

(** The network holds the packet, and the writer has not gone round the number ring since. *)
Definition delivered (s : session_sys) (p : bytes) : Prop :=
  exists n, (n, p) ∈ ss_net s /\ Zlen (concat (ss_in s)) - n < AHEAD.

(** The writer's transport gives any packets whatever; the reader's gives packets of the
    writer, in any order, any number of times or never. *)
Inductive session_step : session_sys -> session_sys -> Prop :=
| session_writer s ev fs ps out a' :
    turn clock_a (ss_a s) ev fs ps out a' -> writes_ok ev (fst (ss_a s)) ->
    Zlen (concat (ss_in s ++ fs)) - Zlen (concat (ss_out s)) < AHEAD ->
    session_step s (mkSessions a' (ss_b s) (ss_net s ++ map (pair (ss_mark s)) ps)
                      (Zlen (concat (ss_out s))) (ss_in s ++ fs) (ss_out s))
| session_reader s ev fs ps out b' :
    turn clock_b (ss_b s) ev fs ps out b' -> writes_ok ev (fst (ss_b s)) ->
    Forall (delivered s) (default [] (option_map packets_of ev)) ->
    session_step s (mkSessions (ss_a s) b' (ss_net s) (ss_mark s) (ss_in s)
                      (ss_out s ++ frames out)).

Definition sessions_start (a b : Task) : session_sys := mkSessions (a, None) (b, None) [] 0 [] [].

(** ** The invariant *)

(** The entries behind the first [m] are no more than their bytes. *)
Lemma filled_behind (S : list entry) m :
  Forall filled S -> 0 <= m <= Zlen S ->
  Zlen S - m <= Zlen (entry_bytes S) - Zlen (entry_bytes (take (Z.to_nat m) S)).
Proof.
  intros Hf Hm. pose proof (filled_count (drop (Z.to_nat m) S) (Forall_drop _ _ _ Hf)) as H.
  rewrite <- (take_drop (Z.to_nat m) S) at 2. rewrite entry_bytes_app, Zlen_app.
  unfold Zlen at 1 in H. rewrite length_drop in H. unfold Zlen in *. lia.
Qed.

(** What a writer has written in all: [W] is its greeting, the program's bytes and the FIN
    frame. *)
Inductive wrote_so_far (L : Z) (t : Task) (W I : bytes) : Prop :=
| wrote_nothing : t_hs t = Syn \/ t_hs t = Disconnected -> is_client t = false -> W = [] -> I = [] ->
    wrote_so_far L t W I
| wrote_greeted g f : W = g ++ I ++ f -> Zlen g = L -> (t_hs t = Syn -> is_client t = true) ->
    f = [] \/ ((3 <= hs_rank (t_hs t))%nat /\ has t INPUT_CLOSED = true /\ Zlen f <= 6630 /\
      f = fin_frame t) ->
    wrote_so_far L t W I.

(** What is known of a packet made when the stream had [m] entries and the reader [n] bytes. *)
Definition packet_tagged (S : list entry) (n : Z) (p : bytes) : Prop :=
  exists m, 0 <= m <= Zlen S /\ n <= Zlen (entry_bytes (take (Z.to_nat m) S)) /\
    honest (m - 65535) S p.

(** What both ends keep. *)
Record session_ok (L : Z) (t : Task) : Prop := {
  so_ok : task_ok t;
  so_len : greeting_len (t_config t) = L;
  so_mss : mss (handle (t_kcp t)) = cfg_mtu (t_config t) - 24
}.

Definition writer_side (L : Z) (S : list entry) (mark : Z) (t : Task) (I : bytes) : Prop :=
  session_ok L t /\ (exists W, writing S W (t_kcp t) /\ wrote_so_far L t W I) /\
  Forall (packet_tagged S mark) (outputs (t_kcp t)).

Inductive read_so_far (L : Z) (t : Task) (x : option bytes) (got O : bytes) : Prop :=
| read_nothing : t_hs t = Syn -> x = None -> got = [] -> O = [] -> read_so_far L t x got O
| read_over : t_hs t = Disconnected -> O = [] -> read_so_far L t x got O
| read_greeted g : t_hs t <> Syn -> Zlen g = L -> got = g ++ O ++ concat (opt_list x) ->
    read_so_far L t x got O.

Definition reader_side (L : Z) (S : list entry) (b : Task * option bytes) (O : bytes) : Prop :=
  session_ok L (fst b) /\ exists R got, tracks S R got (handle (t_kcp (fst b))) /\
    read_so_far L (fst b) (snd b) (entry_bytes got) O.

Definition sessions_inv (L : Z) (s : session_sys) : Prop :=
  has (fst (ss_b s)) FIN_RECVED = false -> exists S,
    writer_side L S (ss_mark s) (fst (ss_a s)) (concat (ss_in s)) /\
    Forall (fun np => packet_tagged S (fst np) (snd np)) (ss_net s) /\
    reader_side L S (ss_b s) (concat (ss_out s)) /\
    Zlen (concat (ss_in s)) - Zlen (concat (ss_out s)) < AHEAD.

(** What has been read is part of what was written. *)
Lemma read_so_far_le L S b O : reader_side L S b O -> Zlen O <= Zlen (entry_bytes S).
Proof.
  intros (_ & R & got & [_ _ Hp _] & Hr). pose proof (entry_bytes_take (Z.to_nat R) S) as Ht.
  rewrite <- Hp, entry_bytes_app, Zlen_app in Ht.
  pose proof (Zlen_nonneg (entry_bytes (map seg_entry (rcv_queue (handle (t_kcp (fst b))))))).
  pose proof (Zlen_nonneg (entry_bytes got)).
  destruct Hr as [_ _ _ -> | _ -> | g _ _ E]; [change (Zlen []) with 0; lia..|].
  rewrite E, !Zlen_app in Ht. pose proof (Zlen_nonneg g). pose proof (Zlen_nonneg (concat (opt_list (snd b)))).
  lia.
Qed.

Lemma greeting_len_le L t : session_ok L t -> 0 <= L <= 6630.
Proof.
  intros [Ht <- _]. destruct (tk_config t Ht) as (_ & Hi & Hl). unfold greeting_len.
  pose proof (Zlen_nonneg (session_key (t_config t))). lia.
Qed.

Lemma wrote_le L t W I : 0 <= L <= 6630 -> wrote_so_far L t W I -> Zlen W <= Zlen I + 13260.
Proof.
  intros HL [_ _ -> -> | g f -> Hg _ Hf]; [change (Zlen []) with 0; lia|]. rewrite !Zlen_app.
  destruct Hf as [->|(_ & _ & Hf & _)]; [change (Zlen []) with 0|]; lia.
Qed.

(** ** One turn *)

Lemma max_frame_le m : 50 <= m < 1073741824 -> max_frame_size m <= 255 * (m - 24).
Proof.
  intros Hm. unfold max_frame_size, IKCP_OVERHEAD, IKCP_WND_RCV.
  rewrite (u32_small (m - 24)) by lia. unfold u32.
  pose proof (Z.mod_le ((m - 24) * (256 - 1)) 4294967296). lia.
Qed.

Lemma writes_ok_event ev t L :
  session_ok L t -> writes_ok (Some ev) t ->
  event_ok ev t /\ Forall (frame_fits (mss (handle (t_kcp t))))
    (match ev with EvInput (Some f) more _ => f :: more | _ => [] end).
Proof.
  intros [Ht _ Hm] Hw. destruct (tk_config t Ht) as (Hmtu & _). rewrite Hm.
  destruct ev as [[f|] more d| | | |]; cbn [writes_ok event_ok] in *; try done.
  destruct Hw as [Hs Hf]. split.
  - split; [by intros _|]. eapply Forall_impl; [exact Hf|]. by intros g [_ ?].
  - eapply Forall_impl; [exact Hf|]. intros g [Hg Hl]. split; [|done].
    pose proof (max_frame_le (cfg_mtu (t_config t)) Hmtu). lia.
Qed.

Definition event_packets (ev : option event) : list bytes := default [] (option_map packets_of ev).

Record turn_effect (L : Z) t (x : option bytes) (ev : option event) (fs ps : list bytes)
    (out : list Output) t' (x' : option bytes) (l : list act) : Prop := {
  te_calls : calls (map Wrote (solids fs) ++ l) (drained (t_kcp t)) (t_kcp t');
  te_sent : Forall (fun p => p ∈ map (marked (t_hs t)) (outputs (t_kcp t))) ps;
  te_ok : session_ok L t';
  te_forward : forward t t';
  te_ws : own_ws t t' l;
  te_phase : phased ((exists q, q ∈ event_packets ev /\ reset_marked q) \/ outputs (t_kcp t') = []) t t' l;
  te_over : t_hs t = Disconnected -> fs = [] /\ out = [] /\ l = [] /\ outputs (t_kcp t') = [];
  te_frames : fs <> [] -> t_hs t <> Syn /\ has t INPUT_CLOSED = false;
  te_tooks : Forall (took_from t' (event_packets ev)) (tooks l);
  te_drops : has t' FIN_RECVED = false -> drops l = [];
  te_late : has t' FIN_RECVED = true -> Forall late l;
  te_marked : has t FIN_RECVED = false -> has t' FIN_RECVED = true ->
    t_hs t' <> Syn /\ mark_heard (event_packets ev) l;
  te_read : x = None /\ has t FIN_RECVED = false \/ t_hs t <> Syn -> turn_rs x t t' out x' (reads l)
}.

Lemma session_ok_calls L t t' k l :
  session_ok L t -> task_ok t' -> t_config t' = t_config t -> handle k = handle (t_kcp t) ->
  calls l k (t_kcp t') -> session_ok L t'.
Proof.
  intros [Ht Hl Hm] Ht' Ec Ek Hc. apply calls_mss in Hc. split; [done|by rewrite Ec|].
  by rewrite Hc, Ek, Ec.
Qed.

Lemma turn_forward clock s ev fs ps out s' :
  turn clock s ev fs ps out s' -> forward (fst s) (fst s').
Proof.
  intros [feed fl t x ps0 t' E|feed fl t x ps0 i t1 ev0 out0 x' t' E _ Es|feed fl c t x ps0 t' E]; cbn [fst].
  - by apply forward_loop_head in E.
  - apply forward_loop_head in E. apply forward_select in Es. by transitivity t1.
  - by apply forward_loop_head in E.
Qed.

Lemma own_ws_head t t1 t' l :
  forward t t1 -> t_hs t1 = t_hs t -> own_ws t1 t' l -> own_ws t t' l.
Proof.
  intros F E [A H|A B C D G|A B C D G K]; rewrite ?E, ?(fw_client _ _ F), ?(fw_config _ _ F) in *.
  - by apply own_none.
  - by apply own_greeting.
  - apply own_fin; rewrite ?(fw_config _ _ F) in *; try done.
    rewrite <- (fin_frame_forward _ _ F); [done|]. apply open_not_syn. by destruct B.
Qed.

Lemma turn_does clock t x ev fs ps out t' x' L :
  turn clock (t, x) ev fs ps out (t', x') -> session_ok L t -> writes_ok ev t ->
  exists l, turn_effect L t x ev fs ps out t' x' l.
Proof.
  intros Hturn Hso Hw. pose proof (so_ok L t Hso) as Ht.
  inversion Hturn as [feed fl t0 x0 ps0 t0' E|feed fl t0 x0 ps0 i t1 ev0 out0 x0' t0' E Hen Es
    |feed fl c t0 x0 ps0 t0' E]; subst.
  - destruct (loop_head_does clock feed fl t ps Again t' Ht E ltac:(done))
      as (Hc & Hps & Ef & Ec & Ei & Hh & Hnd & _).
    destruct (loop_head_ok clock feed fl false t Ht) as (ps2 & v2 & t2 & E' & H2).
    rewrite E in E'. injection E' as _ _ <-. pose proof (forward_loop_head clock _ _ _ _ _ _ _ E) as F.
    assert (fin_step ((exists q, q ∈ event_packets None /\ reset_marked q) \/ outputs (t_kcp t') = [])
      t t' []) as S.
    { destruct Hh as [Hh|[Hh Ho]]; [by apply fin_step_steady|by apply fin_step_over; auto]. }
    apply own_fin_step in S as [Hown Hph]. exists []. split; [done|done|by apply (session_ok_calls L t t' (drained (t_kcp t)) [] Hso H2 Ec eq_refl)
      |done|done|done|done|done|constructor|done|constructor| |].
    + intros H1 H3. unfold has in *. congruence.
    + intros _. destruct (decide (t_hs t = Syn)) as [Hs|Hs].
      * destruct Hh as [Hh|[Hh _]]; [apply rs_waiting; [done|congruence|done|done]|by apply rs_over].
      * apply rs_frame; [done|]. by rewrite app_nil_r.
  - destruct (loop_head_does clock feed fl t ps (Select i) t1 Ht E ltac:(done))
      as (Hc & Hps & Ef & Ec & Ei & _ & Hnd & Hsel).
    destruct (Hsel i eq_refl) as [Eh Eo1]. clear Hsel.
    destruct (loop_head_ok clock feed fl false t Ht) as (ps2 & v2 & t2 & E' & H1).
    rewrite E in E'. injection E' as _ _ <-.
    pose proof (forward_loop_head clock _ _ _ _ _ _ _ E) as F1.
    assert (session_ok L t1) as Hso1 by by apply (session_ok_calls L t t1 (drained (t_kcp t)) [] Hso H1 Ec eq_refl).
    assert (writes_ok (Some ev0) t1) as Hw1.
    { destruct ev0 as [[f|] more d| | | |]; try done. cbn [writes_ok] in *. by rewrite Eh, Ec. }
    destruct (writes_ok_event ev0 t1 L Hso1 Hw1) as [Hev Hfit].
    set (cause := (exists q, q ∈ event_packets (Some ev0) /\ reset_marked q) \/ outputs (t_kcp t') = []).
    destruct (select_does clock cause ev0 t1 x out x' t' H1 (fun _ => Eo1) Hev Hen
      (fun q Hq Hr => or_introl (ex_intro _ q (conj Hq Hr))) Hfit Es)
      as (l & [D2 [Hown Hph] Htk Hdr Hlt Hm Hr]).
    destruct (select_branch_ok clock ev0 t1 x H1 Hev) as (o3 & go & x3 & t3 & Es' & H3).
    rewrite Es in Es'. injection Es' as _ _ _ <-.
    pose proof (forward_select clock _ _ _ _ _ _ _ Es) as F.
    assert (has t1 FIN_RECVED = has t FIN_RECVED) as Efin by (unfold has; by rewrite Ef).
    exists l. split; [exact (calls_app [] _ _ _ _ Hc D2)|done| |by transitivity t1| | |done| |done|done|done| |].
    + apply (session_ok_calls L t1 t' (t_kcp t1) (map Wrote (solids (frames_taken ev0 t1)) ++ l) Hso1 H3);
        [apply F|done|exact D2].
    + by apply (own_ws_head t t1).
    + exact (phased_trans cause t t1 t' [] l (phased_steady cause t t1 [] (Forall_nil_2 _) ltac:(by split)) Hph).
    + intros Hfs. destruct ev0 as [[f|] more d| | | |]; try done. destruct Hw as [Hs _].
      split; [done|]. cbn [event_enabled] in Hen.
      apply andb_true_iff in Hen as [Hcl _]. apply negb_true_iff in Hcl. unfold has in *. by rewrite <- Ef.
    + by rewrite <- Efin.
    + intros Hx. rewrite <- Eh, <- Efin in Hx. specialize (Hr Hx).
      destruct Hr as [rs A B|A B C D|rs A B C|syn rs A B C D G]; rewrite Eh in A.
      * by apply rs_frame.
      * by apply rs_waiting.
      * by apply rs_over.
      * apply (rs_greeting _ _ _ _ _ syn); [done|done|done|by rewrite <- Ec|done].
  - destruct (loop_head_leaves clock feed fl c t ps t' E) as (Hc & Ho & Hps & Ef & Ec & Ei & Hh).
    destruct (loop_head_ok clock feed fl c t Ht) as (ps2 & v2 & t2 & E' & H2).
    rewrite E in E'. injection E' as _ _ <-. pose proof (forward_loop_head clock _ _ _ _ _ _ _ E) as F.
    assert (steady t t') as Hst by by split.
    assert (owns ((exists q, q ∈ event_packets None /\ reset_marked q) \/ outputs (t_kcp t') = []) t t' [])
      as [Hown Hph] by by apply own_fin_step, fin_step_steady.
    exists []. split; [done|done|by apply (session_ok_calls L t t' (drained (t_kcp t)) [] Hso H2 Ec eq_refl)
      |done|done|done|done|done|constructor|done|constructor| |].
    + intros H1 H3. unfold has in *. congruence.
    + intros _. destruct (decide (t_hs t = Syn)) as [Hs|Hs].
      * apply rs_waiting; [done|congruence|done|done].
      * apply rs_frame; [done|]. by rewrite app_nil_r.
Qed.

(** ** Packets on their way *)

(** The FIN mark takes the first segment out of the data, and changes no other. *)
Lemma honest_marked lo S hs p : honest lo S p -> honest lo S (marked hs p).
Proof.
  unfold marked, mark_fin. destruct (decide (hs = FinSent)); [|done].
  destruct (read_payload_data p) as [d|] eqn:Ed; [|done]. apply read_payload_length in Ed.
  rewrite read_cmd_header, write_cmd_insert by done. cbn [default id].
  set (h := snd (ikcp_decode_header p)). set (c := byte_of_Z (Z.lor (h_cmd h) KCP_FIN)).
  destruct (decode_header_cmd p c Ed) as (Ec & E4 & Hr). fold h in Ec, E4, Hr.
  destruct (decode_header_cmd p (byte_of_Z (h_cmd h)) Ed) as (Ep & _).
  rewrite (list_insert_id p 4 _ E4) in Ep. fold h in Ep.
  rewrite byte_to_of_Z, u8_small in Ep by lia.
  assert (Zlen (<[4%nat := c]> p) = Zlen p) as El by (unfold Zlen; by rewrite length_insert).
  unfold honest. rewrite length_insert. destruct (length p) as [|n] eqn:En; [done|].
  cbn [decode_packet]. rewrite El. destruct (_ <? _); [done|]. rewrite Ec, Ep. cbn [h_len].
  destruct (_ || _); [done|]. intros H. apply Forall_cons in H as [_ H]. constructor; [|done].
  intros F. exfalso. cbn [fst h_cmd] in F. unfold c in F. rewrite byte_to_of_Z in F.
  apply (f_equal (fun z => Z.testbit z 5)) in F. unfold u8 in F.
  rewrite (Z.mod_pow2_bits_low _ 8) in F by lia. rewrite Z.lor_spec in F.
  change (Z.testbit KCP_FIN 5) with true in F. by rewrite orb_true_r in F.
Qed.

Lemma packet_tagged_marked S n hs p : packet_tagged S n p -> packet_tagged S n (marked hs p).
Proof. intros (m & H1 & H2 & H3). exists m. split; [done|]. split; [done|by apply honest_marked]. Qed.

(** The stream grows behind the packet. *)
Lemma packet_tagged_grow S T n p : packet_tagged S n p -> packet_tagged (S ++ T) n p.
Proof.
  intros (m & H1 & H2 & H3). exists m. rewrite Zlen_app. pose proof (Zlen_nonneg T).
  split; [lia|]. split; [|by eapply honest_weaken; [|exact H3]].
  rewrite take_app_le by (unfold Zlen in H1; lia). done.
Qed.

(** A packet the network may deliver carries segments the reader can place. *)
Lemma packet_tagged_placed S n p (W I : bytes) :
  Forall filled S -> packet_tagged S n p -> Zlen (entry_bytes S) <= Zlen W ->
  Zlen W <= Zlen I + 13260 -> Zlen I - n < AHEAD -> honest (Zlen S - 2147483647) S p.
Proof.
  intros Hf (m & H1 & H2 & H3) Hs Hw Hi. unfold AHEAD in Hi.
  pose proof (filled_behind S m Hf H1) as Hb.
  rewrite <- (app_nil_r S) at 2. eapply honest_weaken; [|exact H3]. lia.
Qed.

(** ** The writer's turn *)

Lemma wrote_so_far_step L t t' W I fs l :
  session_ok L t -> wrote_so_far L t W I -> forward t t' -> own_ws t t' l ->
  (t_hs t = Disconnected -> fs = []) -> (fs <> [] -> t_hs t <> Syn /\ has t INPUT_CLOSED = false) ->
  wrote_so_far L t' (W ++ concat (solids fs ++ wrotes l)) (I ++ concat fs).
Proof.
  intros Hso Hw F Hown Hnd Hfs. pose proof (fw_client _ _ F) as Ecl. pose proof (fw_hs _ _ F) as Hle.
  unfold hs_le in Hle. rewrite concat_app, concat_solids.
  destruct Hw as [Hq Hc -> ->|g f -> Hg Hsyn Hf].
  - assert (fs = []) as ->.
    { destruct fs; [done|]. destruct (Hfs ltac:(done)) as [A _]. destruct Hq; [done|by apply Hnd]. }
    cbn [concat app]. destruct Hown as [E H|_ A B C D|_ A B C D G].
    + rewrite E. apply wrote_nothing; [|congruence|done|done].
      destruct Hq as [Hq|Hq]; [by apply H|right; by apply (over_forward t)].
    + apply (wrote_greeted _ _ _ _ (concat (wrotes l)) []); [by rewrite app_nil_r| |done|by left].
      rewrite D. apply (so_len _ _ Hso).
    + exfalso. destruct Hq as [E|E]; rewrite E in A; cbn in A; lia.
  - assert (f = [] \/ fs = []) as Hor.
    { destruct Hf as [->|(_ & Hf & _)]; [by left|]. destruct fs; [by right|].
      destruct (Hfs ltac:(done)) as [_ E]. congruence. }
    assert (t_hs t' = Syn -> is_client t' = true) as Hsyn'.
    { intros E. rewrite Ecl. apply Hsyn. apply hs_syn_rank. by rewrite E in Hle. }
    destruct Hown as [E H|_ A B C D|_ A B C D G].
    + rewrite E. cbn [concat]. rewrite app_nil_r. apply (wrote_greeted _ _ _ _ g f); [|done|done|].
      * destruct Hor as [-> | ->]; cbn [concat]; by rewrite ?app_nil_r, ?app_assoc.
      * destruct Hf as [->|(A & B & C & D)]; [by left|right].
        split; [lia|]. split; [by apply (fw_closed _ _ F)|]. split; [done|].
        rewrite (fin_frame_forward _ _ F); [done|]. apply open_not_syn. lia.
    + rewrite (Hsyn A) in B. done.
    + destruct Hf as [->|(A' & _)]; [|lia].
      apply (wrote_greeted _ _ _ _ g (concat (wrotes l))); [by rewrite app_nil_r, !app_assoc|done|done|].
      right. split; [done|]. split; [done|]. split; [lia|].
      rewrite (fin_frame_forward _ _ F); [done|]. apply open_not_syn. lia.
Qed.

(** The reader is where it was when the stream grows. *)
Lemma reader_side_grow L S T b (W I O : bytes) :
  Forall filled (S ++ T) -> reader_side L S b O -> Zlen (entry_bytes (S ++ T)) <= Zlen W ->
  Zlen W <= Zlen I + 13260 -> Zlen I - Zlen O < AHEAD -> reader_side L (S ++ T) b O.
Proof.
  intros Hf Hb Hs Hw Hi. pose proof Hb as (Hso & R & got & Ht & Hr).
  split; [done|]. exists R, got. split; [|done].
  destruct (tk_kcp _ (so_ok _ _ Hso)) as (((_ & _ & _ & Hwin & _) & _) & _).
  apply tracks_grow; [done|done|]. destruct Ht as [_ [HR _] Hp _].
  assert (0 <= R <= Zlen (S ++ T)) as HR' by (rewrite Zlen_app; pose proof (Zlen_nonneg T); lia).
  pose proof (filled_behind (S ++ T) R Hf HR') as Hn.
  rewrite take_app_le, <- Hp, (entry_bytes_app got), (Zlen_app (entry_bytes got)) in Hn by (unfold Zlen in HR; lia).
  pose proof (Zlen_nonneg (entry_bytes (map seg_entry (rcv_queue (handle (t_kcp (fst b))))))).
  assert (Zlen O <= Zlen (entry_bytes got)); [|unfold AHEAD in Hi; lia].
  destruct Hr as [_ _ _ -> | _ -> | g _ _ E]; [apply Zlen_nonneg..|].
  rewrite E, !Zlen_app. pose proof (Zlen_nonneg g).
  pose proof (Zlen_nonneg (concat (opt_list (snd b)))). lia.
Qed.

Lemma sessions_inv_writer L s ev fs ps out a' :
  turn clock_a (ss_a s) ev fs ps out a' -> writes_ok ev (fst (ss_a s)) ->
  Zlen (concat (ss_in s ++ fs)) - Zlen (concat (ss_out s)) < AHEAD ->
  sessions_inv L s ->
  sessions_inv L (mkSessions a' (ss_b s) (ss_net s ++ map (pair (ss_mark s)) ps)
                    (Zlen (concat (ss_out s))) (ss_in s ++ fs) (ss_out s)).
Proof.
  intros Hturn Hw Hahead Hinv Hf. cbn [ss_b] in Hf.
  destruct (Hinv Hf) as (S & (Hso & (W & HW & Hso_far) & Hq) & Hnet & Hrd & _). clear Hinv.
  destruct (ss_a s) as [t x], a' as [t' x']. cbn [fst] in *.
  destruct (turn_does clock_a t x ev fs ps out t' x' L Hturn Hso Hw)
    as (l & [Hc Hps Hso' F Hown _ Hov Hfs _ _ _ _ _]).
  assert (wrotes (map Wrote (solids fs) ++ l) = solids fs ++ wrotes l) as El
    by (rewrite wrotes_app; by rewrite (proj1 (wrote_acts _))).
  pose proof (wrote_so_far_step L t t' W _ fs l Hso Hso_far F Hown (fun E => proj1 (Hov E)) Hfs) as Hso_far'.
  rewrite <- concat_app in Hso_far'.
  pose proof (writing_same S W (t_kcp t) (drained (t_kcp t)) eq_refl HW) as HW0.
  destruct (calls_writing _ _ _ S W (Zlen S) Hc HW0 ltac:(lia)) as (T & HW' & Hq').
  { unfold outputs, drained. simp_upd. constructor. }
  rewrite El in HW'. exists (S ++ T). cbn [ss_a ss_b ss_net ss_mark ss_in ss_out fst].
  pose proof (wrote_le L t' _ _ (greeting_len_le L t' Hso') Hso_far') as Hle.
  split; [|split; [|split; [|done]]].
  - split; [done|]. split; [by eexists|]. eapply Forall_impl; [exact Hq'|]. intros p Hp.
    exists (Zlen S). rewrite Zlen_app. pose proof (Zlen_nonneg T). pose proof (Zlen_nonneg S).
    split; [lia|]. split; [|done]. unfold Zlen at 3. rewrite Nat2Z.id, take_app_length.
    by apply (read_so_far_le L S (ss_b s)).
  - apply Forall_app. split.
    + eapply Forall_impl; [exact Hnet|]. intros [n p]. apply packet_tagged_grow.
    + apply Forall_map. eapply Forall_impl; [exact Hps|]. intros p Hp. cbn [fst snd].
      apply packet_tagged_grow. apply list_elem_of_fmap in Hp as (p0 & -> & Hp0).
      apply packet_tagged_marked. rewrite Forall_forall in Hq. by apply Hq.
  - eapply reader_side_grow; [by eapply writing_filled|done|by eapply writing_le|exact Hle|].
    done.
Qed.

(** ** The reader's turn *)

Lemma read_so_far_step L t x t' out x' got O rs :
  session_ok L t -> read_so_far L t x got O -> forward t t' -> (t_hs t = Disconnected -> out = []) ->
  (has t FIN_RECVED = true -> t_hs t <> Syn) ->
  (x = None /\ has t FIN_RECVED = false \/ t_hs t <> Syn -> turn_rs x t t' out x' rs) ->
  read_so_far L t' x' (got ++ concat rs) (O ++ concat (frames out)).
Proof.
  intros Hso Hr F Hnd Hfin Hrs. destruct Hr as [Hs -> -> ->|Hd ->|g Hs Hg ->]; cycle 1.
  { rewrite (Hnd Hd). apply read_over; [by apply (over_forward t)|done]. }
  all: cycle 1.
  - assert (has t FIN_RECVED = false) as Hf by (destruct (has t FIN_RECVED); [by destruct Hfin|done]).
    destruct (Hrs ltac:(by left)) as [rs A _|A B -> ->|rs A B ->|syn rs A B -> C ->]; [done|..].
    + by apply read_nothing.
    + by apply read_over.
    + apply (read_greeted _ _ _ _ _ syn); [done|by rewrite C; apply (so_len _ _ Hso)|].
      by cbn [concat app].
  - assert (t_hs t' <> Syn) as Hs'.
    { intros E. apply Hs, hs_syn_rank. pose proof (fw_hs _ _ F) as Hle. unfold hs_le in Hle.
      by rewrite E in Hle. }
    destruct (Hrs ltac:(by right)) as [rs _ E|A|rs A|syn rs A]; [|done..].
    apply (f_equal (@concat _)) in E. rewrite !concat_app in E.
    apply (read_greeted _ _ _ _ _ g); [done|done|]. by rewrite <- !app_assoc, E.
Qed.

Lemma sessions_inv_reader L s ev fs ps out b' :
  turn clock_b (ss_b s) ev fs ps out b' -> writes_ok ev (fst (ss_b s)) ->
  Forall (delivered s) (default [] (option_map packets_of ev)) ->
  sessions_inv L s ->
  sessions_inv L (mkSessions (ss_a s) b' (ss_net s) (ss_mark s) (ss_in s) (ss_out s ++ frames out)).
Proof.
  intros Hturn Hw Hdel Hinv Hf. cbn [ss_b] in Hf.
  destruct (ss_b s) as [t x] eqn:Eb, b' as [t' x']. cbn [fst] in *.
  unfold sessions_inv in Hinv. rewrite Eb in Hinv. cbn [fst] in Hinv.
  pose proof (turn_forward _ _ _ _ _ _ _ Hturn) as F0. cbn [fst] in F0.
  destruct (Hinv (no_fin_back _ _ F0 Hf)) as (S & Hwr & Hnet & (Hso & R & got & Ht & Hfar) & Ha).
  clear Hinv F0. cbn [fst] in Hso.
  destruct (turn_does clock_b t x ev fs ps out t' x' L Hturn Hso Hw)
    as (l & [Hc _ Hso' F _ _ Hov _ Hqs Hdr _ _ Hrs]).
  destruct (wrote_acts (solids fs)) as (_ & _ & V3 & V4 & V5).
  set (l0 := map Wrote (solids fs)) in *.
  assert (reads (l0 ++ l) = reads l /\ tooks (l0 ++ l) = tooks l /\ drops (l0 ++ l) = []) as (Erd & Etk & Edr)
    by (rewrite reads_app, tooks_app, drops_app, V3, V4, V5; by rewrite Hdr).
  pose proof Hwr as (Hsoa & (W & HW & Hw_far) & _). cbn [fst snd] in *.
  pose proof (wrote_le L _ _ _ (greeting_len_le L _ Hsoa) Hw_far) as Hle.
  pose proof (writing_le S W _ HW) as Hle2.
  assert (Forall (honest (Zlen S - 2147483647) S) (tooks (l0 ++ l))) as Hhon.
  { rewrite Etk. eapply Forall_impl; [exact Hqs|]. intros p [Hp|[Hp _]]; [|congruence].
    rewrite Forall_forall in Hdel.
    destruct (Hdel p Hp) as (n & Hn & Hage). rewrite Forall_forall in Hnet.
    apply (packet_tagged_placed S n p W (concat (ss_in s))); [by eapply writing_filled|..]; try done.
    exact (Hnet (n, p) Hn). }
  assert (Zlen (concat (ss_out s)) <= Zlen (entry_bytes got)) as Hgot.
  { destruct Hfar as [_ _ _ -> | _ -> | g _ _ E]; [apply Zlen_nonneg..|].
    rewrite E, !Zlen_app. pose proof (Zlen_nonneg g). pose proof (Zlen_nonneg (concat (opt_list x))). lia. }
  unfold AHEAD in Ha.
  destruct (calls_reading (l0 ++ l) (drained (t_kcp t)) (t_kcp t') S R got Hc Ht ltac:(lia) Hhon Edr)
    as (R' & e & Ht' & Ee). rewrite Erd in Ee.
  exists S. cbn [ss_a ss_b ss_net ss_mark ss_in ss_out]. split; [done|]. split; [done|].
  rewrite concat_app, Zlen_app. pose proof (Zlen_nonneg (concat (frames out))).
  split; [|unfold AHEAD; lia]. split; [done|]. exists R', (got ++ e). split; [done|].
  rewrite entry_bytes_app, Ee. cbn [fst snd]. apply (read_so_far_step L t x t'); try done.
  { intros E. apply Hov, E. }
  intros Hf1. pose proof (fw_fin _ _ F Hf1). congruence.
Qed.

(** ** The start *)
Lemma session_started clock c cv draw t :
  greeting_ok c -> 0 <= cv < 4294967296 -> run_start clock true draw (Task_new c cv) = Some t ->
  session_ok (greeting_len c) t /\ t_hs t = Syn /\ has t FIN_RECVED = false /\
  rcv_fresh (handle (t_kcp t)) /\ exists S, Zlen S <= 1 /\ writer_side (greeting_len c) S 0 t [].
Proof.
  intros Hc Hcv E.
  assert (exists S fl id, waiting S c cv fl id t /\ has t FIN_RECVED = false /\ t_hs t = Syn /\ Zlen S <= 1 /\
    Forall filled S /\ Forall (honest (-65535) S) (outputs (t_kcp t)) /\
    wrote_so_far (greeting_len c) t (entry_bytes S) [])
    as (S & fl & id & [H1 H2 _ _ Hg _ _] & Hfin & Hs & Hl & Hf & Ho & Hw).
  { destruct (Z.eq_dec cv SYN_CONV) as [->|Hne].
    - destruct (run_start_client clock c draw t Hc E) as (Hw & Hs & gs & wnd & Eo & _ & Hem & _).
      pose proof (syn_of_length c draw Hc) as Hl.
      eexists _, _, _. split; [exact Hw|]. pose proof (wt_flags _ _ _ _ _ _ Hw) as Hfl.
      split; [unfold has; by rewrite Hfl|]. split; [done|]. split; [done|]. split; [|split].
      + constructor; [|constructor]. unfold filled. cbn [snd]. intros F. rewrite F in Hl.
        change (Zlen []) with 0 in Hl. lia.
      + rewrite Eo. apply Hem.
      + apply (wrote_greeted _ _ _ _ (syn_of c draw) []).
        * unfold entry_bytes. cbn [map snd concat app]. by rewrite app_nil_r.
        * unfold syn_of, greeting_len. rewrite Zlen_app, random_session_id_length; [done|]. apply Hc.
        * intros _. unfold is_client, has. by rewrite Hfl.
        * by left.
    - destruct (run_start_server clock c cv draw t Hc Hcv Hne E) as [Hw Hs].
      destruct (run_start_common clock c cv draw Hc Hcv) as (t1 & _ & _ & _ & _ & [_ _ _ Eo _] & Er).
      rewrite E in Er. destruct (Z.eqb_spec cv SYN_CONV); [done|]. injection Er as <-.
      eexists _, _, _. split; [exact Hw|]. pose proof (wt_flags _ _ _ _ _ _ Hw) as Hfl.
      split; [unfold has; by rewrite Hfl|]. split; [done|]. split; [done|]. split; [constructor|].
      split; [rewrite Eo; constructor|]. apply wrote_nothing; [by left| |done|done].
      unfold is_client, has. by rewrite Hfl. }
  pose proof (greeter_mss _ _ _ Hg) as Hm.
  assert (session_ok (greeting_len c) t) as Hso by (split; congruence).
  split; [done|]. split; [done|]. split; [done|]. split; [apply Hg|]. exists S. split; [done|].
  split; [done|].
  assert (pending S (handle (t_kcp t)) = S) as Ep.
  { unfold pending. rewrite (gr_queue _ _ _ Hg). apply app_nil_r. }
  split.
  - exists (entry_bytes S). split; [|done].
    split; [apply Hg|by rewrite Ep|by rewrite Ep].
  - eapply Forall_impl; [exact Ho|]. intros p Hp. exists 0. pose proof (Zlen_nonneg S).
    split; [lia|]. split; [done|exact Hp].
Qed.

Lemma sessions_start_inv ca cb cva cvb drawa drawb a b :
  greeting_ok ca -> greeting_ok cb -> greeting_len ca = greeting_len cb ->
  0 <= cva < 4294967296 -> 0 <= cvb < 4294967296 ->
  run_start clock_a true drawa (Task_new ca cva) = Some a ->
  run_start clock_b true drawb (Task_new cb cvb) = Some b ->
  sessions_inv (greeting_len ca) (sessions_start a b).
Proof.
  intros Hca Hcb El Hva Hvb Ea Eb _.
  destruct (session_started clock_a ca cva drawa a Hca Hva Ea) as (_ & _ & _ & _ & S & Hl & Hw).
  destruct (session_started clock_b cb cvb drawb b Hcb Hvb Eb) as (Hso & Hs & _ & (Hn & Hq & Hb) & _).
  exists S. split; [done|]. split; [constructor|]. split; [|done].
  split; [by rewrite El|]. exists 0, []. cbn [sessions_start ss_b ss_out fst snd].
  split; [|by apply read_nothing]. pose proof (Zlen_nonneg S).
  split; [by rewrite Hn|lia|by rewrite Hq|by rewrite Hb].
Qed.

Lemma sessions_inv_reachable L s s' :
  rtc (session_step) s s' -> sessions_inv L s -> sessions_inv L s'.
Proof.
  induction 1 as [|s1 s2 s3 Hs _ IH]; [done|]. intros Hi. apply IH.
  destruct Hs; [by eapply sessions_inv_writer|by eapply sessions_inv_reader].
Qed.

Lemma sessions_inv_prefix L s :
  sessions_inv L s -> has (fst (ss_b s)) FIN_RECVED = false ->
  exists fin, concat (ss_out s) `prefix_of` concat (ss_in s) ++ fin /\
    (fin = [] \/ (3 <= hs_rank (t_hs (fst (ss_a s))))%nat /\ has (fst (ss_a s)) INPUT_CLOSED = true /\
       fin = fin_frame (fst (ss_a s))).
Proof.
  intros Hi Hf. destruct (Hi Hf) as (S & (_ & (W & [_ _ HW] & Hw) & _) & _ & (_ & R & got & [_ _ Hp _] & Hr) & _).
  assert (exists rest, entry_bytes got ++ rest = W) as [rest Erest].
  { rewrite <- HW. unfold pending. rewrite <- (take_drop (Z.to_nat R) S), <- Hp, <- !app_assoc.
    rewrite entry_bytes_app. by eexists. }
  destruct Hr as [_ _ _ -> | _ -> | g Hs Hg E]; [exists []; split; [apply prefix_nil|by left]..|].
  rewrite E, <- !app_assoc in Erest. destruct Hw as [_ _ -> HI|g' f -> Hg' _ Hfin].
  - apply app_eq_nil in Erest as [_ Erest]. apply app_eq_nil in Erest as [-> _].
    exists []. split; [apply prefix_nil|by left].
  - apply app_inj_1 in Erest as [_ Erest]; [|unfold Zlen in *; lia].
    exists f. split; [|destruct Hfin as [->|(A & B & _ & C)]; [by left|by right]].
    rewrite <- Erest. by eexists.
Qed.

(** ** Running a turn

    The event is not looked at when the loop goes round without waiting. *)
Definition turn_run (clock : nat -> Z * Z) (ev : event) (s : Task * option bytes)
  : option (option event * list bytes * list bytes * list Output * (Task * option bytes)) :=
  let '(t, x) := s in
  match loop_head clock (fun _ => true) true false t with
  | Some (ps, Again, t') => Some (None, [], ps, [], (t', x))
  | Some (ps, Select _, t1) =>
      if event_enabled ev t1 x then
        match select_branch clock ev t1 x with
        | Some (out, true, x', t') => Some (Some ev, frames_taken ev t1, ps, out, (t', x'))
        | _ => None
        end
      else None
  | _ => None
  end.

Definition deliveredb (s : session_sys) (p : bytes) : bool :=
  existsb (fun np => bool_decide (snd np = p) && (Zlen (concat (ss_in s)) - fst np <? AHEAD)) (ss_net s).

Lemma turn_run_sound clock ev s ev' fs ps out s' :
  turn_run clock ev s = Some (ev', fs, ps, out, s') -> turn clock s ev' fs ps out s'.
Proof.
  unfold turn_run. destruct s as [t x].
  destruct (loop_head clock _ true false t) as [[[ps0 [| |i]] t1]|] eqn:E; [done| | |done].
  - intros [= <- <- <- <- <-]. by eapply turn_again.
  - destruct (event_enabled ev t1 x) eqn:Hen; [|done].
    destruct (select_branch clock ev t1 x) as [[[[out0 [|]] x'] t']|] eqn:Es; [|done..].
    intros [= <- <- <- <- <-]. by eapply turn_select.
Qed.

Lemma deliveredb_spec s p : deliveredb s p = true -> delivered s p.
Proof.
  unfold deliveredb. intros ([n q] & Hin & H)%existsb_exists. cbn [fst snd] in H.
  apply andb_true_iff in H as [Hq Hn]. apply bool_decide_eq_true in Hq as ->.
  exists n. split; [by apply list_elem_of_In|lia].
Qed.

End Sessions.
