(* ===== verification/Programs.v ===== *)
(** Two programs, each with its [KcpStream], the channels between stream and task, the task, and
    the network between the tasks: what one reads is what the other wrote. *)
From Stdlib Require Import Strings.Byte.
From stdpp Require Import relations.
From S2P Require Import Prelude Bytes IkcpTypes IkcpSend IkcpInput IkcpFlush IkcpFlushSpec.
From S2P Require Import IkcpInv Wire Delivery Network Progress Exchange Protocol ProtocolSpec Config.
From S2P Require Import Stream StreamIo StreamSpec StreamSafe StreamWire Handshake Session Calls.
From S2P Require Import TaskCalls Sessions.

Section Programs.
Context {BM : BytesMut} {BML : BytesMutLaws BM}.

(** ** One end

    [pg_task] is the session's task with its kept frame.  [pg_stream] is the stream the program
    has, once [connect] or [accept] has returned.  [pg_inq] and [pg_outq] are what the channels
    hold, [pg_net] every packet put on the transport.  The last four are histories: the frames the
    task took and gave, the bytes the program's writes have accepted and its reads have returned.
    [pg_net] and [pg_mark] count as [ss_net] and [ss_mark] do. *)
Record side := mkSide {
  pg_task : Task * option bytes;
  pg_stream : option KcpStream;
  pg_inq : list bytes;
  pg_outq : list Output;
  pg_net : list (Z * bytes);
  pg_mark : Z;
  pg_in : list bytes;
  pg_out : list bytes;
  pg_written : bytes;
  pg_read : bytes
}.
#[export] Instance eta_side : Eta side := fun s =>
  mkSide (pg_task s) (pg_stream s) (pg_inq s) (pg_outq s) (pg_net s) (pg_mark s) (pg_in s)
    (pg_out s) (pg_written s) (pg_read s).

Definition side_start (t : Task) : side := mkSide (t, None) None [] [] [] 0 [] [] [] [].
Definition side_config (s : side) : KcpConfig := t_config (fst (pg_task s)).

(** What the program does: it opens the stream, writes and reads through [AsyncWrite],
    [AsyncRead], [Sink] and [Stream], and closes.  A [Sink] has frames that fit; a buffer is
    shorter than 2^31 bytes. *)
Inductive program_step (s : side) : side -> Prop :=
| prog_open o q st d :
    pg_stream s = None -> pg_outq s = o :: q ->
    wait_connection (Some o) (KcpStream_new (side_config s)) = (Ok st, d) ->
    program_step s (s <| pg_stream := Some st |> <| pg_outq := q |>)
| prog_write st buf ready send_ok r sent :
    pg_stream s = Some st -> Zlen buf < 2147483648 ->
    poll_write buf ready send_ok st = (r, sent) ->
    program_step s (s <| pg_inq := pg_inq s ++ sent |> <| pg_written := pg_written s ++ concat sent |>)
| prog_send st item sent :
    pg_stream s = Some st -> Zlen item <= max_frame_size (cfg_mtu (KcpStream_config st)) ->
    Zlen item < 2147483648 -> KcpStream_start_send sent = Ok tt ->
    program_step s (s <| pg_inq := pg_inq s ++ [item] |> <| pg_written := pg_written s ++ item |>)
| prog_read st n closed p put q st' :
    pg_stream s = Some st -> 0 <= n -> poll_read n (pg_outq s) closed st = (p, put, q, st') ->
    program_step s (s <| pg_stream := Some st' |> <| pg_outq := q |> <| pg_read := pg_read s ++ put |>)
| prog_next st closed p q st' :
    pg_stream s = Some st -> poll_next (pg_outq s) closed st = (p, q, st') ->
    program_step s (s <| pg_stream := Some st' |> <| pg_outq := q |>
      <| pg_read := pg_read s ++ match p with Ready (Some b) => b | _ => [] end |>)
| prog_close st st' d :
    pg_stream s = Some st ->
    st' = shutdown_immediately st \/ st' = snd (poll_close d st) \/ st' = KcpStream_drop st ->
    program_step s (s <| pg_stream := Some st' |>).

(** The two ends of a direction, seen as sessions. *)
Definition direction (a b : side) : session_sys :=
  mkSessions (pg_task a) (pg_task b) (pg_net a) (pg_mark a) (pg_in a) (pg_out b).

(** What an event takes from the input channel at most. *)
Definition offered (ev : option event) : list bytes :=
  match ev with Some (EvInput (Some f) more _) => f :: more | _ => [] end.

(** A turn of the task of [self]: frames come from the input channel, packets from the network of
    [peer], which delivers nothing too old, and the writer is not too far ahead. *)
Inductive task_turn (clock : nat -> Z * Z) (self peer : side) : side -> Prop :=
| one_turn ev fs ps out t' inq :
    turn clock (pg_task self) ev fs ps out t' ->
    offered ev `prefix_of` pg_inq self -> pg_inq self = fs ++ inq ->
    Forall (delivered (direction peer self)) (default [] (option_map packets_of ev)) ->
    Zlen (concat (pg_in self ++ fs)) - Zlen (concat (pg_out peer)) < AHEAD ->
    task_turn clock self peer
      (mkSide t' (pg_stream self) inq (pg_outq self ++ out)
         (pg_net self ++ map (pair (pg_mark self)) ps) (Zlen (concat (pg_out peer)))
         (pg_in self ++ fs) (pg_out self ++ frames out) (pg_written self) (pg_read self)).

(** ** What holds at one end *)

Definition unread_here (s : side) : bytes :=
  unread (pg_outq s) (default (KcpStream_new (side_config s)) (pg_stream s)).

(** A frame in the input channel is there since the session was connected. *)
Definition queued_ok (t : Task) (f : bytes) : Prop :=
  t_hs t <> Syn /\ Zlen f <= max_frame_size (cfg_mtu (t_config t)) /\ Zlen f < 2147483648.

Record side_ok (s : side) : Prop := {
  si_written : pg_written s = concat (pg_in s) ++ concat (pg_inq s);
  si_read : concat (pg_out s) = pg_read s ++ unread_here s;
  si_queue : Forall (queued_ok (fst (pg_task s))) (pg_inq s);
  si_opened : forall c, OutConnected c ∈ pg_outq s -> t_hs (fst (pg_task s)) <> Syn;
  si_stream : forall st, pg_stream s = Some st -> t_hs (fst (pg_task s)) <> Syn /\
    ks_config st = side_config s /\ (forall b, ks_read_buf st = Some b -> b <> [])
}.

Lemma side_start_ok t : side_ok (side_start t).
Proof. split; try done. by intros c ?%elem_of_nil. Qed.

Lemma concat_frames out : concat (frames out) = concat (map frame_bytes out).
Proof.
  induction out as [|[c|f] out IH]; [done| |]; unfold frames in *; cbn [omap list_omap map concat frame_bytes].
  - exact IH.
  - by rewrite IH.
Qed.

Lemma unread_app q out st : unread (q ++ out) st = unread q st ++ concat (map frame_bytes out).
Proof. unfold unread. by rewrite map_app, concat_app, app_assoc. Qed.

(** *** Turns *)

Lemma reserve_more_frames permits t : forall c, ~ OutConnected c ∈ fst (fst (reserve_more permits t)).
Proof.
  revert t. induction permits as [|n IH]; intros t c; cbn [reserve_more];
    destruct (Task_kcp_recv t) as [[f|] t1]; try by intros ?%elem_of_nil.
  specialize (IH t1 c). destruct (reserve_more n t1) as [[out tx] t2]. cbn [fst] in *.
  by intros [|]%elem_of_cons.
Qed.

(** The number of the session is given out with the handshake behind it. *)
Lemma turn_connects clock s ev fs ps out s' c :
  turn clock s ev fs ps out s' -> OutConnected c ∈ out -> t_hs (fst s') <> Syn.
Proof.
  intros [|feed fl t x ps0 i t1 ev0 out0 x' t' _ _ Es|] Hc; [by apply elem_of_nil in Hc| |by apply elem_of_nil in Hc].
  cbn [fst]. revert Es. destruct ev0 as [first more d|[|] n|[p|] more tx| |]; cbn [select_branch]; try done.
  - destruct (on_input clock first more d t1); [|done]. intros [= <- _ _]. by apply elem_of_nil in Hc.
  - pose proof (reserve_more_frames n t1 c) as Hr. destruct (reserve_more n t1) as [[o tx] t2].
    cbn [fst] in Hr. intros [= <- _ _]. apply elem_of_app in Hc as [Hc|]; [|done].
    destruct x; [by apply list_elem_of_singleton in Hc|by apply elem_of_nil in Hc].
  - rewrite on_transport_eq. destruct (input_packets _ _ _) as [t2|]; [|done].
    destruct (after_input clock tx t2) as [[o t3]|] eqn:Ea; [|done]. unfold after_input in Ea.
    intros E. assert (o = out0 /\ t_hs t' = t_hs t3) as [-> Eh].
    { destruct x as [f|].
      - injection E as -> _ <-. split; [done|]. apply (steady_flush clock t3).
      - pose proof (steady_recv t3) as [_ Hs _]. destruct (Task_kcp_recv t3) as [f t4]. cbn [snd] in Hs.
        injection E as -> _ <-. split; [done|]. rewrite <- Hs. apply (steady_flush clock t4). }
    rewrite Eh. destruct (decide (t_hs t2 = Syn)) as [Hs|Hs].
    + destruct (syn_handshake_recv clock tx t2) as [[[ok o] t4]|] eqn:Er; [|done].
      pose proof (syn_handshake_recv_spec clock tx t2 ok o t4 Hs Er) as Hspec.
      injection Ea as -> <-. destruct (fst (Task_kcp_recv t2)) as [syn|].
      * destruct Hspec as (_ & _ & Hn). destruct (decide (t_hs t4 = Connected)) as [Hh|Hh].
        -- destruct ok; [congruence|by rewrite t_hs_set_handshake].
        -- destruct (Hn Hh) as [_ ->]. by apply elem_of_nil in Hc.
      * destruct Hspec as (_ & -> & _). by apply elem_of_nil in Hc.
    + destruct (is_fin_handshake t2); [destruct (fin_transit_state clock t2); [|done]|];
        injection Ea as <- <-; by apply elem_of_nil in Hc.
  - intros [= <- _ _]. by apply elem_of_nil in Hc.
Qed.

Lemma writes_ok_queue ev t q :
  Forall (queued_ok t) q -> offered ev `prefix_of` q -> writes_ok ev t.
Proof.
  intros Hq [r ->]. destruct ev as [[[f|] more d| | | |]|]; try done. cbn [offered writes_ok] in *.
  apply Forall_app in Hq as [Hq _]. split; [by apply Forall_inv in Hq as [? _]|].
  eapply Forall_impl; [exact Hq|]. by intros g (_ & ? & ?).
Qed.

Lemma task_turn_ok clock self peer self' :
  task_turn clock self peer self' -> side_ok self -> side_ok self'.
Proof.
  intros [ev fs ps out t' inq Ht _ Eq _ _] [Hw Hr Hq Ho Hs].
  pose proof (turn_forward _ _ _ _ _ _ _ Ht) as F.
  assert (t_config (fst t') = t_config (fst (pg_task self))) as Ec by apply F.
  split; unfold side_config, unread_here, side_config in *;
    cbn [pg_task pg_stream pg_inq pg_outq pg_in pg_out pg_written pg_read] in *.
  - by rewrite Hw, Eq, !concat_app, app_assoc.
  - by rewrite Ec, concat_app, Hr, unread_app, concat_frames, app_assoc.
  - rewrite Eq in Hq. apply Forall_app in Hq as [_ Hq]. eapply Forall_impl; [exact Hq|].
    intros f (A & B & C). split; [by eapply hs_not_syn|]. by rewrite Ec.
  - intros c [Hc|Hc]%elem_of_app; [eapply hs_not_syn; [exact F|by eapply Ho]|by eapply turn_connects].
  - intros st Est. destruct (Hs st Est) as (A & B & C). split; [by eapply hs_not_syn|]. by rewrite Ec.
Qed.

(** *** The program's calls *)

Lemma next_reads st rx closed p rx' st' :
  poll_next rx closed st = (p, rx', st') ->
  unread rx st = (match p with Ready (Some b) => b | _ => [] end) ++ unread rx' st' /\
  ks_config st' = ks_config st /\
  (forall b, ks_read_buf st' = Some b -> ks_read_buf st = Some b) /\
  (forall o, o ∈ rx' -> o ∈ rx).
Proof.
  unfold poll_next, unread. destruct (ks_read_buf st) as [b|] eqn:Eb.
  - intros [= <- <- <-]. simp_upd. done.
  - pose proof (next_frame_spec rx closed) as H.
    assert (forall o, o ∈ snd (next_frame rx closed) -> o ∈ rx) as Hsub.
    { clear. induction rx as [|[c|f] rx IH]; cbn [next_frame]; intros o Ho; [by destruct closed| |by right].
      right. by apply IH. }
    destruct (next_frame rx closed) as [q rx1]. intros [= <- <- <-]. rewrite Eb. cbn [default snd] in *.
    destruct H as [_ H]. destruct q as [[f|]|].
    + destruct H as [_ ->]. done.
    + destruct H as (_ & -> & ->). done.
    + destruct H as (_ & -> & ->). done.
Qed.

Lemma fill_keeps fuel rx closed st :
  let '(_, rx', st') := fill_read_buf fuel rx closed st in
  ks_config st' = ks_config st /\ forall o, o ∈ rx' -> o ∈ rx.
Proof.
  revert rx st. induction fuel as [|fuel IH]; intros rx st; cbn [fill_read_buf];
    (destruct (ks_read_buf st) as [b|] eqn:Eb; [done|]); [done|].
  destruct (poll_next rx closed st) as [[p rx1] st1] eqn:E.
  destruct (next_reads _ _ _ _ _ _ E) as (_ & Ec & _ & Hs).
  destruct p as [[chunk|]|]; [|by rewrite Ec..].
  set (st2 := match chunk with [] => _ | _ => _ end).
  assert (ks_config st2 = ks_config st1) as E2 by (unfold st2; by destruct chunk).
  specialize (IH rx1 st2). destruct (fill_read_buf fuel rx1 closed st2) as [[r rx2] st3].
  destruct IH as [-> H]. rewrite E2, Ec. split; [done|]. intros o Ho. by apply Hs, H.
Qed.

Lemma read_keeps n rx closed st p put rx' st' :
  poll_read n rx closed st = (p, put, rx', st') ->
  ks_config st' = ks_config st /\ forall o, o ∈ rx' -> o ∈ rx.
Proof.
  unfold poll_read. destruct (_ =? _); [by intros [= _ _ <- <-]|].
  pose proof (fill_keeps (S (length rx)) rx closed st) as H.
  destruct (fill_read_buf _ rx closed st) as [[[r|] rx1] st1]; [by intros [= _ _ <- <-]|].
  destruct (ks_read_buf st1); [|by intros [= _ _ <- <-]].
  intros [= _ _ <- <-]. destruct H as [<- H]. split; [|done]. by destruct (_ <? _).
Qed.

(** What a write puts in the channel. *)
Lemma write_fits buf ready send_ok st r sent :
  poll_write buf ready send_ok st = (r, sent) -> Zlen buf < 2147483648 ->
  Forall (fun f => Zlen f <= max_frame_size (cfg_mtu (ks_config st)) /\ Zlen f < 2147483648) sent.
Proof.
  intros E Hl. destruct (decide (max_frame_size (cfg_mtu (ks_config st)) = 0)) as [Hz|Hz].
  - revert E. unfold poll_write. rewrite Hz. destruct buf; by intros [= _ <-].
  - pose proof (poll_write_spec buf ready send_ok st Hz) as H. rewrite E in H. destruct H as [Hf Hr].
    assert (Zlen (concat sent) < 2147483648) as Hc.
    { destruct r as [[n|e|]|]; [|destruct Hr as [_ ->]|done|subst sent]; [|done..].
      destruct Hr as (-> & _ & _). unfold Zlen in *. rewrite length_take. lia. }
    clear - Hf Hc. induction Hf as [|f l [_ Hf] _ IH]; [done|]. cbn [concat] in Hc. rewrite Zlen_app in Hc.
    pose proof (Zlen_nonneg f). pose proof (Zlen_nonneg (concat l)).
    constructor; [split; [done|lia]|apply IH; lia].
Qed.

Lemma side_ok_wrote s sent put :
  side_ok s -> t_hs (fst (pg_task s)) <> Syn -> concat sent = put ->
  Forall (fun f => Zlen f <= max_frame_size (cfg_mtu (side_config s)) /\ Zlen f < 2147483648) sent ->
  side_ok (s <| pg_inq := pg_inq s ++ sent |> <| pg_written := pg_written s ++ put |>).
Proof.
  intros [Hw Hr Hq Ho Hs] Hh <- Hf. split; unfold unread_here, side_config in *; simp_upd; try done.
  - by rewrite Hw, concat_app, app_assoc.
  - apply Forall_app. split; [done|]. eapply Forall_impl; [exact Hf|]. by intros f [? ?].
Qed.

Lemma side_ok_reads s st st' q put :
  side_ok s -> pg_stream s = Some st -> ks_config st' = ks_config st ->
  (forall o, o ∈ q -> o ∈ pg_outq s) -> (forall b, ks_read_buf st' = Some b -> b <> []) ->
  unread (pg_outq s) st = put ++ unread q st' ->
  side_ok (s <| pg_stream := Some st' |> <| pg_outq := q |> <| pg_read := pg_read s ++ put |>).
Proof.
  intros [Hw Hr Hq Ho Hs] Est Ec Hsub Hb Hu. destruct (Hs st Est) as (A & B & C).
  unfold unread_here, side_config in *. rewrite Est in Hr. cbn [default id] in Hr.
  split; unfold unread_here, side_config; simp_upd; try done.
  - by rewrite Hr, Hu, app_assoc.
  - intros ? [= <-]. by rewrite Ec.
Qed.

Lemma program_step_ok s s' : program_step s s' -> side_ok s -> side_ok s'.
Proof.
  intros Hstep Hok. pose proof Hok as [_ _ _ Ho Hs].
  destruct Hstep as [o q st d Est Eq Ew|st buf ready so r sent Est Hl Ew|st item sent Est Hm Hl _
    |st n closed p put q st' Est Hn Er|st closed p q st' Est Er|st st' d Est Hst'].
  - destruct o as [c|f]; [|done]. injection Ew as <- _. destruct Hok as [Hw Hr Hq _ _].
    assert (t_hs (fst (pg_task s)) <> Syn) as Hh by (apply (Ho c); rewrite Eq; left).
    unfold unread_here, side_config in *. rewrite Est, Eq in Hr.
    split; unfold unread_here, side_config; simp_upd; try done.
    by intros ? [= <-].
  - destruct (Hs st Est) as (A & B & C). apply side_ok_wrote; [done..|].
    rewrite <- B. by eapply write_fits.
  - destruct (Hs st Est) as (A & B & C). apply side_ok_wrote; [done..|apply app_nil_r|].
    constructor; [|done]. by rewrite <- B.
  - destruct (Hs st Est) as (A & B & C). destruct (read_keeps _ _ _ _ _ _ _ _ Er) as [Ec Hsub].
    pose proof (poll_read_spec n (pg_outq s) closed st Hn C) as H. rewrite Er in H.
    destruct H as (Hu & _ & Hb & _). by apply (side_ok_reads s st).
  - destruct (Hs st Est) as (A & B & C). destruct (next_reads _ _ _ _ _ _ Er) as (Hu & Ec & Hb & Hsub).
    apply (side_ok_reads s st); try done. auto.
  - destruct (Hs st Est) as (A & B & C). replace (s <| pg_stream := Some st' |>) with
      (s <| pg_stream := Some st' |> <| pg_outq := pg_outq s |> <| pg_read := pg_read s ++ [] |>)
      by (destruct s; cbn; by rewrite app_nil_r).
    assert (ks_config st' = ks_config st /\ ks_read_buf st' = ks_read_buf st) as [E1 E2]
      by (destruct Hst' as [-> |[-> | ->]]; done).
    apply (side_ok_reads s st); try done; [by rewrite E2|unfold unread; by rewrite E2].
Qed.

(** ** The two ends together *)

Section System.
Context (clock_a clock_b : nat -> Z * Z).

Inductive pair_step : side * side -> side * side -> Prop :=
| pair_program_a a b a' : program_step a a' -> pair_step (a, b) (a', b)
| pair_program_b a b b' : program_step b b' -> pair_step (a, b) (a, b')
| pair_turn_a a b a' : task_turn clock_a a b a' -> pair_step (a, b) (a', b)
| pair_turn_b a b b' : task_turn clock_b b a b' -> pair_step (a, b) (a, b').

Definition pair_ok (L : Z) (s : side * side) : Prop :=
  side_ok (fst s) /\ side_ok (snd s) /\
  sessions_inv L (direction (fst s) (snd s)) /\ sessions_inv L (direction (snd s) (fst s)).

(** A turn is a writer's turn in one direction and a reader's turn in the other. *)
Lemma task_turn_sessions (clock clock' : nat -> Z * Z) L self peer self' :
  task_turn clock self peer self' -> side_ok self ->
  sessions_inv L (direction self peer) -> sessions_inv L (direction peer self) ->
  sessions_inv L (direction self' peer) /\ sessions_inv L (direction peer self').
Proof.
  intros [ev fs ps out t' inq Ht Hoff Eq Hdel Hah] Hok H1 H2.
  pose proof (writes_ok_queue ev _ _ (si_queue _ Hok) Hoff) as Hw. split.
  - refine (sessions_inv_reachable clock clock' L _ _ (rtc_once _ _ _) H1).
    apply (session_writer clock clock' (direction self peer) ev fs ps out t'); done.
  - refine (sessions_inv_reachable clock' clock L _ _ (rtc_once _ _ _) H2).
    apply (session_reader clock' clock (direction peer self) ev fs ps out t'); done.
Qed.

Lemma program_step_kept s s' :
  program_step s s' -> pg_task s' = pg_task s /\ pg_net s' = pg_net s /\ pg_mark s' = pg_mark s /\
    pg_in s' = pg_in s /\ pg_out s' = pg_out s.
Proof. by intros []. Qed.

Lemma program_step_directions s s' peer :
  program_step s s' -> direction s' peer = direction s peer /\ direction peer s' = direction peer s.
Proof.
  intros (E1 & E2 & E3 & E4 & E5)%program_step_kept. unfold direction.
  by rewrite E1, E2, E3, E4, E5.
Qed.

Lemma pair_step_ok L s s' : pair_step s s' -> pair_ok L s -> pair_ok L s'.
Proof.
  unfold pair_ok. intros [a b a' H|a b b' H|a b a' H|a b b' H] (Ha & Hb & H1 & H2); cbn [fst snd] in *.
  - destruct (program_step_directions a a' b H) as [-> ->]. pose proof (program_step_ok a a' H Ha). done.
  - destruct (program_step_directions b b' a H) as [-> ->]. pose proof (program_step_ok b b' H Hb). done.
  - destruct (task_turn_sessions clock_a clock_b L a b a' H Ha H1 H2).
    pose proof (task_turn_ok clock_a a b a' H Ha). done.
  - destruct (task_turn_sessions clock_b clock_a L b a b' H Hb H2 H1).
    pose proof (task_turn_ok clock_b b a b' H Hb). done.
Qed.

Lemma pair_reachable_ok L s s' : rtc pair_step s s' -> pair_ok L s -> pair_ok L s'.
Proof. induction 1 as [|s1 s2 s3 Hs _ IH]; [done|]. intros Hi. by eapply IH, pair_step_ok. Qed.

(** What was read of what was written, in one direction, until the reading session has the FIN
    mark: a prefix of what the program wrote, or, once the writing session's input is over and it
    has sent its FIN frame, of what its task took followed by that very frame. *)
Definition reads_what_was_written (a b : side) : Prop :=
  has (fst (pg_task b)) FIN_RECVED = false ->
  pg_read b `prefix_of` pg_written a \/
  (3 <= hs_rank (t_hs (fst (pg_task a))))%nat /\ has (fst (pg_task a)) INPUT_CLOSED = true /\
  concat (pg_in a) `prefix_of` pg_written a /\
  pg_read b `prefix_of` concat (pg_in a) ++ fin_frame (fst (pg_task a)).

Lemma direction_delivers L a b :
  side_ok a -> side_ok b -> sessions_inv L (direction a b) -> reads_what_was_written a b.
Proof.
  intros Ha Hb Hi Hf. destruct (sessions_inv_prefix L _ Hi Hf) as (fin & Hp & Hfin).
  cbn [direction ss_a ss_in ss_out] in *. rewrite (si_read b Hb) in Hp.
  assert (pg_read b `prefix_of` concat (pg_in a) ++ fin) as Hr
    by (transitivity (pg_read b ++ unread_here b); [by eexists|done]).
  assert (concat (pg_in a) `prefix_of` pg_written a) as Ht by (rewrite (si_written a Ha); by eexists).
  destruct Hfin as [->|(A & B & ->)]; [left|by right].
  rewrite app_nil_r in Hr. by transitivity (concat (pg_in a)).
Qed.
End System.

(** ** Running two programs

    [pair_run] plays a list of operations, each for the end its boolean names, [true] for the
    first; the event of a turn may depend on both ends. *)
Inductive pair_op :=
| OpTurn (ev : side -> side -> event)
| OpOpen
| OpWrite (buf : bytes)
| OpRead (n : Z).

Definition turn_op (clock : nat -> Z * Z) (ev : event) (self peer : side) : option side :=
  match turn_run clock ev (pg_task self) with
  | Some (ev, fs, ps, out, t') =>
      if bool_decide (offered ev `prefix_of` pg_inq self)
         && bool_decide (fs = take (length fs) (pg_inq self))
         && forallb (deliveredb (direction peer self)) (default [] (option_map packets_of ev))
         && (Zlen (concat (pg_in self ++ fs)) - Zlen (concat (pg_out peer)) <? AHEAD)
      then Some (mkSide t' (pg_stream self) (drop (length fs) (pg_inq self)) (pg_outq self ++ out)
             (pg_net self ++ map (pair (pg_mark self)) ps) (Zlen (concat (pg_out peer)))
             (pg_in self ++ fs) (pg_out self ++ frames out) (pg_written self) (pg_read self))
      else None
  | None => None
  end.

(** A write finds room in the channel. *)
Definition pair_op_run (clock : nat -> Z * Z) (op : pair_op) (self peer : side) : option side :=
  match op, pg_stream self with
  | OpTurn ev, _ => turn_op clock (ev self peer) self peer
  | OpOpen, None =>
      match pg_outq self with
      | o :: q =>
          match wait_connection (Some o) (KcpStream_new (side_config self)) with
          | (Ok st, _) => Some (self <| pg_stream := Some st |> <| pg_outq := q |>)
          | _ => None
          end
      | [] => None
      end
  | OpWrite buf, Some st =>
      let sent := snd (poll_write buf (fun _ => Ready true) (fun _ => true) st) in
      if Zlen buf <? 2147483648
      then Some (self <| pg_inq := pg_inq self ++ sent |> <| pg_written := pg_written self ++ concat sent |>)
      else None
  | OpRead n, Some st =>
      let '(_, put, q, st') := poll_read n (pg_outq self) false st in
      if 0 <=? n
      then Some (self <| pg_stream := Some st' |> <| pg_outq := q |> <| pg_read := pg_read self ++ put |>)
      else None
  | _, _ => None
  end.

Lemma turn_op_sound clock ev self peer self' :
  turn_op clock ev self peer = Some self' -> task_turn clock self peer self'.
Proof.
  unfold turn_op. destruct (turn_run clock ev (pg_task self)) as [[[[[ev1 fs] ps] out] t']|] eqn:E; [|done].
  destruct (_ && _) eqn:Hc; [|done]. intros [= <-].
  apply andb_true_iff in Hc as [Hc Ha]. apply andb_true_iff in Hc as [Hc Hd].
  apply andb_true_iff in Hc as [Ho%bool_decide_eq_true Hf%bool_decide_eq_true].
  eapply one_turn; [by eapply turn_run_sound|done| | |lia].
  - rewrite Hf at 1. by rewrite take_drop.
  - apply Forall_forall. intros p Hp. apply list_elem_of_In in Hp. rewrite forallb_forall in Hd.
    by apply deliveredb_spec, Hd.
Qed.

Lemma pair_op_sound clock op self peer self' :
  pair_op_run clock op self peer = Some self' ->
  program_step self self' \/ task_turn clock self peer self'.
Proof.
  unfold pair_op_run. destruct op as [ev| |buf|n]; [intros H; right; by eapply turn_op_sound|..];
    destruct (pg_stream self) as [st|] eqn:Est; try done.
  - destruct (pg_outq self) as [|o q] eqn:Eq; [done|].
    destruct (wait_connection (Some o) _) as [[st'|e|] d] eqn:Ew; [|done..]. intros [= <-]. left.
    by eapply prog_open.
  - destruct (Z.ltb_spec (Zlen buf) 2147483648); [|done]. intros [= <-]. left.
    eapply prog_write; [done|done|apply surjective_pairing].
  - destruct (poll_read n (pg_outq self) false st) as [[[p put] q] st'] eqn:Er.
    destruct (Z.leb_spec 0 n); [|done]. intros [= <-]. left. by eapply prog_read.
Qed.

Section Run.
Context (clock_a clock_b : nat -> Z * Z).

Fixpoint pair_run (script : list (bool * pair_op)) (s : side * side) : option (side * side) :=
  match script with
  | [] => Some s
  | (first, op) :: script =>
      let '(a, b) := s in
      match (if (first : bool) then option_map (fun a => (a, b)) (pair_op_run clock_a op a b)
             else option_map (pair a) (pair_op_run clock_b op b a)) with
      | Some s => pair_run script s
      | None => None
      end
  end.

Lemma pair_run_sound script s s' :
  pair_run script s = Some s' -> rtc (pair_step clock_a clock_b) s s'.
Proof.
  revert s. induction script as [|[[|] op] script IH]; intros [a b]; cbn [pair_run]; [by intros [= <-]|..].
  - destruct (pair_op_run clock_a op a b) as [a'|] eqn:E; [|done]. cbn [option_map]. intros Hr.
    apply (rtc_l _ _ (a', b)); [|by apply IH].
    destruct (pair_op_sound _ _ _ _ _ E); [by apply pair_program_a|by apply pair_turn_a].
  - destruct (pair_op_run clock_b op b a) as [b'|] eqn:E; [|done]. cbn [option_map]. intros Hr.
    apply (rtc_l _ _ (a, b')); [|by apply IH].
    destruct (pair_op_sound _ _ _ _ _ E); [by apply pair_program_b|by apply pair_turn_b].
Qed.
End Run.
End Programs.

(** C2: What one program reads from its stream is what the other wrote to its own: two programs
    open, write, read and close as they like, their sessions' tasks run, and the network between
    the tasks loses, repeats, delays and reorders packets.  At all times, in each direction and
    until the reading session has the FIN mark, the bytes the reads have returned are a prefix of
    the bytes the writes have accepted; when the writing session has sent its FIN frame they may
    go on, behind all its task took of those, with that frame and nothing else: the session key
    and the session's identifier. *)
Theorem program_delivery {BM : BytesMut} {BML : BytesMutLaws BM} (clock_a clock_b : nat -> Z * Z)
    ca cb cva cvb drawa drawb a b s :
  greeting_ok ca -> greeting_ok cb -> greeting_len ca = greeting_len cb ->
  0 <= cva < 4294967296 -> 0 <= cvb < 4294967296 ->
  run_start clock_a true drawa (Task_new ca cva) = Some a ->
  run_start clock_b true drawb (Task_new cb cvb) = Some b ->
  rtc (pair_step clock_a clock_b) (side_start a, side_start b) s ->
  reads_what_was_written (fst s) (snd s) /\ reads_what_was_written (snd s) (fst s).
Proof.
  intros Hca Hcb El Hva Hvb Ea Eb Hrtc.
  assert (pair_ok (greeting_len ca) s) as (Ha & Hb & H1 & H2).
  { eapply (pair_reachable_ok clock_a clock_b); [exact Hrtc|].
    split; [apply side_start_ok|]. split; [apply side_start_ok|]. split.
    - by apply (sessions_start_inv clock_a clock_b ca cb cva cvb drawa drawb).
    - rewrite El. by apply (sessions_start_inv clock_b clock_a cb ca cvb cva drawb drawa). }
  split; by eapply direction_delivers.
Qed.

(** ** Two programs at work *)
#[local] Existing Instance list_bytes_mut.
#[local] Existing Instance list_bytes_mut_laws.

Definition demo_hears (self peer : side) : event :=
  match map snd (pg_net peer) with p :: ps => EvTransport (Some p) ps true | [] => EvSleep end.
Definition demo_takes (self peer : side) : event :=
  match pg_inq self with f :: more => EvInput (Some f) more false | [] => EvSleep end.
Definition demo_sleeps (self peer : side) : event := EvSleep.

Definition demo_gives (self peer : side) : event := EvReserve true 2.

(** The client and the server connect and each writes; the server reads, then the client. *)
Definition demo_talk : list (bool * pair_op) :=
  let turn who f := (who, OpTurn f) in
  [turn true demo_sleeps; turn false demo_hears; turn false demo_sleeps; turn true demo_hears;
   (true, OpOpen); (false, OpOpen); (true, OpWrite [x68; x69]); (false, OpWrite [x79; x6f]);
   turn true demo_takes; turn false demo_takes; turn true demo_takes; turn false demo_takes] ++
  repeat (turn true demo_sleeps) 8 ++
  [turn false demo_hears; turn false demo_hears; turn false demo_gives; (false, OpRead 10)] ++
  repeat (turn false demo_sleeps) 12 ++
  [turn true demo_hears; turn true demo_hears; turn true demo_gives; (true, OpRead 10)].

Definition demo_end (cv : Z) : Task :=
  default (Task_new demo_config cv) (run_start demo_clock true demo_draw (Task_new demo_config cv)).
Definition demo_before : side * side := (side_start (demo_end SYN_CONV), side_start (demo_end 7)).
Definition demo_after : side * side :=
  default demo_before (pair_run demo_clock demo_clock demo_talk demo_before).

Definition is_some {A} (o : option A) : bool := match o with Some _ => true | None => false end.

Lemma default_is_some {A} (d : A) o : is_some o = true -> o = Some (default d o).
Proof. by destruct o. Qed.

Lemma demo_ends_started cv :
  cv = SYN_CONV \/ cv = 7 ->
  run_start demo_clock true demo_draw (Task_new demo_config cv) = Some (demo_end cv).
Proof. intros Hcv. apply default_is_some. destruct Hcv as [-> | ->]; by vm_compute. Qed.

Lemma demo_after_reached : rtc (pair_step demo_clock demo_clock) demo_before demo_after.
Proof.
  apply (pair_run_sound _ _ demo_talk). apply default_is_some. by vm_compute.
Qed.

Lemma demo_after_facts :
  pg_written (fst demo_after) = [x68; x69] /\ pg_read (snd demo_after) = [x68; x69] /\
  pg_written (snd demo_after) = [x79; x6f] /\ pg_read (fst demo_after) = [x79; x6f] /\
  has (fst (pg_task (fst demo_after))) FIN_RECVED = false /\
  has (fst (pg_task (snd demo_after))) FIN_RECVED = false /\ greeting_ok demo_config.
Proof. vm_compute. repeat split; congruence. Qed.

#[local] Opaque demo_after demo_end.

Lemma program_delivery_witness :
  pg_read (snd demo_after) = [x68; x69] /\ pg_read (fst demo_after) = [x79; x6f] /\
  has (fst (pg_task (fst demo_after))) FIN_RECVED = false /\
  has (fst (pg_task (snd demo_after))) FIN_RECVED = false /\
  reads_what_was_written (fst demo_after) (snd demo_after) /\
  reads_what_was_written (snd demo_after) (fst demo_after).
Proof.
  destruct demo_after_facts as (_ & Hb & _ & Ha & Hf & Hf' & Hc).
  split; [exact Hb|]. split; [exact Ha|]. split; [exact Hf|]. split; [exact Hf'|].
  apply (program_delivery demo_clock demo_clock demo_config demo_config SYN_CONV 7 demo_draw demo_draw
    (demo_end SYN_CONV) (demo_end 7) demo_after Hc Hc eq_refl ltac:(unfold SYN_CONV; lia) ltac:(lia)).
  - apply demo_ends_started. by left.
  - apply demo_ends_started. by right.
  - exact demo_after_reached.
Defined.
