(* ===== verification/Marked.v ===== *)
(** Packets with the FIN mark: what goes on the transport when a session ends, that the mark
    comes with the FIN frame and with no other data, and that a reader whose window is open takes
    that frame when it sees the mark. *)
From S2P Require Import Prelude Bytes IkcpTypes IkcpSend IkcpInput IkcpFlush IkcpFlushSpec.
From S2P Require Import IkcpInv Wire Delivery Network Progress Exchange Acks Rounds Acked.
From S2P Require Import Protocol ProtocolSpec Stream StreamSafe StreamWire Calls TaskCalls.

(** ** Packets with the FIN mark *)

(** No control block takes it. *)
Definition refused (p : bytes) : Prop := forall k, snd (ikcp_input k p) = k.

(** The first header names a command of the protocol. *)
Definition clean (p : bytes) : Prop :=
  24 <= Zlen p /\ 81 <= h_cmd (snd (ikcp_decode_header p)) <= 84.

Lemma flag_bits cmd : 81 <= cmd <= 84 -> Z.land cmd KCP_FIN = 0 /\ Z.land cmd KCP_RESET = 0.
Proof.
  intros Hc. assert (cmd = 81 \/ cmd = 82 \/ cmd = 83 \/ cmd = 84) as H by lia.
  by destruct H as [-> | [-> | [-> | ->]]].
Qed.

Lemma fin_bit cmd : Z.land cmd KCP_FIN <> 0 -> ~ (81 <= cmd <= 84).
Proof. intros Hf Hc. by destruct (flag_bits cmd Hc). Qed.

Lemma clean_not_marked p : clean p -> ~ fin_marked p.
Proof.
  intros [Hl Hc] (cmd & Er & Hm). rewrite read_cmd_header in Er by done. injection Er as <-.
  by apply fin_bit in Hm.
Qed.

Lemma clean_not_reset p : clean p -> ~ reset_marked p.
Proof.
  intros [Hl Hc] (cmd & Er & Hm). rewrite read_cmd_header in Er by done. injection Er as <-.
  by destruct (flag_bits _ Hc).
Qed.

Lemma fin_marked_refused p : fin_marked p -> refused p.
Proof.
  intros (cmd & Er & Hm) k. unfold ikcp_input. destruct (_ <? _) eqn:Es; [done|].
  destruct (Z.ltb_spec (Zlen p) 24) as [Hl|Hl].
  { unfold IKCP_OVERHEAD in Es. pose proof (Zlen_nonneg p). rewrite i32_small in Es by lia. lia. }
  rewrite read_cmd_header in Er by done. apply fin_bit in Hm.
  assert (h_cmd (snd (ikcp_decode_header p)) = cmd) as <- by congruence. clear Er Es.
  destruct (length p) as [|n] eqn:En; [unfold Zlen in Hl; lia|]. cbn [ikcp_input_loop].
  destruct (Z.ltb_spec (Zlen p) IKCP_OVERHEAD) as [Hs|_]; [unfold IKCP_OVERHEAD in Hs; lia|].
  destruct (ikcp_decode_header p) as [rest h]. cbn [snd] in Hm.
  destruct (negb _); [done|]. destruct (_ || _); [done|].
  unfold IKCP_CMD_PUSH, IKCP_CMD_ACK, IKCP_CMD_WASK, IKCP_CMD_WINS.
  destruct (negb (h_cmd h =? 81) && negb (h_cmd h =? 82) && negb (h_cmd h =? 83) && negb (h_cmd h =? 84))
    eqn:E; [done|]. lia.
Qed.

(** What goes on the transport: a packet, or with the FIN mark on it a packet that is got back by
    taking the mark off. *)
Definition carried (P : bytes -> Prop) (q : bytes) : Prop :=
  (clean q /\ P q) \/ (fin_marked q /\ ~ reset_marked q /\ forall p, unmarks q p -> P p).

Lemma carried_impl (P Q : bytes -> Prop) q : (forall p, P p -> Q p) -> carried P q -> carried Q q.
Proof. intros H [[Hc HP]|(Hm & Hr & HP)]; [left|right]; auto. Qed.

Lemma carried_not_reset P q : carried P q -> ~ reset_marked q.
Proof. intros [[Hc _]|(_ & Hr & _)]; [by apply clean_not_reset|done]. Qed.

Lemma marked_carried P hs p : clean p -> P p -> carried P (marked hs p).
Proof.
  intros [Hl Hc] HP. unfold marked, mark_fin. destruct (decide _) as [|]; [|by left].
  destruct (read_payload_data p); [|by left].
  rewrite read_cmd_header, write_cmd_insert by done. cbn [default id]. right.
  set (c := Z.lor (h_cmd (snd (ikcp_decode_header p))) KCP_FIN).
  destruct (flagged_cmd _ KCP_FIN Hc ltac:(by left)) as (Hr & _ & Hx & Hf & Hrs). fold c in Hr, Hx, Hf, Hrs.
  destruct (decode_header_cmd p (byte_of_Z c) Hl) as (Hd & H4 & _).
  rewrite byte_to_of_Z, u8_small in Hd by lia.
  assert (Zlen (<[4%nat := byte_of_Z c]> p) = Zlen p) as El by (unfold Zlen; by rewrite length_insert).
  assert (read_cmd (<[4%nat := byte_of_Z c]> p) = Ok c) as Er by (rewrite read_cmd_header by lia; by rewrite Hd).
  split; [|split].
  - exists c. split; [done|]. intros E. rewrite E in Hf. done.
  - intros (cmd & Er' & Hm). rewrite Er in Er'. injection Er' as <-. change (KCP_FIN =? KCP_FIN) with true in Hrs. lia.
  - intros q (cmd & Er' & _ & Ew). rewrite Er in Er'. injection Er' as <-.
    rewrite Hx, write_cmd_insert in Ew by lia. injection Ew as <-. by rewrite insert_back.
Qed.

Lemma marked_fin hs p : clean p -> fin_marked (marked hs p) -> hs = FinSent.
Proof.
  intros Hc. unfold marked, mark_fin. destruct (decide _) as [|]; [done|]. cbn [default id].
  intros H. by apply clean_not_marked in H.
Qed.

(** With the mark wanted and not put on, there is no data in the packet. *)
Lemma no_payload_honest S D lo p fuel fuel' :
  Forall filled S -> read_payload_loop fuel p = None -> (fuel' <= fuel)%nat ->
  Forall (honest_seg lo S) (decode_packet fuel' p) -> Forall (honest_seg lo D) (decode_packet fuel' p).
Proof.
  intros Hf. revert fuel' p. induction fuel as [|fuel IH]; intros [|fuel'] p En Hle;
    [constructor|lia|constructor|].
  rewrite read_payload_loop_step in En. cbn [decode_packet]. change IKCP_OVERHEAD with 24.
  destruct (Z.ltb_spec (Zlen p) 24) as [_|Hl]; [constructor|].
  unfold payload_at in En. pose proof (ikcp_decode_header_ok p) as [Ed Hh].
  destruct (ikcp_decode_header p) as [rest h]. cbn [fst snd] in *. destruct Hh as (_ & _ & _ & _ & _ & _ & _ & Hh).
  assert (Zlen rest = Zlen p - 24) as Er by (subst rest; unfold Zlen in *; rewrite length_drop; lia).
  destruct ((Zlen rest <? h_len h) || (i32 (h_len h) <? 0)) eqn:Eb; [constructor|].
  destruct (Z.leb_spec 24 (Zlen p)); [|lia]. cbn [andb] in En.
  destruct (decide (h_len h = 0)) as [E0|E0].
  - rewrite E0 in *. cbn [Z.leb Z.compare andb] in En. change (Z.to_nat 0) with 0%nat. cbn [take drop].
    rewrite drop_0. rewrite <- Ed in En.
    intros [H1 H2]%Forall_cons. constructor; [|by apply IH; [|lia|]].
    intros Ec. destruct (H1 Ec) as (i & _ & _ & _ & HS). rewrite Forall_lookup in Hf.
    by destruct (Hf _ _ HS).
  - destruct (Z.leb_spec 1 (h_len h)); [|lia]. destruct (Z.leb_spec (h_len h) (Zlen p - 24)); [done|lia].
Qed.

Lemma marked_hidden S D lo p :
  Forall filled S -> clean p -> honest lo S p ->
  fin_marked (marked FinSent p) \/ honest lo D (marked FinSent p).
Proof.
  intros Hf Hc Hh. destruct (marked_carried (fun _ => True) FinSent p Hc I) as [[Hc' _]|[Hm _]]; [|by left].
  right. revert Hc'. unfold marked, mark_fin. rewrite decide_True by done.
  destruct (read_payload_data p) as [d|] eqn:Ed; [|intros _; by eapply no_payload_honest; [..|exact Hh]].
  intros Hc'. exfalso. revert Hc'. destruct Hc as [Hl Hc].
  rewrite read_cmd_header, write_cmd_insert by done. cbn [default id].
  destruct (flagged_cmd _ KCP_FIN Hc ltac:(by left)) as (Hr & Hn & _).
  set (c := Z.lor _ _) in *. destruct (decode_header_cmd p (byte_of_Z c) Hl) as (Hd & _).
  rewrite byte_to_of_Z, u8_small in Hd by lia. intros [_ F]. rewrite Hd in F. by apply Hn.
Qed.

(** What a control block sends is clean. *)
Lemma flush_clean k : kcp_ok k -> 0 <= conv k < 4294967296 -> Forall clean (snd (ikcp_flush k)).
Proof.
  intros Hok Hc. destruct (decide (updated k = 0)) as [E|Hu].
  { unfold ikcp_flush. rewrite E. constructor. }
  destruct (flush_wired k Hok Hc Hu) as (gs & -> & [_ Hsnd Hst _ _ _ _ _ _ _ _ _ _]).
  apply Forall_map, Forall_forall. intros g Hg. unfold sound_packets in Hsnd.
  rewrite Forall_forall in Hsnd. destruct (Hsnd g Hg) as [Hne _]. destruct g as [|s g]; [done|].
  assert (s ∈ concat gs) as Hin.
  { apply list_elem_of_In, in_concat. exists (s :: g). split; [by apply list_elem_of_In|by left]. }
  rewrite Forall_forall in Hst. destruct (Hst s Hin) as ((_ & Hcmd & _) & _).
  change (packet (s :: g)) with (wire s ++ packet g). unfold wire. split.
  - rewrite <- app_assoc, Zlen_app, length_ikcp_encode_seg.
    match goal with |- _ <= _ + Zlen ?l => pose proof (Zlen_nonneg l) end. lia.
  - rewrite <- app_assoc, ikcp_decode_encode_seg. cbn [snd seg_header h_cmd].
    revert Hcmd. unfold IKCP_CMD_PUSH, IKCP_CMD_ACK, IKCP_CMD_WASK, IKCP_CMD_WINS.
    rewrite !elem_of_cons, elem_of_nil. lia.
Qed.

Lemma exec_clean k op :
  kcp_ok k -> 0 <= conv k < 4294967296 -> Forall clean (kcp_packets op k).
Proof.
  intros Hok Hc. destruct op; cbn [kcp_packets]; try constructor; [|by apply flush_clean].
  destruct (ikcp_update_cases k now) as (u & ts & _ & [-> | ->]); [|constructor].
  apply (flush_clean (with_clock k now u ts)); [by apply kcp_ok_clock|done].
Qed.

(** ** The FIN frame in packets

    [only_fin n p]: the data in [p], if any, is the segment number [n]; [bears n p]: that segment
    is in [p]. *)
Definition pushes (n : Z) (s : IKCPSEG) : Prop := seg_cmd s = IKCP_CMD_PUSH /\ seg_sn s = n.

Definition only_fin (n : Z) (p : bytes) : Prop :=
  exists c g, p = packet g /\ g <> [] /\ Zlen (packet g) < 2147483648 /\ Forall (seg_accept c) g /\
    Forall (fun s => pushes n s \/ seg_data s = []) g.

Definition bears (n : Z) (p : bytes) : Prop :=
  exists c g, p = packet g /\ g <> [] /\ Zlen (packet g) < 2147483648 /\ Forall (seg_accept c) g /\
    Exists (pushes n) g.

(** A packet without data has no payload. *)
Lemma empty_no_payload g fuel :
  Forall seg_wf g -> Forall (fun s => seg_data s = []) g -> read_payload_loop fuel (packet g) = None.
Proof.
  intros Hw Hg. revert fuel. induction Hg as [|s g Hs _ IH]; intros [|fuel]; [done..|].
  apply Forall_cons in Hw as [Hw Hw']. unfold seg_wf in Hw. rewrite Hs in Hw. change (Zlen []) with 0 in Hw.
  rewrite read_payload_loop_step. change (packet (s :: g)) with (wire s ++ packet g). unfold wire.
  rewrite Hs, take_nil, app_nil_r. destruct (_ <? 24); [done|].
  pose proof (length_ikcp_encode_seg s) as El.
  assert (payload_at (ikcp_encode_seg [] s ++ packet g) = None) as ->.
  { unfold payload_at. rewrite ikcp_decode_encode_seg. cbn [snd seg_header h_len]. rewrite Hw.
    change (u32 0) with 0. cbn [Z.leb Z.compare]. by rewrite andb_false_r. }
  replace 24%nat with (Z.to_nat 24) by done. rewrite drop_app_Zlen by done. by apply IH.
Qed.

Lemma only_fin_bears n p : only_fin n p -> read_payload_data p <> None -> bears n p.
Proof.
  intros (c & g & -> & Hne & Hl & Ha & Hg) Hp. exists c, g. split_and!; try done.
  assert (Exists (pushes n) g \/ Forall (fun s => seg_data s = []) g) as [Hex|Hg']; [|done|].
  { clear - Hg. induction Hg as [|s g [Hs|Hs] _ [IH|IH]]; [by right|by left; left..| |].
    - left. by right.
    - right. by constructor. }
  exfalso. apply Hp, empty_no_payload; [|done]. clear Hg Hg'.
  eapply Forall_impl; [exact Ha|]. by intros s (_ & _ & ? & _).
Qed.

(** What a marked packet is without the mark. *)
Lemma marked_bears n hs p p' :
  clean p -> only_fin n p -> fin_marked (marked hs p) -> unmarks (marked hs p) p' -> bears n p'.
Proof.
  intros Hc Ho Hm Hu. destruct (read_payload_data p) as [d|] eqn:Ed.
  - destruct (marked_carried (bears n) hs p Hc) as [[Hc' _]|(_ & _ & H)]; [|by apply clean_not_marked in Hm|auto].
    apply only_fin_bears; [done|]. by rewrite Ed.
  - exfalso. apply (clean_not_marked p Hc). revert Hm. unfold marked, mark_fin. rewrite Ed.
    by destruct (decide _).
Qed.

(** *** At the writer *)

Lemma control_empty k s : s ∈ flush_control_segs k -> seg_data s = [].
Proof.
  unfold flush_control_segs. set (s0 := flush_seg k).
  destruct (ack_segs_default s0 (take (Z.to_nat (ackcount k)) (acklist k))) as (sn & ts & ->).
  intros [(sn' & ts' & ->)%ack_segs_elem|[Hs|Hs]%elem_of_app]%elem_of_app; [done|..];
    destruct (negb _); apply list_elem_of_singleton in Hs || apply elem_of_nil in Hs; by subst.
Qed.

Lemma flush_only n k :
  kcp_ok k -> 0 <= conv k < 4294967296 -> (forall m, m ∈ snd_sns (fst (ikcp_flush k)) -> m = n) ->
  Forall (only_fin n) (snd (ikcp_flush k)).
Proof.
  intros Hok Hc Hn. destruct (decide (updated k = 0)) as [E|Hu].
  { unfold ikcp_flush. rewrite E. constructor. }
  rewrite flush_sns_moved in Hn by done.
  destruct (flush_wired k Hok Hc Hu) as (gs & -> & Hwired).
  pose proof (stamped_accept _ _ _ _ (wr_stamp _ _ _ Hwired)) as Ha.
  pose proof (wr_sound _ _ _ Hwired) as Hsnd. pose proof (wr_segs _ _ _ Hwired) as Hcat. clear Hwired.
  apply Forall_map, Forall_forall. intros g Hg. unfold sound_packets in Hsnd.
  rewrite Forall_forall in Hsnd. destruct (Hsnd g Hg) as [Hne Hl].
  assert (forall s, s ∈ g -> s ∈ concat gs) as Hin.
  { intros s Hs. apply list_elem_of_In, in_concat. exists g. by split; apply list_elem_of_In. }
  exists (conv k), g. split; [done|]. split; [done|]. split; [done|].
  rewrite Forall_forall in Ha. split; apply Forall_forall; intros s Hs; [by apply Ha, Hin|].
  specialize (Hin s Hs). rewrite Hcat in Hin.
  apply elem_of_app in Hin as [Hin|Hin]; [right; by eapply control_empty|left].
  split; [by apply (data_is_push k)|]. apply Hn. revert Hin. unfold flush_data_segs.
  intros (l & (s' & <- & Hs2)%in_map_iff & Hs')%list_elem_of_In%in_concat.
  apply list_elem_of_In in Hs'. apply list_elem_of_In in Hs2. revert Hs'.
  pose proof (flush_visit_frame (flush_moved k) (flush_wnd k) s') as (Es & _). unfold flush_visit in Es.
  destruct (flush_reason _ s'); [|by intros ?%elem_of_nil].
  intros ->%list_elem_of_singleton. rewrite Es. apply list_elem_of_fmap. by exists s'.
Qed.

Section Marked.
Context {BM : BytesMut} {BML : BytesMutLaws BM}.
Implicit Types k : Kcp.

Lemma calls_clean l k k' : calls l k k' -> Forall clean (outputs k) -> Forall clean (outputs k').
Proof.
  induction 1 as [k k' E1 E2|l l' k1 k2 k3 Hok Hcv Hone _ IH]; [by rewrite E2|].
  intros H. apply IH. clear IH. destruct Hone as [op k k' Hs Ha Eh ->|k k' _ -> _|a b k k' _ _ _ _ _ ->
    |a m len k k' _ _ -> _|a p k k' _ _ ->|p c c' k k' _ ->]; try done.
  apply Forall_app. split; [done|]. by apply exec_clean.
Qed.

(** What a session takes of such packets. *)
Lemma carried_took P (t : Task) qs p :
  (forall q, q ∈ qs -> carried P q) -> took_from t qs p -> refused p \/ P p.
Proof.
  intros H [Hq|(_ & q & Hq & Hu)].
  - destruct (H p Hq) as [[_ HP]|[Hm _]]; [by right|left; by apply fin_marked_refused].
  - right. destruct (H q Hq) as [[Hc _]|(_ & _ & HP)]; [|auto].
    destruct Hu as (cmd & Er & Hm & _). exfalso. apply (clean_not_marked q Hc). by exists cmd.
Qed.


(** With nothing else in the send buffer a call sends nothing else. *)
Lemma call_only l k k' S n :
  kcp_ok (handle k) -> 0 <= conv (handle k) < 4294967296 -> call l k k' -> wrotes l = [] ->
  emits S (handle k) ->
  (forall i, Zlen S <= i < Zlen (S ++ moved_entries (handle k) (handle k')) -> u32 i = n) ->
  (forall m, m ∈ snd_sns (handle k) -> m = n) -> Forall (only_fin n) (outputs k) ->
  (forall m, m ∈ snd_sns (handle k') -> m = n) /\ Forall (only_fin n) (outputs k').
Proof.
  intros Hok Hc Hcall Hw He Hm Hn Ho.
  assert (forall h, Forall (fun s => seg_sn s = n) (snd_buf h) <-> forall m, m ∈ snd_sns h -> m = n) as Hall.
  { intros h. unfold snd_sns. rewrite Forall_forall. split.
    - intros H m (s & -> & Hs)%list_elem_of_fmap. auto.
    - intros H s Hs. apply H, list_elem_of_fmap. by exists s. }
  assert (forall h p, (forall m, m ∈ snd_sns h -> m = n) -> forall m, m ∈ snd_sns (snd (ikcp_input h p)) -> m = n)
    as Hin.
  { intros h p H. apply Hall. destruct (snd_keep_input h p) as (_ & _ & _ & _ & Hf).
    apply Hf; [by intros s f|by apply Hall]. }
  destruct Hcall as [op k k' Hs Ha Eh Eo|k k' Eh Eo _|a b k k' Hact _ _ _ _ _|a m len k k' _ Eh Eo _
    |a p k k' Hact Eh Eo|p c c' k k' Eh Eo].
  - assert (forall m, m ∈ snd_sns (kcp_exec op (handle k)) -> m = n) as Hn'.
    { intros m Hin'. destruct (exec_keeps_sns S (handle k) op Hok Ha He ltac:(by intros p ->)) as (_ & _ & H).
      destruct (H m Hin') as [H1|(i & Hi & ->)]; [by apply Hn|]. apply Hm. by rewrite Eh. }
    rewrite Eh, Eo. split; [exact Hn'|]. apply Forall_app. split; [done|].
    destruct op; cbn [kcp_packets kcp_exec] in *; try constructor; [|by apply flush_only].
    destruct (ikcp_update_cases (handle k) now) as (u & ts & _ & [E | E]); rewrite E in *; [|constructor].
    apply (flush_only n (with_clock (handle k) now u ts)); [by apply kcp_ok_clock|done..].
  - by rewrite Eh, Eo.
  - by rewrite (wrotes_write _ _ _ Hact) in Hw.
  - rewrite Eo, Eh. split; [|done]. unfold snd_sns. by rewrite recv_keeps.
  - rewrite Eo, Eh. split; [|done]. by apply Hin.
  - rewrite Eo, Eh. split; [|done]. exact (Hin ((handle k) <| conv := c |>) p Hn).
Qed.

(** *** At the reader *)

Lemma heard_bears S got R (h : IKCPCB) n i p :
  kcp_inv h -> tracks S R got h -> bears n p -> h_conv (snd (ikcp_decode_header p)) = conv h ->
  honest (Zlen S - 2147483647) S p -> n = u32 i -> near (Zlen S) i -> i < rcv_wnd h ->
  Zlen S + rcv_wnd h <= 2147483648 ->
  arrives S got i R h (snd (ikcp_input h p)).
Proof.
  intros Hk Ht (c & g & -> & Hne & Hl & Ha & Hex) Hcv Hh -> Hi Hw Hs.
  assert (c = conv h) as ->.
  { rewrite <- Hcv. destruct g as [|s g]; [done|]. apply Forall_inv in Ha as (<- & _).
    change (packet (s :: g)) with (wire s ++ packet g). unfold wire.
    by rewrite <- app_assoc, ikcp_decode_encode_seg. }
  apply input_packet_arrives; try done.
  - unfold honest in Hh. rewrite (decode_packet_wire g _ (conv h)) in Hh; [exact (proj1 (Forall_map _ _ _) Hh)|done|].
    pose proof (length_packet g). destruct g; [done|]. cbn [length] in *. lia.
  - eapply Exists_impl; [exact Hex|]. intros s [-> ->]. split; [done|]. apply u32_idemp.
Qed.

(** An honest packet that bears a segment bears one of the stream. *)
Lemma bears_number S lo i p :
  bears (u32 i) p -> honest lo S p -> 0 <= i <= Zlen S -> Zlen S < SHORT -> i < Zlen S.
Proof.
  intros (c & g & -> & Hne & _ & Ha & Hex) Hh Hi Hs. unfold honest in Hh.
  rewrite (decode_packet_wire g _ c) in Hh;
    [|done|pose proof (length_packet g); destruct g; [done|]; cbn [length] in *; lia].
  apply Exists_exists in Hex as (s & Hin & Ec & Es). rewrite Forall_map, Forall_forall in Hh.
  destruct (Hh s Hin) as (j & Hj & _ & Ej & _); [cbn; by rewrite Ec|].
  cbn [fst seg_header h_sn] in Ej. rewrite Es, u32_idemp in Ej. unfold SHORT in Hs.
  apply u32_inj_near in Ej; lia.
Qed.
End Marked.
