(* ===== verification/Endings.v ===== *)
(** The end of a stream: what the FIN frame is to the two control blocks.  It is the last thing a
    session writes, and only when everything before it is acknowledged; the reader drops it. *)
From S2P Require Import Prelude Bytes IkcpTypes IkcpSend IkcpInput IkcpFlush IkcpFlushSpec.
From S2P Require Import IkcpInv Wire Delivery Network Progress Exchange Acks Rounds Acked.
From S2P Require Import Protocol ProtocolSpec Stream StreamSafe StreamWire Calls TaskCalls Marked.

(** ** The reader *)

(** The last entry ends a message. *)
Definition closed (l : list entry) : Prop := forall e, last l = Some e -> fst e = 0.

Lemma msg_in_closed q Q Q' :
  map seg_entry q = Q ++ Q' -> Q <> [] -> closed Q ->
  map seg_entry (fst (msg_prefix q)) `prefix_of` Q.
Proof.
  revert q. induction Q as [|e Q IH]; intros [|s q] E Hne Hc; try done. cbn [app map] in E.
  injection E as Ee E. cbn [msg_prefix]. destruct (Z.eqb_spec (seg_frg s) 0) as [|Hf].
  { cbn [fst map]. rewrite Ee. apply prefix_cons, prefix_nil. }
  destruct Q as [|e' Q]; [exfalso; apply Hf; rewrite <- (Hc e eq_refl); by subst e|].
  specialize (IH q E ltac:(done) Hc). destruct (msg_prefix q) as [m r]. cbn [fst map] in *.
  rewrite Ee. by apply prefix_cons.
Qed.

Lemma msg_in_queue q : map seg_entry (fst (msg_prefix q)) `prefix_of` map seg_entry q.
Proof.
  rewrite (msg_prefix_app q) at 2. rewrite map_app. by eexists.
Qed.

(** With everything in order nothing is kept for later. *)
Lemma nothing_later S got k : rcv_window k -> tracks S (Zlen S) got k -> rcv_buf k = [].
Proof.
  intros Hw Ht. pose proof (had_all S (Zlen S) got k Hw Ht) as E.
  rewrite drop_ge in E by (unfold Zlen; lia).
  apply (map_eq_nil seg_entry). apply E. intros i [_ Hi]. by left.
Qed.

(** Of what the reader took out of its queue, [got], the program gets [del]: everything until all
    the data [D] is out. *)
Definition given (D got del : list entry) : Prop :=
  del `prefix_of` D /\ (got = del \/ Zlen D <= Zlen got).

(** The reader has the data and the FIN frame, and of the data nothing is lost. *)
Definition whole (S D : list entry) (R : Z) (got del : list entry) (h : IKCPCB) : Prop :=
  (exists b, S = D ++ [(0, b)]) /\ (forall i, numbers S i -> had R h i) /\ (got = del \/ del = D).

(** The stream as the reader knows it: before it knows of the FIN frame, the data; after, perhaps
    the FIN frame as well, and then the reader has all the data. *)
Definition ending (S D : list entry) (R : Z) (k : IKCPCB) (l : list act) : Prop :=
  S = D /\ drops l = [] \/
  (S = D \/ exists b, S = D ++ [(0, b)]) /\ closed D /\ (forall i, numbers D i -> had R k i) /\
  Forall late l.

Lemma ending_app S D R k l l' :
  ending S D R k (l ++ l') -> ending S D R k l /\
    forall R' k', (forall i, numbers D i -> had R k i -> had R' k' i) -> ending S D R' k' l'.
Proof.
  intros [[E Hd]|(E & Hc & Hh & Hl)].
  - rewrite drops_app in Hd. apply app_eq_nil in Hd as [Hd1 Hd2]. split; [by left|]. by left.
  - apply Forall_app in Hl as [H1 H2]. split; [by right|]. intros R' k' H. right. split_and!; auto.
Qed.

(** The data, with perhaps the FIN frame behind it. *)
Definition tailed (S D : list entry) : Prop := S = D \/ exists b, S = D ++ [(0, b)].

Lemma head_in_data S D R got h :
  tracks S R got h -> tailed S D -> closed D -> Zlen got < Zlen D ->
  got ++ map seg_entry (fst (msg_prefix (rcv_queue h))) `prefix_of` D.
Proof.
  intros [_ HR Hp _] HS Hc Hlt. set (q := rcv_queue h) in *. unfold Zlen in *.
  destruct (msg_in_queue q) as [r Er].
  assert (take (Z.to_nat R) S = take (Z.to_nat R) D \/
    exists b, take (Z.to_nat R) S = D ++ [(0, b)]) as [E|[b E]].
  { destruct HS as [->|[b ->]]; [by left|]. rewrite length_app in HR. cbn [length] in HR.
    destruct (decide (Z.to_nat R <= length D)%nat).
    - left. by rewrite take_app_le.
    - right. exists b. apply take_ge. rewrite length_app. cbn [length]. lia. }
  - etransitivity; [|exists (drop (Z.to_nat R) D); symmetry; apply take_drop].
    rewrite <- E, <- Hp, Er. apply prefix_app. by eexists.
  - rewrite E in Hp. assert (got `prefix_of` D) as [Q ->].
    { destruct (prefix_weak_total got D (D ++ [(0, b)])) as [H|H]; [|by eexists|done|].
      - rewrite <- Hp. by eexists.
      - apply prefix_length in H. lia. }
    apply prefix_app. rewrite <- app_assoc in Hp. apply app_inv_head in Hp.
    rewrite length_app in Hlt. apply (msg_in_closed q Q _ Hp); [by intros ->; cbn in Hlt; lia|].
    intros e He. apply Hc. rewrite last_app. by rewrite He.
Qed.

(** All the data is out of the queue. *)
Lemma head_after_data S D R got h :
  rcv_window h -> tracks S R got h -> tailed S D -> Zlen D <= Zlen got ->
  rcv_queue h = [] \/ Zlen (rcv_queue h) = 1 /\ rcv_buf h = [].
Proof.
  intros Hw Ht HS Hle. pose proof Ht as [_ [HR _] Hp _]. apply (f_equal length) in Hp.
  rewrite length_app, length_map, length_take in Hp. unfold Zlen in *.
  destruct (rcv_queue h) as [|s q] eqn:Eq; [by left|right]. cbn [length] in *.
  assert (length S = length D \/ length S = Datatypes.S (length D)) as Hl.
  { destruct HS as [->|[b ->]]; [by left|right]. rewrite length_app. cbn. lia. }
  split; [lia|]. apply (nothing_later S got); [done|]. replace (Zlen S) with R; [done|]. unfold Zlen. lia.
Qed.

(** A read takes the head of the queue away. *)
Lemma given_read S D R got del (h : IKCPCB) a m R' h' :
  let e := map seg_entry (fst (msg_prefix (rcv_queue h))) in
  rcv_window h -> tracks S R got h -> tracks S R' (got ++ e) h' -> read_act a m h ->
  ending S D R h [a] -> given D got del -> entry_bytes e = m ->
  exists e', given D (got ++ e) (del ++ e') /\ entry_bytes e' = concat (reads [a]) /\
    (drops [a] = [] -> got = del -> e' = e) /\
    (whole S D R got del h -> got ++ e = del ++ e' \/ del ++ e' = D).
Proof.
  cbv zeta. intros Hw Ht Ht' Ha He [Hp Hg] Em. set (e := map seg_entry _) in *.
  assert (e `prefix_of` map seg_entry (rcv_queue h)) as Hq by apply msg_in_queue.
  assert (reads [a] = [m] -> (got = del -> got ++ e `prefix_of` D) -> (got <> del -> rcv_queue h = []) ->
    exists e', given D (got ++ e) (del ++ e') /\ entry_bytes e' = concat (reads [a]) /\
      (drops [a] = [] -> got = del -> e' = e) /\
      (whole S D R got del h -> got ++ e = del ++ e' \/ del ++ e' = D)) as Hout.
  { intros -> H1 H2. exists e. cbn [concat]. rewrite app_nil_r. split; [|split; [done|split; [done|]]]; cycle 1.
    { intros (_ & _ & [->| ->]); [by left|]. destruct (decide (got = D)) as [->|Hne]; [by left|right].
      rewrite (H2 Hne) in Hq. apply prefix_nil_inv in Hq as ->. apply app_nil_r. }
    destruct (decide (got = del)) as [<-|Hne]; [split; [by apply H1|by left]|].
    rewrite (H2 Hne) in Hq. apply prefix_nil_inv in Hq as ->. rewrite !app_nil_r. by split. }
  destruct He as [[-> Hd]|(HS & Hc & Hall & Hl)].
  - destruct Ha as [-> |[[-> _]|[-> _]]]; [..|done].
    all: apply Hout; [done|intros _|intros Hne].
    all: pose proof Ht as [_ HR E _].
    1,3: destruct Hq as [r Er]; exists (r ++ drop (Z.to_nat R) D); by rewrite !app_assoc, <- (app_assoc got), <- Er, E, take_drop.
    all: destruct Hg as [|Hg]; [done|]; apply (f_equal length) in E;
      rewrite length_app, length_map, length_take in E; unfold Zlen in *;
      destruct (rcv_queue h); [done|cbn in E; lia].
  - pose proof Hw as (_ & _ & _ & Eb & Eq & _).
    destruct Ha as [-> |[[-> Hn]|[-> [Hn1 Hn2]]]]; [by apply Forall_inv in Hl|..].
    + apply Hout; [done|..].
      * intros E0. destruct (decide (Zlen got < Zlen D)) as [Hlt|Hge]; [by eapply head_in_data|].
        destruct (head_after_data S D R got h Hw Ht HS ltac:(lia)) as [E|[E1 E2]]; cycle 1.
        { rewrite Eb, Eq, E1, E2 in Hn. by destruct Hn. }
        rewrite E in Hq. apply prefix_nil_inv in Hq as ->. by rewrite app_nil_r, E0.
      * intros Hne. destruct Hg as [|Hg]; [done|].
        destruct (head_after_data S D R got h Hw Ht HS Hg) as [E|[E1 E2]]; [done|].
        rewrite Eb, Eq, E1, E2 in Hn. by destruct Hn.
    + exists []. rewrite app_nil_r.
      assert (rcv_buf h = []) as Enil.
      { rewrite Eb in Hn2. destruct (rcv_buf h); [done|]. rewrite Zlen_cons in Hn2.
        match type of Hn2 with 1 + Zlen ?l = _ => pose proof (Zlen_nonneg l) end. lia. }
      assert (Zlen D <= R) as HR.
      { destruct (decide (Zlen D = 0)); [destruct Ht as [_ [? _] _ _]; lia|].
        destruct (Hall (Zlen D - 1)) as [H|H]; [pose proof (Zlen_nonneg D); unfold numbers; lia|lia|].
        rewrite Enil in H. by apply elem_of_nil in H. }
      split; [split; [done|]|split; [done|split; [done|]]]; cycle 1.
      { intros ([b ES] & Hhad & [->| ->]); [right|by right]. destruct Ht as [_ [HR2 _] E _].
        assert (Zlen S <= R) as HSR.
        { rewrite ES, Zlen_app in *. change (Zlen [(0, b)]) with 1 in *. pose proof (Zlen_nonneg D).
          destruct (Hhad (Zlen D)) as [Hlt|Hin]; [unfold numbers; rewrite Zlen_app; change (Zlen [(0, b)]) with 1; lia|lia|].
          rewrite Enil in Hin. by apply elem_of_nil in Hin. }
        rewrite take_ge in E by (unfold Zlen in HSR; lia). rewrite Eq in Hn1.
        destruct (rcv_queue h) as [|s [|s' q]]; [done| |rewrite !Zlen_cons in Hn1; pose proof (Zlen_nonneg q); lia].
        rewrite ES in E. cbn [map] in E. by apply app_inj_tail in E as [-> _]. }
      destruct e as [|x e'] eqn:Ee; [by rewrite app_nil_r|right].
      destruct Ht as [_ [HR2 _] E _]. rewrite Eq in Hn1. apply (f_equal length) in E.
      rewrite length_app, length_map, length_take in E. unfold Zlen in *. rewrite length_app. cbn [length]. lia.
Qed.

Section Endings.
Context {BM : BytesMut} {BML : BytesMutLaws BM}.
Implicit Types k : Kcp.

(** *** Calls at the reader *)
Record hears (S D : list entry) (R : Z) (got del : list entry) (h : IKCPCB) : Prop := {
  hr_tracks : tracks S R got h;
  hr_answers : answers S R h;
  hr_given : given D got del
}.

(** What the calls [l] make of the reader; its packets are replies. *)
Record heard (S D : list entry) (R : Z) (got del : list entry) (l : list act) k k' (R' : Z)
    (e e' : list entry) : Prop := {
  hd_hears : hears S D R' (got ++ e) (del ++ e') (handle k');
  hd_advances : advances S R (handle k) R' (handle k');
  hd_replies : Forall (reply S R (handle k)) (outputs k) -> Forall (reply S R' (handle k')) (outputs k');
  hd_reads : entry_bytes e' = concat (reads l);
  hd_same : drops l = [] -> got = del -> e' = e;
  hd_wnd : rcv_wnd (handle k') = rcv_wnd (handle k);
  hd_whole : whole S D R got del (handle k) -> whole S D R' (got ++ e) (del ++ e') (handle k')
}.

Lemma had_forward S R h R' h' i :
  Zlen S < SHORT -> advances S R h R' h' -> numbers S i -> had R h i -> had R' h' i.
Proof. intros Hs Had Hi. apply (ad_had _ _ _ _ _ Had). by apply numbers_near. Qed.

Lemma heard_trans S D R got del l l' k1 k2 k3 R2 R3 e2 e2' e3 e3' :
  heard S D R got del l k1 k2 R2 e2 e2' ->
  heard S D R2 (got ++ e2) (del ++ e2') l' k2 k3 R3 e3 e3' ->
  heard S D R got del (l ++ l') k1 k3 R3 (e2 ++ e3) (e2' ++ e3').
Proof.
  intros [H1 H2 H3 H4 H5 H6 H7] [G1 G2 G3 G4 G5 G6 G7]. split; rewrite ?app_assoc; try done.
  - by eapply advances_trans.
  - auto.
  - by rewrite entry_bytes_app, reads_app, concat_app, H4, G4.
  - rewrite drops_app. intros [Hd1 Hd2]%app_eq_nil E. specialize (H5 Hd1 E) as ->.
    f_equal. apply G5; [done|]. by rewrite E.
  - congruence.
  - auto.
Qed.

Lemma advances_conv S R R' h h' c c' :
  advances S R (h <| conv := c |>) R' h' -> advances S R h R' (h' <| conv := c' |>).
Proof. intros [A B C]. by split. Qed.

Lemma tracks_conv S R got h c : tracks S R got (h <| conv := c |>) <-> tracks S R got h.
Proof. split; intros [A B C D]; by split. Qed.

(** A call that reads nothing. *)
Lemma heard_quiet S D R got del l k k' R' ps :
  Zlen S < SHORT -> hears S D R got del (handle k) -> reads l = [] ->
  tracks S R' got (handle k') -> advances S R (handle k) R' (handle k') ->
  outputs k' = outputs k ++ ps -> Forall (reply S R (handle k)) ps ->
  rcv_wnd (handle k') = rcv_wnd (handle k) ->
  heard S D R got del l k k' R' [] [].
Proof.
  intros Hs [Ht Ha Hg] El Ht' Had Eo Hps Ew. split.
  - rewrite !app_nil_r. split; [done| |done]. by eapply answers_advance.
  - done.
  - intros Ho. rewrite Eo. apply Forall_app.
    split; (eapply Forall_impl; [eassumption|]); intros p; by apply reply_advance.
  - by rewrite El.
  - done.
  - done.
  - rewrite !app_nil_r. intros (H1 & H2 & H3). split; [done|]. split; [|done].
    intros i Hi. by eapply had_forward; [..|apply H2].
Qed.

(** No call of a session changes the receive window. *)
Lemma exec_wnd h op :
  kcp_ok h -> op_allowed op h -> (forall p, op <> OpInput p) -> (forall s r, op <> OpWndsize s r) ->
  rcv_wnd (kcp_exec op h) = rcv_wnd h.
Proof.
  intros Hok Ha Hi Hw. assert (forall h, kcp_ok h -> rcv_wnd (fst (ikcp_flush h)) = rcv_wnd h) as Hfl.
  { intros h0 Hok0. destruct (decide (updated h0 = 0)) as [E|Hu].
    { unfold ikcp_flush. by rewrite E. }
    by destruct (flush_ctl h0 Hok0 Hu) as (_ & _ & _ & _ & _ & ? & _). }
  destruct op as [b|len|data|now| |b m|iv|nd iv re nc|s r]; cbn [kcp_exec op_allowed] in *.
  - pose proof Hok as [((Hs & Hn & Hfit) & _) _].
    destruct (ikcp_send_spec h b Hs Ha) as (q & _ & _ & _ & _ & E);
      [rewrite Hn; apply u32_range|done|]. cbv zeta in E. rewrite E. clear E.
    destruct (_ && _); [done|]. by destruct (256 <=? _).
  - unfold ikcp_recv. destruct (rcv_queue h); [done|]. cbv zeta.
    destruct (_ <? 0); [done|]. destruct (_ >? _); [done|].
    destruct (ikcp_recv_merge _ _ _ _ _) as [[[buf n] rest] nq]. cbn [snd].
    assert (forall q h1, rcv_wnd (ikcp_move_rcv q h1) = rcv_wnd h1) as Hmv.
    { induction q as [|s q IH]; intros h1; [done|]. cbn [ikcp_move_rcv].
      destruct (_ && _); [|done]. by rewrite IH. }
    destruct (_ && _); simp_upd; by rewrite Hmv.
  - by destruct (Hi data).
  - destruct (ikcp_update_cases h now) as (u & ts & _ & [-> | ->]); [|done].
    apply (Hfl (with_clock h now u ts)). by apply kcp_ok_clock.
  - by apply Hfl.
  - unfold ikcp_setmtu. destruct (_ || _); [done|]. by destruct (negb b).
  - done.
  - unfold ikcp_nodelay. cbv zeta.
    by destruct (nd >=? 0), (negb (nd =? 0)), (iv >=? 0), (re >=? 0), (nc >=? 0).
  - by destruct (Hw s r).
Qed.

Lemma advances_refl S R h : advances S R h R h.
Proof. by apply advances_same. Qed.

Lemma recv_advances S R got R' got' h len :
  kcp_ok h -> recv_ok h -> 0 <= len < 2147483648 -> tracks S R got h ->
  tracks S R' got' (snd (ikcp_recv h len)) -> advances S R h R' (snd (ikcp_recv h len)).
Proof.
  intros [(_ & _ & _ & Hw & _) _] Hr Hl Ht Ht'.
  destruct (recv_moves h len Hw Hr ltac:(lia)) as (Hacks & _ & m & r & Em & Hcons & Er & En).
  apply (moved_advances _ _ got _ _ got' _ m r); try done.
  destruct Hw as (_ & _ & Hwin & _). apply window_length in Hwin; [|lia].
  rewrite Em, Zlen_app in Hwin. pose proof (Zlen_nonneg r). lia.
Qed.

Lemma call_hears S D R got del l k k' :
  kcp_ok (handle k) -> 0 <= conv (handle k) < 4294967296 -> call l k k' ->
  Zlen S < SHORT -> Zlen (entry_bytes S) < 2147483648 -> hears S D R got del (handle k) ->
  ending S D R (handle k) l ->
  Forall (fun p => refused p \/ honest (Zlen S - 2147483647) S p) (tooks l) ->
  exists R' e e', heard S D R got del l k k' R' e e'.
Proof.
  intros Hok Hc Hcall Hsh Hlen Hh He Htk. pose proof Hh as [Ht Ha Hg]. pose proof Hok as [Hinv _].
  destruct Hcall as [op k k' Hs Hal Eh Eo|k k' Eh Eo _|a b k k' Hact _ Hl _ Eh Eo|a m len k k' Hact Eh Eo Hm
    |a p k k' Hact Eh Eo|p c c' k k' Eh Eo].
  - exists R, [], []. apply (heard_quiet _ _ _ _ _ _ _ _ _ (kcp_packets op (handle k))); rewrite ?Eh; try done.
    + eapply tracks_same; [|done]. apply exec_receiver; [done|done|by intros ? ->|by intros ? ->].
    + apply exec_advances; [done|done|by intros ? ->|by intros ? ->].
    + by apply (exec_replies S got).
    + apply exec_wnd; [done|done|by intros ? ->|by intros ? ? ->].
  - exists R, [], []. apply (heard_quiet _ _ _ _ _ _ _ _ _ []); rewrite ?Eh, ?app_nil_r; try done.
    apply advances_refl.
  - exists R, [], []. apply (heard_quiet _ _ _ _ _ _ _ _ _ []); rewrite ?Eh, ?app_nil_r; try done.
    + by destruct Hact as [->|[-> _]].
    + eapply tracks_same; [|done]. by apply rcv_same_send.
    + by apply (exec_advances S R _ (OpSend b)).
    + by apply (exec_wnd _ (OpSend b)).
  - pose proof Hok as [(_ & _ & _ & Hw & _) _].
    destruct (read_tracks m (handle k) (handle k') S R got Hok Ht) as (Hr & Hl & E' & Em & R' & Ht');
      [pose proof (Zlen_nonneg (entry_bytes got)); lia|done|].
    assert (advances S R (handle k) R' (handle k')) as Had.
    { rewrite E' in *. by eapply recv_advances. }
    destruct (given_read S D R got del (handle k) a m R' (handle k') Hw Ht Ht' Hact He Hg Em)
      as (e' & G1 & G2 & G3 & G4).
    exists R', (map seg_entry (fst (msg_prefix (rcv_queue (handle k))))), e'. split; try done.
    + split; [done| |done]. by eapply answers_advance.
    + rewrite Eo. intros Hps. eapply Forall_impl; [exact Hps|]. intros p. by apply reply_advance.
    + rewrite Eh. by apply (exec_wnd _ (OpRecv len)).
    + intros Hwh. pose proof Hwh as (H1 & H2 & _). split; [done|]. split; [|by apply G4].
      intros i Hi. by eapply had_forward; [..|apply H2].
  - destruct (took_acts _ _ _ Hact) as (_ & _ & Er & _ & Et). rewrite Et in Htk.
    apply Forall_inv in Htk as [Hrf|Hhon].
    + rewrite Hrf in Eh. exists R, [], []. apply (heard_quiet _ _ _ _ _ _ _ _ _ []); rewrite ?Eh, ?app_nil_r; try done.
      apply advances_refl.
    + destruct (input_progresses S R got (handle k) p Hinv Ht Hhon) as (R' & Ht' & Had & Hwn).
      exists R', [], []. apply (heard_quiet _ _ _ _ _ _ _ _ _ []); rewrite ?Eh, ?app_nil_r; done.
  - assert (tracks S R got ((handle k) <| conv := c |>)) as Htc by by apply tracks_conv.
    apply Forall_inv in Htk as [Hrf|Hhon].
    + rewrite Hrf in Eh. exists R, [], []. apply (heard_quiet _ _ _ _ _ _ _ _ _ []); rewrite ?Eh, ?app_nil_r; try done.
      * by do 2 apply tracks_conv.
      * by apply advances_same.
    + assert (kcp_inv ((handle k) <| conv := c |>)) as Hinv' by exact Hinv.
      destruct (input_progresses S R got ((handle k) <| conv := c |>) p Hinv' Htc Hhon) as (R' & Ht' & Had & Hwn).
      exists R', [], []. apply (heard_quiet _ _ _ _ _ _ _ _ _ []); rewrite ?Eh, ?app_nil_r; try done.
      * by apply tracks_conv.
      * by eapply advances_conv.
Qed.

Lemma calls_hears S D l k k' R got del :
  calls l k k' -> Zlen S < SHORT -> Zlen (entry_bytes S) < 2147483648 ->
  hears S D R got del (handle k) -> D `prefix_of` S -> ending S D R (handle k) l ->
  Forall (fun p => refused p \/ honest (Zlen S - 2147483647) S p) (tooks l) ->
  exists R' e e', heard S D R got del l k k' R' e e'.
Proof.
  intros Hc Hsh Hlen Hh [T ET] He Htk. revert R got del Hh He.
  induction Hc as [k k' E1 E2|l l' k1 k2 k3 Hok Hcv Hone _ IH]; intros R got del Hh He.
  - exists R, [], []. apply (heard_quiet _ _ _ _ _ _ _ _ _ []); rewrite ?E1, ?app_nil_r; try done.
    + apply Hh.
    + apply advances_refl.
  - rewrite tooks_app in Htk. apply Forall_app in Htk as [Htk1 Htk2].
    destruct (ending_app _ _ _ _ _ _ He) as [He1 He2].
    destruct (call_hears S D R got del l k1 k2 Hok Hcv Hone Hsh Hlen Hh He1 Htk1)
      as (R2 & e2 & e2' & H2).
    destruct (IH Htk2 R2 _ _ (hd_hears _ _ _ _ _ _ _ _ _ _ _ H2)) as (R3 & e3 & e3' & H3).
    { apply He2. intros i Hi. apply (had_forward S); [done|apply H2|]. rewrite ET. by apply numbers_grow. }
    exists R3, (e2 ++ e3), (e2' ++ e3'). by eapply heard_trans.
Qed.

(** The turn in which the mark is seen: when the stream fits the window, the frame that comes with
    the mark is taken. *)
Lemma calls_hears_mark S D l1 p l2 k k' R got :
  calls (l1 ++ Heard p :: l2) k k' -> Zlen S < SHORT -> Zlen (entry_bytes S) < 2147483648 ->
  hears S D R got got (handle k) -> D `prefix_of` S -> tailed S D ->
  ending S D R (handle k) (l1 ++ Heard p :: l2) ->
  Forall (fun p => refused p \/ honest (Zlen S - 2147483647) S p) (tooks (l1 ++ Heard p :: l2)) ->
  drops l1 = [] -> (forall i, numbers D i -> had R (handle k) i) ->
  bears (u32 (Zlen D)) p -> honest (Zlen S - 2147483647) S p ->
  Zlen S <= rcv_wnd (handle k) < 65536 ->
  exists R' e e', heard S D R got got (l1 ++ Heard p :: l2) k k' R' e e' /\
    whole S D R' (got ++ e) (got ++ e') (handle k').
Proof.
  intros Hc Hsh Hlen Hh HD Htl He Htk Hd Hall Hb Hhon Hwn. pose proof HD as [T ET].
  apply calls_at in Hc as (k1 & k2 & Hc1 & Hok & Hcv & Hcall & Hc2).
  rewrite tooks_app in Htk. apply Forall_app in Htk as [Htk1 Htk2]. apply Forall_inv_tail in Htk2.
  destruct (ending_app _ _ _ _ _ _ He) as [He1 He2].
  destruct (calls_hears S D l1 k k1 R got got Hc1 Hsh Hlen Hh HD He1 Htk1) as (R1 & e1 & e1' & H1).
  assert (forall R' h', advances S R (handle k) R' h' ->
    forall i, numbers D i -> had R (handle k) i -> had R' h' i) as Hf.
  { intros R' h' Had i Hi. apply (had_forward S); [done|done|]. rewrite ET. by apply numbers_grow. }
  pose proof (hd_same _ _ _ _ _ _ _ _ _ _ _ H1 Hd eq_refl) as ->.
  pose proof (hd_hears _ _ _ _ _ _ _ _ _ _ _ H1) as Hh1. pose proof Hok as [Hinv _].
  assert (Zlen D < Zlen S) as HlD.
  { apply (bears_number S (Zlen S - 2147483647) (Zlen D) p); try done. rewrite ET, Zlen_app.
    pose proof (Zlen_nonneg D). pose proof (Zlen_nonneg T). lia. }
  assert (exists b, S = D ++ [(0, b)]) as [b ES] by (destruct Htl as [->|]; [lia|done]).
  assert (numbers S (Zlen D)) as HnD by (split; [apply Zlen_nonneg|done]).
  assert (arrives S (got ++ e1) (Zlen D) R1 (handle k1) (handle k2) /\ outputs k2 = outputs k1)
    as [(R2 & Ht2 & Had2 & Hw2 & Hd2) Eo].
  { apply call_heard in Hcall as (Hours & Eh & Eo). split; [|done]. rewrite Eh.
    apply (heard_bears S (got ++ e1) R1 (handle k1) (u32 (Zlen D)) (Zlen D) p); try done; [apply Hh1|by apply numbers_near|..];
      rewrite (hd_wnd _ _ _ _ _ _ _ _ _ _ _ H1); [lia|]. unfold SHORT in Hsh. lia. }
  assert (heard S D R1 (got ++ e1) (got ++ e1) [Heard p] k1 k2 R2 [] []) as H2.
  { apply (heard_quiet _ _ _ _ _ _ _ _ _ []); rewrite ?app_nil_r; done. }
  pose proof (heard_trans _ _ _ _ _ _ _ _ _ _ _ _ _ _ _ _ H1 H2) as H12. rewrite !app_nil_r in H12.
  assert (ending S D R2 (handle k2) l2) as He3.
  { change (Heard p :: l2) with ([Heard p] ++ l2) in He2.
    apply (ending_app S D R1 (handle k1) [Heard p]); [by apply He2, Hf, H1|].
    intros i Hi. apply (had_forward S); [done|done|]. rewrite ET. by apply numbers_grow. }
  destruct (calls_hears S D l2 k2 k' R2 (got ++ e1) (got ++ e1) Hc2 Hsh Hlen) as (R3 & e3 & e3' & H3);
    [apply H12|done|done|done|].
  pose proof (heard_trans _ _ _ _ _ _ _ _ _ _ _ _ _ _ _ _ H12 H3) as H123.
  rewrite <- app_assoc in H123. exists R3, (e1 ++ e3), (e1 ++ e3'). split; [exact H123|].
  rewrite !app_assoc. apply (hd_whole _ _ _ _ _ _ _ _ _ _ _ H3). split; [by exists b|]. split; [|by left].
  intros i [Hi1 Hi2]. rewrite ES, Zlen_app in Hi2. change (Zlen [(0, b)]) with 1 in Hi2.
  destruct (decide (i = Zlen D)) as [->|]; [done|]. apply (Hf _ _ (hd_advances _ _ _ _ _ _ _ _ _ _ _ H12)).
  - split; lia.
  - apply Hall. split; lia.
Qed.
(** ** The writer *)

Lemma closed_pending S h :
  closed (pending S h) <-> (snd_queue h = [] -> closed S) /\ ends_message (snd_queue h).
Proof.
  unfold closed, pending, ends_message. destruct (last (snd_queue h)) as [s|] eqn:E.
  - apply last_Some in E as [q ->]. split.
    + intros H. split; [by destruct q|]. intros s' [= <-]. apply (H (seg_entry s)).
      rewrite map_app, app_assoc. cbn [map]. by rewrite last_snoc.
    + intros [_ H] e. rewrite map_app, app_assoc. cbn [map]. rewrite last_snoc. intros [= <-]. by apply (H s).
  - apply last_None in E as ->. cbn [map]. rewrite app_nil_r. split; [by intros H; split|].
    intros [H _]. by apply H.
Qed.

(** Once the FIN frame is written: the data [D] is at the reader, and the frame comes last. *)
Definition finishing (S D : list entry) (R : Z) (hb h : IKCPCB) : Prop :=
  D `prefix_of` S /\ closed D /\ (forall i, numbers D i -> had R hb i) /\
  exists b, Zlen b <= 6630 /\ pending S h = D ++ [(0, b)].

Lemma finishing_tailed S D R hb h : finishing S D R hb h -> tailed S D.
Proof.
  intros ([T ->] & _ & _ & b & _ & E). unfold pending in E. rewrite <- app_assoc in E.
  apply app_inv_head in E. destruct T as [|e T]; [left; by rewrite app_nil_r|right].
  cbn [app] in E. injection E as -> E. apply app_eq_nil in E as [-> _]. by exists b.
Qed.

(** What a session in phase [ph] has written: [W] in all, of which [D] is data; the reader is at
    [R] with [hb]. *)
Record speaks (ph : nat) (S D : list entry) (W : bytes) (R : Z) (hb : IKCPCB) k : Prop := {
  sp_writing : writing S W k;
  sp_kept i : numbers S i -> u32 i ∈ snd_sns (handle k) \/ had R hb i;
  sp_closed : closed (pending S (handle k));
  sp_open : ph = 0%nat -> D = S;
  sp_fin : (1 <= ph)%nat -> finishing S D R hb (handle k);
  sp_done : (2 <= ph)%nat -> pending S (handle k) = S /\ forall i, numbers S i -> had R hb i;
  sp_only : (1 <= ph)%nat -> (forall m, m ∈ snd_sns (handle k) -> m = u32 (Zlen D)) /\
    Forall (only_fin (u32 (Zlen D))) (outputs k)
}.

(** *** One call *)

Lemma snd_sns_conv h c : snd_sns (h <| conv := c |>) = snd_sns h.
Proof. done. Qed.

(** What leaves the send buffer is at the reader. *)
Lemma call_kept l k k' S R hb :
  kcp_ok (handle k) -> call l k k' -> emits S (handle k) -> Zlen S < SHORT -> 0 <= R <= Zlen S ->
  (forall i, numbers S i -> u32 i ∈ snd_sns (handle k) \/ had R hb i) ->
  Forall (fun p => refused p \/ reply S R hb p) (tooks l) ->
  forall i, numbers (S ++ moved_entries (handle k) (handle k')) i ->
    u32 i ∈ snd_sns (handle k') \/ had R hb i.
Proof.
  intros Hok Hcall He Hsh HR Hk Htk.
  assert (forall op, op_allowed op (handle k) -> (forall p, op <> OpInput p) ->
    handle k' = kcp_exec op (handle k) ->
    forall i, numbers (S ++ moved_entries (handle k) (handle k')) i ->
      u32 i ∈ snd_sns (handle k') \/ had R hb i) as Hop.
  { intros op Ha Hne Eh i Hi. destruct (exec_keeps_sns S (handle k) op Hok Ha He Hne) as (H1 & H2 & _).
    rewrite <- Eh in *. destruct (decide (i < Zlen S)) as [Hlt|Hge].
    - destruct (Hk i) as [H|H]; [unfold numbers in *; lia|left; by apply H1|by right].
    - left. apply H2. unfold numbers in Hi. lia. }
  assert (forall h p, snd_queue h = snd_queue (handle k) -> snd_sns h = snd_sns (handle k) ->
    Forall (fun p => refused p \/ reply S R hb p) [p] ->
    forall h', snd_queue h' = snd_queue (snd (ikcp_input h p)) -> snd_sns h' = snd_sns (snd (ikcp_input h p)) ->
    forall i, numbers (S ++ moved_entries (handle k) h') i -> u32 i ∈ snd_sns h' \/ had R hb i) as Hin.
  { intros h p Eq Es Hp h' Eq' Es' i Hi.
    pose proof (exec_input_moved h p) as Em. cbn [kcp_exec] in Em.
    assert (moved_entries (handle k) h' = []) as E
      by (unfold moved_entries in *; by rewrite Eq', <- Eq).
    rewrite E, app_nil_r in Hi. rewrite Es'. destruct (Hk i Hi) as [H|H]; [|by right].
    rewrite <- Es in H. apply Forall_inv in Hp as [Hr|Hr]; [left; by rewrite Hr|].
    destruct (input_forgets _ p _ H) as [H'|Hex]; [by left|right]. by apply (released_had S R hb p). }
  destruct Hcall as [op k k' Hs Ha Eh Eo|k k' Eh Eo _|a b k k' _ _ Hl _ Eh Eo|a m len k k' _ Eh Eo _
    |a p k k' Hact Eh Eo|p c c' k k' Eh Eo].
  - by apply (Hop op); [|by intros p ->|].
  - intros i. rewrite Eh, moved_entries_same, app_nil_r by done. apply Hk.
  - by apply (Hop (OpSend b)).
  - by apply (Hop (OpRecv len)).
  - destruct (took_acts _ _ _ Hact) as (_ & _ & _ & _ & Et). rewrite Et in Htk. rewrite Eh. by eapply Hin.
  - rewrite Eh. by eapply (Hin ((handle k) <| conv := c |>)).
Qed.

(** A call that writes nothing moves entries from the queue to the stream. *)
Lemma call_pending l k k' S :
  kcp_ok (handle k) -> 0 <= conv (handle k) < 4294967296 -> emits S (handle k) -> call l k k' ->
  wrotes l = [] -> pending (S ++ moved_entries (handle k) (handle k')) (handle k') = pending S (handle k).
Proof.
  intros Hok Hc He Hcall Hw.
  destruct Hcall as [op k k' Hs Ha Eh Eo|k k' Eh Eo _|a b k k' Hact _ _ _ Eh Eo|a m len k k' _ Eh Eo _
    |a p k k' Hact Eh Eo|p c c' k k' Eh Eo].
  - rewrite Eh. apply (exec_other S (handle k) op Hok Hc He). by intros b ->.
  - by rewrite Eh, moved_entries_same, app_nil_r.
  - by rewrite (wrotes_write _ _ _ Hact) in Hw.
  - rewrite Eh. by apply (exec_other S (handle k) (OpRecv len) Hok Hc He).
  - rewrite Eh. by apply (exec_other S (handle k) (OpInput p) Hok Hc He).
  - destruct (snd_keep_input ((handle k) <| conv := c |>) p) as (_ & E & _).
    assert (snd_queue (handle k') = snd_queue (handle k)) as Eq by (rewrite Eh; simp_upd; exact E).
    rewrite moved_entries_same, app_nil_r by done. unfold pending. by rewrite Eq.
Qed.

(** A call that writes nothing and settles nothing. *)
Lemma speaks_quiet ph S D W R hb k k' T :
  speaks ph S D W R hb k -> writing (S ++ T) W k' ->
  (forall i, numbers (S ++ T) i -> u32 i ∈ snd_sns (handle k') \/ had R hb i) ->
  pending (S ++ T) (handle k') = pending S (handle k) ->
  ((1 <= ph)%nat -> (forall m, m ∈ snd_sns (handle k') -> m = u32 (Zlen D)) /\
    Forall (only_fin (u32 (Zlen D))) (outputs k')) ->
  exists D', speaks ph (S ++ T) D' W R hb k' /\ D `prefix_of` D' /\ ((1 <= ph)%nat -> D' = D).
Proof.
  intros [Hw Hk Hc Ho Hf Hd _] Hw' Hk' Ep Hon. destruct ph as [|ph].
  - exists (S ++ T). rewrite (Ho eq_refl). split; [|split; [by eexists|lia]].
    split; [done|done|by rewrite Ep|done|lia|lia|lia].
  - exists D. split; [|done]. split; [done|done|by rewrite Ep|done| | |done].
    + intros H. destruct (Hf H) as ([r ->] & H2 & H3 & b & Hb & E). rewrite <- app_assoc.
      split; [by eexists|]. split; [done|]. split; [done|]. exists b. by rewrite app_assoc, Ep.
    + intros H. destruct (Hd H) as [E Hall]. assert (T = []) as ->.
      { rewrite E in Ep. unfold pending in Ep. rewrite <- app_assoc in Ep.
        rewrite <- (app_nil_r S) in Ep at 2. apply app_inv_head, app_eq_nil in Ep. apply Ep. }
      rewrite app_nil_r in *. split; [congruence|done].
Qed.

(** The writer has nothing waiting: the reader has it all. *)
Lemma settled_had S W R hb k :
  kcp_ok (handle k) -> writing S W k -> Zlen W < SHORT -> ikcp_waitsnd (handle k) = 0 ->
  (forall i, numbers S i -> u32 i ∈ snd_sns (handle k) \/ had R hb i) ->
  snd_queue (handle k) = [] /\ (forall i, numbers S i -> had R hb i) /\ snd_buf (handle k) = [].
Proof.
  intros Hok [_ Hf Hb] HW Hz Hk.
  assert (Zlen (snd_queue (handle k)) < 2147483648) as Hq.
  { pose proof (filled_count _ Hf) as Hc. rewrite Hb in Hc. unfold pending in Hc.
    rewrite Zlen_app in Hc. unfold SHORT, Zlen in *. rewrite length_map in Hc. lia. }
  destruct (waitsnd_nothing _ Hok Hq Hz) as [E1 E2]. split; [done|]. split; [|done]. intros i Hi.
  destruct (Hk i Hi) as [H|H]; [|done]. unfold snd_sns in H. rewrite E1 in H. by apply elem_of_nil in H.
Qed.

(** What a call makes of a writer in phase [ph]. *)
Definition told (l : list act) (ph ph' : nat) (S' D : list entry) (W : bytes) (R : Z) (hb : IKCPCB) k' : Prop :=
  exists D', speaks ph' S' D' (W ++ concat (wrotes l)) R hb k' /\
    D `prefix_of` D' /\ ((1 <= ph)%nat -> D' = D) /\
    (ph = 0%nat -> (1 <= ph')%nat -> (exists g, l = [Fin g]) /\ entry_bytes D' = W).

(** A call that writes nothing and settles nothing. *)
Lemma call_quiet l k k' ph S D W R hb :
  kcp_ok (handle k) -> 0 <= conv (handle k) < 4294967296 -> call l k k' -> speaks ph S D W R hb k ->
  (forall i, numbers (S ++ moved_entries (handle k) (handle k')) i ->
     u32 i ∈ snd_sns (handle k') \/ had R hb i) ->
  wrotes l = [] -> told l ph ph (S ++ moved_entries (handle k) (handle k')) D W R hb k'.
Proof.
  intros Hok Hc Hcall Hsp Hk' El. pose proof Hsp as [Hw _ _ _ Hf _ Hon].
  destruct (call_writing l k k' S W Hok Hc Hcall Hw) as (_ & Hw' & _).
  pose proof (call_pending l k k' S Hok Hc (wr_emits _ _ _ Hw) Hcall El) as Ep.
  unfold told. rewrite El in *. cbn [concat] in *. rewrite app_nil_r in *.
  destruct (speaks_quiet ph S D W R hb k k' _ Hsp Hw' Hk' Ep) as (D' & H1 & H2 & H3).
  { intros Hp. destruct (Hon Hp) as [O1 O2].
    apply (call_only l k k' S); try done; [apply Hw|]. intros i Hi.
    destruct (Hf Hp) as ([T ET] & _ & _ & b & _ & Epd).
    assert (Zlen (pending (S ++ moved_entries (handle k) (handle k')) (handle k')) = Zlen D + 1) as Hl.
    { rewrite Ep, Epd, Zlen_app. done. }
    unfold pending in Hl. rewrite (Zlen_app (S ++ _)) in Hl.
    pose proof (Zlen_nonneg (map seg_entry (snd_queue (handle k')))).
    assert (Zlen D <= Zlen S) by (rewrite ET, Zlen_app; pose proof (Zlen_nonneg T); lia).
    f_equal. lia. }
  exists D'. split_and!; try done. lia.
Qed.

(** A write, of data or of the FIN frame. *)
Lemma call_write_tells a b k k' ph ph' S D W R hb :
  kcp_ok (handle k) -> write_act a b k -> b <> [] -> Zlen b < 2147483648 ->
  handle k' = snd (ikcp_send (handle k) b (Zlen b)) -> outputs k' = outputs k ->
  run_phase [a] ph = Some ph' -> speaks ph S D W R hb k -> writing S (W ++ b) k' -> Zlen W < SHORT ->
  (forall i, numbers S i -> u32 i ∈ snd_sns (handle k') \/ had R hb i) ->
  Forall (fun b => Zlen b <= mss (handle k) /\ Zlen b <= 6630) (fins [a]) ->
  told [a] ph ph' S D W R hb k'.
Proof.
  intros Hok Hact Hne Hl Eh Eo Hrun Hsp Hw' HW Hk' Hfin. pose proof Hsp as [Hw Hk Hcl Ho _ _ _].
  pose proof Hok as [(Hso & _) _]. apply closed_pending in Hcl as [Hcl1 Hcl2].
  pose proof (ikcp_send_ends _ b Hso Hne Hl Hcl2) as He'. unfold told.
  rewrite (wrotes_write _ _ _ Hact). cbn [concat]. rewrite app_nil_r.
  destruct Hact as [->|(-> & Hz & Hout)]; cbn [run_phase phase_step] in Hrun; destruct ph as [|ph]; try done;
    injection Hrun as <-; rewrite (Ho eq_refl).
  - exists S. split; [|split; [done|split; [lia|lia]]].
    split; rewrite ?Eh; try done; [by rewrite <- Eh| |lia|lia|lia].
    apply closed_pending. split; [|done]. intros E. apply Hcl1.
    destruct (ikcp_send_parts _ b Hso Hne Hl) as (q & Hq & H).
    assert (q = []) as -> by (destruct H as [H|(b1 & _ & H)]; rewrite E in H; [done|];
      symmetry in H; by apply app_eq_nil in H as [-> _]).
    destruct Hq as [<-|(old & s & _ & F & _)]; [done|]. by destruct (removelast (snd_queue (handle k))).
  - destruct (settled_had S W R hb k Hok Hw HW Hz Hk) as (Eq & Hall & Eb).
    apply Forall_inv in Hfin as [Hm Hg]. pose proof (Zlen_pos b Hne) as Hpos.
    rewrite (send_one b (handle k) Hok Eq ltac:(lia)) in *. cbn [snd] in *.
    exists S. split; [|split; [done|split; [lia|]]].
    + split; rewrite ?Eh; try done; [by apply closed_pending; split| |lia|].
      2: { intros _. rewrite Eo, Hout. split; [|constructor]. unfold snd_sns.
           change (snd_buf _) with (snd_buf (handle k)). rewrite Eb. by intros m ?%elem_of_nil. }
      intros _. split; [done|]. split; [by apply Hcl1|]. split; [done|]. by exists b.
    + intros _ _. split; [by exists b|]. rewrite <- (wr_bytes _ _ _ Hw). unfold pending.
      rewrite Eq. cbn [map]. by rewrite app_nil_r.
Qed.

Lemma call_tells l k k' ph ph' S D W R hb :
  kcp_ok (handle k) -> 0 <= conv (handle k) < 4294967296 -> call l k k' -> run_phase l ph = Some ph' ->
  speaks ph S D W R hb k -> Zlen (W ++ concat (wrotes l)) < SHORT -> 0 <= R <= Zlen S ->
  Forall (fun p => refused p \/ reply S R hb p) (tooks l) ->
  Forall (fun b => Zlen b <= mss (handle k) /\ Zlen b <= 6630) (fins l) ->
  told l ph ph' (S ++ moved_entries (handle k) (handle k')) D W R hb k'.
Proof.
  intros Hok Hc Hcall Hrun Hsp Hlen HR Htk Hfin. pose proof Hsp as [Hw Hk Hcl Ho Hf Hd Hon].
  assert (Zlen W < SHORT) as HW by (rewrite Zlen_app in Hlen; pose proof (Zlen_nonneg (concat (wrotes l))); lia).
  assert (Zlen S < SHORT) as HS.
  { pose proof (filled_count _ (writing_filled S W k Hw)). pose proof (writing_le S W k Hw). lia. }
  destruct (call_writing l k k' S W Hok Hc Hcall Hw) as (_ & Hw' & _).
  pose proof (call_kept l k k' S R hb Hok Hcall (wr_emits _ _ _ Hw) HS HR Hk Htk) as Hk'.
  assert (wrotes l = [] -> ph' = ph -> told l ph ph' (S ++ moved_entries (handle k) (handle k')) D W R hb k')
    as Hquiet by (intros El ->; by apply call_quiet).
  destruct Hcall as [op k k' Hs Ha Eh Eo|k k' Eh Eo Hz|a b k k' Hact Hne Hl Hr Eh Eo|a m len k k' Hact Eh Eo _
    |a p k k' Hact Eh Eo|p c c' k k' Eh Eo].
  - injection Hrun as <-. by apply Hquiet.
  - cbn [run_phase phase_step] in Hrun. destruct ph as [|[|ph]]; [done| |done]. injection Hrun as <-.
    rewrite moved_entries_same, app_nil_r in * by by rewrite Eh. unfold told. cbn [wrotes omap list_omap concat] in *.
    rewrite app_nil_r in *. destruct (settled_had S W R hb k Hok Hw HW Hz Hk) as (Eq & Hall & _).
    exists D. split; [|split; [done|split; [done|lia]]].
    split; rewrite ?Eh, ?Eo; try done; [intros _; apply Hf; lia| |intros _; apply Hon; lia].
    intros _. split; [|done]. unfold pending. rewrite Eq. apply app_nil_r.
  - rewrite Eh, moved_entries_send, app_nil_r in * by done. rewrite (wrotes_write _ _ _ Hact) in Hw'.
    cbn [concat] in Hw'. rewrite app_nil_r in Hw'.
    by apply (call_write_tells a b k k'); rewrite ?Eh.
  - rewrite (wrotes_read _ _ _ Hact) in *. apply Hquiet; [done|].
    destruct Hact as [->|[[-> _]|[-> _]]]; cbn [run_phase phase_step] in Hrun; congruence.
  - destruct (took_acts _ _ _ Hact) as [Ew _]. apply Hquiet; [done|].
    destruct Hact as [->|[-> _]]; cbn [run_phase phase_step] in Hrun; congruence.
  - apply Hquiet; [done|]. cbn [run_phase phase_step] in Hrun. congruence.
Qed.

Lemma calls_tells l k k' ph ph' S D W R hb :
  calls l k k' -> run_phase l ph = Some ph' ->
  speaks ph S D W R hb k -> Zlen (W ++ concat (wrotes l)) < SHORT -> 0 <= R <= Zlen S ->
  Forall (fun p => refused p \/ reply S R hb p) (tooks l) ->
  Forall (fun b => Zlen b <= mss (handle k) /\ Zlen b <= 6630) (fins l) ->
  Forall (honest (-65535) S) (outputs k) ->
  exists T D', speaks ph' (S ++ T) D' (W ++ concat (wrotes l)) R hb k' /\
    D `prefix_of` D' /\ ((1 <= ph)%nat -> D' = D) /\ Forall (honest (-65535) (S ++ T)) (outputs k') /\
    (ph = 0%nat -> (1 <= ph')%nat -> exists l1 g l2, l = l1 ++ Fin g :: l2 /\
       run_phase l1 0 = Some 0%nat /\ entry_bytes D' = W ++ concat (wrotes l1)).
Proof.
  intros Hc. revert ph S D W. induction Hc as [k k' E1 E2|l l' k1 k2 k3 Hok Hcv Hone _ IH];
    intros ph S D W Hrun Hsp Hlen HR Htk Hfin Ho.
  - injection Hrun as <-. exists [], D. cbn [wrotes omap list_omap concat].
    rewrite !app_nil_r, E2. split; [|split; [done|split; [done|split; [done|lia]]]].
    destruct Hsp as [H1 H2 H3 H4 H5 H6 H7]. split; rewrite ?E1, ?E2; try done. by apply (writing_same S W k).
  - rewrite run_phase_app in Hrun. destruct (run_phase l ph) as [ph1|] eqn:Hrun1; [|done].
    rewrite wrotes_app, concat_app, app_assoc in Hlen. rewrite tooks_app, fins_app in *.
    apply Forall_app in Htk as [Htk1 Htk2]. apply Forall_app in Hfin as [Hfin1 Hfin2].
    assert (Zlen (W ++ concat (wrotes l)) < SHORT) as Hlen1.
    { rewrite Zlen_app in Hlen. pose proof (Zlen_nonneg (concat (wrotes l'))). lia. }
    destruct (call_tells l k1 k2 ph ph1 S D W R hb Hok Hcv Hone Hrun1 Hsp Hlen1 HR Htk1 Hfin1)
      as (D1 & Hsp1 & HD1 & Hph1 & Hf1).
    destruct (call_writing l k1 k2 S W Hok Hcv Hone (sp_writing _ _ _ _ _ _ _ Hsp)) as (ps & _ & Eo & Hps).
    set (T := moved_entries (handle k1) (handle k2)) in *.
    destruct (IH ph1 (S ++ T) D1 _ Hrun Hsp1 Hlen) as (T' & D' & H1 & H2 & H3 & H4 & H5).
    + rewrite Zlen_app. pose proof (Zlen_nonneg T). lia.
    + eapply Forall_impl; [exact Htk2|]. intros p [H|H]; [by left|right; by apply reply_grow].
    + rewrite (call_mss l k1 k2 Hok Hone). done.
    + rewrite Eo. apply Forall_app. split; (eapply Forall_impl; [eassumption|]); intros p Hp.
      * by eapply honest_weaken; [|exact Hp].
      * rewrite <- (app_nil_r (S ++ T)). eapply honest_weaken; [|exact Hp]. pose proof (Zlen_nonneg S). lia.
    + exists (T ++ T'), D'. rewrite wrotes_app, concat_app, !app_assoc. split; [done|].
      split; [by transitivity D1|]. split; [|split; [done|]].
      * intros Hp. rewrite H3, Hph1; [done|done|]. destruct ph1; [|lia].
        apply run_phase_ge in Hrun1 as [? _]. lia.
      * intros -> Hp'. destruct ph1 as [|ph1].
        -- destruct (H5 eq_refl Hp') as (l1 & g & l2 & -> & Hr & Eb). exists (l ++ l1), g, l2.
           split; [by rewrite app_assoc|]. split; [by rewrite run_phase_app, Hrun1|].
           by rewrite Eb, wrotes_app, concat_app, app_assoc.
        -- destruct (Hf1 eq_refl ltac:(lia)) as [(g & ->) Eb]. exists [], g, l'. split; [done|].
           split; [done|]. rewrite H3 by lia. by rewrite app_nil_r.
Qed.
End Endings.
