(* ===== verification/Intact.v ===== *)
(** Two programs whose streams stay short: what one reads is what the other wrote, to the end of
    the stream and past it; the FIN frame is not data, and never overtakes any. *)
From Stdlib Require Import Strings.Byte.
From stdpp Require Import relations.
From S2P Require Import Prelude Bytes IkcpTypes IkcpSend IkcpInput IkcpFlush IkcpFlushSpec.
From S2P Require Import IkcpInv Wire Delivery Network Progress Exchange Acks Rounds Acked.
From S2P Require Import Protocol ProtocolSpec Config Stream StreamIo StreamSpec StreamSafe StreamWire.
From S2P Require Import Handshake Session Calls TaskCalls Sessions Programs Marked Endings.

(** ** The stream grows under both ends *)

Lemma hears_grow S T D D' R got del h :
  rcv_window h -> hears S D R got del h -> Zlen (S ++ T) < SHORT -> given D' got del ->
  hears (S ++ T) D' R got del h.
Proof.
  intros Hw [Ht Ha _] Hs Hg. split; [|by apply answers_grow|done].
  apply tracks_grow; [done|done|]. destruct Ht as [_ [[HR _] _] _ _]. unfold SHORT in Hs. lia.
Qed.

Lemma hears_range S D R got del h : hears S D R got del h -> 0 <= R <= Zlen S.
Proof. intros [[_ [HR _] _ _] _ _]. done. Qed.

(** What is behind the stream the reader knows it does not have. *)
Lemma not_had S R got h i :
  tracks S R got h -> Zlen S <= i < SHORT -> ~ had R h i.
Proof.
  intros [_ [HR _] _ Hb] Hi [H|H]; [lia|]. apply list_elem_of_fmap in H as (s & Es & Hs).
  rewrite Forall_forall in Hb. destruct (Hb s Hs) as (j & (Hj & Ej & _) & _).
  rewrite Ej in Es. unfold SHORT in Hi. apply u32_inj_near in Es; [lia|]. lia.
Qed.

Section Intact.
Context {BM : BytesMut} {BML : BytesMutLaws BM}.

(** The reader moves on. *)
Lemma speaks_reader ph S D W R hb (k : Kcp) S0 got0 R' hb' :
  speaks ph S D W R hb k -> Zlen S < SHORT -> tracks S0 R got0 hb -> advances S0 R hb R' hb' ->
  D `prefix_of` S0 -> S0 `prefix_of` S -> ((2 <= ph)%nat -> S0 = S) -> speaks ph S D W R' hb' k.
Proof.
  intros [Hw Hk Hcl Ho Hf Hd Hon] Hs Ht Had [T0 ED] [T ES] H2.
  assert (Zlen S0 <= Zlen S) as Hle by (rewrite ES, Zlen_app; pose proof (Zlen_nonneg T); lia).
  assert (forall i, numbers S0 i -> had R hb i -> had R' hb' i) as Hmono.
  { intros i Hi. apply (ad_had _ _ _ _ _ Had). apply numbers_near; [lia|done]. }
  split; try done.
  - intros i Hi. destruct (Hk i Hi) as [H|H]; [by left|right]. apply Hmono; [|done].
    destruct (decide (i < Zlen S0)) as [Hlt|Hge]; [by destruct Hi|].
    destruct (not_had S0 R got0 hb i Ht); [unfold numbers in Hi; lia|done].
  - intros Hp. destruct (Hf Hp) as (H3 & H4 & H5 & H6). split; [done|]. split; [done|]. split; [|done].
    intros i Hi. apply Hmono; [rewrite ED; by apply numbers_grow|by apply H5].
  - intros Hp. destruct (Hd Hp) as [E H]. split; [done|]. intros i Hi. rewrite (H2 Hp) in Hmono. auto.
Qed.

(** ** One direction

    [S] is the stream of the writer's control block, [D] what of it is data, [W] all that was
    written and [ph] the writer's phase; the reader is at segment [R], has taken [got] out of its
    queue, and [del] of it is for the program. *)

(** The stream as the reader knows it. *)
Definition seen (t : Task) (S D : list entry) : list entry := if has t FIN_RECVED then S else D.

(** The data a session has written is its greeting and what its program gave, [I]. *)
Inductive opened (L : Z) (t : Task) (V I : bytes) : Prop :=
| opened_not : t_hs t = Syn \/ t_hs t = Disconnected -> is_client t = false -> V = [] -> I = [] ->
    opened L t V I
| opened_with g : V = g ++ I -> Zlen g = L -> (t_hs t = Syn -> is_client t = true) -> opened L t V I.

Record flows (L : Z) (a b : side) (S D : list entry) (W : bytes) (ph : nat) (R : Z)
    (got del : list entry) : Prop := {
  fl_a : session_ok L (fst (pg_task a));
  fl_b : session_ok L (fst (pg_task b));
  fl_fits : L <= mss (handle (t_kcp (fst (pg_task a))));
  fl_phase : in_phase (has (fst (pg_task b)) FIN_RECVED = true \/ outputs (t_kcp (fst (pg_task a))) = [])
    ph (fst (pg_task a));
  fl_speaks : speaks ph S D W R (handle (t_kcp (fst (pg_task b)))) (t_kcp (fst (pg_task a)));
  fl_data : opened L (fst (pg_task a)) (if decide (ph = 0%nat) then W else entry_bytes D)
              (concat (pg_in a));
  fl_fin : has (fst (pg_task b)) FIN_RECVED = true -> (1 <= ph)%nat /\ t_hs (fst (pg_task b)) <> Syn;
  fl_hears : hears (seen (fst (pg_task b)) S D) D R got del (handle (t_kcp (fst (pg_task b))));
  fl_same : has (fst (pg_task b)) FIN_RECVED = false -> got = del;
  fl_read : read_so_far L (fst (pg_task b)) (snd (pg_task b)) (entry_bytes del) (concat (pg_out b));
  fl_sent : Forall (fun p => clean p /\ honest (-65535) S p) (outputs (t_kcp (fst (pg_task a))));
  fl_net : forall q, q ∈ map snd (pg_net a) -> carried (honest (-65535) S) q /\
    (fin_marked q -> (1 <= ph)%nat /\ forall p, unmarks q p -> bears (u32 (Zlen D)) p) /\
    (has (fst (pg_task b)) FIN_RECVED = true \/ fin_marked q \/ honest (-65535) D q);
  fl_replies : Forall (fun p => clean p /\
      reply (seen (fst (pg_task b)) S D) R (handle (t_kcp (fst (pg_task b)))) p)
    (outputs (t_kcp (fst (pg_task b))));
  fl_back : forall q, q ∈ map snd (pg_net b) ->
    carried (reply (seen (fst (pg_task b)) S D) R (handle (t_kcp (fst (pg_task b))))) q;
  fl_whole : has (fst (pg_task b)) FIN_RECVED = true ->
    Zlen S <= rcv_wnd (handle (t_kcp (fst (pg_task b)))) < 65536 ->
    whole S D R got del (handle (t_kcp (fst (pg_task b))))
}.

Definition flow_inv (L : Z) (a b : side) : Prop :=
  Zlen (concat (pg_in a)) < AHEAD -> exists S D W ph R got del, flows L a b S D W ph R got del.

(** *** What follows *)

Lemma speaks_prefix ph S D W R hb (k : Kcp) : speaks ph S D W R hb k -> D `prefix_of` S.
Proof.
  intros Hsp. destruct (decide (ph = 0%nat)) as [E|E]; [by rewrite (sp_open _ _ _ _ _ _ _ Hsp E)|].
  apply (sp_fin _ _ _ _ _ _ _ Hsp). lia.
Qed.

Section Facts.
Context (L : Z) (a b : side) (S D : list entry) (W : bytes) (ph : nat) (R : Z) (got del : list entry).
Hypothesis Hfl : flows L a b S D W ph R got del.

Lemma flows_prefix : D `prefix_of` S.
Proof. eapply speaks_prefix. apply Hfl. Qed.

Lemma seen_prefix (t : Task) : D `prefix_of` seen t S D /\ seen t S D `prefix_of` S.
Proof. unfold seen. pose proof flows_prefix. by destruct (has t FIN_RECVED). Qed.

Lemma flows_room : Zlen W <= Zlen (concat (pg_in a)) + (if decide (ph = 0%nat) then 6630 else 13260).
Proof.
  pose proof (greeting_len_le L _ (fl_a _ _ _ _ _ _ _ _ _ _ Hfl)) as HL.
  assert (forall V, opened L (fst (pg_task a)) V (concat (pg_in a)) ->
    Zlen V <= Zlen (concat (pg_in a)) + 6630) as Ho.
  { intros V [_ _ -> ->|g -> Hg _]; [change (Zlen []) with 0; lia|]. rewrite Zlen_app. lia. }
  pose proof (Ho _ (fl_data _ _ _ _ _ _ _ _ _ _ Hfl)) as H.
  destruct (decide (ph = 0%nat)) as [E|E]; [done|].
  pose proof (fl_speaks _ _ _ _ _ _ _ _ _ _ Hfl) as Hsp.
  destruct (sp_fin _ _ _ _ _ _ _ Hsp ltac:(lia)) as (_ & _ & _ & f & Hf & Ep).
  rewrite <- (wr_bytes _ _ _ (sp_writing _ _ _ _ _ _ _ Hsp)), Ep, entry_bytes_app, Zlen_app.
  unfold entry_bytes at 2. cbn [map snd concat]. rewrite app_nil_r. lia.
Qed.

Lemma flows_short : Zlen (concat (pg_in a)) < AHEAD -> Zlen W < SHORT /\ Zlen S <= Zlen W /\
  Zlen (entry_bytes S) <= Zlen W.
Proof.
  intros Ha. pose proof flows_room as Hr. pose proof (fl_speaks _ _ _ _ _ _ _ _ _ _ Hfl) as Hsp.
  pose proof (sp_writing _ _ _ _ _ _ _ Hsp) as Hw. pose proof (writing_le S W _ Hw) as Hle.
  pose proof (filled_count S (writing_filled S W _ Hw)).
  unfold AHEAD in Ha. unfold SHORT. destruct (decide (ph = 0%nat)); lia.
Qed.

(** When the FIN frame is acknowledged the reader has its mark. *)
Lemma flows_settled :
  Zlen (concat (pg_in a)) < AHEAD -> (2 <= ph)%nat -> has (fst (pg_task b)) FIN_RECVED = true.
Proof.
  intros Ha Hp. destruct (flows_short Ha) as (H1 & H2 & _).
  pose proof (fl_speaks _ _ _ _ _ _ _ _ _ _ Hfl) as Hsp. pose proof (fl_hears _ _ _ _ _ _ _ _ _ _ Hfl) as Hh.
  destruct (has (fst (pg_task b)) FIN_RECVED) eqn:Ef; [done|exfalso]. unfold seen in Hh. rewrite Ef in Hh.
  destruct (sp_done _ _ _ _ _ _ _ Hsp Hp) as [Ep Hall].
  destruct (sp_fin _ _ _ _ _ _ _ Hsp ltac:(lia)) as (_ & _ & _ & f & _ & Ef2). rewrite Ep in Ef2.
  assert (Zlen S = Zlen D + 1) as El by (rewrite Ef2, Zlen_app; done).
  pose proof (Zlen_nonneg D).
  destruct (not_had D R got _ (Zlen D) (hr_tracks _ _ _ _ _ _ Hh)); [lia|].
  apply Hall. unfold numbers. lia.
Qed.
End Facts.

(** ** The writer's turn *)

Lemma turn_acts fs l :
  wrotes (map Wrote (solids fs) ++ l) = solids fs ++ wrotes l /\ fins (map Wrote (solids fs) ++ l) = fins l /\
  reads (map Wrote (solids fs) ++ l) = reads l /\ drops (map Wrote (solids fs) ++ l) = drops l /\
  tooks (map Wrote (solids fs) ++ l) = tooks l.
Proof.
  destruct (wrote_acts (solids fs)) as (V1 & V2 & V3 & V4 & V5).
  by rewrite wrotes_app, fins_app, reads_app, drops_app, tooks_app, V1, V2, V3, V4, V5.
Qed.

(** A turn without the FIN frame. *)
Lemma opened_step L t t' W I fs l :
  session_ok L t -> opened L t W I -> forward t t' -> own_ws t t' l -> (t_hs t = Disconnected -> fs = [] /\ l = []) ->
  (fs <> [] -> t_hs t <> Syn /\ has t INPUT_CLOSED = false) -> fins l = [] ->
  opened L t' (W ++ concat (solids fs ++ wrotes l)) (I ++ concat fs).
Proof.
  intros Hso Ho F Hown Hov Hfs Hfin. pose proof (fw_client _ _ F) as Ecl.
  assert (t_hs t' = Syn -> t_hs t = Syn) as Hback.
  { intros E. apply hs_syn_rank. pose proof (fw_hs _ _ F) as Hle. unfold hs_le in Hle. by rewrite E in Hle. }
  rewrite concat_app, concat_solids. destruct Ho as [Hq Hc -> ->|g -> Hg Hsyn].
  - assert (fs = []) as ->.
    { destruct fs; [done|]. destruct (Hfs ltac:(done)) as [A _]. destruct Hq as [Hq|Hq]; [done|].
      by destruct (Hov Hq). }
    destruct Hq as [Hq|Hq]; cycle 1.
    { destruct (Hov Hq) as [_ ->]. apply opened_not; [right; by apply (over_forward t)|congruence|done|done]. }
    cbn [concat app]. destruct Hown as [E H|_ A B C E|E A _ _ _].
    + rewrite E. apply opened_not; [by apply H|congruence|done|done].
    + apply (opened_with _ _ _ _ (concat (wrotes l))); [by rewrite app_nil_r| |done].
      rewrite E. apply (so_len _ _ Hso).
    + rewrite Hq in A. cbn in A. lia.
  - assert (wrotes l = []) as ->.
    { destruct Hown as [E _|_ A B _ _|E _ _ _ _]; [done| |congruence]. rewrite (Hsyn A) in B. done. }
    cbn [concat]. rewrite app_nil_r. apply (opened_with _ _ _ _ g); [by rewrite app_assoc|done|].
    intros E. rewrite Ecl. by apply Hsyn, Hback.
Qed.

(** The turn with the FIN frame: everything else is written before it. *)
Lemma opened_fin L t t' W I fs l l1 f l2 ph :
  opened L t W I -> forward t t' -> own_ws t t' l ->
  map Wrote (solids fs) ++ l = l1 ++ Fin f :: l2 -> run_phase l1 0 = Some 0%nat ->
  run_phase (map Wrote (solids fs) ++ l) 0 = Some ph ->
  opened L t' (W ++ concat (wrotes l1)) (I ++ concat fs).
Proof.
  intros Ho F Hown El H1 Hrun. destruct (turn_acts fs l) as (Ew & Ef & _).
  rewrite El, run_phase_app, H1 in Hrun. cbn [run_phase phase_step] in Hrun.
  destruct (run_phase_ge _ _ _ Hrun) as [_ H2]. specialize (H2 ltac:(lia)).
  pose proof (run_phase_no_fin _ H1) as F1. pose proof (fins_wrotes _ H2) as F2.
  rewrite El, wrotes_app in Ew. rewrite El, fins_app, F1 in Ef.
  cbn [wrotes fins omap list_omap app] in Ew, Ef.
  change (omap _ l2) with (wrotes l2) in Ew. change (omap _ l2) with (fins l2) in Ef.
  rewrite H2 in Ew. rewrite F2 in Ef.
  assert (wrotes l = fins l /\ (1 <= hs_rank (t_hs t) <= 2)%nat) as [Eo Hr].
  { destruct Hown as [E _|E _ _ _ _|E A _ _ _]; [|congruence|done].
    rewrite (fins_wrotes _ E) in Ef. done. }
  rewrite Eo, <- Ef in Ew. apply app_inj_tail in Ew as [-> _]. rewrite concat_solids.
  destruct Ho as [[E|E] _ _ _|g -> Hg Hsyn]; [rewrite E in Hr; cbn in Hr; lia..|].
  apply (opened_with _ _ _ _ g); [by rewrite app_assoc|done|].
  intros E. exfalso. apply (hs_not_syn t t' F); [|done]. intros E'. rewrite E' in Hr. cbn in Hr. lia.
Qed.

(** What a session writes on its own account is short. *)
Lemma own_short L t t' l :
  session_ok L t -> own_ws t t' l -> Zlen (concat (wrotes l)) <= 6630 /\
  Forall (fun b => Zlen b <= L /\ Zlen b <= 6630) (fins l).
Proof.
  intros Hso Hown. pose proof (greeting_len_le L t Hso) as HL. rewrite <- (so_len _ _ Hso) in *.
  assert (Zlen (concat (wrotes l)) <= greeting_len (t_config t)) as Hw.
  { destruct Hown as [-> _|_ _ _ _ ->|_ _ _ _ H]; [change (Zlen (concat [])) with 0; lia|lia|apply H]. }
  split; [lia|]. assert (fins l = [] \/ wrotes l = fins l) as [-> |E].
  { destruct Hown as [E _|E _ _ _ _|E _ _ _ _]; [left; by apply fins_wrotes|by left|by right]. }
  - constructor.
  - rewrite E in Hw. revert Hw. generalize (fins l). clear - HL. intros q. revert HL.
    induction q as [|b q IH]; intros HL Hw; [constructor|]. cbn [concat] in Hw. rewrite Zlen_app in Hw.
    pose proof (Zlen_nonneg b). pose proof (Zlen_nonneg (concat q)). constructor; [lia|]. apply IH; lia.
Qed.

Lemma in_phase_impl (P Q : Prop) ph (t : Task) :
  (t_hs t = Disconnected -> P -> Q) -> in_phase P ph t -> in_phase Q ph t.
Proof. intros H (H1 & H2 & H3). split; [done|]. split; [done|]. auto. Qed.

(** What the writer's turn makes of its side of the stream. *)
Record wrote_on (L : Z) (a b : side) (S D : list entry) (W : bytes) (ph : nat) (R : Z) (fs : list bytes)
    (t' : Task) (T D' : list entry) (W' : bytes) (ph' : nat) : Prop := {
  wo_phase : in_phase (has (fst (pg_task b)) FIN_RECVED = true \/ outputs (t_kcp t') = []) ph' t';
  wo_le : (ph <= ph')%nat;
  wo_speaks : speaks ph' (S ++ T) D' W' R (handle (t_kcp (fst (pg_task b)))) (t_kcp t');
  wo_grow : D `prefix_of` D';
  wo_same : (1 <= ph)%nat -> D' = D;
  wo_room : Zlen W' < SHORT;
  wo_sent : Forall (fun p => clean p /\ honest (-65535) (S ++ T) p) (outputs (t_kcp t'));
  wo_data : opened L t' (if decide (ph' = 0%nat) then W' else entry_bytes D') (concat (pg_in a ++ fs))
}.

Lemma writer_turn L a b S D W ph R got del x ev fs ps out t' x' l :
  flows L a b S D W ph R got del -> turn_effect L (fst (pg_task a)) x ev fs ps out t' x' l ->
  Zlen (concat (pg_in a ++ fs)) < AHEAD -> (forall p, p ∈ event_packets ev -> p ∈ map snd (pg_net b)) ->
  exists T D' W' ph', wrote_on L a b S D W ph R fs t' T D' W' ph'.
Proof.
  intros Hfl [Hc _ Hso' F Hown Hph Hov Hfs Htk _ _ _ _] Ha Hev.
  rewrite concat_app, Zlen_app in Ha. pose proof (Zlen_nonneg (concat fs)) as Hfs0.
  pose proof Hfl as [Hsa Hsb Hfit Hphase Hsp Hdata _ Hh _ _ _ _ _ Hback _].
  destruct (flows_short L a b S D W ph R got del Hfl ltac:(lia)) as (HW & HS & _).
  pose proof (flows_room L a b S D W ph R got del Hfl) as Hroom.
  destruct (seen_prefix L a b S D W ph R got del Hfl (fst (pg_task b))) as [_ [U EU]].
  destruct (turn_acts fs l) as (Ew & Ef & _ & _ & Et).
  destruct (Hph ph) as (ph' & Hrun & Hphase').
  { eapply in_phase_impl; [|exact Hphase]. intros E _. right. by apply Hov. }
  apply (in_phase_impl _ (has (fst (pg_task b)) FIN_RECVED = true \/ outputs (t_kcp t') = [])) in Hphase'; cycle 1.
  { intros _ [(q & Hq & Hr)|H]; [|by right]. by apply (carried_not_reset _ q (Hback q (Hev q Hq))) in Hr. }
  destruct (own_short L _ t' l Hsa Hown) as [Hown1 Hown2].
  set (ta := fst (pg_task a)) in *. set (l0 := map Wrote (solids fs) ++ l) in *.
  assert (run_phase l0 ph = Some ph') as Hrun0.
  { destruct (decide (fs = [])) as [->|Hne]; [done|]. destruct (Hfs Hne) as [_ Hcl].
    destruct Hphase as [Hp _]. destruct ph as [|ph]; [|specialize (Hp ltac:(lia)); congruence].
    unfold l0. by rewrite run_phase_app, run_phase_wrote. }
  destruct (run_phase_ge _ _ _ Hrun0) as [Hle Hlate].
  assert (Zlen (W ++ concat (wrotes l0)) < SHORT) as HW'.
  { unfold AHEAD in Ha. unfold SHORT. rewrite Zlen_app. destruct (decide (ph = 0%nat)) as [E|E].
    - rewrite Ew, concat_app, concat_solids, Zlen_app. lia.
    - rewrite Hlate by lia. change (Zlen (concat [])) with 0. lia. }
  destruct (calls_tells l0 (drained (t_kcp ta)) (t_kcp t') ph ph' S D W R
    (handle (t_kcp (fst (pg_task b)))) Hc Hrun0) as (T & D' & H1 & H2 & H3 & H4 & H5).
  - destruct Hsp as [Q1 Q2 Q3 Q4 Q5 Q6 Q7]. split; try done; [by apply (writing_same S W (t_kcp ta))|].
    intros Hp. split; [by apply Q7|constructor].
  - exact HW'.
  - pose proof (hears_range _ _ _ _ _ _ Hh). pose proof (Zlen_nonneg U).
    rewrite EU, Zlen_app. lia.
  - rewrite Et. eapply Forall_impl; [exact Htk|]. intros p Hp.
    destruct (carried_took _ t' (event_packets ev) p (fun q Hq => Hback q (Hev q Hq)) Hp) as [H|H]; [by left|right].
    rewrite EU. by apply reply_grow.
  - rewrite Ef. eapply Forall_impl; [exact Hown2|]. intros f [Hf1 Hf2].
    change (mss (handle (drained (t_kcp ta)))) with (mss (handle (t_kcp ta))). lia.
  - constructor.
  - pose proof (calls_clean _ _ _ Hc ltac:(constructor)) as Hcl.
    exists T, D', (W ++ concat (wrotes l0)), ph'. split; try done.
    + apply Forall_forall. intros p Hp. rewrite Forall_forall in Hcl, H4. auto.
    + rewrite concat_app. destruct (decide (ph = 0%nat)) as [->|Hne].
      * destruct (decide (ph' = 0%nat)) as [->|Hne'].
        -- rewrite Ew. apply (opened_step L ta); try done; [|rewrite <- Ef; by apply run_phase_no_fin].
           intros E. by destruct (Hov E) as (-> & _ & -> & _).
        -- destruct (H5 eq_refl ltac:(lia)) as (l1 & f & l2 & El & Hr & ->).
           by apply (opened_fin L ta t' W _ fs l l1 f l2 ph').
      * rewrite H3 by lia. destruct (decide (ph' = 0%nat)); [lia|].
        assert (fs = []) as ->.
        { destruct fs as [|f fs']; [done|]. destruct (Hfs ltac:(done)) as [_ Hcl'].
          destruct Hphase as [Hp _]. rewrite Hp in Hcl'; [done|lia]. }
        cbn [concat]. rewrite app_nil_r. assert (t_hs ta <> Syn) as Hns.
        { intros E. pose proof (in_phase_of _ _ _ Hphase ltac:(congruence)) as Hp. rewrite E in Hp. cbn in Hp. lia. }
        destruct Hdata as [[E|E] Hcl0 ED EI|g E Hg _]; [done|..].
        -- apply opened_not; [right; by apply (over_forward ta)|by rewrite (fw_client _ _ F)|done|done].
        -- apply (opened_with _ _ _ _ g); [done|done|]. intros E'. exfalso.
           by apply (hs_not_syn ta t' F).
Qed.

(** The packets a writer puts on the transport. *)
Lemma sent_packet S D hs ph p :
  Forall filled S -> clean p -> honest (-65535) S p -> (hs <> Disconnected -> phase_of hs = ph) ->
  (ph = 0%nat -> D = S) -> ((1 <= ph)%nat -> only_fin (u32 (Zlen D)) p) ->
  carried (honest (-65535) S) (marked hs p) /\
  (fin_marked (marked hs p) -> (1 <= ph)%nat /\
     forall p', unmarks (marked hs p) p' -> bears (u32 (Zlen D)) p') /\
  (hs = Disconnected /\ ph = 1%nat \/ (2 <= ph)%nat \/ fin_marked (marked hs p) \/
   honest (-65535) D (marked hs p)).
Proof.
  intros Hf Hc Hh Eph HD Hon. split; [by apply marked_carried|]. split.
  - intros Hm. pose proof (marked_fin hs p Hc Hm) as Ehs.
    assert (1 <= ph)%nat as Hp by (rewrite Ehs in Eph; specialize (Eph ltac:(done)); cbn in Eph; lia).
    split; [done|]. intros p'. apply marked_bears; auto.
  - destruct (decide (hs = FinSent)) as [->|Hne]; [right; right; by apply (marked_hidden S)|].
    assert (marked hs p = p) as -> by (unfold marked, mark_fin; by rewrite decide_False by done).
    destruct ph as [|[|ph]]; [by right; right; right; rewrite HD| |right; left; lia].
    left. split; [|done]. destruct (decide (hs = Disconnected)) as [|Hd]; [done|].
    specialize (Eph Hd). by destruct hs.
Qed.

Lemma honest_grow S T p : honest (-65535) S p -> honest (-65535) (S ++ T) p.
Proof. by apply honest_weaken. Qed.

(** With the FIN frame in it the stream does not grow. *)
Lemma whole_stays ph S T D W R hb (k : Kcp) got del h :
  speaks ph (S ++ T) D W R hb k -> (1 <= ph)%nat -> whole S D R got del h -> T = [].
Proof.
  intros Hsp Hp ([f ->] & _). destruct (sp_fin _ _ _ _ _ _ _ Hsp Hp) as (_ & _ & _ & f' & _ & E).
  apply (f_equal Zlen) in E. unfold pending in E. rewrite !Zlen_app in E.
  change (Zlen [(0, f)]) with 1 in E. change (Zlen [(0, f')]) with 1 in E.
  match type of E with _ + Zlen ?q = _ => pose proof (Zlen_nonneg q) end.
  destruct T as [|y T]; [done|]. rewrite Zlen_cons in E. pose proof (Zlen_nonneg T). lia.
Qed.

Lemma task_turn_effect clock L self peer self' :
  task_turn clock self peer self' -> side_ok self -> session_ok L (fst (pg_task self)) ->
  exists ev fs ps out t' x' inq l,
    turn_effect L (fst (pg_task self)) (snd (pg_task self)) ev fs ps out t' x' l /\
    (forall p, p ∈ event_packets ev -> p ∈ map snd (pg_net peer)) /\
    self' = mkSide (t', x') (pg_stream self) inq (pg_outq self ++ out)
         (pg_net self ++ map (pair (pg_mark self)) ps) (Zlen (concat (pg_out peer)))
         (pg_in self ++ fs) (pg_out self ++ frames out) (pg_written self) (pg_read self).
Proof.
  intros [ev fs ps out [t' x'] inq Ht Hoff Eq Hdel _] Hok Hso.
  pose proof (writes_ok_queue ev _ _ (si_queue _ Hok) Hoff) as Hw.
  destruct (pg_task self) as [t x] eqn:Etask. cbn [fst snd] in *.
  destruct (turn_does clock t x ev fs ps out t' x' L Ht Hso Hw) as [l Hl].
  exists ev, fs, ps, out, t', x', inq, l. split; [done|]. split; [|done].
  intros p Hp. rewrite Forall_forall in Hdel. destruct (Hdel p Hp) as (n & Hn & _).
  cbn [direction ss_net] in Hn. apply list_elem_of_fmap. by exists (n, p).
Qed.

Lemma map_snd_pair {A} (n : A) (ps : list bytes) : map snd (map (pair n) ps) = ps.
Proof. induction ps as [|p ps IH]; [done|]. cbn [map snd]. by rewrite IH. Qed.

Lemma flow_writer clock L a b a' :
  task_turn clock a b a' -> side_ok a -> flow_inv L a b -> flow_inv L a' b.
Proof.
  intros Hturn Hok Hinv Ha.
  assert (Zlen (concat (pg_in a)) < AHEAD) as Ha0.
  { destruct Hturn. cbn [pg_in] in Ha. rewrite concat_app, Zlen_app in Ha.
    pose proof (Zlen_nonneg (concat fs)). lia. }
  destruct (Hinv Ha0) as (S & D & W & ph & R & got & del & Hfl). clear Hinv.
  destruct (task_turn_effect clock L a b a' Hturn Hok (fl_a _ _ _ _ _ _ _ _ _ _ Hfl))
    as (ev & fs & ps & out & t' & x' & inq & l & He & Hev & ->). cbn [pg_in] in Ha.
  destruct (writer_turn L a b S D W ph R got del _ _ _ _ _ _ _ _ Hfl He Ha Hev)
    as (T & D' & W' & ph' & [P1 P2 P3 P4 P5 P6 P7 P8]).
  pose proof (flows_prefix L a b S D W ph R got del Hfl) as HDS.
  pose proof (flows_settled L a b S D W ph R got del Hfl Ha0) as Hset.
  destruct Hfl as [Hsa Hsb Hfit Hphase Hsp Hdata Hfin Hh Hsame Hread Hsent Hnet Hrep Hback Hwhole].
  exists (S ++ T), D', W', ph', R, got, del.
  destruct He as [Hc Hps Hso' F _ _ _ _ _ _ _ _ _].
  pose proof (sp_writing _ _ _ _ _ _ _ P3) as HW'.
  assert (Zlen (seen (fst (pg_task b)) (S ++ T) D') < SHORT) as Hroom'.
  { pose proof (filled_count _ (writing_filled _ _ _ HW')). pose proof (writing_le _ _ _ HW').
    destruct (speaks_prefix _ _ _ _ _ _ _ P3) as [V EV]. unfold seen. destruct (has _ _); [lia|].
    rewrite EV, (Zlen_app D') in *. pose proof (Zlen_nonneg V). lia. }
  assert (seen (fst (pg_task b)) S D `prefix_of` seen (fst (pg_task b)) (S ++ T) D') as [U EU].
  { unfold seen. destruct (has _ _); [by eexists|done]. }
  split; cbn [pg_task pg_in pg_out pg_net fst snd]; try done.
  - rewrite (calls_mss _ _ _ Hc). exact Hfit.
  - intros H. destruct (Hfin H). split; [lia|done].
  - rewrite EU. destruct Hh as [Ht Han Hg]. apply (hears_grow _ _ D); [|by split| |].
    + destruct (tk_kcp _ (so_ok _ _ Hsb)) as (((_ & _ & _ & Hw & _) & _) & _). exact Hw.
    + rewrite <- EU. apply Hroom'.
    + destruct Hg as [Hg1 Hg2]. destruct (has (fst (pg_task b)) FIN_RECVED) eqn:Ef.
      * destruct (Hfin eq_refl) as [Hp _]. by rewrite (P5 Hp).
      * split; [by transitivity D|left; by apply Hsame].
  - intros q Hq. rewrite map_app, map_snd_pair in Hq. apply elem_of_app in Hq as [Hq|Hq].
    + destruct (Hnet q Hq) as (N1 & N2 & N3). split; [eapply carried_impl; [|exact N1]; intros p; apply honest_grow|].
      split; [intros H; destruct (N2 H) as [Hp Hb]; rewrite (P5 Hp); split; [lia|done]|]. destruct N3 as [|[|N3]]; [by left|right; by left|].
      right; right. destruct P4 as [V ->]. by apply honest_grow.
    + rewrite Forall_forall in Hps. apply Hps, list_elem_of_fmap in Hq as (p & -> & Hp).
      rewrite Forall_forall in Hsent. destruct (Hsent p Hp) as [Hcl Hh0].
      destruct (sent_packet S D _ ph p (writing_filled _ _ _ (sp_writing _ _ _ _ _ _ _ Hsp)) Hcl Hh0
        (in_phase_of _ _ _ Hphase) (sp_open _ _ _ _ _ _ _ Hsp)) as (N1 & N2 & N3).
      { intros H1. destruct (sp_only _ _ _ _ _ _ _ Hsp H1) as [_ H2]. rewrite Forall_forall in H2. auto. }
      split; [eapply carried_impl; [|exact N1]; intros p'; apply honest_grow|].
      split; [intros H; destruct (N2 H) as [H1 H2]; rewrite (P5 H1); split; [lia|done]|]. destruct N3 as [[E1 E2]|[N3|[|N3]]]; [|left; by apply Hset|right; by left|].
      { destruct Hphase as (_ & _ & Hcause). destruct (Hcause E1 E2) as [|Hnil]; [by left|].
        rewrite Hnil in Hp. by apply elem_of_nil in Hp. }
      right; right. destruct P4 as [V ->]. by apply honest_grow.
  - eapply Forall_impl; [exact Hrep|]. intros p [H1 H2]. split; [done|]. rewrite EU. by apply reply_grow.
  - intros q Hq. eapply carried_impl; [|by apply Hback]. intros p. rewrite EU. apply reply_grow.
  - intros Hf Hwn. destruct (Hfin Hf) as [Hp _]. rewrite (P5 Hp) in *.
    assert (whole S D R got del (handle (t_kcp (fst (pg_task b))))) as Hwh.
    { apply Hwhole; [done|]. rewrite Zlen_app in Hwn. pose proof (Zlen_nonneg T). lia. }
    rewrite (whole_stays ph' S T D W' R _ _ got del _ P3 ltac:(lia) Hwh) in *. by rewrite app_nil_r in *.
Qed.

(** ** The reader's turn *)

(** A packet of any age is recent enough in a stream that stays short. *)
Lemma honest_low S p : Zlen S < SHORT -> honest (-65535) S p -> honest (Zlen S - 2147483647) S p.
Proof.
  intros Hs Hp. rewrite <- (app_nil_r S). unfold SHORT in Hs.
  eapply honest_weaken; [|exact Hp]. rewrite app_nil_r. lia.
Qed.

(** What the calls of a reader's turn start from: the mark may come with the turn. *)
Record prepared (a b : side) (S D : list entry) (ph : nat) (R : Z) (got del : list entry)
    (t' : Task) (l : list act) : Prop := {
  pr_fin : has t' FIN_RECVED = true -> (1 <= ph)%nat /\ t_hs t' <> Syn;
  pr_seen : seen (fst (pg_task b)) S D `prefix_of` seen t' S D;
  pr_short : Zlen (seen t' S D) < SHORT;
  pr_bytes : Zlen (entry_bytes (seen t' S D)) < 2147483648;
  pr_hears : hears (seen t' S D) D R got del (handle (t_kcp (fst (pg_task b))));
  pr_prefix : D `prefix_of` seen t' S D;
  pr_ending : ending (seen t' S D) D R (handle (t_kcp (fst (pg_task b)))) l;
  pr_tooks : Forall (fun p => refused p \/ honest (Zlen (seen t' S D) - 2147483647) (seen t' S D) p) (tooks l)
}.

Lemma reader_prepared L a b S D W ph R got del x ev fs ps out t' x' l :
  flows L a b S D W ph R got del -> turn_effect L (fst (pg_task b)) x ev fs ps out t' x' l ->
  Zlen (concat (pg_in a)) < AHEAD -> (forall p, p ∈ event_packets ev -> p ∈ map snd (pg_net a)) ->
  prepared a b S D ph R got del t' (map Wrote (solids fs) ++ l).
Proof.
  intros Hfl [Hc _ Hso' F _ _ _ _ Htk Hdr Hlt Hmk _] Ha Hev.
  destruct (flows_short L a b S D W ph R got del Hfl Ha) as (HW & HS & HSb).
  pose proof (flows_prefix L a b S D W ph R got del Hfl) as [U EU].
  destruct Hfl as [Hsa Hsb _ _ Hsp _ Hfin Hh _ _ _ Hnet _ _ _].
  set (tb := fst (pg_task b)) in *. destruct (turn_acts fs l) as (_ & _ & _ & Ed & Et).
  assert (has t' FIN_RECVED = true -> (1 <= ph)%nat /\ t_hs t' <> Syn) as Hfin'.
  { intros Hf'. destruct (has tb FIN_RECVED) eqn:Hf.
    - destruct (Hfin eq_refl) as [Hp Hs]. split; [done|]. by apply (hs_not_syn tb).
    - destruct (Hmk eq_refl Hf') as (Hs & q & p & _ & _ & Hq & Hu & _). split; [|done].
      destruct (Hnet q (Hev q Hq)) as (_ & N & _). by destruct (N (unmarks_marked q p Hu)). }
  assert (seen tb S D `prefix_of` seen t' S D) as Hseen.
  { unfold seen. destruct (has tb FIN_RECVED) eqn:Hf; [by rewrite (fw_fin _ _ F Hf)|].
    destruct (has t' FIN_RECVED); [by eexists|done]. }
  assert (Zlen (seen t' S D) < SHORT /\ Zlen (entry_bytes (seen t' S D)) < 2147483648) as [HS1 HS2].
  { unfold SHORT in *. unfold seen. destruct (has t' FIN_RECVED); [lia|].
    rewrite EU, (Zlen_app D) in *. rewrite entry_bytes_app, Zlen_app in HSb. pose proof (Zlen_nonneg U).
    pose proof (Zlen_nonneg (entry_bytes U)). lia. }
  split; try done.
  - destruct Hseen as [V EV]. rewrite EV. destruct (tk_kcp _ (so_ok _ _ Hsb)) as (((_ & _ & _ & Hw & _) & _) & _).
    apply (hears_grow _ _ D); [exact Hw|exact Hh|by rewrite <- EV|apply Hh].
  - unfold seen. destruct (has t' FIN_RECVED); [by eexists|done].
  - unfold seen. destruct (has t' FIN_RECVED) eqn:Hf'; [right|left; split; [done|by rewrite Ed, Hdr]].
    destruct (Hfin' eq_refl) as [Hp _]. pose proof (sp_fin _ _ _ _ _ _ _ Hsp Hp) as Hfg.
    split; [by eapply finishing_tailed|]. destruct Hfg as (_ & H1 & H2 & _).
    split; [done|]. split; [done|]. apply Forall_app. split; [|by apply Hlt].
    apply Forall_map, Forall_forall. by intros f _.
  - rewrite Et. eapply Forall_impl; [exact Htk|]. intros p Hp. unfold seen in *.
    destruct (has t' FIN_RECVED) eqn:Hf'.
    + destruct (carried_took (honest (-65535) S) t' (event_packets ev) p) as [H|H];
        [|done|by left|right; by apply honest_low].
      intros q Hq. by apply Hnet, Hev.
    + destruct Hp as [Hp|[Hp _]]; [|congruence]. destruct (Hnet p (Hev p Hp)) as (_ & _ & [N|[N|N]]).
      * rewrite (fw_fin _ _ F N) in Hf'. done.
      * left. by apply fin_marked_refused.
      * right. by apply honest_low.
Qed.

(** What the reader's turn makes of its side. *)
Definition reads_on (b : side) (S D : list entry) (R : Z) (got del : list entry) (t' : Task)
    (l : list act) : Prop :=
  exists R' e e', heard (seen t' S D) D R got del l (drained (t_kcp (fst (pg_task b)))) (t_kcp t') R' e e' /\
    (has t' FIN_RECVED = true -> Zlen S <= rcv_wnd (handle (t_kcp (fst (pg_task b)))) < 65536 ->
       whole S D R' (got ++ e) (del ++ e') (handle (t_kcp t'))).

(** The mark comes with the turn, and the window has room. *)
Lemma reader_turn_mark L a b S D W ph R got del t' l0 q p l1 l2 :
  flows L a b S D W ph R got del -> prepared a b S D ph R got del t' l0 ->
  calls l0 (drained (t_kcp (fst (pg_task b)))) (t_kcp t') ->
  has (fst (pg_task b)) FIN_RECVED = false -> has t' FIN_RECVED = true ->
  q ∈ map snd (pg_net a) -> unmarks q p -> l0 = l1 ++ Heard p :: l2 -> drops l1 = [] ->
  Zlen S <= rcv_wnd (handle (t_kcp (fst (pg_task b)))) < 65536 ->
  reads_on b S D R got del t' l0.
Proof.
  intros Hfl [_ _ HS1 HS2 Hh HDS He Htk] Hc Hf Hf' Hq Hu -> Hd1 Hwn.
  destruct Hfl as [_ _ _ _ Hsp _ _ _ Hsame _ _ Hnet _ _ _].
  pose proof (unmarks_marked q p Hu) as Hm. destruct (Hnet q Hq) as (N1 & N2 & _).
  destruct (N2 Hm) as [Hp Hb]. pose proof (sp_fin _ _ _ _ _ _ _ Hsp Hp) as Hfg.
  assert (honest (-65535) S p) as Hhp.
  { destruct N1 as [[Hcl _]|(_ & _ & N1)]; [by apply clean_not_marked in Hcl|auto]. }
  unfold reads_on, seen in *. rewrite Hf' in *. rewrite (Hsame Hf) in *.
  destruct (calls_hears_mark S D l1 p l2 _ _ R del Hc HS1 HS2 Hh HDS) as (R' & e & e' & H1 & H2); try done.
  - by eapply finishing_tailed.
  - apply Hfg.
  - by apply Hb.
  - by apply honest_low.
  - by exists R', e, e'.
Qed.

Lemma reader_turn L a b S D W ph R got del x ev fs ps out t' x' l :
  flows L a b S D W ph R got del -> turn_effect L (fst (pg_task b)) x ev fs ps out t' x' l ->
  Zlen (concat (pg_in a)) < AHEAD -> (forall p, p ∈ event_packets ev -> p ∈ map snd (pg_net a)) ->
  prepared a b S D ph R got del t' (map Wrote (solids fs) ++ l) /\
  reads_on b S D R got del t' (map Wrote (solids fs) ++ l).
Proof.
  intros Hfl Heff Ha Hev. pose proof (reader_prepared L a b S D W ph R got del _ _ _ _ _ _ _ _ Hfl Heff Ha Hev) as Hpr.
  split; [done|]. destruct Heff as [Hc _ _ _ _ _ _ _ _ _ _ Hmk _].
  pose proof Hpr as [_ _ HS1 HS2 Hh HD He Htk]. set (l0 := map Wrote (solids fs) ++ l) in *.
  assert ((has (fst (pg_task b)) FIN_RECVED = false -> has t' FIN_RECVED = true ->
    ~ (Zlen S <= rcv_wnd (handle (t_kcp (fst (pg_task b)))) < 65536)) -> reads_on b S D R got del t' l0) as Hplain.
  { intros Hno. destruct (calls_hears (seen t' S D) D l0 _ _ R got del Hc HS1 HS2 Hh HD He Htk)
      as (R' & e & e' & H). exists R', e, e'. split; [exact H|]. intros Hf' Hwn.
    destruct (has (fst (pg_task b)) FIN_RECVED) eqn:Hf; [|by destruct Hno].
    pose proof (hd_whole _ _ _ _ _ _ _ _ _ _ _ H) as Hwh. unfold seen in Hwh. rewrite Hf' in Hwh.
    by apply Hwh, (fl_whole _ _ _ _ _ _ _ _ _ _ Hfl). }
  destruct (has (fst (pg_task b)) FIN_RECVED) eqn:Hf; [by apply Hplain|].
  destruct (has t' FIN_RECVED) eqn:Hf'; [|by apply Hplain].
  destruct (decide (Zlen S <= rcv_wnd (handle (t_kcp (fst (pg_task b)))) < 65536)) as [Hwn|Hwn]; [|by apply Hplain].
  destruct (Hmk eq_refl eq_refl) as (_ & q & p & l1 & l2 & Hq & Hu & El & Hd1).
  apply (reader_turn_mark L a b S D W ph R got del t' l0 q p (map Wrote (solids fs) ++ l1) l2); try done.
  - by apply Hev.
  - unfold l0. by rewrite El, <- app_assoc.
  - rewrite drops_app, Hd1. destruct (wrote_acts (solids fs)) as (_ & _ & _ & -> & _). done.
Qed.

Lemma flow_reader clock L a b b' :
  task_turn clock b a b' -> side_ok b -> flow_inv L a b -> flow_inv L a b'.
Proof.
  intros Hturn Hok Hinv Ha. destruct (Hinv Ha) as (S & D & W & ph & R & got & del & Hfl). clear Hinv.
  destruct (task_turn_effect clock L b a b' Hturn Hok (fl_b _ _ _ _ _ _ _ _ _ _ Hfl))
    as (ev & fs & ps & out & t' & x' & inq & l & He & Hev & ->).
  destruct (reader_turn L a b S D W ph R got del _ _ _ _ _ _ _ _ Hfl He Ha Hev)
    as ([Hfin' [V EV] HS _ Hh' _ _ _] & R' & e & e' & [H1 H2 H3 H4 H5 H6 _] & Hwh).
  destruct (flows_short L a b S D W ph R got del Hfl Ha) as (HW & HSl & _).
  pose proof (seen_prefix L a b S D W ph R got del Hfl t') as [HD1 HD2].
  pose proof (flows_settled L a b S D W ph R got del Hfl Ha) as Hset.
  destruct Hfl as [Hsa Hsb Hfit Hphase Hsp Hdata Hfin Hh Hsame Hread Hsent Hnet Hrep Hback Hwhole].
  destruct He as [Hc Hps Hso' F _ _ Hov _ _ Hdr _ _ Hrs]. set (tb := fst (pg_task b)) in *.
  destruct (turn_acts fs l) as (_ & _ & Er & Ed & _).
  assert (forall p, reply (seen tb S D) R (handle (t_kcp tb)) p -> reply (seen t' S D) R' (handle (t_kcp t')) p)
    as Hrp.
  { intros p Hp. apply (reply_advance _ R (handle (t_kcp tb))); [done|exact H2|].
    rewrite EV. by apply reply_grow. }
  exists S, D, W, ph, R', (got ++ e), (del ++ e').
  split; cbn [pg_task pg_in pg_out pg_net fst snd]; try done.
  - eapply in_phase_impl; [|exact Hphase]. intros _ [H|H]; [left; by apply (fw_fin _ _ F)|by right].
  - eapply (speaks_reader _ _ _ _ R _ _ (seen t' S D) got); [exact Hsp|lia|apply Hh'|exact H2|done|done|].
    intros Hp. unfold seen. by rewrite (fw_fin _ _ F (Hset Hp)).
  - intros Hf'. destruct (has tb FIN_RECVED) eqn:Hf; [by rewrite (fw_fin _ _ F Hf) in Hf'|].
    rewrite (Hsame eq_refl). f_equal. symmetry. apply H5; [by rewrite Ed, Hdr|by apply Hsame].
  - rewrite entry_bytes_app, H4, Er, concat_app. apply (read_so_far_step L tb (snd (pg_task b)) t'); try done.
    + intros E. by apply Hov.
    + intros Hf. by apply Hfin.
  - intros q Hq. destruct (Hnet q Hq) as (N1 & N2 & N3). split; [done|]. split; [done|].
    destruct N3 as [N3|N3]; [left; by apply (fw_fin _ _ F)|by right].
  - pose proof (calls_clean _ _ _ Hc ltac:(constructor)) as Hcl. specialize (H3 ltac:(constructor)).
    apply Forall_forall. intros p Hp. rewrite Forall_forall in Hcl, H3. auto.
  - intros q Hq. rewrite map_app, map_snd_pair in Hq. apply elem_of_app in Hq as [Hq|Hq].
    + eapply carried_impl; [exact Hrp|by apply Hback].
    + rewrite Forall_forall in Hps. apply Hps, list_elem_of_fmap in Hq as (p & -> & Hp).
      rewrite Forall_forall in Hrep. destruct (Hrep p Hp) as [Hcl Hr]. apply marked_carried; auto.
  - intros Hf' Hwn. rewrite H6 in Hwn. by apply Hwh.
Qed.

(** ** The start *)

(** A session starts with the write of its greeting, if it is a client. *)
Lemma session_begins clock c cv draw t :
  greeting_ok c -> 0 <= cv < 4294967296 -> run_start clock true draw (Task_new c cv) = Some t ->
  t_config t = c /\ exists k f, opening [] (cfg_mtu c) cv [] k /\ calls (map Wrote f) k (t_kcp t) /\
    (f = [syn_of c draw] /\ is_client t = true \/ f = [] /\ is_client t = false).
Proof.
  intros Hc Hcv E. destruct (run_start_common clock c cv draw Hc Hcv) as (t1 & F1 & F2 & F3 & F4 & Hop & Er).
  rewrite Er in E. pose proof Hop as [G1 G2 G3 _ _].
  destruct (Z.eqb_spec cv SYN_CONV) as [Ecv|Ecv].
  2: { injection E as <-. split; [done|]. exists (t_kcp t1), []. split; [done|]. split; [apply calls_refl|]. right.
       unfold is_client, has. by rewrite F2. }
  rewrite <- Ecv, <- G2, Kcp_set_conv_same in E.
  set (t2 := (set_flag CLIENT t1) <| t_session_id := _ |> <| t_kcp := _ |>) in E.
  pose proof Hc as (Hcfg & _). pose proof (gr_outbox _ _ _ G1) as Ho.
  assert (Zlen (random_session_id c draw) = session_id_len c) as Hid
    by (apply random_session_id_length, Hcfg).
  assert (task_ok t2) as Ht2.
  { split; unfold t2; simp_upd.
    - split; [apply Ho|]. split; [done|apply Ho].
    - change (t_config (set_flag CLIENT t1)) with (t_config t1). by rewrite F1.
    - change (t_config (set_flag CLIENT t1)) with (t_config t1). rewrite F1, Hid. lia.
    - intros _ _. split; [left; congruence|]. rewrite (gr_queue _ _ _ G1). by vm_compute. }
  destruct (does_handshake_send clock t2 t Wrote Ht2 (fun b => or_introl eq_refl) E) as [Hd _].
  assert (session_key (t_config t2) ++ t_session_id t2 = syn_of c draw) as Es.
  { unfold t2. simp_upd. change (t_config (set_flag CLIENT t1)) with (t_config t1). by rewrite F1. }
  rewrite Es in Hd. pose proof (steady_handshake_send clock _ _ E) as [F _ _].
  split; [by rewrite (fw_config _ _ F)|]. exists (t_kcp t1), [syn_of c draw]. split; [done|]. split.
  - assert (solid (syn_of c draw) = [syn_of c draw]) as Ef.
    { pose proof (syn_of_length c draw Hc) as Hl. destruct (syn_of c draw); [|done].
      change (Zlen []) with 0 in Hl. lia. }
    rewrite Ef in Hd. exact Hd.
  - left. split; [done|]. rewrite (fw_client _ _ F).
    unfold is_client, has. change (t_flags t2) with (Z.lor (t_flags t1) CLIENT). by rewrite F2.
Qed.

(** The control block before anything is written or read. *)
Lemma opening_speaks m cv k R hb : opening [] m cv [] k -> speaks 0 [] [] [] R hb k.
Proof.
  intros [G _ _ _ _]. pose proof (gr_queue _ _ _ G) as Eq.
  assert (pending [] (handle k) = []) as Ep by (unfold pending; by rewrite Eq).
  split; rewrite ?Ep; try done; try lia.
  - split; rewrite ?Ep; [apply G|constructor|done].
  - intros i [? Hi]. change (Zlen []) with 0 in Hi. lia.
Qed.

Lemma opening_hears m cv k S : opening [] m cv [] k -> Zlen S < SHORT -> hears S S 0 [] [] (handle k).
Proof.
  intros [G _ _ _ Ha] HS. destruct (gr_fresh _ _ _ G) as (En & Eq & Eb). pose proof (Zlen_nonneg S).
  unfold SHORT in HS. split.
  - split; [by rewrite En|lia|by rewrite Eq|by rewrite Eb].
  - intros n. unfold acked_sns. rewrite Ha. by intros ?%elem_of_nil.
  - split; [apply prefix_nil|by left].
Qed.

(** Two sessions that have started. *)
Lemma flow_starts clock clock' c c' cv cv' draw draw' a b :
  greeting_ok c -> greeting_ok c' -> greeting_len c = greeting_len c' ->
  0 <= cv < 4294967296 -> 0 <= cv' < 4294967296 ->
  run_start clock true draw (Task_new c cv) = Some a ->
  run_start clock' true draw' (Task_new c' cv') = Some b ->
  flow_inv (greeting_len c) (side_start a) (side_start b).
Proof.
  intros Hc Hc' El Hcv Hcv' Ea Eb _.
  destruct (session_started clock c cv draw a Hc Hcv Ea) as (Hsa & Hha & _ & _ & _).
  destruct (session_started clock' c' cv' draw' b Hc' Hcv' Eb) as (Hsb & Hhb & Hfb & _ & _).
  destruct (session_begins clock c cv draw a Hc Hcv Ea) as (Eca & ka & f & Ha & Ca & Hf).
  destruct (session_begins clock' c' cv' draw' b Hc' Hcv' Eb) as (_ & kb & f' & Hb & Cb & _).
  assert (Zlen (concat f) = if is_client a then greeting_len c else 0) as Hlen.
  { destruct Hf as [[-> ->]|[-> ->]]; [|done]. cbn [concat]. rewrite app_nil_r. unfold syn_of, greeting_len.
    rewrite Zlen_app, random_session_id_length; [done|]. apply Hc. }
  destruct (wrote_acts f) as (W1 & W2 & _ & _ & W5). destruct (wrote_acts f') as (_ & _ & V3 & V4 & V5).
  pose proof (greeting_len_le _ _ Hsa) as HL.
  destruct (calls_tells (map Wrote f) ka (t_kcp a) 0 0 [] [] [] 0 (handle kb) Ca (run_phase_wrote f))
    as (S & D & H1 & _ & _ & H4 & _).
  { by eapply opening_speaks. }
  { rewrite W1. cbn [app]. unfold SHORT. destruct (is_client a); lia. }
  { by split. }
  { rewrite W5. constructor. }
  { rewrite W2. constructor. }
  { rewrite (op_out _ _ _ _ _ Ha). constructor. }
  cbn [app] in *. rewrite W1 in H1. pose proof (sp_open _ _ _ _ _ _ _ H1 eq_refl) as ->.
  pose proof (sp_writing _ _ _ _ _ _ _ H1) as Hw. pose proof (writing_le _ _ _ Hw) as Hle.
  pose proof (filled_count S (writing_filled _ _ _ Hw)) as Hcount.
  assert (Zlen (entry_bytes S) <= 6630) as Hshort by (destruct (is_client a); lia).
  destruct (calls_hears S S (map Wrote f') kb (t_kcp b) 0 [] [] Cb) as (R & e & e' & [G1 G2 G3 G4 G5]).
  { unfold SHORT. lia. }
  { lia. }
  { eapply opening_hears; [exact Hb|]. unfold SHORT. lia. }
  { done. }
  { left. split; [done|exact V4]. }
  { rewrite V5. constructor. }
  rewrite V3 in G4. cbn [app concat] in *.
  exists S, S, (concat f), 0%nat, R, e, e'.
  assert (seen b S S = S) as Eseen by (unfold seen; by destruct (has b FIN_RECVED)).
  split; cbn [side_start pg_task pg_in pg_out pg_net fst snd]; rewrite ?Eseen; try done.
  - by rewrite El.
  - rewrite (so_mss _ _ Hsa), Eca. destruct Hc as (_ & _ & Hc). exact (proj2 Hc).
  - split; [lia|]. rewrite Hha. split; [|done]. intros _. split; [done|]. split; [|by left].
    rewrite (so_len _ _ Hsa). apply Hc.
  - eapply (speaks_reader _ _ _ _ 0 _ _ S []); [exact H1|unfold SHORT; lia| |exact G2|done|done|done].
    eapply opening_hears; [exact Hb|unfold SHORT; lia].
  - rewrite decide_True by done. destruct Hf as [[Ef Ecl]|[-> Ecl]].
    + apply (opened_with _ _ _ _ (concat f)); [by rewrite app_nil_r|by rewrite Hlen, Ecl|done].
    + by apply opened_not; [left|..].
  - congruence.
  - intros _. symmetry. by apply G5.
  - apply read_nothing; [done|done|exact G4|done].
  - pose proof (calls_clean _ _ _ Ca ltac:(by rewrite (op_out _ _ _ _ _ Ha))) as Hcl.
    apply Forall_forall. intros p Hp. rewrite Forall_forall in Hcl, H4. auto.
  - by intros q ?%elem_of_nil.
  - pose proof (calls_clean _ _ _ Cb ltac:(by rewrite (op_out _ _ _ _ _ Hb))) as Hcl.
    specialize (G3 ltac:(by rewrite (op_out _ _ _ _ _ Hb))).
    apply Forall_forall. intros p Hp. rewrite Forall_forall in Hcl, G3. auto.
  - by intros q ?%elem_of_nil.
  - congruence.
Qed.

(** ** Two programs *)

Lemma flow_program L a b a' :
  program_step a a' -> (flow_inv L a b -> flow_inv L a' b) /\ (flow_inv L b a -> flow_inv L b a').
Proof.
  intros (E1 & E2 & _ & E4 & E5)%program_step_kept. unfold flow_inv. rewrite E4.
  split; intros H Ha; destruct (H Ha) as (S & D & W & ph & R & got & del & []);
    exists S, D, W, ph, R, got, del; split; rewrite ?E1, ?E2, ?E4, ?E5; done.
Qed.

(** What has left the control block of the reader: read by its program, on its way there, or held
    by the task. *)
Definition taken (b : side) : bytes := pg_read b ++ unread_here b ++ concat (opt_list (snd (pg_task b))).

(** All that was given is taken or queued. *)
Definition nothing_lost (a b : side) : Prop :=
  let kb := handle (t_kcp (fst (pg_task b))) in
  concat (pg_in a) `prefix_of` taken b ++ seg_bytes (rcv_queue kb) ++ seg_bytes (rcv_buf kb) /\
  (rcv_queue kb = [] -> rcv_buf kb = [] -> taken b = concat (pg_in a)).

(** What reaches the other program, and when. *)
Definition intact (a b : side) : Prop :=
  let ta := fst (pg_task a) in let tb := fst (pg_task b) in let kb := handle (t_kcp tb) in
  pg_read b `prefix_of` pg_written a /\
  (t_hs ta = FinSent -> has tb FIN_RECVED = false -> t_hs tb <> Syn -> t_hs tb <> Disconnected ->
     concat (pg_in a) = taken b ++ seg_bytes (rcv_queue kb) ++ seg_bytes (rcv_buf kb)) /\
  (t_hs ta = FinWaitPeer -> has tb FIN_RECVED = true) /\
  (has tb FIN_RECVED = true -> has ta INPUT_CLOSED = true) /\
  (has tb FIN_RECVED = true -> snd_nxt (handle (t_kcp ta)) <= rcv_wnd kb < 65536 ->
     t_hs tb <> Disconnected \/ pg_read b <> [] -> nothing_lost a b).

(** Behind the greetings the reader has a part of what the writer's program gave. *)
Lemma opened_read L t V I t' x got O :
  opened L t V I -> read_so_far L t' x got O -> forall r, V = got ++ r ->
  t_hs t' = Disconnected /\ O = [] \/ I = O ++ concat (opt_list x) ++ r \/ t_hs t' = Syn /\ O = [].
Proof.
  intros Ho [Hs _ _ ->|Hd ->|g Hs Hg ->] r E; [by right; right|by left|right; left].
  destruct Ho as [Hq _ -> ->|g' -> Hg' _].
  - symmetry in E. rewrite <- !app_assoc in E. by apply app_eq_nil in E as [_ E].
  - rewrite <- !app_assoc in E. apply app_inj_1 in E as [_ E]; [done|]. unfold Zlen in *. lia.
Qed.

Section Ends.
Context (L : Z) (a b : side) (S D : list entry) (W : bytes) (ph : nat) (R : Z) (got del : list entry).
Hypothesis Hfl : flows L a b S D W ph R got del.
Hypothesis Hok : side_ok b.
#[local] Notation ta := (fst (pg_task a)).
#[local] Notation tb := (fst (pg_task b)).
#[local] Notation kb := (handle (t_kcp tb)).

Lemma flow_prefix : concat (pg_out b) `prefix_of` concat (pg_in a).
Proof.
  destruct Hfl as [_ _ _ _ Hsp Hdata _ Hh _ Hread _ _ _ _ _].
  destruct (hr_given _ _ _ _ _ _ Hh) as [[d ED] _].
  assert (exists r, (if decide (ph = 0%nat) then W else entry_bytes D) = entry_bytes del ++ r) as [r Er].
  { rewrite ED, entry_bytes_app. destruct (decide (ph = 0%nat)) as [E|E]; [|by eexists].
    rewrite <- (wr_bytes _ _ _ (sp_writing _ _ _ _ _ _ _ Hsp)). unfold pending.
    rewrite <- (sp_open _ _ _ _ _ _ _ Hsp E), ED, !entry_bytes_app, <- app_assoc. by eexists. }
  destruct (opened_read L _ _ _ _ _ _ _ Hdata Hread r Er) as [[_ ->]|[->|[_ ->]]];
    try apply prefix_nil. by eexists.
Qed.

(** While the FIN frame waits and the reader does not know of it. *)
Lemma flow_sent :
  t_hs ta = FinSent -> has tb FIN_RECVED = false -> t_hs tb <> Syn -> t_hs tb <> Disconnected ->
  concat (pg_in a) = taken b ++ seg_bytes (rcv_queue kb) ++ seg_bytes (rcv_buf kb).
Proof.
  intros E Hf Hs Hd. unfold taken. rewrite <- !app_assoc, app_assoc, <- (si_read b Hok).
  destruct Hfl as [_ Hsb _ Hphase Hsp Hdata _ Hh Hsame Hread _ _ _ _ _].
  pose proof (in_phase_of _ _ _ Hphase ltac:(congruence)) as Hp. rewrite E in Hp. cbn in Hp.
  rewrite decide_False in Hdata by lia. unfold seen in Hh. rewrite Hf in Hh. destruct Hh as [Ht _ _].
  destruct (tk_kcp _ (so_ok _ _ Hsb)) as (((_ & _ & _ & Hw & _) & _) & _).
  destruct (sp_fin _ _ _ _ _ _ _ Hsp ltac:(lia)) as (_ & _ & Hall & f & _ & Ep).
  pose proof (had_all D R got _ Hw Ht Hall) as Eb. pose proof (tr_prefix _ _ _ _ Ht) as Eq.
  assert (entry_bytes D = entry_bytes del ++ seg_bytes (rcv_queue kb) ++ seg_bytes (rcv_buf kb)) as ED.
  { rewrite <- (Hsame Hf), <- !entry_bytes_segs, <- !entry_bytes_app, app_assoc.
    by rewrite Eq, Eb, take_drop. }
  by destruct (opened_read L ta _ _ tb _ _ _ Hdata Hread _ ED) as [[? _]|[H1|[? _]]].
Qed.

(** With the mark. *)
Lemma flow_kept :
  Zlen (concat (pg_in a)) < AHEAD -> has tb FIN_RECVED = true ->
  snd_nxt (handle (t_kcp ta)) <= rcv_wnd kb < 65536 -> t_hs tb <> Disconnected \/ pg_read b <> [] ->
  nothing_lost a b.
Proof.
  intros Ha Hf Hwn Hopen. destruct (flows_short L a b S D W ph R got del Hfl Ha) as (HW & HS & _).
  destruct Hfl as [_ Hsb _ _ Hsp Hdata Hfin Hh _ Hread _ _ _ _ Hwhole].
  destruct (Hfin Hf) as [Hp Hs]. rewrite decide_False in Hdata by lia.
  assert (Zlen S <= rcv_wnd kb < 65536) as Hwn'.
  { rewrite (em_nxt _ _ (wr_emits _ _ _ (sp_writing _ _ _ _ _ _ _ Hsp))) in Hwn.
    pose proof (Zlen_nonneg S). unfold SHORT in HW. rewrite u32_small in Hwn by lia. lia. }
  destruct (Hwhole Hf Hwn') as ([f ES] & Hall & Hkept). unfold seen in Hh. rewrite Hf in Hh.
  destruct Hh as [Ht _ [[d ED] _]].
  assert (entry_bytes D = entry_bytes del ++ entry_bytes d) as Ed by by rewrite ED, entry_bytes_app.
  assert (concat (pg_in a) = taken b ++ entry_bytes d) as HI.
  { unfold taken. rewrite <- !app_assoc, app_assoc, <- (si_read b Hok).
    destruct (opened_read L ta _ _ tb _ _ _ Hdata Hread _ Ed) as [[Hd HO]|[HI|[? _]]]; [|exact HI|done].
    destruct Hopen as [?|Hne]; [done|]. exfalso. apply Hne. rewrite (si_read b Hok) in HO.
    by apply app_eq_nil in HO as [-> _]. }
  assert (entry_bytes d `prefix_of` seg_bytes (rcv_queue kb) ++ seg_bytes (rcv_buf kb)) as Hpd.
  { destruct Hkept as [Eg|Eg].
    - destruct (tk_kcp _ (so_ok _ _ Hsb)) as (((_ & _ & _ & Hw & _) & _) & _).
      pose proof (had_all S R got kb Hw Ht Hall) as Eb. pose proof (tr_prefix _ _ _ _ Ht) as Eq.
      exists f. rewrite <- !entry_bytes_segs, <- !entry_bytes_app.
      assert (D ++ [(0, f)] = got ++ map seg_entry (rcv_queue kb) ++ map seg_entry (rcv_buf kb)) as E.
      { rewrite <- ES, app_assoc, Eq, Eb. by rewrite take_drop. }
      rewrite ED, Eg, <- app_assoc in E. apply app_inv_head in E. rewrite <- E, entry_bytes_app.
      f_equal. unfold entry_bytes. cbn [map snd concat]. by rewrite app_nil_r.
    - rewrite Eg in ED. rewrite <- (app_nil_r D) in ED at 1. apply app_inv_head in ED as <-. apply prefix_nil. }
  unfold nothing_lost. cbv zeta. rewrite HI. split; [by apply prefix_app|].
  intros E1 E2. rewrite E1, E2 in Hpd. apply prefix_nil_inv in Hpd as ->. by rewrite app_nil_r.
Qed.
End Ends.

Lemma flow_intact L a b :
  flow_inv L a b -> Zlen (pg_written a) < AHEAD -> side_ok a -> side_ok b -> intact a b.
Proof.
  intros Hinv Ha Hoka Hokb. rewrite (si_written a Hoka), Zlen_app in Ha.
  pose proof (Zlen_nonneg (concat (pg_inq a))).
  destruct (Hinv ltac:(lia)) as (S & D & W & ph & R & got & del & Hfl).
  pose proof (flow_prefix L a b S D W ph R got del Hfl) as Hpre. split.
  { rewrite (si_written a Hoka). rewrite (si_read b Hokb) in Hpre.
    destruct Hpre as [r ->]. rewrite <- !app_assoc. by eexists. }
  split; [by eapply flow_sent|]. split; [|split].
  - intros E. apply (flows_settled L a b S D W ph R got del Hfl); [lia|].
    pose proof (in_phase_of _ _ _ (fl_phase _ _ _ _ _ _ _ _ _ _ Hfl) ltac:(congruence)) as Hp.
    rewrite E in Hp. cbn in Hp. lia.
  - intros Hf. apply (fl_phase _ _ _ _ _ _ _ _ _ _ Hfl). by apply (fl_fin _ _ _ _ _ _ _ _ _ _ Hfl).
  - intros Hf Hwn Hopen. eapply flow_kept; try done. lia.
Qed.

Definition both_flow (L : Z) (s : side * side) : Prop :=
  side_ok (fst s) /\ side_ok (snd s) /\ flow_inv L (fst s) (snd s) /\ flow_inv L (snd s) (fst s).

Lemma pair_step_flow clock_a clock_b L s s' :
  pair_step clock_a clock_b s s' -> both_flow L s -> both_flow L s'.
Proof.
  unfold both_flow. intros [a b a' H|a b b' H|a b a' H|a b b' H] (Ha & Hb & H1 & H2); cbn [fst snd] in *.
  - destruct (flow_program L a b a' H). pose proof (program_step_ok a a' H Ha). auto.
  - destruct (flow_program L b a b' H). pose proof (program_step_ok b b' H Hb). auto.
  - pose proof (task_turn_ok clock_a a b a' H Ha). split; [done|]. split; [done|].
    split; [by eapply flow_writer|by eapply flow_reader].
  - pose proof (task_turn_ok clock_b b a b' H Hb). split; [done|]. split; [done|].
    split; [by eapply flow_reader|by eapply flow_writer].
Qed.

Lemma pair_reachable_flow clock_a clock_b L s s' :
  rtc (pair_step clock_a clock_b) s s' -> both_flow L s -> both_flow L s'.
Proof. induction 1 as [|s1 s2 s3 Hs _ IH]; [done|]. intros Hi. by eapply IH, pair_step_flow. Qed.
End Intact.

(** C1: To the end of the stream and past it: two programs open, write, read and close as they
    like, their tasks run, and the network loses, repeats, delays and reorders packets.  As long as
    a program has written less than 2^31 - 131072 bytes, at all times: what the other has read is a
    prefix of what it has written, FIN frame or not; while its session waits in [FinSent] for the
    FIN frame to be acknowledged and the other has no mark yet, every byte it gave is at the other
    end, read or queued there; when it waits in [FinWaitPeer] the other has the mark; and the mark
    means that its input is over.  With the mark there, and a stream of no more segments than the
    receive window holds, nothing of it is lost: every byte given is read or queued, and once the
    queues are empty what was taken out is exactly what was given. *)
Theorem stream_intact {BM : BytesMut} {BML : BytesMutLaws BM} (clock_a clock_b : nat -> Z * Z)
    ca cb cva cvb drawa drawb a b s :
  greeting_ok ca -> greeting_ok cb -> greeting_len ca = greeting_len cb ->
  0 <= cva < 4294967296 -> 0 <= cvb < 4294967296 ->
  run_start clock_a true drawa (Task_new ca cva) = Some a ->
  run_start clock_b true drawb (Task_new cb cvb) = Some b ->
  rtc (pair_step clock_a clock_b) (side_start a, side_start b) s ->
  (Zlen (pg_written (fst s)) < AHEAD -> intact (fst s) (snd s)) /\
  (Zlen (pg_written (snd s)) < AHEAD -> intact (snd s) (fst s)).
Proof.
  intros Hca Hcb El Hva Hvb Ea Eb Hrtc.
  assert (both_flow (greeting_len ca) s) as (Ha & Hb & H1 & H2).
  { eapply (pair_reachable_flow clock_a clock_b); [exact Hrtc|].
    split; [apply side_start_ok|]. split; [apply side_start_ok|]. split.
    - by apply (flow_starts clock_a clock_b ca cb cva cvb drawa drawb).
    - rewrite El. by apply (flow_starts clock_b clock_a cb ca cvb cva drawb drawa). }
  split; intros Hl; by eapply flow_intact.
Qed.

(** ** A client that closes *)
#[local] Existing Instance list_bytes_mut.
#[local] Existing Instance list_bytes_mut_laws.

(** The channel from the program is closed; once that is seen the task sleeps. *)
Definition demo_closes (self peer : side) : event :=
  if has (fst (pg_task self)) INPUT_CLOSED then EvSleep else EvInput None [] true.

Definition demo_fin_sent : side * side :=
  default demo_after (pair_run demo_clock demo_clock (repeat (true, OpTurn demo_closes) 3) demo_after).
Definition demo_fin_heard : side * side :=
  default demo_fin_sent (pair_run demo_clock demo_clock
    (repeat (false, OpTurn demo_hears) 5 ++ repeat (true, OpTurn demo_hears) 6) demo_fin_sent).

Lemma demo_fin_sent_reached : rtc (pair_step demo_clock demo_clock) demo_before demo_fin_sent.
Proof.
  etransitivity; [exact demo_after_reached|].
  apply (pair_run_sound _ _ (repeat (true, OpTurn demo_closes) 3)). apply default_is_some. by vm_compute.
Qed.

Lemma demo_fin_heard_reached : rtc (pair_step demo_clock demo_clock) demo_before demo_fin_heard.
Proof.
  etransitivity; [exact demo_fin_sent_reached|].
  eapply pair_run_sound. apply default_is_some. by vm_compute.
Qed.

(** First the client waits for its FIN frame to be acknowledged, then for the server's. *)
Lemma demo_closing_facts :
  let mark (s : side * side) := has (fst (pg_task (snd s))) FIN_RECVED in
  t_hs (fst (pg_task (fst demo_fin_sent))) = FinSent /\ mark demo_fin_sent = false /\
  t_hs (fst (pg_task (fst demo_fin_heard))) = FinWaitPeer /\ mark demo_fin_heard = true /\
  pg_read (snd demo_fin_heard) = [x68; x69] /\
  (Zlen (pg_written (fst demo_fin_sent)) <? AHEAD) = true /\
  (Zlen (pg_written (fst demo_fin_heard)) <? AHEAD) = true.
Proof. vm_compute. repeat split. Qed.

(** Then the server has it all and knows that it has. *)
Lemma demo_heard_facts :
  let kb := handle (t_kcp (fst (pg_task (snd demo_fin_heard)))) in
  (snd_nxt (handle (t_kcp (fst (pg_task (fst demo_fin_heard))))) <=? rcv_wnd kb) = true /\
  (rcv_wnd kb <? 65536) = true /\ rcv_queue kb = [] /\ rcv_buf kb = [] /\
  concat (pg_in (fst demo_fin_heard)) = [x68; x69].
Proof. vm_compute. repeat split. Qed.

#[local] Opaque demo_fin_sent demo_fin_heard demo_end.

Lemma stream_intact_witness :
  t_hs (fst (pg_task (fst demo_fin_sent))) = FinSent /\ intact (fst demo_fin_sent) (snd demo_fin_sent) /\
  t_hs (fst (pg_task (fst demo_fin_heard))) = FinWaitPeer /\ pg_read (snd demo_fin_heard) = [x68; x69] /\
  has (fst (pg_task (snd demo_fin_heard))) FIN_RECVED = true /\
  snd_nxt (handle (t_kcp (fst (pg_task (fst demo_fin_heard))))) <=
    rcv_wnd (handle (t_kcp (fst (pg_task (snd demo_fin_heard))))) < 65536 /\
  intact (fst demo_fin_heard) (snd demo_fin_heard).
Proof.
  destruct demo_closing_facts as (H1 & _ & H3 & H4 & H5 & H6 & H7).
  destruct demo_heard_facts as (H8 & H9 & _).
  destruct demo_after_facts as (_ & _ & _ & _ & _ & _ & Hc).
  assert (forall s, rtc (pair_step demo_clock demo_clock) demo_before s ->
    (Zlen (pg_written (fst s)) <? AHEAD) = true -> intact (fst s) (snd s)) as H.
  { intros s Hs Hl.
    apply (stream_intact demo_clock demo_clock demo_config demo_config SYN_CONV 7 demo_draw demo_draw
      (demo_end SYN_CONV) (demo_end 7) s Hc Hc eq_refl ltac:(unfold SYN_CONV; lia) ltac:(lia));
      [apply demo_ends_started; by left|apply demo_ends_started; by right|exact Hs|lia]. }
  split; [exact H1|]. split; [exact (H demo_fin_sent demo_fin_sent_reached H6)|]. split; [exact H3|].
  split; [exact H5|]. split; [exact H4|]. split; [lia|]. exact (H demo_fin_heard demo_fin_heard_reached H7).
Defined.
