(* ===== verification/Transport.v ===== *)
(** [src/transport/]: the sinks and streams a session is given as its transport.

    The sender half of a channel is an abstract value; [send] tells whether the channel took an
    item.  What a sink hands to its channel or socket is the list of its outputs.  A method that
    lends a mutable reference takes what its borrower does with it. *)
From S2P Require Import Prelude Bytes Protocol StreamIo.

(** [futures::Sink], as the sinks of this crate implement it. *)
Class Sink (S Item Out : Type) := {
  sink_ready : S -> poll (io_result unit);
  sink_flush : S -> poll (io_result unit);
  sink_start_send : S -> Item -> io_result unit * list Out;
  sink_close : S -> poll (io_result unit) * S;
  sink_out : S -> Item -> Out
}.

(** What a session relies on: an item is handed over whole, once, or refused with
    [NotConnected]; and a closed sink refuses everything. *)
Class SinkLaws {S Item Out} (I : Sink S Item Out) (closed : S -> Prop) := {
  sink_send_law : forall s x,
    sink_start_send s x = (Ok tt, [sink_out s x]) \/ sink_start_send s x = (Err NotConnected, []);
  sink_close_law : forall s, fst (sink_close s) = Ready (Ok tt) /\ closed (snd (sink_close s));
  sink_closed_law : forall s, closed s ->
    sink_ready s = Ready (Err NotConnected) /\ sink_flush s = Ready (Err NotConnected) /\
    forall x, sink_start_send s x = (Err NotConnected, [])
}.

(** [futures::Stream]: a poll, and what is known of the items to come.  A stream that does not
    define [size_hint] has the one of the trait, [no_hint]. *)
Class PollStream (S A : Type) := {
  stream_next : S -> poll (option A) * S;
  stream_size_hint : S -> Z * option Z
}.

Definition no_hint {S} (s : S) : Z * option Z := (0, None).

Section Transport.
Context {SocketAddr : Type} {EqAddr : EqDecision SocketAddr}.

(** ** [UnboundedSink] *)
Section UnboundedSink.
Context {Sender T : Type} (send : Sender -> T -> bool).

Record UnboundedSink := mkUnboundedSink { us_sender : option Sender }.

Definition UnboundedSink_new (sender : Sender) : UnboundedSink := mkUnboundedSink (Some sender).

(** The accessors of [future_delegate_access_inner!], for the field [sender]. *)
Definition us_get_ref (s : UnboundedSink) : option Sender := us_sender s.
Definition us_get_mut {B} (f : option Sender -> B * option Sender) (s : UnboundedSink)
  : B * UnboundedSink :=
  let '(b, sender) := f (us_sender s) in (b, mkUnboundedSink sender).
Definition us_get_pin_mut {B} : (option Sender -> B * option Sender) -> UnboundedSink ->
    B * UnboundedSink := us_get_mut.
Definition us_into_inner (s : UnboundedSink) : option Sender := us_sender s.

Definition connected {A} (sender : option A) : poll (io_result unit) :=
  match sender with Some _ => Ready (Ok tt) | None => Ready (Err NotConnected) end.

Definition us_poll_ready (s : UnboundedSink) : poll (io_result unit) := connected (us_sender s).
Definition us_poll_flush (s : UnboundedSink) : poll (io_result unit) := connected (us_sender s).

Definition us_start_send (s : UnboundedSink) (item : T) : io_result unit * list T :=
  match us_sender s with
  | Some sender => if send sender item then (Ok tt, [item]) else (Err NotConnected, [])
  | None => (Err NotConnected, [])
  end.

Definition us_poll_close (s : UnboundedSink) : poll (io_result unit) * UnboundedSink :=
  (Ready (Ok tt), mkUnboundedSink None).

#[export] Instance UnboundedSink_sink : Sink UnboundedSink T T := {|
  sink_ready := us_poll_ready; sink_flush := us_poll_flush;
  sink_start_send := us_start_send; sink_close := us_poll_close; sink_out _ x := x
|}.

#[export] Instance UnboundedSink_laws :
  SinkLaws UnboundedSink_sink (fun s => us_sender s = None).
Proof.
  split.
  - intros [[sender|]] x; cbn; [|by right]. unfold us_start_send. cbn.
    destruct (send sender x); [by left|by right].
  - done.
  - intros [[sender|]]; [done|]. done.
Qed.
End UnboundedSink.

(** ** [UdpMpscStream] *)
Section UdpMpscStream.
Context {Sender T Receiver : Type} (send : Sender -> T * SocketAddr -> bool).
Context (poll_recv : Receiver -> poll (option bytes) * Receiver).

Record UdpMpscStream := mkUdpMpscStream {
  um_sink : option Sender; um_stream : Receiver; um_peer_addr : SocketAddr
}.

Definition UdpMpscStream_new (sink : option Sender) (stream : Receiver) (peer_addr : SocketAddr)
  : UdpMpscStream := mkUdpMpscStream sink stream peer_addr.

Definition um_get_sink (s : UdpMpscStream) : option Sender := um_sink s.
Definition um_get_sink_mut {B} (f : option Sender -> B * option Sender) (s : UdpMpscStream)
  : B * UdpMpscStream :=
  let '(b, sink) := f (um_sink s) in (b, mkUdpMpscStream sink (um_stream s) (um_peer_addr s)).
Definition um_get_stream (s : UdpMpscStream) : Receiver := um_stream s.
Definition um_get_stream_mut {B} (f : Receiver -> B * Receiver) (s : UdpMpscStream)
  : B * UdpMpscStream :=
  let '(b, stream) := f (um_stream s) in (b, mkUdpMpscStream (um_sink s) stream (um_peer_addr s)).

Definition um_poll_ready (s : UdpMpscStream) : poll (io_result unit) := connected (um_sink s).
Definition um_poll_flush (s : UdpMpscStream) : poll (io_result unit) := connected (um_sink s).

Definition um_start_send (s : UdpMpscStream) (item : T) : io_result unit * list (T * SocketAddr) :=
  match um_sink s with
  | Some sink =>
      if send sink (item, um_peer_addr s) then (Ok tt, [(item, um_peer_addr s)])
      else (Err NotConnected, [])
  | None => (Err NotConnected, [])
  end.

Definition um_poll_close (s : UdpMpscStream) : poll (io_result unit) * UdpMpscStream :=
  (Ready (Ok tt), mkUdpMpscStream None (um_stream s) (um_peer_addr s)).

Definition um_poll_next (s : UdpMpscStream) : poll (option bytes) * UdpMpscStream :=
  um_get_stream_mut poll_recv s.

#[export] Instance UdpMpscStream_stream : PollStream UdpMpscStream bytes := {|
  stream_next := um_poll_next; stream_size_hint := no_hint
|}.

#[export] Instance UdpMpscStream_sink : Sink UdpMpscStream T (T * SocketAddr) := {|
  sink_ready := um_poll_ready; sink_flush := um_poll_flush;
  sink_start_send := um_start_send; sink_close := um_poll_close;
  sink_out s x := (x, um_peer_addr s)
|}.

#[export] Instance UdpMpscStream_laws :
  SinkLaws UdpMpscStream_sink (fun s => um_sink s = None).
Proof.
  split.
  - intros [[sink|] r p] x; cbn; [|by right]. unfold um_start_send. cbn.
    destruct (send sink (x, p)); [by left|by right].
  - done.
  - intros [[sink|] r p]; [done|]. done.
Qed.
End UdpMpscStream.

(** ** [UdpStream] *)

(** The items [UdpFramed] yields. *)
Inductive datagram := Datagram (packet : bytes) (addr : SocketAddr) | ReadError.
(** ** Specification *)

Definition from_peer (peer : SocketAddr) (d : datagram) : option bytes :=
  match d with
  | Datagram packet addr => if decide (addr = peer) then Some packet else None
  | ReadError => None
  end.

(** A socket framed by [UdpFramed] with [BytesCodec]: [framed_waiting] are the datagrams it
    holds, [framed_closed] tells what follows them. *)
Class UdpFramed (Socket U : Type) := {
  framed_new : Socket -> U;
  framed_ready : U -> poll (io_result unit) * U;
  framed_flush : U -> poll (io_result unit) * U;
  framed_close : U -> poll (io_result unit) * U;
  framed_start_send : U -> bytes * SocketAddr -> io_result unit * U;
  framed_next : U -> poll (option datagram) * U;
  framed_waiting : U -> list datagram;
  framed_closed : U -> bool
}.

Class UdpFramedLaws {Socket U} (F : UdpFramed Socket U) := {
  framed_next_law : forall u,
    framed_closed (snd (framed_next u)) = framed_closed u /\
    match framed_waiting u with
    | d :: l => fst (framed_next u) = Ready (Some d) /\ framed_waiting (snd (framed_next u)) = l
    | [] => fst (framed_next u) = (if framed_closed u then Ready None else Pending) /\
        framed_waiting (snd (framed_next u)) = []
    end
}.

Section UdpStream.
Context {Socket U : Type} {F : UdpFramed Socket U}.

Record UdpStream := mkUdpStream { ud_udp : U; ud_peer_addr : SocketAddr }.

Definition UdpStream_new (udp : Socket) (peer_addr : SocketAddr) : UdpStream :=
  mkUdpStream (framed_new udp) peer_addr.

Definition ud_with_udp {B} (f : U -> B * U) (s : UdpStream) : B * UdpStream :=
  let '(b, udp) := f (ud_udp s) in (b, mkUdpStream udp (ud_peer_addr s)).

Definition ud_poll_ready : UdpStream -> poll (io_result unit) * UdpStream :=
  ud_with_udp framed_ready.
Definition ud_poll_flush : UdpStream -> poll (io_result unit) * UdpStream :=
  ud_with_udp framed_flush.
Definition ud_start_send (s : UdpStream) (item : bytes) : io_result unit * UdpStream :=
  ud_with_udp (fun udp => framed_start_send udp (item, ud_peer_addr s)) s.
Definition ud_poll_close : UdpStream -> poll (io_result unit) * UdpStream :=
  ud_with_udp framed_close.

(** The loop of [poll_next]; a turn that goes on takes a datagram. *)
Fixpoint ud_next_loop (fuel : nat) (s : UdpStream) : poll (option bytes) * UdpStream :=
  match fuel with
  | O => (Pending, s)
  | S fuel =>
      let '(r, s) := ud_with_udp framed_next s in
      match r with
      | Ready (Some (Datagram packet addr)) =>
          if decide (addr = ud_peer_addr s) then (Ready (Some packet), s)
          else ud_next_loop fuel s
      | Ready (Some ReadError) => ud_next_loop fuel s
      | Ready None => (Ready None, s)
      | Pending => (Pending, s)
      end
  end.

Definition ud_poll_next (s : UdpStream) : poll (option bytes) * UdpStream :=
  ud_next_loop (S (length (framed_waiting (ud_udp s)))) s.

#[export] Instance UdpStream_stream : PollStream UdpStream bytes := {|
  stream_next := ud_poll_next; stream_size_hint := no_hint
|}.

Context {FL : UdpFramedLaws F}.

(** What a poll gives, by what the socket holds. *)
Lemma ud_next_loop_spec fuel s :
  (length (framed_waiting (ud_udp s)) < fuel)%nat ->
  let '(p, s') := ud_next_loop fuel s in
  let ours s := omap (from_peer (ud_peer_addr s)) (framed_waiting (ud_udp s)) in
  ud_peer_addr s' = ud_peer_addr s /\ framed_closed (ud_udp s') = framed_closed (ud_udp s) /\
  match p with
  | Ready (Some x) => ours s = x :: ours s' /\
      (length (framed_waiting (ud_udp s')) < length (framed_waiting (ud_udp s)))%nat
  | e => ours s = [] /\ framed_waiting (ud_udp s') = [] /\
      e = (if framed_closed (ud_udp s) then Ready None else Pending)
  end.
Proof.
  revert s. induction fuel as [|fuel IH]; intros s Hf; [lia|]. cbn [ud_next_loop]. unfold ud_with_udp.
  destruct (framed_next_law (ud_udp s)) as [Hc Hn].
  destruct (framed_next (ud_udp s)) as [r u]. cbn [fst snd] in *.
  destruct (framed_waiting (ud_udp s)) as [|[p a|] l]; destruct Hn as [-> Hw].
  - destruct (framed_closed (ud_udp s)); cbn [ud_udp ud_peer_addr]; done.
  - cbn [ud_udp ud_peer_addr from_peer omap list_omap length] in *.
    destruct (decide (a = ud_peer_addr s)); [cbn [ud_udp ud_peer_addr]; rewrite Hw; split_and!; try done; lia|].
    specialize (IH (mkUdpStream u (ud_peer_addr s))). cbn [ud_udp ud_peer_addr] in IH.
    rewrite Hw, Hc in IH. specialize (IH ltac:(lia)).
    destruct (ud_next_loop fuel _) as [[[x|]|] s']; naive_solver lia.
  - cbn [ud_udp ud_peer_addr from_peer omap list_omap length] in *.
    specialize (IH (mkUdpStream u (ud_peer_addr s))). cbn [ud_udp ud_peer_addr] in IH.
    rewrite Hw, Hc in IH. specialize (IH ltac:(lia)).
    destruct (ud_next_loop fuel _) as [[[x|]|] s']; naive_solver lia.
Qed.

(** Polls until the stream gives nothing more. *)
Fixpoint ud_collect (n : nat) (s : UdpStream) : list bytes * poll (option bytes) * UdpStream :=
  match n with
  | O => ([], Pending, s)
  | S n =>
      match ud_poll_next s with
      | (Ready (Some p), s) => let '(ps, e, s) := ud_collect n s in (p :: ps, e, s)
      | (e, s) => ([], e, s)
      end
  end.

Lemma ud_collect_spec n s :
  (length (framed_waiting (ud_udp s)) < n)%nat ->
  fst (ud_collect n s) =
    (omap (from_peer (ud_peer_addr s)) (framed_waiting (ud_udp s)),
     if framed_closed (ud_udp s) then Ready None else Pending) /\
  framed_waiting (ud_udp (snd (ud_collect n s))) = [].
Proof.
  revert s. induction n as [|n IH]; intros s Hn; [lia|]. cbn [ud_collect]. unfold ud_poll_next.
  pose proof (ud_next_loop_spec (S (length (framed_waiting (ud_udp s)))) s ltac:(lia)) as H.
  destruct (ud_next_loop _ s) as [[[x|]|] s']; destruct H as (Ea & Ec & H).
  - destruct H as [-> Hl]. specialize (IH s' ltac:(lia)). rewrite Ea, Ec in *.
    destruct (ud_collect n s') as [[ps e] s'']. cbn [fst snd] in *. destruct IH as [[= -> ->] ?]. done.
  - destruct H as (-> & ? & <-). done.
  - destruct H as (-> & ? & <-). done.
Qed.
End UdpStream.

(** A socket that holds a list of datagrams and keeps what it is given. *)
Record list_socket := mkListSocket {
  ls_in : list datagram; ls_closed : bool; ls_out : list (bytes * SocketAddr)
}.

Definition list_framed : UdpFramed list_socket list_socket := {|
  framed_new s := s;
  framed_ready s := (Ready (Ok tt), s);
  framed_flush s := (Ready (Ok tt), s);
  framed_close s := (Ready (Ok tt), s);
  framed_start_send s x := (Ok tt, mkListSocket (ls_in s) (ls_closed s) (ls_out s ++ [x]));
  framed_next s :=
    match ls_in s with
    | d :: l => (Ready (Some d), mkListSocket l (ls_closed s) (ls_out s))
    | [] => (if ls_closed s then Ready None else Pending, s)
    end;
  framed_waiting := ls_in;
  framed_closed := ls_closed
|}.

Lemma list_framed_laws : UdpFramedLaws list_framed.
Proof. split. by intros [[|d l] c o]. Qed.
End Transport.
Arguments datagram : clear implicits.
Arguments UdpFramed SocketAddr Socket U : clear implicits.
Arguments list_socket : clear implicits.

(** ** [DuplexStream]: a sink and a stream in one, each call passed on *)
Section Duplex.
Context {Si St Item Out A : Type} {I : Sink Si Item Out} {P : PollStream St A}.

Record DuplexStream := mkDuplex { dx_sink : Si; dx_stream : St }.

Definition DuplexStream_new (sink : Si) (stream : St) : DuplexStream := mkDuplex sink stream.

Definition get_sink (s : DuplexStream) : Si := dx_sink s.
Definition get_sink_mut {B} (f : Si -> B * Si) (s : DuplexStream) : B * DuplexStream :=
  let '(b, sink) := f (dx_sink s) in (b, mkDuplex sink (dx_stream s)).
Definition get_sink_pin_mut {B} : (Si -> B * Si) -> DuplexStream -> B * DuplexStream :=
  get_sink_mut.
Definition get_stream (s : DuplexStream) : St := dx_stream s.
Definition get_stream_mut {B} (f : St -> B * St) (s : DuplexStream) : B * DuplexStream :=
  let '(b, stream) := f (dx_stream s) in (b, mkDuplex (dx_sink s) stream).
Definition get_stream_pin_mut {B} : (St -> B * St) -> DuplexStream -> B * DuplexStream :=
  get_stream_mut.
Definition split_into (s : DuplexStream) : Si * St := (dx_sink s, dx_stream s).

Definition DuplexStream_sink : Sink DuplexStream Item Out := {|
  sink_ready s := sink_ready (dx_sink s);
  sink_flush s := sink_flush (dx_sink s);
  sink_start_send s x := sink_start_send (dx_sink s) x;
  sink_close := get_sink_mut sink_close;
  sink_out s := sink_out (dx_sink s)
|}.
#[export] Existing Instance DuplexStream_sink.

Definition dx_poll_next : DuplexStream -> poll (option A) * DuplexStream :=
  get_stream_mut stream_next.
Definition dx_size_hint (s : DuplexStream) : Z * option Z := stream_size_hint (dx_stream s).

#[export] Instance DuplexStream_stream : PollStream DuplexStream A := {|
  stream_next := dx_poll_next; stream_size_hint := dx_size_hint
|}.

(** [FusedStream], of the inner stream. *)
Definition dx_is_terminated (is_terminated : St -> bool) (s : DuplexStream) : bool :=
  is_terminated (dx_stream s).

#[export] Instance DuplexStream_laws {closed : Si -> Prop} {L : SinkLaws I closed} :
  SinkLaws DuplexStream_sink (fun s => closed (dx_sink s)).
Proof.
  split; cbn.
  - intros s x. apply (sink_send_law (closed := closed)).
  - intros s. unfold get_sink_mut.
    pose proof (sink_close_law (closed := closed) (dx_sink s)) as H.
    by destruct (sink_close (dx_sink s)).
  - intros s H. by apply (sink_closed_law (closed := closed)).
Qed.

(** The two halves do not meet: what is done with one leaves the other as it is, and the order
    does not matter. *)
Lemma duplex_halves {B C} (f : Si -> B * Si) (g : St -> C * St) s :
  let '(b, s1) := get_sink_mut f s in
  let '(c, s2) := get_stream_mut g s in
  split_into s1 = (snd (f (dx_sink s)), dx_stream s) /\
  split_into s2 = (dx_sink s, snd (g (dx_stream s))) /\
  get_stream_mut g s1 = (c, snd (get_sink_mut f s2)) /\ fst (get_sink_mut f s2) = b.
Proof.
  unfold get_sink_mut, get_stream_mut, split_into. destruct s as [si st]. cbn [dx_sink dx_stream].
  destruct (f si) as [b si'] eqn:Ef, (g st) as [c st'] eqn:Eg. cbn [dx_sink dx_stream fst snd].
  by rewrite Ef, Eg.
Qed.
End Duplex.
Arguments DuplexStream : clear implicits.

(** [MpscStream]: the two ends of tokio's channels, wrapped by [PollSender] and
    [ReceiverStream]. *)
Definition tokio_mpsc_stream {Sender Receiver PollSender ReceiverStream}
    (PollSender_new : Sender -> PollSender) (ReceiverStream_new : Receiver -> ReceiverStream)
    (sender : Sender) (receiver : Receiver) : DuplexStream PollSender ReceiverStream :=
  DuplexStream_new (PollSender_new sender) (ReceiverStream_new receiver).

(** ** The life of a sink *)
Section SinkLife.
Context {S Item Out : Type} {I : Sink S Item Out} {closed : S -> Prop} {L : SinkLaws I closed}.

Inductive sink_op := SinkSend (x : Item) | SinkClose.

Fixpoint sink_run (ops : list sink_op) (s : S) : list Out * S :=
  match ops with
  | [] => ([], s)
  | SinkSend x :: ops =>
      let '(out, s') := sink_run ops s in (snd (sink_start_send s x) ++ out, s')
  | SinkClose :: ops => sink_run ops (snd (sink_close s))
  end.

Fixpoint before_close (ops : list sink_op) : list Item :=
  match ops with
  | SinkSend x :: ops => x :: before_close ops
  | _ => []
  end.

Lemma sink_run_closed ops s : closed s -> fst (sink_run ops s) = [].
Proof.
  revert s. induction ops as [|[x|] ops IH]; intros s Hs; [done| |]; cbn [sink_run].
  - specialize (IH s Hs). destruct (sink_run ops s) as [out s']. cbn [fst] in *.
    destruct (sink_closed_law s Hs) as (_ & _ & E). by rewrite E, IH.
  - exact (IH _ (proj2 (sink_close_law (closed := closed) s))).
Qed.

(** What leaves the sink is a sublist, in order, of what was sent before the first close. *)
Lemma sink_run_spec ops s :
  sublist (fst (sink_run ops s)) (map (sink_out s) (before_close ops)).
Proof.
  revert s. induction ops as [|[x|] ops IH]; intros s; [done| |]; cbn [sink_run before_close map].
  - specialize (IH s). destruct (sink_run ops s) as [out s']. cbn [fst] in *.
    destruct (sink_send_law s x) as [-> | ->]; cbn [snd app]; by constructor.
  - rewrite sink_run_closed; [apply sublist_nil_l|]. exact (proj2 (sink_close_law (closed := closed) s)).
Qed.
End SinkLife.
