(* ===== verification/HalfClose.v ===== *)
(** [src/halfclose.rs]: the pool of tasks that keep telling the peer that a session is over.

    The model fixes the order of the atomic operations: the counter's [fetch_add] and
    [fetch_sub], the two operations of [Notify], and the turns of the tasks' loops.
    [tokio::sync::Notify] is not part of the sources: its operations are a class. *)
From stdpp Require Import relations.
From S2P Require Import Prelude Bytes Config StreamIo.

(** [Notify] with one task waiting: [notified_poll] polls its [notified()] future. *)
Class Notify := {
  notify : Type;
  notify_new : notify;
  notify_one : notify -> notify;
  notified_poll : notify -> bool * notify
}.

(** A notification that finds no waiter is kept, at most one of them; a poll that succeeds
    consumes it. *)
Class NotifyLaws (N : Notify) := {
  notified_new_law : fst (notified_poll notify_new) = false;
  notify_one_law : forall n, fst (notified_poll (notify_one n)) = true;
  notified_consume_law : forall n, fst (notified_poll (snd (notified_poll n))) = false
}.

Definition flag_notify : Notify := {|
  notify := bool; notify_new := false; notify_one _ := true; notified_poll n := (n, false)
|}.

Lemma flag_notify_laws : NotifyLaws flag_notify.
Proof. by split. Qed.

(** [AtomicUsize], on a 64-bit target. *)
Definition usize (z : Z) : Z := z mod 18446744073709551616.

Section HalfClose.
Context {N : Notify}.

Record HalfClosePool := mkPool {
  hp_cancelled : bool;      (* [token] *)
  hp_notify : notify;
  hp_count : Z              (* [task_count] *)
}.
#[export] Instance eta_Pool : Eta HalfClosePool := fun p =>
  mkPool (hp_cancelled p) (hp_notify p) (hp_count p).

Definition HalfClosePool_default : HalfClosePool := mkPool false notify_new 0.

Record HalfClose := mkHalfClose { hc_reset_packet : bytes; hc_repeat : Z }.

Definition HalfClose_new (reset_packet : bytes) (half_close_timeout : Duration) : HalfClose :=
  mkHalfClose reset_packet (Z.max (as_secs half_close_timeout) 1).

Definition fetch_add (p : HalfClosePool) : HalfClosePool :=
  p <| hp_count := usize (hp_count p + 1) |>.

(** [Drop]: two steps. *)
Definition drop_count (p : HalfClosePool) : HalfClosePool :=
  p <| hp_count := usize (hp_count p - 1) |>.
Definition drop_notify (p : HalfClosePool) : HalfClosePool :=
  p <| hp_notify := notify_one (hp_notify p) |>.

(** How the [select!] of [send] ends: the transport took the packet, or failed, or the token
    was cancelled before either. *)
Inductive send_end := SendOk | SendErr | SendCancelled.

Definition HalfClose_send (e : send_end) (task : HalfClose) : bool * list bytes :=
  match e with
  | SendOk => (true, [hc_reset_packet task])
  | SendErr | SendCancelled => (false, [])
  end.

Definition dec_repeat (task : HalfClose) : HalfClose :=
  mkHalfClose (hc_reset_packet task) (usize (hc_repeat task - 1)).

(** [create_task] up to its first [send]. *)
Definition create_task (reset_packet : bytes) (half_close_timeout : Duration) (p : HalfClosePool)
  : HalfClose * HalfClosePool :=
  (dec_repeat (HalfClose_new reset_packet half_close_timeout), fetch_add p).

(** The rest of [create_task]: what is sent, and the task that is spawned, unless [task] is
    dropped. *)
Definition create_sent (e : send_end) (cancelled : bool) (task : HalfClose)
  : list bytes * option HalfClose :=
  let '(ok, out) := HalfClose_send e task in
  (out, if negb ok || (hc_repeat task =? 0) then None else if cancelled then None else Some task).

(** The [tick] arm of [run] and the condition of the loop: [None] leaves the loop. *)
Definition tick_sent (e : send_end) (task : HalfClose) : list bytes * option HalfClose :=
  let '(ok, out) := HalfClose_send e task in
  if ok then
    let task := dec_repeat task in
    (out, if hc_repeat task >? 0 then Some task else None)
  else (out, None).

(** The other arms: the cancelled token leaves the loop, and the transport is read until its
    end, which [is_closed] remembers. *)
Inductive run_event := RunCancelled | RunTick (e : send_end) | RunRecv (x : option bytes).

Definition run_turn (ev : run_event) (is_closed : bool) (task : HalfClose)
  : list bytes * option (HalfClose * bool) :=
  match ev with
  | RunCancelled => ([], None)
  | RunTick e =>
      let '(out, r) := tick_sent e task in (out, option_map (fun t => (t, is_closed)) r)
  | RunRecv x => ([], Some (task, is_closed || match x with None => true | Some _ => false end))
  end.

(** The loop of [run] on a sequence of events: what it sends, and whether it has been left. *)
Fixpoint HalfClose_run (evs : list run_event) (is_closed : bool) (task : HalfClose)
  : list bytes * bool :=
  match evs with
  | [] => ([], negb (hc_repeat task >? 0))
  | ev :: evs =>
      if hc_repeat task >? 0 then
        match run_turn ev is_closed task with
        | (out, Some (task, is_closed)) =>
            let '(out', fin) := HalfClose_run evs is_closed task in (out ++ out', fin)
        | (out, None) => (out, true)
        end
      else ([], true)
  end.

(** A whole task, from [create_task] on: what it sends and whether it is over. *)
Definition HalfClose_life (reset_packet : bytes) (half_close_timeout : Duration) (first : send_end)
    (cancelled : bool) (evs : list run_event) : list bytes * bool :=
  let task := dec_repeat (HalfClose_new reset_packet half_close_timeout) in
  match create_sent first cancelled task with
  | (out, Some task) => let '(out', fin) := HalfClose_run evs false task in (out ++ out', fin)
  | (out, None) => (out, true)
  end.

(** ** The pool at work *)

(** Where a task is: in the first [send], waiting in the [select!] of [run], sending after a
    tick, or dropped but not yet past its notification. *)
Inductive hc_phase := HcFirst | HcWaiting | HcTicking | HcDropping.

(** Where the caller of [shutdown] is. *)
Inductive sh_phase := ShIdle | ShCheck | ShWait | ShDone.

Record pool_sys := mkPoolSys {
  ps_pool : HalfClosePool;
  ps_tasks : list (hc_phase * HalfClose);
  ps_shutdown : sh_phase
}.

(** A task's next atomic step. *)
Inductive task_step (cancelled : bool) : hc_phase * HalfClose -> hc_phase * HalfClose -> Prop :=
| first_spawned e task out task' :
    create_sent e cancelled task = (out, Some task') ->
    task_step cancelled (HcFirst, task) (HcWaiting, task')
| first_dropped e task out :
    create_sent e cancelled task = (out, None) ->
    task_step cancelled (HcFirst, task) (HcDropping, task)
| wait_cancelled task :
    cancelled = true -> task_step cancelled (HcWaiting, task) (HcDropping, task)
| wait_tick task :
    cancelled = false -> task_step cancelled (HcWaiting, task) (HcTicking, task)
| tick_again e task out task' :
    tick_sent e task = (out, Some task') ->
    task_step cancelled (HcTicking, task) (HcWaiting, task')
| tick_dropped e task out :
    tick_sent e task = (out, None) ->
    task_step cancelled (HcTicking, task) (HcDropping, task).

Definition counted (ph : hc_phase) : bool :=
  match ph with HcDropping => false | _ => true end.

(** The pool's share of that step: the [fetch_sub] of a task that is dropped. *)
Definition step_count (ph ph' : hc_phase) (p : HalfClosePool) : HalfClosePool :=
  if counted ph && negb (counted ph') then drop_count p else p.

(** [create] apart, the steps of the tasks there are and of [shutdown]. *)
Inductive pool_step : pool_sys -> pool_sys -> Prop :=
| pool_task p l ph task ph' task' r sh :
    task_step (hp_cancelled p) (ph, task) (ph', task') ->
    pool_step (mkPoolSys p (l ++ (ph, task) :: r) sh)
      (mkPoolSys (step_count ph ph' p) (l ++ (ph', task') :: r) sh)
| pool_notify p l task r sh :
    pool_step (mkPoolSys p (l ++ (HcDropping, task) :: r) sh)
      (mkPoolSys (drop_notify p) (l ++ r) sh)
| pool_check p ts :
    pool_step (mkPoolSys p ts ShCheck)
      (mkPoolSys p ts (if hp_count p >? 0 then ShWait else ShDone))
| pool_wake p ts n :
    notified_poll (hp_notify p) = (true, n) ->
    pool_step (mkPoolSys p ts ShWait) (mkPoolSys (p <| hp_notify := n |>) ts ShCheck).

(** [shutdown] up to its loop, and [kcp_sys_shutdown] of [src/lib.rs], which is all of it. *)
Definition shutdown (p : HalfClosePool) (ts : list (hc_phase * HalfClose)) : pool_sys :=
  mkPoolSys (p <| hp_cancelled := true |>) ts ShCheck.
Definition kcp_sys_shutdown : HalfClosePool -> list (hc_phase * HalfClose) -> pool_sys := shutdown.

Inductive pool_call : pool_sys -> pool_sys -> Prop :=
| call_create p ts sh packet timeout :
    Zlen ts < 18446744073709551615 ->
    pool_call (mkPoolSys p ts sh)
      (let '(task, p) := create_task packet timeout p in mkPoolSys p (ts ++ [(HcFirst, task)]) sh)
| call_shutdown p ts :
    pool_call (mkPoolSys p ts ShIdle) (kcp_sys_shutdown p ts).

Definition pool_any (s s' : pool_sys) : Prop := pool_step s s' \/ pool_call s s'.
Definition pool_start : pool_sys := mkPoolSys HalfClosePool_default [] ShIdle.


(** ** What a task sends *)

Lemma repeat_range packet d :
  0 <= d < 18446744073709551616 * 1000000000 ->
  0 <= hc_repeat (dec_repeat (HalfClose_new packet d)) < 18446744073709551615 /\
  hc_repeat (dec_repeat (HalfClose_new packet d)) = Z.max (as_secs d) 1 - 1.
Proof.
  intros Hd. unfold HalfClose_new, dec_repeat, as_secs, usize. cbn [hc_repeat hc_reset_packet].
  assert (0 <= d / 1000000000 < 18446744073709551616) by (Z.div_mod_to_equations; lia).
  rewrite Z.mod_small by lia. lia.
Qed.

Definition ticks_ok (evs : list run_event) : Z :=
  Zlen (filter (fun ev => match ev with RunTick SendOk => true | _ => false end = true) evs).

Lemma ticks_ok_nonneg evs : 0 <= ticks_ok evs.
Proof. apply Zlen_nonneg. Qed.

(** No event ends the loop early. *)
Definition undisturbed (evs : list run_event) : Prop :=
  Forall (fun ev => match ev with RunTick SendOk | RunRecv _ => True | _ => False end) evs.

Lemma HalfClose_run_spec evs closed task :
  0 <= hc_repeat task < 18446744073709551616 ->
  let '(out, fin) := HalfClose_run evs closed task in
  exists n, out = repeat (hc_reset_packet task) n /\
    Z.of_nat n <= Z.min (hc_repeat task) (ticks_ok evs) /\
    (undisturbed evs -> Z.of_nat n = Z.min (hc_repeat task) (ticks_ok evs)) /\
    (hc_repeat task <= ticks_ok evs -> fin = true).
Proof.
  revert closed task. induction evs as [|ev evs IH]; intros closed task Hr; cbn [HalfClose_run].
  { exists 0%nat. change (ticks_ok []) with 0. split_and!; [done|lia|lia|lia]. }
  destruct (Z.gtb_spec (hc_repeat task) 0) as [Hpos|Hz]; cycle 1.
  { exists 0%nat. pose proof (ticks_ok_nonneg (ev :: evs)). split_and!; [done|lia|lia|lia]. }
  assert (hc_repeat (dec_repeat task) = hc_repeat task - 1) as Ed
    by (unfold dec_repeat, usize; cbn [hc_repeat]; apply Z.mod_small; lia).
  pose proof (ticks_ok_nonneg evs) as Hn.
  destruct ev as [|[| |]|x]; cbn [run_turn tick_sent HalfClose_send option_map].
  - exists 0%nat. change (ticks_ok (RunCancelled :: evs)) with (ticks_ok evs).
    split_and!; [done|lia|by inversion 1|done].
  - assert (ticks_ok (RunTick SendOk :: evs) = 1 + ticks_ok evs) as -> by (unfold ticks_ok; apply Zlen_cons).
    rewrite Ed. destruct (Z.gtb_spec (hc_repeat task - 1) 0); cbn [option_map].
    + specialize (IH closed (dec_repeat task) ltac:(lia)).
      destruct (HalfClose_run evs closed (dec_repeat task)) as [out fin].
      destruct IH as (n & -> & H1 & H2 & H3). rewrite Ed in *. exists (S n).
      split_and!; [done|lia| |intros; apply H3; lia]. inversion 1; subst. specialize (H2 ltac:(done)). lia.
    + exists 1%nat. split_and!; [done|lia|lia|done].
  - exists 0%nat. change (ticks_ok (RunTick SendErr :: evs)) with (ticks_ok evs).
    split_and!; [done|lia|by inversion 1|done].
  - exists 0%nat. change (ticks_ok (RunTick SendCancelled :: evs)) with (ticks_ok evs).
    split_and!; [done|lia|by inversion 1|done].
  - change (ticks_ok (RunRecv x :: evs)) with (ticks_ok evs).
    specialize (IH (closed || match x with None => true | Some _ => false end) task Hr).
    destruct (HalfClose_run evs _ task) as [out fin]. destruct IH as (n & -> & H1 & H2 & H3).
    exists n. split_and!; [done|lia| |done]. inversion 1; subst. auto.
Qed.

Lemma HalfClose_life_spec packet d first cancelled evs :
  0 <= d < 18446744073709551616 * 1000000000 ->
  let '(out, fin) := HalfClose_life packet d first cancelled evs in
  exists n, out = repeat packet n /\ Z.of_nat n <= Z.max (as_secs d) 1 /\
    (first = SendOk -> cancelled = false -> undisturbed evs ->
       Z.of_nat n = Z.min (Z.max (as_secs d) 1) (1 + ticks_ok evs)) /\
    (Z.max (as_secs d) 1 <= 1 + ticks_ok evs -> fin = true).
Proof.
  intros Hd. destruct (repeat_range packet d Hd) as [Hr Er]. unfold HalfClose_life.
  pose proof (ticks_ok_nonneg evs) as Hn. unfold create_sent.
  destruct first; cbn [HalfClose_send negb orb]; cycle 1.
  { exists 0%nat. split_and!; [done|lia|done|done]. }
  { exists 0%nat. split_and!; [done|lia|done|done]. }
  destruct (Z.eqb_spec (hc_repeat (dec_repeat (HalfClose_new packet d))) 0) as [E0|E0].
  { exists 1%nat. split_and!; [done|lia|lia|done]. }
  destruct cancelled.
  { exists 1%nat. split_and!; [done|lia|done|done]. }
  pose proof (HalfClose_run_spec evs false (dec_repeat (HalfClose_new packet d)) ltac:(lia)) as H.
  destruct (HalfClose_run evs false _) as [out fin]. destruct H as (n & -> & H1 & H2 & H3).
  exists (S n). split_and!; [done|lia| |intros; apply H3; lia].
  intros _ _ Hu. specialize (H2 Hu). lia.
Qed.

(** ** The counter and the shutdown *)
Context {NL : NotifyLaws N}.

Definition live (ts : list (hc_phase * HalfClose)) : Z :=
  Zlen (filter (fun t => counted (fst t) = true) ts).

Lemma live_app l r : live (l ++ r) = live l + live r.
Proof. unfold live. by rewrite filter_app, Zlen_app. Qed.

Lemma live_cons t r : live (t :: r) = (if counted (fst t) then 1 else 0) + live r.
Proof.
  unfold live. rewrite filter_cons. destruct (counted (fst t)) eqn:E.
  - rewrite decide_True by done. by rewrite Zlen_cons.
  - rewrite decide_False by done. lia.
Qed.

Lemma live_range ts : 0 <= live ts <= Zlen ts.
Proof.
  induction ts as [|t ts IH]; [by cbn|]. rewrite live_cons, Zlen_cons. destruct (counted _); lia.
Qed.

Record pool_inv (s : pool_sys) : Prop := {
  inv_size : Zlen (ps_tasks s) < 18446744073709551616;
  inv_count : hp_count (ps_pool s) = live (ps_tasks s);
  inv_cancelled : ps_shutdown s <> ShIdle -> hp_cancelled (ps_pool s) = true;
  inv_wait : ps_shutdown s = ShWait ->
    ps_tasks s <> [] \/ fst (notified_poll (hp_notify (ps_pool s))) = true
}.

Lemma usize_small z : 0 <= z < 18446744073709551616 -> usize z = z.
Proof. apply Z.mod_small. Qed.

Lemma pool_inv_start : pool_inv pool_start.
Proof. by split. Qed.

Lemma pool_inv_step s s' : pool_inv s -> pool_step s s' -> pool_inv s'.
Proof.
  intros [Hs Hc Hk Hw] Hstep.
  inversion Hstep as [p l ph task ph' task' r sh Ht|p l task r sh|p ts|p ts n Hn]; subst;
    cbn [ps_pool ps_tasks ps_shutdown] in *.
  - assert (counted ph = true) as Eph by (by inversion Ht).
    pose proof (live_range l) as Hl. pose proof (live_range r) as Hr.
    rewrite live_app, live_cons in Hc. cbn [fst] in Hc. rewrite Eph in Hc.
    rewrite Zlen_app, Zlen_cons in Hs.
    split; cbn [ps_pool ps_tasks ps_shutdown].
    + rewrite Zlen_app, Zlen_cons. lia.
    + rewrite live_app, live_cons. cbn [fst]. unfold step_count. rewrite Eph.
      destruct (counted ph'); cbn [andb negb]; [lia|]. unfold drop_count. simp_upd.
      rewrite usize_small; lia.
    + intros H. unfold step_count. by destruct (_ && _); apply Hk.
    + intros H. left. by destruct l.
  - rewrite live_app, live_cons in Hc. cbn [fst counted] in Hc. rewrite Zlen_app, Zlen_cons in Hs.
    split; cbn [ps_pool ps_tasks ps_shutdown]; unfold drop_notify; simp_upd.
    + rewrite Zlen_app. lia.
    + rewrite live_app. lia.
    + done.
    + intros _. right. apply notify_one_law.
  - split; cbn [ps_pool ps_tasks ps_shutdown]; [done|done| |].
    + intros _. by apply Hk.
    + destruct (Z.gtb_spec (hp_count p) 0); [|done]. intros _. left. intros ->.
      rewrite Hc in *. change (live []) with 0 in *. lia.
  - split; cbn [ps_pool ps_tasks ps_shutdown]; simp_upd; [done|done| |done].
    intros _. by apply Hk.
Qed.

Lemma pool_inv_call s s' : pool_inv s -> pool_call s s' -> pool_inv s'.
Proof.
  intros [Hs Hc Hk Hw] Hcall. inversion Hcall as [p ts sh packet d Hlt|p ts]; subst;
    cbn [ps_pool ps_tasks ps_shutdown create_task] in *.
  - pose proof (live_range ts). split; cbn [ps_pool ps_tasks ps_shutdown]; unfold fetch_add; simp_upd.
    + rewrite Zlen_app. change (Zlen [_]) with 1. lia.
    + rewrite live_app, live_cons. cbn [fst counted]. change (live []) with 0.
      rewrite usize_small; lia.
    + done.
    + intros _. left. by destruct ts.
  - by split.
Qed.

Lemma pool_inv_reachable s : rtc pool_any pool_start s -> pool_inv s.
Proof.
  intros H. cut (pool_inv pool_start); [|apply pool_inv_start]. generalize dependent pool_start.
  intros s0 H. induction H as [|s1 s2 s3 [Hs|Hs] _ IH]; intros Hi; [done|apply IH..].
  - by eapply pool_inv_step.
  - by eapply pool_inv_call.
Qed.

(** A task that is there can take a step, and so can a shutdown that is not done. *)
Lemma pool_progress s :
  pool_inv s -> ps_shutdown s <> ShIdle -> (forall s', ~ pool_step s s') ->
  ps_shutdown s = ShDone /\ ps_tasks s = [].
Proof.
  intros [Hs Hc Hk Hw] Hsh Hstuck. destruct s as [p ts sh]. cbn [ps_pool ps_tasks ps_shutdown] in *.
  specialize (Hk Hsh). assert (ts = []) as ->.
  { destruct ts as [|[ph task] ts]; [done|]. exfalso.
    destruct ph.
    - eapply (Hstuck _), (pool_task p [] HcFirst task HcDropping task ts sh).
      apply (first_dropped _ SendCancelled task []). done.
    - eapply (Hstuck _), (pool_task p [] HcWaiting task HcDropping task ts sh).
      rewrite Hk. by apply wait_cancelled.
    - eapply (Hstuck _), (pool_task p [] HcTicking task HcDropping task ts sh).
      apply (tick_dropped _ SendCancelled task []). done.
    - eapply (Hstuck _), (pool_notify p [] task ts sh). }
  destruct sh; [done| | |done]; exfalso.
  - eapply (Hstuck _), pool_check.
  - destruct (Hw eq_refl) as [H|H]; [done|].
    destruct (notified_poll (hp_notify p)) as [b n] eqn:E. cbn [fst] in H. subst b.
    eapply (Hstuck _), pool_wake, E.
Qed.

(** What is left to do once the token is cancelled. *)
Definition task_weight (ph : hc_phase) : Z :=
  match ph with HcFirst => 6 | HcTicking => 7 | HcWaiting => 6 | HcDropping => 3 end.
Definition sh_weight (sh : sh_phase) : Z := match sh with ShCheck => 1 | _ => 0 end.

Fixpoint tasks_weight (ts : list (hc_phase * HalfClose)) : Z :=
  match ts with [] => 0 | (ph, _) :: ts => task_weight ph + tasks_weight ts end.

Definition pool_measure (s : pool_sys) : Z :=
  tasks_weight (ps_tasks s)
  + (if fst (notified_poll (hp_notify (ps_pool s))) then 2 else 0) + sh_weight (ps_shutdown s).

Lemma tasks_weight_app l r : tasks_weight (l ++ r) = tasks_weight l + tasks_weight r.
Proof. induction l as [|[ph t] l IH]; cbn; lia. Qed.

Lemma tasks_weight_nonneg ts : 0 <= tasks_weight ts.
Proof. induction ts as [|[ph t] ts IH]; cbn; [lia|]. destruct ph; cbn; lia. Qed.

Lemma pool_measure_nonneg s : 0 <= pool_measure s.
Proof.
  unfold pool_measure, sh_weight. pose proof (tasks_weight_nonneg (ps_tasks s)).
  destruct (fst _), (ps_shutdown s); lia.
Qed.

Lemma task_step_weight ph task ph' task' :
  task_step true (ph, task) (ph', task') -> task_weight ph' < task_weight ph.
Proof.
  inversion 1; subst; cbn; try lia.
  match goal with H : create_sent _ _ _ = _ |- _ => unfold create_sent in H; revert H end.
  destruct (HalfClose_send _ _) as [ok out']. by destruct (negb ok || _).
Qed.

Lemma pool_measure_step s s' :
  hp_cancelled (ps_pool s) = true -> pool_step s s' ->
  hp_cancelled (ps_pool s') = true /\ pool_measure s' < pool_measure s.
Proof.
  intros Hk Hstep. unfold pool_measure.
  inversion Hstep as [p l ph task ph' task' r sh Ht|p l task r sh|p ts|p ts n Hn]; subst;
    cbn [ps_pool ps_tasks ps_shutdown] in *.
  - rewrite Hk in Ht. apply task_step_weight in Ht. rewrite !tasks_weight_app.
    cbn [tasks_weight]. unfold step_count, drop_count. split; [by destruct (_ && _)|].
    replace (hp_notify (if counted ph && negb (counted ph')
      then p <| hp_count := usize (hp_count p - 1) |> else p)) with (hp_notify p)
      by (by destruct (_ && _)). lia.
  - split; [done|]. rewrite !tasks_weight_app. cbn [tasks_weight task_weight].
    unfold drop_notify. simp_upd. rewrite notify_one_law. destruct (fst _); lia.
  - split; [done|]. cbn [sh_weight]. destruct (_ >? _); cbn [sh_weight]; lia.
  - split; [done|]. simp_upd. pose proof (notified_consume_law (hp_notify p)) as E.
    rewrite Hn in *. cbn [fst snd] in *. rewrite E. cbn [sh_weight]. lia.
Qed.

Lemma pool_steps_bounded n s s' :
  hp_cancelled (ps_pool s) = true -> nsteps pool_step n s s' ->
  Z.of_nat n <= pool_measure s - pool_measure s'.
Proof.
  intros Hk H. induction H as [s|n s1 s2 s3 Hs _ IH]; [lia|].
  destruct (pool_measure_step _ _ Hk Hs) as [Hk2 Hlt]. specialize (IH Hk2). lia.
Qed.

Lemma pool_steps_inv s s' :
  rtc pool_step s s' -> pool_inv s -> ps_shutdown s <> ShIdle ->
  pool_inv s' /\ ps_shutdown s' <> ShIdle.
Proof.
  induction 1 as [|s1 s2 s3 Hs _ IH]; [done|]. intros Hi Hsh. apply IH.
  - by eapply pool_inv_step.
  - inversion Hs; subst; cbn in *; try done. by destruct (_ >? _).
Qed.
End HalfClose.
