(* ===== verification/Lifetime.v ===== *)
(** [src/stream.rs]: the end of a session's task, from its loop to the half-close pool, and what
    the two ends of the session see of it. *)
From stdpp Require Import relations.
From S2P Require Import Prelude Bytes IkcpTypes Protocol ProtocolSpec Config Stream StreamIo.
From S2P Require Import StreamSpec StreamWire HalfClose.

Section Lifetime.
Context {BM : BytesMut}.

(** [Display]: the number, the role and the state. *)
Definition Task_fmt (t : Task) : Z * Z * Handshake :=
  (Kcp_conv (t_kcp t), (if is_client t then 1 else 0), t_hs t).

Section Finish.
Context (clock : nat -> Z * Z).

(** What follows the loop of [run]: [queued] are the frames the input channel still holds, which
    are drained; a session with a number hands its RESET packet and its transport to the
    half-close pool.  The result is what the transport is given, whether the pool's task is over,
    the frames that are dropped, and the number reported to [disconnect].  [first], [cancelled]
    and [evs] are what the pool's task meets. *)
Definition run_finish (t : Task) (queued : list bytes) (first : send_end) (cancelled : bool)
    (evs : list run_event) : list bytes * bool * list bytes * Z :=
  let '(reset, conv) := run_exit clock t in
  let '(out, fin) :=
    match reset with
    | Some buf => HalfClose_life buf (half_close_timeout (t_config t)) first cancelled evs
    | None => ([], true)
    end in
  (out, fin, queued, conv).
End Finish.

Context {BML : BytesMutLaws BM}.

Lemma run_finish_spec clock t queued first cancelled evs :
  0 <= half_close_timeout (t_config t) < 18446744073709551616 * 1000000000 ->
  0 <= Kcp_conv (t_kcp t) < 4294967296 ->
  let '(out, fin, dropped, c) := run_finish clock t queued first cancelled evs in
  let secs := Z.max (as_secs (half_close_timeout (t_config t))) 1 in
  c = Kcp_conv (t_kcp t) /\ dropped = queued /\ Zlen out <= secs /\
  (is_valid_conv c = false -> out = []) /\
  (is_valid_conv c = true -> first = SendOk -> cancelled = false -> undisturbed evs ->
     Zlen out = Z.min secs (1 + ticks_ok evs)) /\
  (secs <= 1 + ticks_ok evs -> fin = true) /\
  forall p clock' t', p ∈ out -> conv (handle (t_kcp t')) = c ->
    Task_kcp_input clock' p t' = Some (set_handshake Disconnected t').
Proof.
  intros Hd Hc. unfold run_finish. destruct (run_exit clock t) as [reset c] eqn:E.
  pose proof E as Ex. unfold run_exit in Ex. injection Ex as Er Ec. subst c.
  destruct reset as [buf|].
  - destruct (is_valid_conv (Kcp_conv (t_kcp t))) eqn:Ev; [|done].
    pose proof (HalfClose_life_spec buf _ first cancelled evs Hd) as H.
    destruct (HalfClose_life _ _ _ _ _) as [out fin]. destruct H as (n & -> & H1 & H2 & H3).
    unfold Zlen. rewrite repeat_length. split_and!; try done.
    + by rewrite Ev.
    + intros p clock' t' Hp Hcv. apply list_elem_of_In, repeat_spec in Hp as ->.
      by apply (Task_kcp_input_reset clock clock' t t' buf _ E).
  - destruct (is_valid_conv (Kcp_conv (t_kcp t))) eqn:Ev; [done|].
    split_and!; try done; [change (Zlen (@nil bytes)) with 0; lia|]. by intros p ? ? ?%elem_of_nil.
Qed.
End Lifetime.
