(* ===== verification/Udp.v ===== *)
(** [src/udp.rs]: the listener, which shares one socket among its sessions.

    The listener's task keeps two tables, by conversation number and by session identifier.
    Sessions run on their own; what the listener does to them, and to the program, is the list
    of its effects.  The clock, the generator and the room in the backlog are read from an
    environment, one reading per packet. *)
From stdpp Require Import relations.
From S2P Require Import Prelude HashLink Bytes Protocol Config ConvCache Stream StreamIo.
From S2P Require Import Transport.

Section Udp.
Context {SocketAddr : Type} {EqAddr : EqDecision SocketAddr}.

(** [sender] and [token] belong to the session's own task and are known by [s_conv]. *)
Record Session := mkSession {
  s_conv : Z;
  s_session_id : bytes;
  s_peer_addr : SocketAddr;
  s_stream_permit : bool;    (* [stream_permit] is still there *)
  s_task : bool              (* the accepting task has not been joined *)
}.
#[export] Instance eta_Session : Eta Session := fun s =>
  mkSession (s_conv s) (s_session_id s) (s_peer_addr s) (s_stream_permit s) (s_task s).

(** [Connect(stream)], of which the listener reads the number, and [Disconnect]. *)
Inductive Message := Connect (conv : Z) | Disconnect (conv : Z).

Context {MC : LinkedHashMap Z Z} {MT : LinkedHashMap Z Session} {MI : LinkedHashMap bytes Z}.

Record UdpTask := mkUdpTask {
  u_config : KcpConfig;
  u_conv_cache : Inner;
  u_cancelled : bool;        (* [token] *)
  u_is_closing : bool;
  u_conv_map : lhm Z Session;
  u_sid_map : lhm bytes Z
}.
#[export] Instance eta_UdpTask : Eta UdpTask := fun t =>
  mkUdpTask (u_config t) (u_conv_cache t) (u_cancelled t) (u_is_closing t) (u_conv_map t)
    (u_sid_map t).

Definition UdpTask_new (config : KcpConfig) (conv_cache : option Inner) : UdpTask :=
  mkUdpTask config (default (ConvCache_new LISTENER_CONV_TIMEOUT) conv_cache) false false
    lhm_new lhm_new.

(** What the listener does besides changing its tables. *)
Inductive effect :=
| Spawned (conv : Z) (peer_addr : SocketAddr)     (* [accept_stream] runs *)
| Forwarded (conv : Z) (packet : bytes)           (* into the session's channel *)
| Accepted (conv : Z) (peer_addr : SocketAddr)    (* the stream goes to [accept] *)
| Killed (conv : Z)                               (* the session's token is cancelled *)
| Sent (packet : bytes) (peer_addr : SocketAddr). (* to the socket *)

Record udp_env := mkUdpEnv {
  e_now : Z;                 (* [Instant::now()] *)
  e_draw : nat -> Z;         (* the generator behind [Kcp::rand_conv] *)
  e_permit : bool            (* [try_reserve_owned] succeeds *)
}.

Context (fuel : nat).

(** The last branch of [get_session]: a new session.  [None]: the generator gave no number that
    is free among the first [fuel]. *)
Definition new_session (e : udp_env) (session_id : bytes) (peer_addr : SocketAddr) (t : UdpTask)
  : option (Session * UdpTask) :=
  match ConvCache_allocate fuel (e_draw e) (fun x => lhm_contains_key (u_conv_map t) x) (e_now e)
          (u_conv_cache t) with
  | (None, _) => None
  | (Some conv, cache) =>
      let s := mkSession conv session_id peer_addr true true in
      Some (s, t <| u_conv_cache := cache |>
                 <| u_sid_map := lhm_insert (u_sid_map t) session_id conv |>
                 <| u_conv_map := lhm_insert (u_conv_map t) conv s |>)
  end.

Definition get_session (e : udp_env) (packet : bytes) (peer_addr : SocketAddr) (t : UdpTask)
  : option (option Session * list effect * UdpTask) :=
  match read_conv packet with
  | None => Some (None, [], t)
  | Some pkt_conv =>
      match lhm_get (u_conv_map t) pkt_conv with
      | Some s => Some (if decide (s_peer_addr s = peer_addr) then Some s else None, [], t)
      | None =>
          match read_session_id packet (session_key (u_config t)) with
          | None => Some (None, [], t)
          | Some session_id =>
              match lhm_get (u_sid_map t) session_id with
              | Some conv =>
                  Some (if (conv =? pkt_conv) || (pkt_conv =? SYN_CONV) then
                          match lhm_get (u_conv_map t) conv with
                          | Some s => if decide (s_peer_addr s = peer_addr) then Some s else None
                          | None => None
                          end
                        else None, [], t)
              | None =>
                  if u_is_closing t || negb (pkt_conv =? SYN_CONV)
                     || negb (Zlen session_id =? session_id_len (u_config t))
                  then Some (None, [], t)
                  else if negb (e_permit e) then Some (None, [], t)
                  else
                    match new_session e session_id peer_addr t with
                    | Some (s, t) => Some (Some s, [Spawned (s_conv s) peer_addr], t)
                    | None => None
                    end
              end
          end
      end
  end.

(** One received packet: the session found gets it. *)
Definition on_packet (e : udp_env) (packet : bytes) (peer_addr : SocketAddr) (t : UdpTask)
  : option (list effect * UdpTask) :=
  match get_session e packet peer_addr t with
  | Some (Some s, eff, t) => Some (eff ++ [Forwarded (s_conv s) packet], t)
  | Some (None, eff, t) => Some (eff, t)
  | None => None
  end.

(** The transport has ended. *)
Definition on_end (t : UdpTask) : UdpTask := t <| u_is_closing := true |> <| u_cancelled := true |>.

(** [for _ in 0..n] of the receiving branch: [recved] is the item at hand and [more] what the
    transport gives without waiting; what is left of it comes back. *)
Fixpoint recv_loop (n : nat) (env : nat -> udp_env) (recved : option (datagram SocketAddr))
    (more : list (option (datagram SocketAddr))) (t : UdpTask)
  : option (list effect * list (option (datagram SocketAddr)) * UdpTask) :=
  match n with
  | O => Some ([], more, t)
  | S n =>
      match recved with
      | Some (Datagram packet addr) =>
          match on_packet (env 0%nat) packet addr t with
          | None => None
          | Some (eff, t) =>
              match more with
              | x :: more =>
                  match recv_loop n (fun i => env (S i)) x more t with
                  | Some (eff', more, t) => Some (eff ++ eff', more, t)
                  | None => None
                  end
              | [] => Some (eff, [], t)
              end
          end
      | Some ReadError => Some ([], more, t)
      | None => Some ([], more, on_end t)
      end
  end.

Definition kill_session (now : Z) (s : Session) (t : UdpTask) : list effect * UdpTask :=
  (if s_task s then [Killed (s_conv s)] else [],
   t <| u_conv_cache := ConvCache_add (s_conv s) now (u_conv_cache t) |>
     <| u_sid_map := lhm_remove (u_sid_map t) (s_session_id s) |>).

Definition process_msg (now : Z) (msg : Message) (t : UdpTask) : list effect * UdpTask :=
  match msg with
  | Connect conv =>
      match lhm_get (u_conv_map t) conv with
      | Some s =>
          (if s_stream_permit s then [Accepted conv (s_peer_addr s)] else [],
           t <| u_conv_map := lhm_modify (u_conv_map t) conv
                  (fun s => s <| s_task := false |> <| s_stream_permit := false |>) |>)
      | None => ([], t)
      end
  | Disconnect conv =>
      match lhm_get (u_conv_map t) conv with
      | Some s => kill_session now s (t <| u_conv_map := lhm_remove (u_conv_map t) conv |>)
      | None => ([], t)
      end
  end.

(** [try_send]: the packets of the sessions that go to the socket, up to [max] of them. *)
Definition try_send (max : nat) (queue : list (bytes * SocketAddr)) : list effect :=
  map (fun item => Sent (fst item) (snd item)) (take max queue).

(** The head of the loop of [run]: [None] leaves it. *)
Definition udp_head (now : Z) (msgs : list Message) (t : UdpTask)
  : option (list effect * list Message * UdpTask) :=
  if u_is_closing t then
    match msgs with
    | msg :: msgs => let '(eff, t) := process_msg now msg t in Some (eff, msgs, t)
    | [] => if lhm_is_empty (u_conv_map t) then None else Some ([], [], t)
    end
  else Some ([], msgs, t).

(** The branches of the [select!]; in that of [pkt_rx], [queue] is what the channel holds
    behind [item]. *)
Inductive udp_event :=
| UdpRecv (x : option (datagram SocketAddr)) (more : list (option (datagram SocketAddr)))
| UdpPkt (item : bytes * SocketAddr) (queue : list (bytes * SocketAddr))
| UdpMsg
| UdpCancelled.

Definition udp_enabled (ev : udp_event) (msgs : list Message) (t : UdpTask) : bool :=
  match ev with
  | UdpRecv _ _ | UdpPkt _ _ => true
  | UdpMsg => match msgs with [] => false | _ :: _ => true end
  | UdpCancelled => u_cancelled t && negb (u_is_closing t)
  end.

Definition udp_branch (env : nat -> udp_env) (ev : udp_event) (msgs : list Message) (t : UdpTask)
  : option (list effect * list Message * UdpTask) :=
  match ev with
  | UdpRecv x more =>
      match recv_loop (Z.to_nat LISTENER_TASK_LOOP) env x more t with
      | Some (eff, _, t) => Some (eff, msgs, t)
      | None => None
      end
  | UdpPkt item queue =>
      Some (try_send 1 [item] ++ try_send (Z.to_nat LISTENER_TASK_LOOP) queue, msgs, t)
  | UdpMsg =>
      match msgs with
      | msg :: msgs => let '(eff, t) := process_msg (e_now (env 0%nat)) msg t in Some (eff, msgs, t)
      | [] => Some ([], [], t)
      end
  | UdpCancelled => Some ([], msgs, t <| u_is_closing := true |>)
  end.

(** After the loop both channels are closed and the rest of [pkt_rx] is sent. *)
Definition udp_exit (queue : list (bytes * SocketAddr)) : list effect :=
  try_send (length queue) queue.

(** [accept_stream]: [first] is what the new stream's output channel gives first.  The messages
    are those the listener gets from here; the session's own task sends its [Disconnect]. *)
Definition accept_stream {BM : BytesMut} (config : KcpConfig) (conv : Z) (first : option Output)
  : list Message :=
  match KcpStream_accept config conv first with
  | (_, (Ok stream, _)) => [Connect (KcpStream_conv stream)]
  | _ => []
  end.

(** ** The program's end of the listener *)

Record KcpUdpStream := mkKcpUdpStream {
  ku_config : KcpConfig;
  ku_rx_closed : bool;       (* [stream_rx] *)
  ku_cancelled : bool;       (* [token] *)
  ku_task : bool             (* [task] has not been taken *)
}.

(** [socket_listen]: the handle, the listener's task, and the room of the backlog. *)
Definition socket_listen (config : KcpConfig) (backlog : Z) (conv_cache : option Inner)
  : KcpUdpStream * UdpTask * Z :=
  (mkKcpUdpStream config false false true, UdpTask_new config conv_cache, Z.max backlog 8).

(** [ToSocketAddrs]: the addresses a value stands for. *)
Class ToSocketAddrs (A : Type) := lookup_host : A -> io_result (list SocketAddr).

Definition first_addr {A} `{ToSocketAddrs A} (addr : A) : io_result SocketAddr :=
  match lookup_host addr with
  | Ok (a :: _) => Ok a
  | Ok [] => Err AddrNotAvailable
  | Err e => Err e
  | Panic => Panic
  end.

Section Sockets.
Context {Socket U : Type} {F : UdpFramed SocketAddr Socket U} {BM : BytesMut}.
Context {AddrAddr : ToSocketAddrs SocketAddr}.

(** [bind] is [UdpSocket::bind]; the task runs on the socket. *)
Definition KcpUdpStream_listen {A} (bind : A -> io_result Socket) (config : KcpConfig) (addr : A)
    (backlog : Z) (conv_cache : option Inner) : io_result (KcpUdpStream * UdpTask * Z * Socket) :=
  match bind addr with
  | Ok udp => Ok (socket_listen config backlog conv_cache, udp)
  | Err e => Err e
  | Panic => Panic
  end.

(** The task that is spawned with its transport, and what the caller gets; [first] is what the
    task's output channel gives first. *)
Definition socket_connect {A} `{ToSocketAddrs A} (config : KcpConfig) (addr : A) (udp : Socket)
    (first : option Output) : option (Task * UdpStream) * io_result (KcpStream * SocketAddr) :=
  match first_addr addr with
  | Ok addr =>
      let '(task, (r, _)) := KcpStream_connect config first in
      (Some (task, UdpStream_new udp addr),
       match r with Ok x => Ok (x, addr) | Err e => Err e | Panic => Panic end)
  | Err e => (None, Err e)
  | Panic => (None, Panic)
  end.

(** [is_ipv4] and the unspecified addresses belong to [std::net]. *)
Definition KcpUdpStream_connect {A} `{ToSocketAddrs A} (is_ipv4 : SocketAddr -> bool)
    (any_v4 any_v6 : SocketAddr) (bind : SocketAddr -> io_result Socket) (config : KcpConfig)
    (addr : A) (first : option Output)
  : option (Task * UdpStream) * io_result (KcpStream * SocketAddr) :=
  match first_addr addr with
  | Ok addr =>
      let local_addr := if is_ipv4 addr then any_v4 else any_v6 in
      match bind local_addr with
      | Ok udp => socket_connect config addr udp first
      | Err e => (None, Err e)
      | Panic => (None, Panic)
      end
  | Err e => (None, Err e)
  | Panic => (None, Panic)
  end.

(** What [connect] promises: the session it starts talks to the first address of the name, and
    to no other, and the caller gets that address with its stream. *)
Lemma connect_peer {A} `{ToSocketAddrs A} is_ipv4 any_v4 any_v6 bind config (addr : A) first task udp r :
  (forall a, lookup_host a = Ok [a]) ->
  KcpUdpStream_connect is_ipv4 any_v4 any_v6 bind config addr first = (Some (task, udp), r) ->
  exists a l, lookup_host addr = Ok (a :: l) /\ ud_peer_addr udp = a /\
    task = Task_new config SYN_CONV /\
    match first with
    | Some (OutConnected c) => exists st, r = Ok (st, a) /\ KcpStream_conv st = c
    | _ => r = Err TimedOut
    end.
Proof.
  intros Haddr. unfold KcpUdpStream_connect, first_addr.
  destruct (lookup_host addr) as [[|a l]|e|]; [done| |done..].
  destruct (bind _) as [sock|e|]; [|done..].
  unfold socket_connect, first_addr, KcpStream_connect. rewrite Haddr.
  destruct first as [[c|f]|]; intros [= <- <- <-]; exists a, l; split_and!; try done. by eexists.
Qed.
End Sockets.

(** [accept]: [first] is what [stream_rx.recv()] gives. *)
Definition KcpUdpStream_accept {A} (first : option A) : io_result A :=
  match first with Some x => Ok x | None => Err NotConnected end.

Definition KcpUdpStream_close (s : KcpUdpStream) : io_result unit * KcpUdpStream :=
  if ku_task s then (Ok tt, mkKcpUdpStream (ku_config s) true true false) else (Ok tt, s).

(** [Stream]: [rx] are the streams in the channel, [closed] tells what follows them. *)
Definition KcpUdpStream_poll_next {A} (rx : list A) (closed : bool) : poll (option A) * list A :=
  match rx with
  | x :: rx => (Ready (Some x), rx)
  | [] => (if closed then Ready None else Pending, [])
  end.

Definition KcpUdpStream_drop (s : KcpUdpStream) : KcpUdpStream :=
  mkKcpUdpStream (ku_config s) true true (ku_task s).

(** ** The task as a state machine

    [AtHead] is the top of the loop of [run], [AtSelect] the [select!] below it.  Between its
    steps sessions send messages, the program cancels the token, and the other owners of the
    cache use it; the clock does not go back. *)
Inductive udp_pc := AtHead | AtSelect | Left_.

Record udp_sys := mkUdpSys {
  us_now : Z;
  us_pc : udp_pc;
  us_msgs : list Message;
  us_task : UdpTask
}.

(** The readings of the clock during one branch. *)
Definition clocked (now : Z) (env : nat -> udp_env) (now' : Z) : Prop :=
  now <= e_now (env 0%nat) /\ forall i, e_now (env i) <= e_now (env (S i)) <= now'.

Inductive udp_step : udp_sys -> list effect -> udp_sys -> Prop :=
| udp_step_head now now' msgs t eff msgs' t' :
    now <= now' -> udp_head now' msgs t = Some (eff, msgs', t') ->
    udp_step (mkUdpSys now AtHead msgs t) eff (mkUdpSys now' AtSelect msgs' t')
| udp_step_leave now msgs t :
    udp_head now msgs t = None ->
    udp_step (mkUdpSys now AtHead msgs t) [] (mkUdpSys now Left_ msgs t)
| udp_step_branch now now' env ev msgs t eff msgs' t' :
    clocked now env now' -> udp_enabled ev msgs t = true ->
    udp_branch env ev msgs t = Some (eff, msgs', t') ->
    udp_step (mkUdpSys now AtSelect msgs t) eff (mkUdpSys now' AtHead msgs' t').

Inductive udp_outside : udp_sys -> udp_sys -> Prop :=
| outside_message now pc msgs t msg :
    udp_outside (mkUdpSys now pc msgs t) (mkUdpSys now pc (msgs ++ [msg]) t)
| outside_cancel now pc msgs t :
    udp_outside (mkUdpSys now pc msgs t) (mkUdpSys now pc msgs (t <| u_cancelled := true |>))
| outside_cache op now now' pc msgs t :
    now <= now' ->
    udp_outside (mkUdpSys now pc msgs t)
      (mkUdpSys now' pc msgs (t <| u_conv_cache := cache_exec op now' (u_conv_cache t) |>)).

Definition udp_any (s s' : udp_sys) : Prop := udp_outside s s' \/ exists eff, udp_step s eff s'.
Definition udp_start (now : Z) (t : UdpTask) : udp_sys := mkUdpSys now AtHead [] t.
End Udp.
