(* ===== verification/UdpSpec.v ===== *)
(** The listener's tables: their invariant, and what each handler does to them. *)
From stdpp Require Import relations.
From S2P Require Import Prelude HashLink Bytes Protocol ProtocolSpec Config ConvCache Stream.
From S2P Require Import Transport Udp.

Section UdpSpec.
Context {SocketAddr : Type} {EqAddr : EqDecision SocketAddr}.
Context {MC : LinkedHashMap Z Z} {MT : LinkedHashMap Z (@Session SocketAddr)}.
Context {MI : LinkedHashMap bytes Z}.
Context {LC : LinkedHashMapLaws Z Z MC} {LT : LinkedHashMapLaws Z Session MT}.
Context {LI : LinkedHashMapLaws bytes Z MI}.
Context (fuel : nat).

Definition sessions (t : UdpTask) : list (Z * Session) := lhm_entries (u_conv_map t).
Definition sids (t : UdpTask) : list (bytes * Z) := lhm_entries (u_sid_map t).

(** The two tables are inverse to each other, numbers are valid, identifiers have the
    configured length, and only a session that is not joined has a place in the backlog. *)
Record udp_ok (t : UdpTask) : Prop := {
  ok_conv_nodup : NoDup (map fst (sessions t));
  ok_sid_nodup : NoDup (map fst (sids t));
  ok_session : forall c s, (c, s) ∈ sessions t ->
    s_conv s = c /\ is_valid_conv c = true /\ s_stream_permit s = s_task s /\
    Zlen (s_session_id s) = session_id_len (u_config t) /\ (s_session_id s, c) ∈ sids t;
  ok_sid : forall sid c, (sid, c) ∈ sids t ->
    exists s, (c, s) ∈ sessions t /\ s_session_id s = sid;
  ok_closing : u_is_closing t = true -> u_cancelled t = true
}.

Lemma udp_ok_new config cache : udp_ok (UdpTask_new config cache).
Proof.
  split; unfold sessions, sids, UdpTask_new; cbn [u_conv_map u_sid_map u_is_closing];
    rewrite ?lhm_new_law; try done.
  - constructor.
  - constructor.
  - by intros c s ?%not_elem_of_nil.
  - by intros c s ?%not_elem_of_nil.
Qed.

Lemma get_conv t c s : lhm_get (u_conv_map t) c = Some s -> (c, s) ∈ sessions t.
Proof. rewrite lhm_get_law. apply assoc_elem. Qed.

Lemma conv_get t c s : udp_ok t -> (c, s) ∈ sessions t -> lhm_get (u_conv_map t) c = Some s.
Proof. intros Hok H. rewrite lhm_get_law. by apply elem_assoc; [apply Hok|]. Qed.

Lemma sid_get t sid c : udp_ok t -> (sid, c) ∈ sids t -> lhm_get (u_sid_map t) sid = Some c.
Proof. intros Hok H. rewrite lhm_get_law. by apply elem_assoc; [apply Hok|]. Qed.

Lemma get_sid t sid c : lhm_get (u_sid_map t) sid = Some c -> (sid, c) ∈ sids t.
Proof. rewrite lhm_get_law. apply assoc_elem. Qed.

Lemma no_syn_session t : udp_ok t -> lhm_get (u_conv_map t) SYN_CONV = None.
Proof.
  intros Hok. destruct (lhm_get (u_conv_map t) SYN_CONV) as [s|] eqn:E; [|done].
  apply get_conv, (ok_session t Hok) in E as (_ & Hv & _). apply is_valid_conv_spec in Hv. lia.
Qed.

(** ** A new session *)

Lemma new_session_spec e sid peer t s t' :
  udp_ok t -> lhm_get (u_sid_map t) sid = None -> Zlen sid = session_id_len (u_config t) ->
  new_session fuel e sid peer t = Some (s, t') ->
  s = mkSession (s_conv s) sid peer true true /\ is_valid_conv (s_conv s) = true /\
  s_conv s ∉ map fst (sessions t) /\
  sessions t' = sessions t ++ [(s_conv s, s)] /\ sids t' = sids t ++ [(sid, s_conv s)] /\
  fst (ConvCache_allocate fuel (e_draw e) (fun x => lhm_contains_key (u_conv_map t) x) (e_now e)
         (u_conv_cache t)) = Some (s_conv s) /\
  u_conv_cache t' = ConvCache_update (u_conv_cache t) (e_now e) /\
  u_config t' = u_config t /\ u_is_closing t' = u_is_closing t /\ u_cancelled t' = u_cancelled t.
Proof.
  intros Hok Hsid Hlen. unfold new_session, ConvCache_allocate.
  destruct (allocate_loop fuel (e_draw e) 0 _ _) as [[c j]|] eqn:E; cbn [option_map]; [|done].
  intros [= <- <-]. cbn [s_conv fst].
  destruct (allocate_loop_spec _ _ _ _ _ _ _ E) as (Hv & Hx & _).
  rewrite lhm_contains_law in Hx. apply bool_decide_eq_false in Hx.
  unfold sessions, sids. simp_upd. rewrite !lhm_insert_law.
  rewrite without_notin by done.
  rewrite without_notin by (by apply assoc_none; rewrite <- lhm_get_law). done.
Qed.

Lemma new_session_ok e sid peer t s t' :
  udp_ok t -> lhm_get (u_sid_map t) sid = None -> Zlen sid = session_id_len (u_config t) ->
  new_session fuel e sid peer t = Some (s, t') -> udp_ok t'.
Proof.
  intros Hok Hsid Hlen Hn.
  destruct (new_session_spec e sid peer t s t' Hok Hsid Hlen Hn)
    as (Es & Hv & Hc & Et & Ei & _ & _ & Ecfg & Ecl & Eca).
  rewrite lhm_get_law in Hsid. apply assoc_none in Hsid.
  split; rewrite ?Et, ?Ei, ?Ecfg, ?Ecl, ?Eca.
  - rewrite map_app. apply NoDup_app. split_and!; [apply Hok| |apply NoDup_singleton].
    by intros c Hin ->%list_elem_of_singleton.
  - rewrite map_app. apply NoDup_app. split_and!; [apply Hok| |apply NoDup_singleton].
    by intros c Hin ->%list_elem_of_singleton.
  - intros c s' [Hin|[= -> ->]%list_elem_of_singleton]%elem_of_app.
    + destruct (ok_session t Hok c s' Hin) as (H1 & H2 & H3 & H4 & H5). split_and!; try done.
      apply elem_of_app. by left.
    + rewrite Es. cbn [s_conv s_session_id s_stream_permit s_task]. split_and!; try done.
      apply elem_of_app. right. by left.
  - intros i c [Hin|[= -> ->]%list_elem_of_singleton]%elem_of_app.
    + destruct (ok_sid t Hok i c Hin) as (s' & H1 & H2). exists s'. split; [|done].
      apply elem_of_app. by left.
    + exists s. split; [apply elem_of_app; right; by left|]. by rewrite Es.
  - apply Hok.
Qed.

(** ** Packets *)

(** A packet that asks for a session of its own. *)
Definition syn_for (t : UdpTask) (packet sid : bytes) : Prop :=
  read_conv packet = Some SYN_CONV /\
  read_session_id packet (session_key (u_config t)) = Some sid /\
  Zlen sid = session_id_len (u_config t).

(** The session a packet may go to. *)
Definition routes (t : UdpTask) (packet : bytes) (addr : SocketAddr) (s : Session) : Prop :=
  (s_conv s, s) ∈ sessions t /\ s_peer_addr s = addr /\
  (read_conv packet = Some (s_conv s) \/ syn_for t packet (s_session_id s)).

Lemma routes_unique t packet addr s s' :
  udp_ok t -> routes t packet addr s -> routes t packet addr s' -> s = s'.
Proof.
  intros Hok (H1 & _ & Hr) (H2 & _ & Hr').
  assert (s_conv s = s_conv s') as E.
  { destruct (ok_session t Hok _ _ H1) as (_ & Hv & _ & _ & Hi).
    destruct (ok_session t Hok _ _ H2) as (_ & Hv' & _ & _ & Hi').
    apply is_valid_conv_spec in Hv, Hv'.
    destruct Hr as [Hr|Hr], Hr' as [Hr'|Hr'].
    - congruence.
    - destruct Hr' as (E & _). rewrite E in Hr. injection Hr as Hr. lia.
    - destruct Hr as (E & _). rewrite E in Hr'. injection Hr' as Hr'. lia.
    - destruct Hr as (_ & E & _), Hr' as (_ & E' & _). rewrite E in E'. injection E' as E'.
      rewrite <- E' in Hi'. apply sid_get in Hi, Hi'; [|done..]. congruence. }
  rewrite <- E in H2. apply conv_get in H1, H2; [|done..]. congruence.
Qed.

Lemma routes_by_conv t packet addr pc s s' :
  udp_ok t -> read_conv packet = Some pc -> lhm_get (u_conv_map t) pc = Some s ->
  routes t packet addr s' -> s' = s.
Proof.
  intros Hok Ec Eg (Hin & _ & Hr). pose proof (get_conv t pc s Eg) as Hin'.
  destruct (ok_session t Hok _ _ Hin') as (<- & Hv & _). apply is_valid_conv_spec in Hv.
  destruct Hr as [E|(E & _)]; rewrite Ec in E; injection E as E; [|lia].
  rewrite <- E in Hin. apply conv_get in Hin; [|done]. congruence.
Qed.

Lemma routes_by_sid t packet addr pc s :
  udp_ok t -> read_conv packet = Some pc -> lhm_get (u_conv_map t) pc = None ->
  routes t packet addr s ->
  pc = SYN_CONV /\ read_session_id packet (session_key (u_config t)) = Some (s_session_id s) /\
  lhm_get (u_sid_map t) (s_session_id s) = Some (s_conv s) /\
  lhm_get (u_conv_map t) (s_conv s) = Some s /\ s_peer_addr s = addr.
Proof.
  intros Hok Ec Eg (Hin & Ha & [E|(E & Es & _)]); rewrite Ec in E; injection E as ->.
  - apply conv_get in Hin; [|done]. congruence.
  - destruct (ok_session t Hok _ _ Hin) as (_ & _ & _ & _ & Hi).
    split_and!; [done|done|by apply sid_get|by apply conv_get|done].
Qed.

(** The case of an identifier that is in the table. *)
Lemma get_session_known t packet addr pc sid c :
  udp_ok t -> read_conv packet = Some pc -> lhm_get (u_conv_map t) pc = None ->
  read_session_id packet (session_key (u_config t)) = Some sid ->
  lhm_get (u_sid_map t) sid = Some c ->
  match (if (c =? pc) || (pc =? SYN_CONV) then
           match lhm_get (u_conv_map t) c with
           | Some s => if decide (s_peer_addr s = addr) then Some s else None
           | None => None
           end
         else None) with
  | Some s => routes t packet addr s
  | None => forall s, ~ routes t packet addr s
  end.
Proof.
  intros Hok Ec Eg Es Ei. destruct (ok_sid t Hok _ _ (get_sid t sid c Ei)) as (s & Hs & <-).
  destruct (ok_session t Hok _ _ Hs) as (Ecv & Hv & _ & Hlen & _).
  pose proof (conv_get t c s Hok Hs) as Egc. rewrite Egc.
  destruct (Z.eqb_spec c pc) as [->|_]; [congruence|]. cbn [orb].
  assert (forall s', routes t packet addr s' -> s' = s /\ pc = SYN_CONV /\ s_peer_addr s = addr) as Hr.
  { intros s' H. destruct (routes_by_sid t packet addr pc s' Hok Ec Eg H) as (H1 & H2 & H3 & H4 & H5).
    rewrite Es in H2. injection H2 as H2. rewrite <- H2, Ei in H3. injection H3 as H3.
    rewrite <- H3, Egc in H4. by injection H4 as <-. }
  destruct (Z.eqb_spec pc SYN_CONV) as [->|Hsyn].
  - destruct (decide (s_peer_addr s = addr)) as [Ea|Ea].
    + split_and!; [by rewrite Ecv|done|by right].
    + intros s' H. by destruct (Hr s' H) as (_ & _ & ?).
  - intros s' H. by destruct (Hr s' H) as (_ & ? & _).
Qed.

(** What [get_session] finds, and when it makes a session. *)
Lemma get_session_spec e packet addr t r eff t' :
  udp_ok t -> get_session fuel e packet addr t = Some (r, eff, t') ->
  udp_ok t' /\
  match r with
  | Some s => routes t' packet addr s
  | None => forall s, ~ routes t' packet addr s
  end /\
  ((t' = t /\ eff = []) \/
   exists s sid, r = Some s /\ eff = [Spawned (s_conv s) addr] /\ syn_for t packet sid /\
     u_is_closing t = false /\ e_permit e = true /\ lhm_get (u_sid_map t) sid = None /\
     new_session fuel e sid addr t = Some (s, t')).
Proof.
  intros Hok. unfold get_session.
  destruct (read_conv packet) as [pc|] eqn:Ec; cycle 1.
  { intros [= <- <- <-]. split_and!; [done| |by left].
    intros s (_ & _ & [E|(E & _)]); congruence. }
  destruct (lhm_get (u_conv_map t) pc) as [s|] eqn:Eg.
  { intros [= <- <- <-]. split_and!; [done| |by left].
    pose proof (get_conv t pc s Eg) as Hin. destruct (ok_session t Hok _ _ Hin) as (Es & _).
    destruct (decide (s_peer_addr s = addr)) as [Ea|Ea].
    { rewrite <- Es in Ec, Hin. split_and!; [done|done|by left]. }
    intros s' H. pose proof (routes_by_conv t packet addr pc s s' Hok Ec Eg H) as ->.
    by destruct H as (_ & ? & _). }
  pose proof (fun s => routes_by_sid t packet addr pc s Hok Ec Eg) as Hr.
  destruct (read_session_id packet _) as [sid|] eqn:Es; cycle 1.
  { intros [= <- <- <-]. split_and!; [done| |by left]. intros s H.
    by destruct (Hr s H) as (_ & ? & _). }
  destruct (lhm_get (u_sid_map t) sid) as [c|] eqn:Ei.
  { intros [= <- <- <-]. split_and!; [done| |by left]. by eapply get_session_known. }
  assert (forall s, ~ routes t packet addr s) as Hno.
  { intros s H. destruct (Hr s H) as (_ & [= <-] & ? & _). congruence. }
  destruct (u_is_closing t || _ || _) eqn:Eb.
  { intros [= <- <- <-]. split_and!; [done|done|by left]. }
  apply orb_false_iff in Eb as [[Ecl Esyn]%orb_false_iff Elen].
  apply negb_false_iff in Esyn, Elen. apply Z.eqb_eq in Esyn, Elen. subst pc.
  destruct (e_permit e) eqn:Ep; cbn [negb]; cycle 1.
  { intros [= <- <- <-]. split_and!; [done|done|by left]. }
  destruct (new_session fuel e sid addr t) as [[s t1]|] eqn:En; [|done].
  intros [= <- <- <-]. destruct (new_session_spec e sid addr t s t1 Hok Ei Elen En)
    as (Hs & Hv & Hc & Et & Esi & _ & _ & Ecfg & _).
  split_and!; [by eapply new_session_ok| |right; by exists s, sid].
  split_and!; [rewrite Et; apply elem_of_app; right; by left|by rewrite Hs|].
  right. unfold syn_for. rewrite Ecfg, Hs. done.
Qed.

(** A packet that belongs to a session finds it whenever it comes from its address; from another
    one it finds nothing.  Neither changes anything. *)
Lemma get_session_routed e packet addr addr' t s :
  udp_ok t -> routes t packet addr s ->
  get_session fuel e packet addr' t = Some (if decide (addr' = addr) then Some s else None, [], t).
Proof.
  intros Hok (Hin & Ha & Hr). unfold get_session. pose proof (conv_get t _ _ Hok Hin) as Hg.
  assert ((if decide (s_peer_addr s = addr') then Some s else None) =
    if decide (addr' = addr) then Some s else None) as Ed by (repeat destruct (decide _); congruence).
  destruct Hr as [E|(E & Es & El)].
  - by rewrite E, Hg, Ed.
  - rewrite E, (no_syn_session t Hok), Es.
    destruct (ok_session t Hok _ _ Hin) as (_ & _ & _ & _ & Hi).
    by rewrite (sid_get t _ _ Hok Hi), Z.eqb_refl, orb_true_r, Hg, Ed.
Qed.

Lemma on_packet_spec e packet addr t eff t' :
  udp_ok t -> on_packet fuel e packet addr t = Some (eff, t') ->
  udp_ok t' /\
  ((t' = t /\ eff = [] /\ forall s, ~ routes t packet addr s) \/
   (t' = t /\ exists s, eff = [Forwarded (s_conv s) packet] /\ routes t packet addr s) \/
   exists s sid, eff = [Spawned (s_conv s) addr; Forwarded (s_conv s) packet] /\
     routes t' packet addr s /\
     syn_for t packet sid /\ u_is_closing t = false /\ e_permit e = true /\
     lhm_get (u_sid_map t) sid = None /\ new_session fuel e sid addr t = Some (s, t')).
Proof.
  intros Hok. unfold on_packet.
  destruct (get_session fuel e packet addr t) as [[[r eff1] t1]|] eqn:E; [|done].
  destruct (get_session_spec e packet addr t r eff1 t1 Hok E)
    as (Hok1 & Hr & [[-> ->]|(s & sid & -> & -> & H)]).
  - destruct r as [s|]; intros [= <- <-]; split; [done| |done|by left].
    right. left. split; [done|]. by exists s.
  - intros [= <- <-]. split; [done|]. right. right. exists s, sid. by split.
Qed.

(** A packet that asks for a session gets one, when the listener is open and has room. *)
Lemma on_packet_syn e packet addr t sid :
  udp_ok t -> syn_for t packet sid -> u_is_closing t = false -> e_permit e = true ->
  lhm_get (u_sid_map t) sid = None ->
  on_packet fuel e packet addr t =
    match new_session fuel e sid addr t with
    | Some (s, t') => Some ([Spawned (s_conv s) addr; Forwarded (s_conv s) packet], t')
    | None => None
    end.
Proof.
  intros Hok (Ec & Es & El) Hc Hp Hi. unfold on_packet, get_session.
  rewrite Ec, (no_syn_session t Hok), Es, Hi, Hc, Hp, El, !Z.eqb_refl. cbn [negb orb].
  by destruct (new_session fuel e sid addr t) as [[s t']|].
Qed.

(** ** Messages *)

Lemma kill_ok now c s t :
  udp_ok t -> (c, s) ∈ sessions t ->
  udp_ok (snd (kill_session now s (t <| u_conv_map := lhm_remove (u_conv_map t) c |>))).
Proof.
  intros Hok Hin. destruct (ok_session t Hok c s Hin) as (Hc & _ & _ & _ & Hi).
  assert (forall c' s', (c', s') ∈ sessions t -> s_session_id s' = s_session_id s -> c' = c) as Hinj.
  { intros c' s' Hin' E. destruct (ok_session t Hok c' s' Hin') as (_ & _ & _ & _ & Hi').
    rewrite E in Hi'. apply sid_get in Hi, Hi'; [|done..]. congruence. }
  unfold kill_session. split; unfold sessions, sids in *; simp_upd; cbn [snd];
    simp_upd; rewrite ?lhm_remove_law.
  - apply NoDup_without, Hok.
  - apply NoDup_without, Hok.
  - intros c' s' [Hin' Hne]%elem_of_without. cbn [fst] in Hne.
    destruct (ok_session t Hok c' s' Hin') as (H1 & H2 & H3 & H4 & H5). split_and!; try done.
    apply elem_of_without. split; [done|]. cbn [fst]. intros E. by apply Hne, (Hinj c' s').
  - intros i c' [Hin' Hne]%elem_of_without. cbn [fst] in Hne.
    destruct (ok_sid t Hok i c' Hin') as (s' & H1 & H2). exists s'. split; [|done].
    apply elem_of_without. split; [done|]. cbn [fst]. intros ->.
    apply conv_get in H1, Hin; [|done..]. congruence.
  - apply Hok.
Qed.

Lemma connect_ok c t :
  udp_ok t ->
  udp_ok (t <| u_conv_map := lhm_modify (u_conv_map t) c
                (fun s => s <| s_task := false |> <| s_stream_permit := false |>) |>).
Proof.
  intros Hok. split; unfold sessions, sids in *; simp_upd; rewrite ?lhm_modify_law.
  - rewrite map_fst_modify. apply Hok.
  - apply Hok.
  - intros c' s' (s & Hin & ->)%elem_of_modify. destruct (ok_session t Hok c' s Hin) as (H1 & H2 & H3 & H4).
    by destruct (decide (c' = c)).
  - intros i c' Hin. destruct (ok_sid t Hok i c' Hin) as (s & H1 & H2).
    eexists. split; [apply elem_of_modify; exists s; done|]. by destruct (decide (c' = c)).
  - apply Hok.
Qed.

(** After [Disconnect] the number has left both tables and is in the cache. *)
Lemma disconnect_spec now c s t :
  lhm_get (u_conv_map t) c = Some s ->
  let t' := snd (process_msg now (Disconnect c) t) in
  sessions t' = without c (sessions t) /\ sids t' = without (s_session_id s) (sids t) /\
  u_conv_cache t' = ConvCache_add (s_conv s) now (u_conv_cache t) /\
  u_is_closing t' = u_is_closing t.
Proof.
  intros E. unfold process_msg. rewrite E. unfold kill_session, sessions, sids. cbn [snd]. cbv zeta.
  simp_upd. rewrite !lhm_remove_law. done.
Qed.

Lemma process_msg_ok now msg t : udp_ok t -> udp_ok (snd (process_msg now msg t)).
Proof.
  intros Hok. destruct msg as [c|c]; unfold process_msg;
    destruct (lhm_get (u_conv_map t) c) as [s|] eqn:E; try done.
  - by apply connect_ok.
  - by apply kill_ok, get_conv.
Qed.

(** A stream goes to [accept] at most once. *)
Lemma connect_once now now' c t :
  let t' := snd (process_msg now (Connect c) t) in
  fst (process_msg now' (Connect c) t') = [].
Proof.
  unfold process_msg. destruct (lhm_get (u_conv_map t) c) as [s|] eqn:E; cbn [snd]; simp_upd; cycle 1.
  { by rewrite E. }
  rewrite lhm_get_law, lhm_modify_law. rewrite lhm_get_law in E.
  assert (assoc c (modify c (fun s => s <| s_task := false |> <| s_stream_permit := false |>)
    (lhm_entries (u_conv_map t))) = Some (s <| s_task := false |> <| s_stream_permit := false |>)) as ->.
  { revert E. generalize (lhm_entries (u_conv_map t)).
    induction l as [|[c' s'] l IH]; [done|]. cbn. destruct (decide (c' = c)) as [->|Hne]; cbn.
    - rewrite decide_True by done. by intros [= ->].
    - rewrite decide_False by done. apply IH. }
  done.
Qed.
End UdpSpec.
