(* ===== verification/UdpLoop.v ===== *)
(** The listener's loop: the invariant along its runs, the life of a number, bursts of packets,
    and closing. *)
From stdpp Require Import relations.
From S2P Require Import Prelude HashLink Bytes Protocol ProtocolSpec Config ConvCache Stream.
From S2P Require Import Transport Udp UdpSpec.

Section UdpLoop.
Context {SocketAddr : Type} {EqAddr : EqDecision SocketAddr}.
Context {MC : LinkedHashMap Z Z} {MT : LinkedHashMap Z (@Session SocketAddr)}.
Context {MI : LinkedHashMap bytes Z}.
Context {LC : LinkedHashMapLaws Z Z MC} {LT : LinkedHashMapLaws Z Session MT}.
Context {LI : LinkedHashMapLaws bytes Z MI}.
Context (fuel : nat).

(** ** The invariant *)

Lemma udp_ok_end t : udp_ok t -> udp_ok (on_end t).
Proof. intros [H1 H2 H3 H4 H5]. constructor; [exact H1|exact H2|exact H3|exact H4|done]. Qed.

Lemma udp_ok_cancel t : udp_ok t -> udp_ok (t <| u_cancelled := true |>).
Proof. intros [H1 H2 H3 H4 H5]. constructor; [exact H1|exact H2|exact H3|exact H4|done]. Qed.

Lemma udp_ok_cache t c : udp_ok t -> udp_ok (t <| u_conv_cache := c |>).
Proof. intros [H1 H2 H3 H4 H5]. constructor; [exact H1|exact H2|exact H3|exact H4|done]. Qed.

Lemma recv_loop_ok n env x more t eff more' t' :
  udp_ok t -> recv_loop fuel n env x more t = Some (eff, more', t') -> udp_ok t'.
Proof.
  revert env x more t eff more'. induction n as [|n IH]; intros env x more t eff more' Hok; cbn [recv_loop].
  { by intros [= _ _ <-]. }
  destruct x as [[packet addr|]|].
  - destruct (on_packet fuel (env 0%nat) packet addr t) as [[eff1 t1]|] eqn:E; [|done].
    destruct (on_packet_spec fuel _ _ _ _ _ _ Hok E) as [Hok1 _].
    destruct more as [|y more]; [by intros [= _ _ <-]|].
    destruct (recv_loop fuel n _ y more t1) as [[[eff2 more2] t2]|] eqn:E2; [|done].
    intros [= _ _ <-]. by eapply IH.
  - by intros [= _ _ <-].
  - intros [= _ _ <-]. by apply udp_ok_end.
Qed.

Lemma udp_head_ok now msgs t eff msgs' t' :
  udp_ok t -> udp_head now msgs t = Some (eff, msgs', t') -> udp_ok t'.
Proof.
  intros Hok. unfold udp_head. destruct (u_is_closing t); [|by intros [= _ _ <-]].
  destruct msgs as [|m msgs]; [destruct (lhm_is_empty _); [done|by intros [= _ _ <-]]|].
  pose proof (process_msg_ok now m t Hok) as H. destruct (process_msg now m t).
  by intros [= _ _ <-].
Qed.

Lemma udp_branch_ok env ev msgs t eff msgs' t' :
  udp_ok t -> udp_enabled ev msgs t = true ->
  udp_branch fuel env ev msgs t = Some (eff, msgs', t') -> udp_ok t'.
Proof.
  intros Hok He. destruct ev as [x more|item queue| |]; unfold udp_branch.
  - destruct (recv_loop fuel _ env x more t) as [[[eff1 more1] t1]|] eqn:E; [|done].
    intros [= _ _ <-]. by eapply recv_loop_ok.
  - by intros [= _ _ <-].
  - destruct msgs as [|m msgs]; [by intros [= _ _ <-]|].
    pose proof (process_msg_ok (e_now (env 0%nat)) m t Hok) as H.
    destruct (process_msg (e_now (env 0%nat)) m t). by intros [= _ _ <-].
  - intros [= _ _ <-]. apply andb_prop in He as [Hc _]. destruct Hok. by split.
Qed.

Lemma udp_any_ok s s' : udp_any fuel s s' -> udp_ok (us_task s) -> udp_ok (us_task s').
Proof.
  intros [Ho|[eff Hs]] Hok.
  - destruct Ho; cbn [us_task] in *; [done|by apply udp_ok_cancel|by apply udp_ok_cache].
  - destruct Hs; cbn [us_task] in *; [by eapply udp_head_ok|done|by eapply udp_branch_ok].
Qed.

Lemma udp_reachable_ok s s' : rtc (udp_any fuel) s s' -> udp_ok (us_task s) -> udp_ok (us_task s').
Proof. induction 1 as [|s1 s2 s3 Hs _ IH]; [done|]. intros H. by eapply IH, udp_any_ok. Qed.

(** ** The life of a session

    While its number stays in the table a session keeps its identifier and its address. *)

Definition lives (c : Z) (sid : bytes) (addr : SocketAddr) (t : UdpTask) : Prop :=
  exists s, (c, s) ∈ sessions t /\ s_session_id s = sid /\ s_peer_addr s = addr.

(** [t'] has the options of [t], and of its sessions those that are left. *)
Definition keeps (t t' : UdpTask) : Prop :=
  u_config t' = u_config t /\
  forall c sid addr, lives c sid addr t -> c ∈ map fst (sessions t') -> lives c sid addr t'.

Lemma keeps_same t t' : u_config t' = u_config t -> sessions t' = sessions t -> keeps t t'.
Proof. intros Ec Es. split; [done|]. intros c sid addr. unfold lives. by rewrite Es. Qed.

Lemma keeps_on_packet e packet addr t eff t' :
  udp_ok t -> on_packet fuel e packet addr t = Some (eff, t') ->
  keeps t t' /\ forall c, c ∈ map fst (sessions t) -> c ∈ map fst (sessions t').
Proof.
  intros Hok E.
  destruct (on_packet_spec fuel e packet addr t eff t' Hok E)
    as [_ [(-> & _)|[(-> & _)|(s & sid & _ & _ & Hs & _ & _ & Hi & En)]]]; [split; [by apply keeps_same|done]..|].
  destruct (new_session_spec fuel e sid addr t s t' Hok Hi (proj2 (proj2 Hs)) En)
    as (_ & _ & _ & Et & _ & _ & _ & Ec & _).
  split; [split; [done|]|]; rewrite ?Et.
  - intros c i a (x & Hx & H) _. exists x. split; [|done]. rewrite Et. apply elem_of_app. by left.
  - intros c Hc. rewrite map_app. apply elem_of_app. by left.
Qed.

Lemma keeps_recv_loop n env x more t eff more' t' :
  udp_ok t -> recv_loop fuel n env x more t = Some (eff, more', t') ->
  keeps t t' /\ forall c, c ∈ map fst (sessions t) -> c ∈ map fst (sessions t').
Proof.
  revert env x more t eff more'. induction n as [|n IH]; intros env x more t eff more' Hok; cbn [recv_loop].
  { intros [= _ _ <-]. split; [by apply keeps_same|done]. }
  destruct x as [[packet addr|]|]; [|intros [= _ _ <-]; split; [by apply keeps_same|done]..].
  destruct (on_packet fuel (env 0%nat) packet addr t) as [[eff1 t1]|] eqn:E; [|done].
  destruct (on_packet_spec fuel _ _ _ _ _ _ Hok E) as [Hok1 _].
  destruct (keeps_on_packet _ _ _ _ _ _ Hok E) as [[K1 K2] K3].
  destruct more as [|y more]; [by intros [= _ _ <-]|].
  destruct (recv_loop fuel n _ y more t1) as [[[eff2 more2] t2]|] eqn:E2; [|done].
  intros [= _ _ <-]. destruct (IH _ _ _ _ _ _ Hok1 E2) as [[L1 L2] L3].
  split; [|by intros c Hc; apply L3, K3]. split; [congruence|]. intros c sid a Hc Hin. apply L2; [|done].
  apply K2; [done|]. destruct Hc as (s & Hs & _). apply K3, list_elem_of_fmap. by exists (c, s).
Qed.

Lemma keeps_process now msg t : keeps t (snd (process_msg now msg t)).
Proof.
  destruct msg as [c0|c0]; unfold process_msg; destruct (lhm_get (u_conv_map t) c0) as [s0|] eqn:E;
    try by apply keeps_same.
  - split; [done|]. intros c sid addr (s & Hs & Hi & Ha) _. unfold lives, sessions in *. simp_upd. cbn [snd]. simp_upd.
    rewrite lhm_modify_law. eexists. split; [apply elem_of_modify; by exists s|]. by destruct (decide _).
  - split; [done|]. intros c sid addr (s & Hs & H). unfold lives, sessions in *. cbn [snd kill_session]. simp_upd.
    rewrite lhm_remove_law. intros ((c', s') & -> & [Hin Hne]%elem_of_without)%list_elem_of_fmap.
    exists s. split; [|done]. apply elem_of_without. by split.
Qed.

Lemma keeps_any s s' : udp_any fuel s s' -> udp_ok (us_task s) -> keeps (us_task s) (us_task s').
Proof.
  intros [Ho|[eff Hs]] Hok; [destruct Ho; by apply keeps_same|].
  destruct Hs as [now now' msgs t eff msgs' t' _ E|now msgs t E|now now' env ev msgs t eff msgs' t' _ He E];
    cbn [us_task] in *; [|by apply keeps_same|].
  - revert E. unfold udp_head. destruct (u_is_closing t); [|intros [= _ _ <-]; by apply keeps_same].
    destruct msgs as [|m msgs]; [destruct (lhm_is_empty _); [done|]; intros [= _ _ <-]; by apply keeps_same|].
    pose proof (keeps_process now' m t) as H. destruct (process_msg now' m t). by intros [= _ _ <-].
  - revert E. destruct ev as [x more|item queue| |]; unfold udp_branch.
    + destruct (recv_loop fuel _ env x more t) as [[[eff1 more1] t1]|] eqn:E; [|done].
      intros [= _ _ <-]. by apply (keeps_recv_loop _ _ _ _ _ _ _ _ Hok E).
    + intros [= _ _ <-]. by apply keeps_same.
    + destruct msgs as [|m msgs]; [intros [= _ _ <-]; by apply keeps_same|].
      pose proof (keeps_process (e_now (env 0%nat)) m t) as H.
      destruct (process_msg (e_now (env 0%nat)) m t). by intros [= _ _ <-].
    + intros [= _ _ <-]. by apply keeps_same.
Qed.

(** A run along which the number stays in the table. *)
Definition udp_while (c : Z) (s s' : udp_sys) : Prop :=
  udp_any fuel s s' /\ c ∈ map fst (sessions (us_task s')).

Lemma lives_while c sid addr s s' :
  rtc (udp_while c) s s' -> udp_ok (us_task s) -> lives c sid addr (us_task s) ->
  udp_ok (us_task s') /\ lives c sid addr (us_task s') /\ u_config (us_task s') = u_config (us_task s).
Proof.
  induction 1 as [s|s1 s2 s3 [Hs Hin] _ IH]; intros Hok Hl; [done|].
  destruct (keeps_any _ _ Hs Hok) as [Ec Hk].
  destruct (IH (udp_any_ok _ _ Hs Hok) (Hk _ _ _ Hl Hin)) as (H1 & H2 & H3). split_and!; [done|done|congruence].
Qed.

(** ** The life of a number

    Whatever the listener does, the cache goes through a history of its own operations. *)

Definition hist (now : Z) (i : Inner) (now' : Z) (i' : Inner) : Prop :=
  exists m, m <= now' /\ runs now i m i'.

Lemma hist_refl now now' i : now <= now' -> hist now i now' i.
Proof. intros H. exists now. split; [done|apply runs_refl]. Qed.

Lemma hist_op now now' op i : now <= now' -> hist now i now' (cache_exec op now' i).
Proof. intros H. exists now'. split; [done|]. eapply runs_step; [exact H|apply runs_refl]. Qed.

Lemma hist_le now i now' i' : hist now i now' i' -> now <= now'.
Proof. intros (m & H & Hr). apply runs_le in Hr. lia. Qed.

Lemma hist_trans now1 i1 now2 i2 now3 i3 :
  hist now1 i1 now2 i2 -> hist now2 i2 now3 i3 -> hist now1 i1 now3 i3.
Proof.
  intros (m & Hm & Hr) (m' & Hm' & Hr').
  inversion Hr' as [|? ? op now' ? ? Hle Hr2]; subst.
  - exists m. split; [lia|done].
  - exists m'. split; [done|]. eapply runs_trans; [exact Hr|].
    eapply runs_step; [|exact Hr2]. lia.
Qed.

Lemma new_session_cache e sid addr t s t' now now' :
  new_session fuel e sid addr t = Some (s, t') -> now <= e_now e <= now' ->
  hist now (u_conv_cache t) now' (u_conv_cache t').
Proof.
  unfold new_session, ConvCache_allocate. intros H Hnow.
  destruct (allocate_loop fuel (e_draw e) 0 _ _) as [[c j]|] eqn:E; cbn [option_map] in H; [|done].
  injection H as <- <-. cbn [u_conv_cache].
  eapply hist_trans; [apply (hist_op now (e_now e) Dump); lia|]. apply hist_refl. lia.
Qed.

Lemma on_packet_cache e packet addr t eff t' now now' :
  udp_ok t -> on_packet fuel e packet addr t = Some (eff, t') -> now <= e_now e <= now' ->
  hist now (u_conv_cache t) now' (u_conv_cache t').
Proof.
  intros Hok E Hnow.
  destruct (on_packet_spec fuel e packet addr t eff t' Hok E)
    as (_ & [(-> & _)|[(-> & _)|(s & sid & _ & _ & _ & _ & _ & _ & En)]]).
  - apply hist_refl. lia.
  - apply hist_refl. lia.
  - by eapply new_session_cache.
Qed.

Lemma process_msg_cache now0 now now' msg t :
  now0 <= now <= now' ->
  hist now0 (u_conv_cache t) now' (u_conv_cache (snd (process_msg now msg t))).
Proof.
  intros Hnow. destruct msg as [c|c]; unfold process_msg;
    destruct (lhm_get (u_conv_map t) c) as [s|]; cbn [snd]; try (apply hist_refl; lia).
  eapply hist_trans; [apply (hist_op now0 now (Add (s_conv s))); lia|]. apply hist_refl. lia.
Qed.

Lemma recv_loop_cache n env x more t eff more' t' now now' :
  udp_ok t -> recv_loop fuel n env x more t = Some (eff, more', t') -> clocked now env now' ->
  hist now (u_conv_cache t) now' (u_conv_cache t').
Proof.
  revert env x more t eff more' now. induction n as [|n IH]; intros env x more t eff more' now Hok E [H0 Hc];
    pose proof (Hc 0%nat) as H1; cbn [recv_loop] in E.
  { injection E as _ _ <-. apply hist_refl. lia. }
  destruct x as [[packet addr|]|].
  - destruct (on_packet fuel (env 0%nat) packet addr t) as [[eff1 t1]|] eqn:Ep; [|done].
    destruct (on_packet_spec fuel _ _ _ _ _ _ Hok Ep) as [Hok1 _].
    destruct more as [|y more].
    { injection E as _ _ <-. eapply on_packet_cache; [done|exact Ep|lia]. }
    destruct (recv_loop fuel n _ y more t1) as [[[eff2 more2] t2]|] eqn:E2; [|done].
    injection E as _ _ <-.
    eapply hist_trans; [eapply (on_packet_cache _ _ _ _ _ _ now (e_now (env 0%nat)) Hok Ep); lia|].
    eapply IH; [exact Hok1|exact E2|]. split; [apply H1|intros i; apply Hc].
  - injection E as _ _ <-. apply hist_refl. lia.
  - injection E as _ _ <-. apply hist_refl. lia.
Qed.

Lemma udp_any_cache s s' :
  udp_any fuel s s' -> udp_ok (us_task s) ->
  hist (us_now s) (u_conv_cache (us_task s)) (us_now s') (u_conv_cache (us_task s')).
Proof.
  intros [Ho|[eff Hs]] Hok.
  - destruct Ho; cbn [us_task us_now] in *; [by apply hist_refl|by apply hist_refl|by apply hist_op].
  - destruct Hs as [now now' msgs t eff msgs' t' Hle E|now msgs t E|now now' env ev msgs t eff msgs' t' Hc He E];
      cbn [us_task us_now] in *.
    + revert E. unfold udp_head. destruct (u_is_closing t); [|intros [= _ _ <-]; by apply hist_refl].
      destruct msgs as [|m msgs]; [destruct (lhm_is_empty _); [done|]; intros [= _ _ <-]; by apply hist_refl|].
      pose proof (process_msg_cache now now' now' m t ltac:(lia)) as H.
      destruct (process_msg now' m t). by intros [= _ _ <-].
    + by apply hist_refl.
    + pose proof Hc as [H0 H1]. specialize (H1 0%nat).
      destruct ev as [x more|item queue| |]; unfold udp_branch in E.
      * destruct (recv_loop fuel _ env x more t) as [[[eff1 more1] t1]|] eqn:Er; [|done].
        injection E as _ _ <-. by eapply recv_loop_cache.
      * injection E as _ _ <-. apply hist_refl. lia.
      * destruct msgs as [|m msgs]; [injection E as _ _ <-; apply hist_refl; lia|].
        pose proof (process_msg_cache now (e_now (env 0%nat)) now' m t ltac:(lia)) as H.
        destruct (process_msg (e_now (env 0%nat)) m t). by injection E as _ _ <-.
      * injection E as _ _ <-. apply hist_refl. lia.
Qed.

Lemma udp_reachable_cache s s' :
  rtc (udp_any fuel) s s' -> udp_ok (us_task s) ->
  hist (us_now s) (u_conv_cache (us_task s)) (us_now s') (u_conv_cache (us_task s')).
Proof.
  induction 1 as [s|s1 s2 s3 Hs Hr IH]; intros Hok; [by apply hist_refl|].
  eapply hist_trans; [by apply udp_any_cache|]. by eapply IH, udp_any_ok.
Qed.

(** ** Bursts *)

Fixpoint on_packets (env : nat -> udp_env) (ds : list (bytes * SocketAddr)) (t : UdpTask)
  : option (list effect * UdpTask) :=
  match ds with
  | [] => Some ([], t)
  | (packet, addr) :: ds =>
      match on_packet fuel (env 0%nat) packet addr t with
      | Some (eff, t) =>
          match on_packets (fun i => env (S i)) ds t with
          | Some (eff', t) => Some (eff ++ eff', t)
          | None => None
          end
      | None => None
      end
  end.

Definition item (d : bytes * SocketAddr) : option (datagram SocketAddr) :=
  Some (Datagram (fst d) (snd d)).

(** The loop handles the first [n] packets, and takes one more from the transport, if there is
    one, which it forgets. *)
Lemma recv_loop_burst n env d ds t :
  (0 < n)%nat ->
  recv_loop fuel n env (item d) (map item ds) t =
    match on_packets env (take n (d :: ds)) t with
    | Some (eff, t') => Some (eff, map item (drop n ds), t')
    | None => None
    end.
Proof.
  revert env d ds t. induction n as [|n IH]; intros env [packet addr] ds t Hn; [lia|].
  cbn [recv_loop item fst snd take on_packets].
  destruct (on_packet fuel (env 0%nat) packet addr t) as [[eff t1]|]; [|done].
  destruct ds as [|d2 ds]; cbn [map].
  { rewrite take_nil. cbn [on_packets]. by rewrite app_nil_r. }
  destruct n as [|n].
  { cbn. by rewrite app_nil_r. }
  rewrite IH by lia. change (take (S n) (d2 :: ds)) with (d2 :: take n ds). cbn [drop].
  by destruct (on_packets _ (d2 :: take n ds) t1) as [[eff2 t2]|].
Qed.

(** ** Closing *)

(** A [Disconnect] is under way for every session there is. *)
Definition leaving (msgs : list Message) (t : UdpTask) : Prop :=
  forall c, c ∈ map fst (sessions t) -> Disconnect c ∈ msgs.

Lemma sessions_process now msg t c :
  c ∈ map fst (sessions (snd (process_msg now msg t))) ->
  c ∈ map fst (sessions t) /\ msg <> Disconnect c.
Proof.
  destruct msg as [c'|c']; unfold process_msg;
    destruct (lhm_get (u_conv_map t) c') as [s|] eqn:E; cbn [snd]; unfold sessions; cbn; simp_upd.
  - by rewrite lhm_modify_law, map_fst_modify.
  - done.
  - rewrite lhm_remove_law, map_fst_without. intros [Hne Hin]%list_elem_of_filter. split; congruence.
  - intros Hin. split; [done|]. intros [= ->]. rewrite lhm_get_law in E. by apply assoc_none in E.
Qed.

Lemma leaving_process now msg msgs t :
  leaving (msg :: msgs) t -> leaving msgs (snd (process_msg now msg t)).
Proof.
  intros H c [Hin Hne]%sessions_process. specialize (H c Hin).
  apply elem_of_cons in H as [H|H]; [by destruct Hne|done].
Qed.

Lemma closing_process now msg t :
  u_is_closing (snd (process_msg now msg t)) = u_is_closing t.
Proof. destruct msg; unfold process_msg; by destruct (lhm_get _ _). Qed.

Lemma closing_head now msgs t :
  u_is_closing t = true -> leaving msgs t ->
  match udp_head now msgs t with
  | None => msgs = []
  | Some (_, msgs', t') =>
      u_is_closing t' = true /\ leaving msgs' t' /\ length msgs = S (length msgs')
  end.
Proof.
  intros Hc Hl. unfold udp_head. rewrite Hc. destruct msgs as [|m msgs].
  - assert (sessions t = []) as E.
    { destruct (sessions t) as [|[c s] l] eqn:E; [done|].
      assert (Disconnect c ∈ []) as []%not_elem_of_nil by (apply Hl; rewrite E; by left). }
    rewrite lhm_is_empty_law. unfold sessions in E. by rewrite E.
  - pose proof (leaving_process now m msgs t Hl) as Hl'.
    pose proof (closing_process now m t) as Hc'. destruct (process_msg now m t) as [eff t'].
    cbn [snd] in *. by rewrite Hc', Hc.
Qed.

Lemma closing_on_packet e packet addr t eff t' :
  u_is_closing t = true -> on_packet fuel e packet addr t = Some (eff, t') -> t' = t.
Proof.
  intros Hc. unfold on_packet, get_session. rewrite Hc. cbn [orb].
  destruct (read_conv packet) as [pc|]; [|by intros [= _ <-]].
  destruct (lhm_get (u_conv_map t) pc) as [s|].
  { destruct (decide _); by intros [= _ <-]. }
  destruct (read_session_id _ _) as [sid|]; [|by intros [= _ <-]].
  destruct (lhm_get (u_sid_map t) sid) as [c|]; [|by intros [= _ <-]].
  destruct (_ || _); [|by intros [= _ <-]]. destruct (lhm_get (u_conv_map t) c) as [s|];
    [destruct (decide _)|]; by intros [= _ <-].
Qed.

Lemma closing_recv_loop n env x more t eff more' t' :
  u_is_closing t = true -> recv_loop fuel n env x more t = Some (eff, more', t') ->
  u_is_closing t' = true /\ sessions t' = sessions t.
Proof.
  revert env x more t eff more'. induction n as [|n IH]; intros env x more t eff more' Hc E; cbn [recv_loop] in E.
  { by injection E as _ _ <-. }
  destruct x as [[packet addr|]|]; [|by injection E as _ _ <-..].
  destruct (on_packet fuel (env 0%nat) packet addr t) as [[eff1 t1]|] eqn:Ep; [|done].
  apply closing_on_packet in Ep; [|done]. subst t1.
  destruct more as [|y more]; [by injection E as _ _ <-|].
  destruct (recv_loop fuel n _ y more t) as [[[eff2 more2] t2]|] eqn:E2; [|done].
  injection E as _ _ <-. by eapply IH.
Qed.

Lemma closing_branch env ev msgs t eff msgs' t' :
  u_is_closing t = true -> leaving msgs t -> udp_branch fuel env ev msgs t = Some (eff, msgs', t') ->
  u_is_closing t' = true /\ leaving msgs' t' /\ (length msgs' <= length msgs)%nat.
Proof.
  intros Hc Hl. destruct ev as [x more|item queue| |]; unfold udp_branch.
  - destruct (recv_loop fuel _ env x more t) as [[[eff1 more1] t1]|] eqn:E; [|done].
    intros [= _ <- <-]. destruct (closing_recv_loop _ _ _ _ _ _ _ _ Hc E) as [H1 H2].
    split_and!; [done| |done]. unfold leaving. by rewrite H2.
  - by intros [= _ <- <-].
  - destruct msgs as [|m msgs]; [by intros [= _ <- <-]|].
    pose proof (leaving_process (e_now (env 0%nat)) m msgs t Hl) as Hl'.
    pose proof (closing_process (e_now (env 0%nat)) m t) as Hc'.
    destruct (process_msg (e_now (env 0%nat)) m t). cbn [snd] in *.
    intros [= _ <- <-]. split_and!; [congruence|done|cbn; lia].
  - intros [= _ <- <-]. split_and!; [done|done|done].
Qed.

(** Without new sessions to number nothing can fail. *)
Lemma closing_packet_runs e packet addr t :
  u_is_closing t = true -> exists eff, on_packet fuel e packet addr t = Some (eff, t).
Proof.
  intros Hc. assert (on_packet fuel e packet addr t <> None) as H.
  { unfold on_packet, get_session. rewrite Hc. cbn [orb].
    destruct (read_conv packet) as [pc|]; [|done].
    destruct (lhm_get (u_conv_map t) pc) as [s|]; [by destruct (decide _)|].
    destruct (read_session_id _ _) as [sid|]; [|done].
    destruct (lhm_get (u_sid_map t) sid) as [c|]; [|done].
    destruct (_ || _); [|done]. by destruct (lhm_get (u_conv_map t) c) as [s|]; [destruct (decide _)|]. }
  destruct (on_packet fuel e packet addr t) as [[eff t']|] eqn:E; [|done].
  apply closing_on_packet in E as ->; [|done]. by exists eff.
Qed.

Lemma closing_loop_runs n env x more t : u_is_closing t = true -> recv_loop fuel n env x more t <> None.
Proof.
  revert env x more t. induction n as [|n IH]; intros env x more t Hc; cbn [recv_loop]; [done|].
  destruct x as [[packet addr|]|]; [|done..].
  destruct (closing_packet_runs (env 0%nat) packet addr t Hc) as [eff ->]. destruct more as [|y more]; [done|].
  specialize (IH (fun i => env (S i)) y more t Hc).
  by destruct (recv_loop fuel n _ y more t) as [[[eff2 more2] t2]|].
Qed.

Lemma closing_branch_runs env ev msgs t :
  u_is_closing t = true -> exists eff msgs' t', udp_branch fuel env ev msgs t = Some (eff, msgs', t').
Proof.
  intros Hc. destruct ev as [x more|item queue| |]; unfold udp_branch.
  - pose proof (closing_loop_runs (Z.to_nat LISTENER_TASK_LOOP) env x more t Hc) as H.
    destruct (recv_loop fuel _ env x more t) as [[[eff1 more1] t1]|]; [by eexists _, _, _|done].
  - by eexists _, _, _.
  - destruct msgs as [|m msgs]; [by eexists _, _, _|].
    destruct (process_msg (e_now (env 0%nat)) m t). by eexists _, _, _.
  - by eexists _, _, _.
Qed.

(** What is left to do: a message takes a pass through the head and one through the [select!]. *)
Definition closing_work (s : udp_sys) : nat :=
  match us_pc s with
  | AtHead => 2 * length (us_msgs s) + 1
  | AtSelect => 2 * length (us_msgs s) + 2
  | Left_ => 0
  end.

(** A closing listener that is going to have no session. *)
Definition shutting (s : udp_sys) : Prop :=
  u_is_closing (us_task s) = true /\ leaving (us_msgs s) (us_task s) /\
  (us_pc s = Left_ -> us_msgs s = []).

Lemma no_message_no_session msgs t : leaving msgs t -> msgs = [] -> sessions t = [].
Proof.
  intros Hl ->. destruct (sessions t) as [|[c s] l] eqn:E; [done|].
  assert (Disconnect c ∈ []) as []%not_elem_of_nil by (apply Hl; rewrite E; by left).
Qed.

Lemma shutting_step s eff s' :
  udp_step fuel s eff s' -> shutting s -> shutting s' /\ (closing_work s' < closing_work s)%nat.
Proof.
  intros Hs (Hc & Hl & _). destruct Hs as [now now' msgs t eff msgs' t' _ E|now msgs t E
    |now now' env ev msgs t eff msgs' t' _ _ E]; unfold shutting, closing_work; cbn [us_pc us_msgs us_task] in *.
  - pose proof (closing_head now' msgs t Hc Hl) as H. rewrite E in H. destruct H as (H1 & H2 & H3).
    split; [done|]. lia.
  - pose proof (closing_head now msgs t Hc Hl) as H. rewrite E in H. split; [done|]. lia.
  - destruct (closing_branch env ev msgs t eff msgs' t' Hc Hl E) as (H1 & H2 & H3). split; [done|]. lia.
Qed.
End UdpLoop.
