(* ===== verification/Demo.v ===== *)
(** Concrete endpoints, for the examples that apply the theorems of the protocol core. *)
From Stdlib Require Import Strings.Byte.
From stdpp Require Import relations.
From S2P Require Import Prelude Bytes IkcpTypes IkcpSend IkcpInput IkcpFlush IkcpFlushSpec.
From S2P Require Import IkcpInv Wire Delivery Network Progress Exchange Acks Rounds Acked.

Definition demo_msg : bytes := [x68; x65; x6c; x6c; x6f].

(** An endpoint of conversation 7 after its first update (which opens the congestion window),
    with a message queued, sent, and received by a peer of the same conversation. *)
Definition demo_fresh : IKCPCB := ikcp_create 7.
Definition demo_open : IKCPCB := kcp_exec (OpUpdate 0) demo_fresh.
Definition demo_queued : IKCPCB := kcp_exec (OpSend demo_msg) demo_open.
Definition demo_sent : IKCPCB := kcp_exec (OpUpdate 100) demo_queued.
Definition demo_packet : bytes := hd [] (kcp_packets (OpUpdate 100) demo_queued).
Definition demo_received : IKCPCB := kcp_exec (OpInput demo_packet) demo_fresh.

Lemma demo_reachable : rtc kcp_step demo_fresh demo_sent.
Proof.
  unfold demo_sent, demo_queued, demo_open.
  eapply rtc_l; [apply (kcp_step_op (OpUpdate 0)); first [exact I|by vm_compute]|].
  eapply rtc_l; [apply (kcp_step_op (OpSend demo_msg)); first [exact I|by vm_compute]|].
  eapply rtc_l; [apply (kcp_step_op (OpUpdate 100)); first [exact I|by vm_compute]|].
  apply rtc_refl.
Qed.

Lemma demo_queued_ok : kcp_ok demo_queued.
Proof.
  unfold demo_queued, demo_open.
  eapply kcp_step_ok; [apply (kcp_step_op (OpSend demo_msg)); first [exact I|by vm_compute]|].
  eapply kcp_step_ok; [apply (kcp_step_op (OpUpdate 0)); first [exact I|by vm_compute]|].
  apply ikcp_create_ok.
Qed.

Lemma demo_sent_ok : kcp_ok demo_sent.
Proof.
  unfold demo_sent.
  eapply kcp_step_ok; [apply (kcp_step_op (OpUpdate 100)); first [exact I|by vm_compute]|].
  apply demo_queued_ok.
Qed.

Lemma demo_received_ok : kcp_ok demo_received.
Proof.
  unfold demo_received.
  eapply kcp_step_ok; [apply (kcp_step_op (OpInput demo_packet)); first [exact I|by vm_compute]|].
  apply ikcp_create_ok.
Qed.

Lemma demo_received_window : rcv_window demo_received.
Proof. apply demo_received_ok. Qed.

Lemma demo_recv_ok : recv_ok demo_received.
Proof.
  destruct demo_received_window as (_ & _ & _ & _ & Hn & _ & _ & Hf).
  split; [exact Hf|]. split; [by vm_compute|]. split; [exact Hn|by vm_compute].
Qed.

Lemma demo_move_ok : move_ok demo_received.
Proof. apply rcv_window_move_ok, demo_received_window. Qed.

(** ** A run of the two endpoints and the network *)
Definition demo_start : sys := sys_start demo_fresh demo_fresh.
Definition demo_run : sys :=
  sys_read 100 (sys_call_b (OpInput demo_packet)
    (sys_call_a (OpUpdate 100) (sys_call_a (OpSend demo_msg)
      (sys_call_a (OpUpdate 0) demo_start)))).

Lemma demo_fresh_ok : fresh demo_fresh.
Proof. split; [apply ikcp_create_ok|by vm_compute]. Qed.

Lemma demo_run_reachable : rtc sys_step demo_start demo_run.
Proof.
  unfold demo_run.
  eapply rtc_l; [apply (step_a (OpUpdate 0)); [first [exact I|by vm_compute]|by vm_compute]|].
  eapply rtc_l; [apply (step_a (OpSend demo_msg)); [first [exact I|by vm_compute]|by vm_compute]|].
  eapply rtc_l; [apply (step_a (OpUpdate 100)); [first [exact I|by vm_compute]|by vm_compute]|].
  eapply rtc_l; [apply (step_deliver 1 demo_packet); [vm_compute; by left|by vm_compute]|].
  eapply rtc_l; [apply (step_read 100); [lia|by vm_compute]|]. apply rtc_refl.
Qed.

(** The message is delivered, its acknowledgement is sent back, and the writer takes it. *)
Definition demo_delivered : sys :=
  sys_call_b (OpInput demo_packet)
    (sys_call_a (OpUpdate 100) (sys_call_a (OpSend demo_msg)
      (sys_call_a (OpUpdate 0) demo_start))).
Definition demo_answer : bytes := hd [] (kcp_packets (OpUpdate 100) (s_b demo_delivered)).
Definition demo_settled : link :=
  mkLink (sys_call_a (OpInput demo_answer) (sys_call_b (OpUpdate 100) demo_delivered))
    [demo_answer].

Lemma input_in p (back : list bytes) : p ∈ back -> forall q, OpInput p = OpInput q -> q ∈ back.
Proof. by intros ? ? [= <-]. Qed.

Lemma demo_settled_reachable : rtc link_step (mkLink demo_start []) demo_settled.
Proof.
  eapply rtc_l; [apply (link_a (OpUpdate 0)); [exact I|discriminate|by vm_compute]|].
  eapply rtc_l; [apply (link_a (OpSend demo_msg)); [by vm_compute|discriminate|by vm_compute]|].
  eapply rtc_l; [apply (link_a (OpUpdate 100)); [exact I|discriminate|by vm_compute]|].
  eapply rtc_l; [apply (link_deliver 1 demo_packet); vm_compute; by left|].
  eapply rtc_l; [apply (link_b (OpUpdate 100)); [exact I|discriminate|discriminate]|].
  eapply rtc_l; [apply (link_a (OpInput demo_answer)); [by vm_compute| |by vm_compute]|].
  - apply input_in. vm_compute. by left.
  - assert ([] ++ kcp_packets (OpUpdate 100) (s_b demo_delivered) = [demo_answer]) as E
      by by vm_compute.
    unfold demo_delivered in E. rewrite E. apply rtc_refl.
Qed.

(** ** Two endpoints at rest, and rounds between them

    In the first round after the message is written everything is lost. *)
Lemma demo_open_ok : kcp_ok demo_open.
Proof.
  eapply kcp_step_ok; [apply (kcp_step_op (OpUpdate 0)); first [exact I|by vm_compute]|].
  apply ikcp_create_ok.
Qed.

Lemma demo_at_rest : at_rest demo_open demo_open.
Proof. split; try apply demo_open_ok; by vm_compute. Qed.

Definition demo_rounds : IKCPCB * IKCPCB :=
  exchange true 4000 4000 (exchange true 3000 3000 (exchange true 2000 2000 (exchange true 1000 1000
    (exchange false 100 100 (snd (ikcp_send demo_open demo_msg (Zlen demo_msg)), demo_open))))).

Lemma demo_rounds_made :
  rounds 4 (snd (ikcp_send demo_open demo_msg (Zlen demo_msg)), demo_open) demo_rounds.
Proof.
  unfold demo_rounds. eapply rounds_bad; [apply (exchange_round false 100 100); done|].
  eapply rounds_good; [apply (exchange_round true 1000 1000); intros _; apply all_due_check; by vm_compute|].
  eapply rounds_good; [apply (exchange_round true 2000 2000); intros _; apply all_due_check; by vm_compute|].
  eapply rounds_good; [apply (exchange_round true 3000 3000); intros _; apply all_due_check; by vm_compute|].
  eapply rounds_good; [apply (exchange_round true 4000 4000); intros _; apply all_due_check; by vm_compute|].
  apply rounds_refl.
Qed.

(** They are only ever evaluated by [vm_compute]. *)
#[global] Opaque demo_open demo_queued demo_sent demo_received demo_packet demo_run demo_rounds
  demo_delivered demo_answer demo_settled.
