(* ===== verification/CoreProps.v ===== *)
(** The contract of the protocol core, one theorem per promise, each applied at a concrete
    endpoint. *)
From Stdlib Require Import Strings.Byte.
From stdpp Require Import relations.
From S2P Require Import Prelude Bytes IkcpTypes IkcpSend IkcpInput IkcpFlush IkcpFlushSpec.
From S2P Require Import IkcpTimer IkcpInv Wire Delivery Network Fifo Progress Exchange.
From S2P Require Import Acks Rounds Acked Demo.

(** ** Delivery *)

Lemma stream_delivery_witness :
  rtc sys_step demo_start demo_run /\ s_out demo_run = [demo_msg] /\
  concat (s_out demo_run) `prefix_of` concat (s_in demo_run).
Proof.
  split; [exact demo_run_reachable|]. split; [by vm_compute|].
  exact (stream_delivery demo_fresh demo_fresh demo_run demo_fresh_ok demo_fresh_ok
           demo_run_reachable).
Defined.

Lemma message_delivery_witness :
  rtc sys_step demo_start demo_run /\ s_out demo_run = [demo_msg] /\
  s_out demo_run `prefix_of` s_in demo_run.
Proof.
  split; [exact demo_run_reachable|]. split; [by vm_compute|].
  exact (message_delivery demo_fresh demo_fresh demo_run demo_fresh_ok demo_fresh_ok eq_refl
           demo_run_reachable).
Defined.

Lemma network_refines_fifo_witness :
  exists tr, sys_run demo_start tr demo_run /\ exists q, fifo_run (fun m => [m]) [] tr q.
Proof.
  destruct (sys_run_exists demo_start demo_run demo_run_reachable) as [tr Hr].
  exists tr. split; [exact Hr|].
  exact (proj2 (network_refines_fifo demo_fresh demo_fresh tr demo_run demo_fresh_ok demo_fresh_ok Hr)
    eq_refl).
Defined.

Lemma message_arrives_witness :
  at_rest demo_open demo_open /\
  rounds 4 (snd (ikcp_send demo_open demo_msg (Zlen demo_msg)), demo_open) demo_rounds /\
  fst (ikcp_recv (snd demo_rounds) 100) = (5, demo_msg).
Proof.
  split; [exact demo_at_rest|]. split; [exact demo_rounds_made|].
  pose proof demo_rounds_made as Hr. rewrite (surjective_pairing demo_rounds) in Hr.
  exact (proj2 (message_arrives demo_open demo_open demo_msg 4 (fst demo_rounds) (snd demo_rounds) 100
    demo_at_rest ltac:(by vm_compute) ltac:(by vm_compute) ltac:(split; by vm_compute)
    ltac:(by vm_compute) Hr ltac:(by vm_compute))).
Defined.

(** The whole exchange: the writer's buffers are empty and the message is at the reader. *)
Lemma acked_means_received_witness :
  rtc link_step (mkLink demo_start []) demo_settled /\
  ikcp_waitsnd (s_a (l_sys demo_settled)) = 0 /\
  concat (s_in (l_sys demo_settled)) = demo_msg /\
  concat (s_in (l_sys demo_settled)) =
    concat (s_out (l_sys demo_settled)) ++ seg_bytes (rcv_queue (s_b (l_sys demo_settled))) ++
    seg_bytes (rcv_buf (s_b (l_sys demo_settled))).
Proof.
  split; [exact demo_settled_reachable|]. split; [by vm_compute|]. split; [by vm_compute|].
  exact (proj2 (acked_means_received demo_fresh demo_fresh demo_settled demo_fresh_ok demo_fresh_ok
    eq_refl demo_settled_reachable) ltac:(by vm_compute) ltac:(by vm_compute)).
Defined.

Lemma kcp_reachable_ok_witness : rtc kcp_step (ikcp_create 7) demo_sent /\ kcp_ok demo_sent.
Proof.
  split; [exact demo_reachable|]. exact (kcp_reachable_ok 7 demo_sent demo_reachable).
Defined.

(** ** Sending *)

(** C14: [ikcp_send] accepts a message (or, in stream mode, a write) exactly when what does not
    fit in the open tail segment needs at most 255 segments of [mss] bytes, and otherwise
    returns -2.  The queued bytes are the old ones followed by the whole buffer on success, and
    by the part that filled the tail segment on failure; the queue stays well formed. *)
Theorem send_contract kcp b :
  send_ok kcp -> Zlen b < 2147483648 ->
  let '(r, kcp') := ikcp_send kcp b (Zlen b) in
  r = (if Zlen b <=? send_room kcp + 255 * mss kcp then 0 else -2) /\
  send_ok kcp' /\
  seg_bytes (snd_queue kcp') = seg_bytes (snd_queue kcp) ++
    (if r =? 0 then b else take (Z.to_nat (send_room kcp)) b).
Proof.
  intros Hok Hb. pose proof (ikcp_send_queues kcp b Hok Hb) as Hq.
  pose proof (ikcp_send_accepts kcp b Hok Hb) as Ha.
  destruct (ikcp_send kcp b (Zlen b)) as [r kcp']. by split.
Qed.

Lemma send_contract_witness :
  send_ok demo_queued /\ 5 < 2147483648 /\
  let '(r, kcp') := ikcp_send demo_queued demo_msg (Zlen demo_msg) in
  r = 0 /\ seg_bytes (snd_queue kcp') = demo_msg ++ demo_msg.
Proof.
  split; [apply demo_queued_ok|]. split; [lia|].
  pose proof (send_contract demo_queued demo_msg (proj1 (proj1 demo_queued_ok))
    (eq_refl : Zlen demo_msg < 2147483648)) as H.
  destruct (ikcp_send demo_queued demo_msg (Zlen demo_msg)) as [r kcp'].
  destruct H as (-> & _ & ->). by vm_compute.
Defined.

(** ** Flushing *)

(** C11: every packet [ikcp_flush] hands to the output callback is a nonempty sequence of whole
    segments of at most [mtu] bytes, and together they are one acknowledgement per pending
    entry, the window probes asked for, and the data segments that are new, timed out or due
    for a fast resend, in the order of the send buffer. *)
Theorem flush_packets kcp :
  kcp_ok kcp -> updated kcp <> 0 ->
  exists gs, snd (ikcp_flush kcp) = map packet gs /\
    Forall (fun g => g <> [] /\ Zlen (packet g) <= mtu kcp) gs /\
    concat gs = flush_control_segs kcp
      ++ flush_data_segs (flush_moved kcp) (flush_wnd kcp) (snd_buf (flush_moved kcp)).
Proof. exact (ikcp_flush_packets kcp). Qed.

Lemma flush_packets_witness :
  kcp_ok demo_queued /\ updated demo_queued <> 0 /\ length (snd (ikcp_flush demo_queued)) = 1%nat /\
  exists gs, snd (ikcp_flush demo_queued) = map packet gs /\
    Forall (fun g => g <> [] /\ Zlen (packet g) <= 1400) gs.
Proof.
  split; [exact demo_queued_ok|]. split; [by vm_compute|]. split; [by vm_compute|].
  destruct (flush_packets demo_queued demo_queued_ok ltac:(by vm_compute)) as (gs & E & H & _).
  exists gs. split; [exact E|]. replace 1400 with (mtu demo_queued) by (by vm_compute). exact H.
Defined.

Lemma flush_input_accepted_witness :
  kcp_ok demo_queued /\ conv demo_fresh = conv demo_queued /\
  exists gs, snd (ikcp_flush demo_queued) = map packet gs /\
    Forall (fun g => ikcp_input demo_fresh (packet g) = (0, receive_packet demo_fresh g)) gs.
Proof.
  split; [exact demo_queued_ok|]. split; [by vm_compute|].
  apply (flush_input_accepted demo_queued demo_fresh demo_queued_ok); by vm_compute.
Defined.

(** C10: Flow control.  With [w] the smaller of the configured window and the one the peer
    advertised, and of the congestion window unless that is switched off, a flush moves exactly the
    segments there is room for: of the queue, in order, as many as keep the number of segments in
    flight within [w], and none when there is no room.  They get the next numbers and go behind
    those in the send buffer, which stay, whatever is transmitted. *)
Theorem flush_flow_control kcp :
  kcp_ok kcp -> updated kcp <> 0 ->
  let w := if nocwnd kcp =? 0 then Z.min (cwnd kcp) (Z.min (snd_wnd kcp) (rmt_wnd kcp))
           else Z.min (snd_wnd kcp) (rmt_wnd kcp) in
  let inflight k := u32 (snd_nxt k - snd_una k) in
  let n := Z.max 0 (Z.min (Zlen (snd_queue kcp)) (w - inflight kcp)) in
  let kcp' := fst (ikcp_flush kcp) in
  inflight kcp' = inflight kcp + n /\ snd_una kcp' = snd_una kcp /\
  snd_queue kcp' = drop (Z.to_nat n) (snd_queue kcp) /\
  exists old new, snd_buf kcp' = old ++ new /\
    map seg_sn old = map seg_sn (snd_buf kcp) /\ map seg_entry old = map seg_entry (snd_buf kcp) /\
    consecutive (snd_nxt kcp) new /\
    map seg_entry new = map seg_entry (take (Z.to_nat n) (snd_queue kcp)).
Proof.
  intros Hok Hu. cbv zeta.
  assert ((if nocwnd kcp =? 0 then Z.min (cwnd kcp) (Z.min (snd_wnd kcp) (rmt_wnd kcp))
    else Z.min (snd_wnd kcp) (rmt_wnd kcp)) = flush_cwnd kcp) as -> by (unfold flush_cwnd; by rewrite !_imin__min).
  destruct (flush_moved_buf kcp Hok) as (Eb & Eq & En & _).
  destruct (flush_moved_frame kcp Hok) as (_ & _ & _ & _ & Eu & _).
  destruct (move_count_spec kcp Hok) as (_ & _ & Hd & _).
  destruct (ikcp_flush_shape kcp Hok Hu) as (x & st & ss & cw & inc & _ & E).
  assert (snd_nxt (fst (ikcp_flush kcp)) = snd_nxt (flush_moved kcp) /\
    snd_una (fst (ikcp_flush kcp)) = snd_una (flush_moved kcp) /\
    snd_queue (fst (ikcp_flush kcp)) = snd_queue (flush_moved kcp) /\
    snd_buf (fst (ikcp_flush kcp)) =
      map (flush_visit (flush_moved kcp) (flush_wnd kcp)) (snd_buf kcp ++ flush_admitted kcp))
    as (E1 & E2 & E3 & E4) by (by rewrite E).
  rewrite E1, E2, E3, E4, Eq, En, Eu, Hd. clear E E1 E2 E3 E4. rewrite flush_window_eq in *.
  set (n := move_count kcp (flush_cwnd kcp)) in *.
  assert (n = Z.to_nat (Z.max 0 (Z.min (Zlen (snd_queue kcp)) (flush_cwnd kcp - u32 (snd_nxt kcp - snd_una kcp)))))
    as En' by (unfold n, move_count; lia).
  rewrite <- En'. split; [lia|]. split; [done|]. split; [done|].
  eexists _, _. split; [apply map_app|].
  pose proof (flush_visit_frame (flush_moved kcp) (flush_wnd kcp)) as Hv.
  assert (forall q, map seg_sn (map (flush_visit (flush_moved kcp) (flush_wnd kcp)) q) = map seg_sn q) as Hsn
    by (intros q; apply flush_visit_sn).
  assert (forall q, map seg_entry (map (flush_visit (flush_moved kcp) (flush_wnd kcp)) q) = map seg_entry q) as He.
  { intros q. rewrite map_map. apply map_ext. intros s. unfold seg_entry. by destruct (Hv s) as (_ & _ & -> & -> & _). }
  rewrite !He, Hsn. split; [done|]. split; [done|]. split.
  - apply (consecutive_same _ _ _ (Hsn _)), flush_admitted_spec, Hok.
  - unfold flush_admitted. rewrite map_seg_entry_moved, flush_window_eq. done.
Qed.

(** One segment is queued and the window, of one segment at the start, is empty. *)
Lemma flush_flow_control_witness :
  kcp_ok demo_queued /\ updated demo_queued <> 0 /\
  snd_queue (fst (ikcp_flush demo_queued)) = [] /\
  u32 (snd_nxt (fst (ikcp_flush demo_queued)) - snd_una (fst (ikcp_flush demo_queued))) = 1.
Proof.
  assert (updated demo_queued <> 0) as Hu by by vm_compute.
  destruct (flush_flow_control demo_queued demo_queued_ok Hu) as (H1 & _ & H2 & _).
  split; [exact demo_queued_ok|]. split; [exact Hu|]. split.
  - rewrite H2. vm_compute. reflexivity.
  - rewrite H1. vm_compute. reflexivity.
Defined.

(** C39: The bound of [flush_packets] needs the mtu not to shrink under the segments already
    queued.  Whenever [ikcp_setmtu] sets an mtu the first queued segment does not fit in any more
    and the window has room for it, the next flush emits a packet longer than the mtu; and longer
    than the buffer it is built in, when the segment is longer than that. *)
Theorem setmtu_overflow kcp m s q :
  kcp_ok kcp -> updated kcp <> 0 -> snd_queue kcp = s :: q ->
  u32 (snd_nxt kcp - snd_una kcp) < flush_cwnd kcp -> 50 <= m < 24 + seg_len s ->
  let kcp' := snd (ikcp_setmtu true kcp m) in
  mtu kcp' = m /\ buffer_cap kcp' = 3 * (m + 24) /\
  exists p, p ∈ snd (ikcp_flush kcp') /\ mtu kcp' < Zlen p /\
    (3 * (m + 24) < 24 + seg_len s -> buffer_cap kcp' < Zlen p).
Proof.
  intros Hok Hu Eq Hroom Hm. cbv zeta. pose proof Hok as (((_ & _ & Hfit) & _) & Hmtu & Emss & Hsent & _).
  pose proof Hfit as Hs. rewrite Eq in Hs. apply Forall_inv in Hs as (_ & Hlen & _).
  assert (exists c, snd (ikcp_setmtu true kcp m) = kcp <| mtu := m |> <| mss := c |> <| buffer_cap := 3 * (m + 24) |>)
    as [c ->].
  { unfold ikcp_setmtu. change (i32 IKCP_OVERHEAD) with 24.
    destruct (Z.ltb_spec m 50), (Z.ltb_spec m 24); cbn [orb negb snd]; try lia.
    rewrite (u32_small m) by lia. rewrite (u32_small (m + IKCP_OVERHEAD)) by (unfold IKCP_OVERHEAD; lia).
    rewrite (u32_small (_ * 3)) by (unfold IKCP_OVERHEAD; lia).
    replace ((m + IKCP_OVERHEAD) * 3) with (3 * (m + 24)) by (unfold IKCP_OVERHEAD; lia). by eexists. }
  split; [done|]. split; [done|].
  destruct (flush_long_segment (kcp <| mtu := m |> <| mss := c |> <| buffer_cap := 3 * (m + 24) |>) s q
    (23 + seg_len s)) as (p & Hp & Hl); simp_upd; try done; try lia.
  - by apply kcp_ok_admits in Hok.
  - eapply Forall_impl; [exact Hsent|]. by intros t ((? & _) & _).
  - eapply Forall_impl; [exact Hfit|]. by intros t (? & _).
  - exists p. split; [done|]. split; lia.
Qed.

(** A message of 1000 bytes is queued when the mtu becomes 100. *)
Definition demo_long : IKCPCB := kcp_exec (OpSend (repeat x61 1000)) demo_open.

Lemma demo_long_facts :
  match snd_queue demo_long with s :: _ => seg_len s | [] => 0 end = 1000 /\
  updated demo_long <> 0 /\ (u32 (snd_nxt demo_long - snd_una demo_long) <? flush_cwnd demo_long) = true.
Proof. by vm_compute. Qed.

Lemma demo_long_ok : kcp_ok demo_long.
Proof.
  eapply kcp_step_ok; [apply (kcp_step_op (OpSend (repeat x61 1000))); by vm_compute|apply demo_open_ok].
Qed.

Lemma setmtu_overflow_witness :
  kcp_ok demo_long /\
  exists p, p ∈ snd (ikcp_flush (snd (ikcp_setmtu true demo_long 100))) /\ 372 < Zlen p.
Proof.
  split; [exact demo_long_ok|]. destruct demo_long_facts as (Hl & Hu & Hr).
  destruct (snd_queue demo_long) as [|s q] eqn:Eq; [discriminate Hl|].
  destruct (setmtu_overflow demo_long 100 s q demo_long_ok Hu Eq ltac:(lia) ltac:(lia)) as (_ & E & p & Hp & _ & H).
  exists p. split; [exact Hp|]. rewrite <- (E : _ = 372). apply H. lia.
Defined.

(** ** Receiving *)

Lemma ikcp_recv_message_witness :
  recv_ok demo_received /\ move_ok demo_received /\ message_segs (rcv_queue demo_received) /\
  let '(n, buf, k) := ikcp_recv demo_received 100 in n = 5 /\ buf = demo_msg /\ rcv_buf k = [].
Proof.
  assert (message_segs (rcv_queue demo_received)) as Hq
    by (vm_compute; split_and!; [done|done|by left]).
  split; [exact demo_recv_ok|]. split; [exact demo_move_ok|]. split; [exact Hq|].
  assert (rcv_buf demo_received = []) as Eb by (vm_compute; reflexivity).
  assert (seg_bytes (rcv_queue demo_received) = demo_msg) as Em by (vm_compute; reflexivity).
  assert (Zlen (seg_bytes (rcv_queue demo_received)) <= 100 < 2147483648) as Hl
    by (split; by vm_compute).
  destruct (ikcp_recv_message demo_received 100 (rcv_queue demo_received) [] demo_recv_ok
    demo_move_ok (eq_sym (app_nil_r _)) Hq Hl) as (m & r & Hb & H).
  rewrite Eb in Hb. symmetry in Hb. apply app_eq_nil in Hb as [-> ->].
  destruct (ikcp_recv demo_received 100) as [[n buf] k].
  destruct H as (-> & -> & _ & -> & _). rewrite Em.
  split; [reflexivity|]. split; reflexivity.
Defined.

Lemma ikcp_recv_result_witness :
  recv_ok demo_received /\ -2147483648 < 3 < 2147483648 /\
  fst (fst (ikcp_recv demo_received 3)) = -3 /\
  snd (ikcp_recv demo_received 3) = demo_received.
Proof.
  split; [exact demo_recv_ok|]. split; [lia|].
  pose proof (ikcp_recv_result demo_received 3 demo_recv_ok ltac:(lia)) as H.
  assert (fst (fst (ikcp_recv demo_received 3)) = -3) as E by (by vm_compute).
  destruct (ikcp_recv demo_received 3) as [[n buf] k]. cbn [fst snd] in *. subst n.
  split; [done|]. destruct H as (_ & H & _). by apply H.
Defined.

Lemma ikcp_recv_peek_witness :
  recv_ok demo_received /\ move_ok demo_received /\
  let '(n, buf, k) := ikcp_recv demo_received (- 100) in
  (n, buf) = fst (ikcp_recv demo_received 100) /\
  exists m, rcv_queue k = rcv_queue demo_received ++ m.
Proof.
  split; [exact demo_recv_ok|]. split; [exact demo_move_ok|].
  exact (ikcp_recv_peek demo_received 100 demo_recv_ok demo_move_ok ltac:(lia)).
Defined.

(** C13: A received segment is dropped exactly when it is outside the window of [rcv_wnd] numbers
    that starts at [rcv_nxt].  Inside it, the receive buffer becomes [q]: what it was, with the
    segment at its place unless one of its number is there.  The longest run [m] of [q] that starts
    at [rcv_nxt] and that the receive queue has room for moves to the queue, and [rcv_nxt] with it.
    The buffer and the queue stay well formed. *)
Theorem parse_data_contract kcp new :
  rcv_window kcp -> seg_wf new -> 0 <= seg_sn new < 4294967296 ->
  (rcv_wnd kcp <= u32 (seg_sn new - rcv_nxt kcp) -> ikcp_parse_data kcp new = kcp) /\
  (u32 (seg_sn new - rcv_nxt kcp) < rcv_wnd kcp ->
   exists q m r, let k := kcp <| rcv_buf := q |> <| nrcv_buf := Zlen q |> in
     ikcp_parse_data kcp new = rcv_moved k m r /\ rcv_window k /\ rcv_window (rcv_moved k m r) /\
     (forall s, s ∈ q <-> s ∈ rcv_buf kcp \/ (s = new /\ seg_sn new ∉ map seg_sn (rcv_buf kcp))) /\
     q = m ++ r /\ consecutive (rcv_nxt kcp) m /\
     (m = [] \/ Zlen (rcv_queue kcp) + Zlen m <= rcv_wnd kcp) /\
     match r with
     | [] => True
     | s :: _ => seg_sn s <> u32 (rcv_nxt kcp + Zlen m) \/
                 rcv_wnd kcp <= Zlen (rcv_queue kcp) + Zlen m
     end).
Proof.
  intros Hok Hwf Hsn. destruct (ikcp_parse_data_spec kcp new Hok Hwf Hsn) as [H1 H2].
  split; [exact H1|]. intros Hin. destruct (H2 Hin) as (q & n & m & r & E & Hk & H).
  assert (n = Zlen q) as -> by apply Hk. exists q, m, r. naive_solver.
Qed.

Definition demo_seg : IKCPSEG := (ikcp_segment_new demo_msg) <| seg_len := 5 |> <| seg_sn := 1 |>.
Definition demo_old : IKCPSEG := demo_seg <| seg_sn := 0 |>.

(** The next segment in order, and the one before it. *)
Lemma parse_data_contract_witness :
  rcv_window demo_received /\ seg_wf demo_seg /\
  length (rcv_queue (ikcp_parse_data demo_received demo_seg)) = 2%nat /\
  (exists q m r, let k := demo_received <| rcv_buf := q |> <| nrcv_buf := Zlen q |> in
    ikcp_parse_data demo_received demo_seg = rcv_moved k m r /\
    forall s, s ∈ q <-> s ∈ rcv_buf demo_received \/
      (s = demo_seg /\ seg_sn demo_seg ∉ map seg_sn (rcv_buf demo_received))) /\
  ikcp_parse_data demo_received demo_old = demo_received.
Proof.
  split; [exact demo_received_window|]. split; [reflexivity|]. split; [vm_compute; reflexivity|]. split.
  - destruct (proj2 (parse_data_contract demo_received demo_seg demo_received_window eq_refl
      (conj (Z.le_0_1) (eq_refl : 1 < 4294967296)))) as (q & m & r & E & _ & _ & H & _).
    + vm_compute. reflexivity.
    + exists q, m, r. split; [exact E|exact H].
  - apply (parse_data_contract demo_received demo_old demo_received_window eq_refl
      (conj (Z.le_refl 0) (eq_refl : 0 < 4294967296))). vm_compute. intros E. discriminate E.
Defined.

Lemma demo_sent_window : snd_window demo_sent.
Proof. apply demo_sent_ok. Qed.

Lemma ikcp_parse_ack_filter_witness :
  snd_window demo_sent /\ 0 <= 0 < 4294967296 /\
  length (snd_buf demo_sent) = 1%nat /\ snd_buf (ikcp_parse_ack demo_sent 0) = [].
Proof.
  split; [exact demo_sent_window|]. split; [lia|]. split; [vm_compute; reflexivity|].
  rewrite (ikcp_parse_ack_filter demo_sent 0 demo_sent_window ltac:(lia)).
  vm_compute. reflexivity.
Defined.

Lemma ikcp_parse_una_filter_witness :
  snd_window demo_sent /\ u32 (1 - snd_una demo_sent) < 2147483648 /\
  snd_buf (ikcp_parse_una demo_sent 1) = [].
Proof.
  assert (u32 (1 - snd_una demo_sent) < 2147483648) as H by (vm_compute; reflexivity).
  split; [exact demo_sent_window|]. split; [exact H|].
  rewrite (ikcp_parse_una_filter demo_sent 1 demo_sent_window H). vm_compute. reflexivity.
Defined.

Lemma ikcp_ack_push_appends_witness :
  ack_ok demo_received /\ ackcount demo_received < 2147483648 /\
  ackcount (ikcp_ack_push demo_received 9 30) = ackcount demo_received + 1.
Proof.
  assert (ack_ok demo_received) as H by (vm_compute; repeat split; congruence).
  assert (ackcount demo_received < 2147483648) as Hl by (vm_compute; reflexivity).
  split; [exact H|]. split; [exact Hl|].
  exact (proj1 (proj2 (proj2 (ikcp_ack_push_appends demo_received 9 30 H Hl)))).
Defined.

(** Whatever round-trip time a peer makes the endpoint measure, the retransmission timeout
    stays between the configured minimum and [IKCP_RTO_MAX]. *)
Theorem rto_bounds kcp rtt :
  0 <= rx_minrto kcp <= IKCP_RTO_MAX ->
  rx_minrto kcp <= rx_rto (ikcp_update_ack kcp rtt) <= IKCP_RTO_MAX.
Proof. exact (ikcp_update_ack_rto kcp rtt). Qed.

Lemma rto_bounds_witness :
  0 <= rx_minrto demo_fresh <= IKCP_RTO_MAX /\
  rx_minrto demo_fresh <= rx_rto (ikcp_update_ack demo_fresh (-2147483648)) <= IKCP_RTO_MAX.
Proof.
  assert (0 <= rx_minrto demo_fresh <= IKCP_RTO_MAX) as H by (vm_compute; split; congruence).
  split; [exact H|]. exact (rto_bounds demo_fresh (-2147483648) H).
Defined.

(** C35: the results of [ikcp_input] are 0 and three errors, and a packet whose first segment is
    refused leaves the control block as it was; the error tells why: too short or another
    conversation (-1), a length that does not match (-2), an unknown command (-3). *)
Theorem input_errors kcp data :
  Zlen data < 2147483648 ->
  let h := snd (ikcp_decode_header data) in
  fst (ikcp_input kcp data) ∈ [0; -1; -2; -3] /\
  (Zlen data < 24 \/ h_conv h <> conv kcp -> ikcp_input kcp data = (-1, kcp)) /\
  (24 <= Zlen data -> h_conv h = conv kcp ->
   Zlen data - 24 < h_len h \/ 2147483648 <= h_len h -> ikcp_input kcp data = (-2, kcp)) /\
  (24 <= Zlen data -> h_conv h = conv kcp -> h_len h <= Zlen data - 24 ->
   ~ (81 <= h_cmd h <= 84) -> ikcp_input kcp data = (-3, kcp)).
Proof.
  intros Hl h. split; [apply ikcp_input_results|]. exact (ikcp_input_rejects kcp data Hl).
Qed.

Lemma input_errors_witness :
  Zlen demo_packet < 2147483648 /\ ikcp_input (ikcp_create 8) demo_packet = (-1, ikcp_create 8).
Proof.
  assert (Zlen demo_packet < 2147483648) as H by (vm_compute; reflexivity).
  split; [exact H|]. apply (proj1 (proj2 (input_errors (ikcp_create 8) demo_packet H))).
  right. vm_compute. intros E. discriminate E.
Defined.

Lemma ikcp_input_loop_fuel_witness :
  (length demo_packet <= 29)%nat /\
  ikcp_input_loop 29 demo_fresh (mklocals false 0 0) demo_packet =
  ikcp_input_loop 100 demo_fresh (mklocals false 0 0) demo_packet.
Proof.
  assert (length demo_packet = 29%nat) as E by (vm_compute; reflexivity).
  assert (length demo_packet <= 29)%nat as H1 by (rewrite E; lia).
  assert (length demo_packet <= 100)%nat as H2 by (rewrite E; lia).
  split; [exact H1|].
  exact (ikcp_input_loop_fuel 29 100 demo_fresh (mklocals false 0 0) demo_packet H1 H2).
Defined.
