(* ===== verification/RustProps.v ===== *)
(** The contract of the safe wrapper and of the number cache. *)
From Stdlib Require Import Strings.Byte.
From stdpp Require Import relations.
From S2P Require Import Prelude HashLink Bytes IkcpTypes IkcpSend IkcpInput IkcpFlush IkcpFlushSpec.
From S2P Require Import IkcpInv Wire Delivery Protocol ProtocolSpec Config ConvCache Stream.
From S2P Require Import StreamIo StreamSpec StreamSafe StreamWire Network Demo.

#[local] Existing Instance list_bytes_mut.
#[local] Existing Instance list_bytes_mut_laws.

(** A wrapper around a control block. *)
Definition demo_kcp (k : IKCPCB) : Kcp := mkKcp k (32768, 32768) bm_new bm_new [].

Lemma demo_wrapper_ok k : kcp_ok k -> 0 <= conv k < 4294967296 -> wrapper_ok (demo_kcp k).
Proof. intros Hk Hc. split; [exact Hk|]. split; [by split|exact Hc]. Qed.

(** [Kcp::rand_conv] terminates as soon as the generator gives a valid number, and returns
    that number: neither zero nor one of the reserved ones. *)
Theorem rand_conv_contract draw n fuel :
  is_valid_conv (draw n) = true ->
  (forall m, (m < n)%nat -> is_valid_conv (draw m) = false) -> (n < fuel)%nat ->
  rand_conv fuel draw 0 = Some (draw n, S n) /\ draw n <> 0 /\ draw n < SYN_CONV.
Proof.
  intros Hv Hf Hn. split; [exact (rand_conv_first draw 0 n Hv Hf fuel Hn)|].
  by apply is_valid_conv_spec.
Qed.

Lemma rand_conv_contract_witness :
  let draw := fun n => match n with 0%nat => 0 | 1%nat => SYN_CONV | _ => 42 end in
  rand_conv 3 draw 0 = Some (42, 3%nat).
Proof.
  intros draw.
  assert (forall m, (m < 2)%nat -> is_valid_conv (draw m) = false) as Hf
    by (intros [|[|m]] Hm; [reflexivity|reflexivity|lia]).
  exact (proj1 (rand_conv_contract draw 2 3 eq_refl Hf ltac:(lia))).
Defined.

(** C34: [Kcp::read_conv] reads the number [ikcp_getconv] would, on anything long enough for a
    header; [Kcp::read_payload_data] returns the payload announced by the first header, counting
    headers of 24 bytes from the start, that announces one that fits, and nothing when there is
    no such header. *)
Theorem header_readers buf :
  read_conv buf = (if Zlen buf <? 24 then None else Some (ikcp_getconv buf)) /\
  match read_payload_data buf with
  | Some d => exists n, payload_at (skip_headers n buf) = Some d /\
      forall m, (m < n)%nat -> payload_at (skip_headers m buf) = None
  | None => forall m, payload_at (skip_headers m buf) = None
  end.
Proof. split; [apply read_conv_getconv|]. by apply read_payload_loop_spec. Qed.

(** C33: [Kcp::recv_bytes] returns exactly the bytes of the message at the head of the receive
    queue, and consumes it; it returns nothing, and changes nothing, when that message is not
    complete or is empty.  The buffers are left ready for the next call. *)
Theorem recv_bytes_contract {BM : BytesMut} {BML : BytesMutLaws BM} (this : Kcp) :
  recv_ok (handle this) -> buffers_ok this ->
  let k := handle this in
  let m := seg_bytes (fst (msg_prefix (rcv_queue k))) in
  let '(r, this') := Kcp_recv_bytes this in
  buffers_ok this' /\ output_queue this' = output_queue this /\
  if head_incomplete k || (Zlen m =? 0) then r = None /\ this' = this
  else r = Some m /\ handle this' = snd (ikcp_recv k (Zlen m)).
Proof. exact (Kcp_recv_bytes_spec this). Qed.

Lemma recv_bytes_contract_witness :
  recv_ok demo_received /\ fst (Kcp_recv_bytes (demo_kcp demo_received)) = Some demo_msg.
Proof.
  split; [exact demo_recv_ok|].
  pose proof (recv_bytes_contract (demo_kcp demo_received) demo_recv_ok (conj eq_refl eq_refl)) as H.
  cbv zeta in H. change (handle (demo_kcp demo_received)) with demo_received in H.
  destruct (Kcp_recv_bytes (demo_kcp demo_received)) as [r k]. destruct H as (_ & _ & H).
  assert (head_incomplete demo_received ||
    (Zlen (seg_bytes (fst (msg_prefix (rcv_queue demo_received)))) =? 0) = false) as E
    by (vm_compute; reflexivity).
  rewrite E in H. destruct H as [-> _]. cbn [fst]. vm_compute. reflexivity.
Defined.

(** C32: every packet the C core emits during an update or a flush is appended to the output
    queue, whole and in order, and the wrapper keeps its invariant. *)
Theorem output_contract {BM : BytesMut} {BML : BytesMutLaws BM} (this : Kcp) now :
  wrapper_ok this ->
  wrapper_ok (Kcp_update this now) /\ wrapper_ok (Kcp_flush this) /\
  outputs (Kcp_update this now) = outputs this ++ snd (ikcp_update (handle this) now) /\
  handle (Kcp_update this now) = fst (ikcp_update (handle this) now) /\
  outputs (Kcp_flush this) = outputs this ++ snd (ikcp_flush (handle this)) /\
  handle (Kcp_flush this) = fst (ikcp_flush (handle this)).
Proof.
  intros Hw. split; [by apply Kcp_update_ok|]. split; [by apply Kcp_flush_ok|].
  pose proof Hw as (_ & Hb & _).
  destruct (after_output_spec this (ikcp_update (handle this) now) Hb) as (_ & H1 & H2).
  destruct (after_output_spec this (ikcp_flush (handle this)) Hb) as (_ & H3 & H4). done.
Qed.

Lemma output_contract_witness :
  wrapper_ok (demo_kcp demo_queued) /\
  outputs (Kcp_update (demo_kcp demo_queued) 100) = [demo_packet].
Proof.
  assert (wrapper_ok (demo_kcp demo_queued)) as Hw
    by (apply demo_wrapper_ok; [exact demo_queued_ok|vm_compute; split; congruence]).
  split; [exact Hw|].
  rewrite (proj1 (proj2 (proj2 (output_contract (demo_kcp demo_queued) 100 Hw)))).
  vm_compute. reflexivity.
Defined.

(** [Kcp::send] never panics: it accepts a write that fits in 255 segments and, in stream
    mode, the room of the open tail segment, and reports [InvalidInput] otherwise. *)
Theorem wrapper_send {BM : BytesMut} {BML : BytesMutLaws BM} (this : Kcp) data :
  wrapper_ok this -> Zlen data < 2147483648 ->
  wrapper_ok (snd (Kcp_send this data)) /\
  output_queue (snd (Kcp_send this data)) = output_queue this /\
  fst (Kcp_send this data) =
    if Zlen data <=? send_room (handle this) + 255 * mss (handle this)
    then Ok 0 else Err InvalidInput.
Proof. exact (Kcp_send_spec this data). Qed.

Lemma wrapper_send_witness :
  wrapper_ok (demo_kcp demo_sent) /\ fst (Kcp_send (demo_kcp demo_sent) demo_msg) = Ok 0.
Proof.
  assert (wrapper_ok (demo_kcp demo_sent)) as Hw
    by (apply demo_wrapper_ok; [exact demo_sent_ok|vm_compute; split; congruence]).
  split; [exact Hw|].
  rewrite (proj2 (proj2 (wrapper_send (demo_kcp demo_sent) demo_msg Hw eq_refl))).
  vm_compute. reflexivity.
Defined.



(** [Kcp::set_mtu] maps the results of [ikcp_setmtu] to distinct errors, changes nothing
    when the value is the current one, and on success installs the value, as long as no queued
    segment is longer than it allows. *)
Theorem wrapper_set_mtu {BM : BytesMut} {BML : BytesMutLaws BM} malloc_ok (this : Kcp) m :
  wrapper_ok this -> 0 <= m < 1073741824 ->
  Forall (fun s => seg_len s + 24 <= m) (snd_queue (handle this) ++ snd_buf (handle this)) ->
  wrapper_ok (snd (Kcp_set_mtu malloc_ok this m)) /\
  fst (Kcp_set_mtu malloc_ok this m) =
    (if mtu (handle this) =? m then Ok tt
     else if m <? 50 then Err InvalidInput
     else if malloc_ok then Ok tt else Err OutOfMemory) /\
  (fst (Kcp_set_mtu malloc_ok this m) = Ok tt ->
     mtu (handle (snd (Kcp_set_mtu malloc_ok this m))) = m).
Proof. exact (Kcp_set_mtu_spec malloc_ok this m). Qed.

Lemma wrapper_set_mtu_witness :
  wrapper_ok (demo_kcp demo_fresh) /\
  fst (Kcp_set_mtu true (demo_kcp demo_fresh) 49) = Err InvalidInput.
Proof.
  assert (wrapper_ok (demo_kcp demo_fresh)) as Hw
    by (apply demo_wrapper_ok; [apply ikcp_create_ok|vm_compute; split; congruence]).
  split; [exact Hw|].
  rewrite (proj1 (proj2 (wrapper_set_mtu true (demo_kcp demo_fresh) 49 Hw ltac:(lia)
    (Forall_nil_2 _)))).
  vm_compute. reflexivity.
Defined.

(** [Kcp::write_ack_head] appends 28 bytes: a complete 24-byte header, whose command is
    the acknowledgement with the flags and whose length is always zero, and then the payload
    size, where the payload should start. *)
Theorem write_ack_head_layout {BM : BytesMut} {BML : BytesMutLaws BM} elapsed (this : Kcp) buf flags n :
  0 <= n < 4294967296 ->
  bm_bytes (Kcp_write_ack_head elapsed this buf flags n) =
    bm_bytes buf ++ ikcp_encode_seg [] (ack_head elapsed this flags) ++ ikcp_encode32u [] n /\
  ikcp_decode_header (ikcp_encode_seg [] (ack_head elapsed this flags) ++ ikcp_encode32u [] n) =
    (ikcp_encode32u [] n, seg_header (ack_head elapsed this flags)) /\
  h_len (seg_header (ack_head elapsed this flags)) = 0.
Proof.
  intros Hn. split; [by apply Kcp_write_ack_head_spec|]. split; [apply ikcp_decode_encode_seg|done].
Qed.

Lemma write_ack_head_layout_witness :
  Zlen (bm_bytes (Kcp_write_ack_head (0, 0) (demo_kcp demo_fresh) bm_new KCP_RESET 16)) = 28.
Proof.
  rewrite (proj1 (write_ack_head_layout (0, 0) (demo_kcp demo_fresh) bm_new KCP_RESET 16 ltac:(lia))).
  vm_compute. reflexivity.
Defined.

(** ** The number cache *)
Section Cache.
Context {M : LinkedHashMap Z Z} {ML : LinkedHashMapLaws Z Z M}.

(** C20: after a session's number is put in the cache, and whatever other calls are made, no
    [allocate] within the timeout returns it; what it returns is a valid number that is not in
    use. *)
Theorem cache_no_reuse to t0 t this t1 conv t2 this2 t3 fuel draw exists_ c :
  0 < to -> runs t0 (ConvCache_new to) t this -> is_valid_conv conv = true -> t <= t1 ->
  runs t1 (ConvCache_add conv t1 this) t2 this2 -> t2 <= t3 -> t3 - t1 < to ->
  fst (ConvCache_allocate fuel draw exists_ t3 this2) = Some c ->
  c <> conv /\ is_valid_conv c = true /\ exists_ c = false.
Proof.
  intros Hto Hr0 Hv Ht1 Hr2 Ht3 Hage Ha.
  destruct (runs_timed _ _ _ _ Hr0 (timed_new t0 to)) as [Ht Eto].
  assert (timed t1 (ConvCache_add conv t1 this)) as Htadd
    by (apply (timed_exec (Add conv) t t1 this Ht Ht1)).
  assert (timeout (ConvCache_add conv t1 this) = to) as Etadd.
  { transitivity (timeout this); [apply (cache_exec_timeout (Add conv))|exact Eto]. }
  eapply (runs_allocate_fresh t1 conv _ t2 this2 t3); rewrite ?Etadd; try done.
  by apply held_add.
Qed.

(** [allocate] terminates as soon as the generator gives a number that is valid, not in
    use and not held, and returns that number. *)
Theorem cache_allocate_total n fuel draw exists_ now this :
  let m := map_ (ConvCache_update this now) in
  let free c := is_valid_conv c && negb (exists_ c) && negb (lhm_contains_key m c) in
  (n < fuel)%nat -> free (draw n) = true ->
  (forall j, (j < n)%nat -> free (draw j) = false) ->
  fst (ConvCache_allocate fuel draw exists_ now this) = Some (draw n).
Proof.
  intros m free Hn Hf Hlt. unfold ConvCache_allocate. cbn [fst].
  pose proof (allocate_loop_total n fuel draw 0 exists_ m Hn Hf Hlt) as E. unfold m in E.
  cbv zeta. by rewrite E.
Qed.

(** The lazy expiry, which looks only at the front of the map, removes exactly the entries
    older than the timeout, in any state a history of calls leads to. *)
Theorem cache_expiry to t0 t this now :
  runs t0 (ConvCache_new to) t this -> t <= now ->
  entries (ConvCache_update this now) = filter (alive this now) (entries this) /\
  fst (ConvCache_dump now this) = map fst (filter (alive this now) (entries this)).
Proof.
  intros Hr Hle. destruct (runs_timed _ _ _ _ Hr (timed_new t0 to)) as [Ht _].
  pose proof (ConvCache_update_filter this now t Ht) as E. split; [exact E|].
  unfold ConvCache_dump. cbn [fst]. by rewrite <- E.
Qed.
End Cache.

#[local] Existing Instance list_lhm.
#[local] Existing Instance list_lhm_laws.

Definition demo_cache : Inner := ConvCache_add 5 10 (ConvCache_new 100).

Lemma cache_no_reuse_witness :
  fst (ConvCache_allocate 3 (fun n => 5 + Z.of_nat n) (fun _ => false) 50 demo_cache) = Some 6 /\
  6 <> 5.
Proof.
  assert (fst (ConvCache_allocate 3 (fun n => 5 + Z.of_nat n) (fun _ => false) 50 demo_cache) = Some 6)
    as E by (vm_compute; reflexivity).
  split; [exact E|].
  exact (proj1 (cache_no_reuse 100 0 0 (ConvCache_new 100) 10 5 10 demo_cache 50 3
    (fun n => 5 + Z.of_nat n) (fun _ => false) 6 ltac:(lia) (runs_refl _ _) eq_refl ltac:(lia)
    (runs_refl _ _) ltac:(lia) ltac:(lia) E)).
Defined.

Lemma cache_allocate_total_witness :
  fst (ConvCache_allocate 3 (fun n => 5 + Z.of_nat n) (fun c => c =? 6) 50 demo_cache) = Some 7.
Proof.
  apply (cache_allocate_total 2 3 (fun n => 5 + Z.of_nat n) (fun c => c =? 6) 50 demo_cache);
    [lia|vm_compute; reflexivity|].
  intros [|[|j]] Hj; [vm_compute; reflexivity|vm_compute; reflexivity|lia].
Defined.

Lemma demo_cache_runs : runs 0 (ConvCache_new 100) 10 demo_cache.
Proof. apply (runs_step 0 _ (Add 5) 10); [lia|apply runs_refl]. Qed.

Lemma cache_expiry_witness :
  runs 0 (ConvCache_new 100) 10 demo_cache /\ fst (ConvCache_dump 200 demo_cache) = [] /\
  fst (ConvCache_dump 50 demo_cache) = [5].
Proof.
  split; [exact demo_cache_runs|].
  rewrite (proj2 (cache_expiry 100 0 10 demo_cache 200 demo_cache_runs ltac:(lia))).
  rewrite (proj2 (cache_expiry 100 0 10 demo_cache 50 demo_cache_runs ltac:(lia))).
  vm_compute. split; reflexivity.
Defined.
