(* ===== verification/TaskProps.v ===== *)
(** The contract of the session task and of the two ends of a session. *)
From Stdlib Require Import Strings.Byte.
From stdpp Require Import relations.
From S2P Require Import Prelude Bytes IkcpTypes IkcpSend IkcpInput IkcpFlush IkcpFlushSpec.
From S2P Require Import IkcpTimer IkcpInv Wire Delivery Protocol ProtocolSpec Config Stream.
From S2P Require Import StreamIo StreamSpec StreamSafe StreamWire Handshake Session HalfClose Lifetime Demo.

#[local] Existing Instance list_bytes_mut.
#[local] Existing Instance list_bytes_mut_laws.

(** ** The whole task *)

(** C7: a task never panics.  For every configuration whose mtu [ikcp_setmtu] takes and whose
    handshake frame fits the smallest window, it starts; and in every state its loop reaches,
    whatever the clock reads, whatever bytes the transport delivers and whatever the channels
    do, the head of the loop and every branch of the [select!] run to their end: no [unwrap] of
    an error, no index out of range, no [unreachable!()]. *)
Theorem run_never_panics {BM : BytesMut} {BML : BytesMutLaws BM} clock c cv draw :
  config_ok c -> 0 <= cv < 4294967296 ->
  exists t0, run_start clock true draw (Task_new c cv) = Some t0 /\
    forall t tx, rtc (run_step clock event_ok) (t0, None) (t, tx) ->
    forall feed_ok flush_ok cancelled,
      exists ps v t', loop_head clock feed_ok flush_ok cancelled t = Some (ps, v, t') /\
        forall ev, event_ok ev t' -> is_Some (select_branch clock ev t' tx).
Proof.
  intros Hc Hcv. destruct (run_start_ok clock c cv draw Hc Hcv) as (t0 & E & H0 & _).
  exists t0. split; [exact E|]. intros t tx Hr feed fl can.
  pose proof (run_reachable_ok clock _ _ Hr H0) as Ht. cbn [fst] in Ht.
  destruct (loop_head_ok clock feed fl can t Ht) as (ps & v & t' & El & Ht').
  exists ps, v, t'. split; [exact El|]. intros ev Hev.
  destruct (select_branch_ok clock ev t' tx Ht' Hev) as (o & g & x & t2 & -> & _). by eexists.
Qed.

Lemma demo_config_ok : config_ok demo_config.
Proof. vm_compute. repeat split; congruence. Qed.

(** The server of the example session, and the client's first packet. *)
Definition demo_server : Task :=
  default (Task_new demo_config 7) (run_start demo_clock true demo_draw (Task_new demo_config 7)).
Definition demo_client : Task :=
  default (Task_new demo_config SYN_CONV)
    (run_start demo_clock true demo_draw (Task_new demo_config SYN_CONV)).

(** Both have started. *)
Lemma demo_started :
  run_start demo_clock true demo_draw (Task_new demo_config SYN_CONV) = Some demo_client /\
  run_start demo_clock true demo_draw (Task_new demo_config 7) = Some demo_server.
Proof.
  unfold demo_client, demo_server. split.
  - destruct (run_start_ok demo_clock demo_config SYN_CONV demo_draw demo_config_ok) as (t & -> & _);
      [unfold SYN_CONV; lia|done].
  - destruct (run_start_ok demo_clock demo_config 7 demo_draw demo_config_ok) as (t & -> & _);
      [lia|done].
Qed.

Definition demo_syn : bytes := hd [] (outputs (t_kcp demo_client)).
Definition demo_event : event := EvTransport (Some demo_syn) [] true.

Lemma run_never_panics_witness :
  config_ok demo_config /\
  exists t0 ps v t', run_start demo_clock true demo_draw (Task_new demo_config 7) = Some t0 /\
    loop_head demo_clock (fun _ => true) true false t0 = Some (ps, v, t') /\
    is_Some (select_branch demo_clock demo_event t' None).
Proof.
  split; [exact demo_config_ok|].
  destruct (run_never_panics demo_clock demo_config 7 demo_draw demo_config_ok ltac:(lia))
    as (t0 & E & H).
  destruct (H t0 None (rtc_refl _ _) (fun _ => true) true false) as (ps & v & t' & El & He).
  exists t0, ps, v, t'. split; [exact E|]. split; [exact El|]. by apply He.
Defined.

(** C19: a session only moves forward: along any run of the loop the handshake state never goes
    back, the role and the configuration never change, a received FIN and a closed input are
    never forgotten, and a closed input channel is never reopened. *)
Theorem run_forward {BM : BytesMut} clock allowed s s' :
  rtc (run_step clock allowed) s s' -> forward (fst s) (fst s').
Proof.
  induction 1 as [s|s1 s2 s3 Hs _ IH]; [done|]. transitivity (fst s2); [|exact IH].
  by apply (run_step_forward clock allowed).
Qed.

Lemma demo_server_ok : task_ok demo_server.
Proof.
  destruct (run_start_ok demo_clock demo_config 7 demo_draw demo_config_ok ltac:(lia))
    as (t & E & Ht & _).
  unfold demo_server. rewrite E. exact Ht.
Qed.

#[local] Opaque demo_server.

(** One turn of the server's loop, which receives the client's packet. *)
Definition demo_head : option (list bytes * verdict * Task) :=
  loop_head demo_clock (fun _ => true) true false demo_server.
Definition demo_branch : option (list Output * bool * option bytes * Task) :=
  match demo_head with
  | Some (_, Select _, t) => select_branch demo_clock demo_event t None
  | _ => None
  end.
Definition demo_connected : Task :=
  match demo_branch with Some (_, _, _, t) => t | None => demo_server end.

Lemma demo_turn : exists tx,
  run_step demo_clock event_ok (demo_server, None) (demo_connected, tx).
Proof.
  assert (match demo_branch with Some (_, go, _, _) => go | None => false end = true) as Hgo
    by (vm_compute; reflexivity).
  unfold demo_connected. destruct demo_branch as [[[[out go] tx] t']|] eqn:E; [|discriminate Hgo].
  subst go. unfold demo_branch in E.
  destruct demo_head as [[[ps [| |iv]] t]|] eqn:Eh;
    [discriminate E|discriminate E| |discriminate E].
  unfold demo_head in Eh. exists tx.
  exact (run_select demo_clock event_ok (fun _ => true) true demo_server None ps iv t demo_event
    out tx t' Eh eq_refl I E).
Qed.

Lemma demo_connected_hs : t_hs demo_server = Syn /\ t_hs demo_connected = Connected.
Proof. split; vm_compute; reflexivity. Qed.

#[local] Opaque demo_connected demo_client.

Lemma run_forward_witness :
  t_hs demo_server = Syn /\ t_hs demo_connected = Connected /\
  exists tx, rtc (run_step demo_clock event_ok) (demo_server, None) (demo_connected, tx) /\
    forward demo_server demo_connected.
Proof.
  split; [apply demo_connected_hs|]. split; [apply demo_connected_hs|].
  destruct demo_turn as [tx Hs]. exists tx. pose proof (rtc_once _ _ Hs) as Hr.
  split; [exact Hr|]. exact (run_forward demo_clock event_ok _ _ Hr).
Defined.

(** The FIN handshake never hangs inside [fin_transit_state]: its loop makes at most five
    turns, so more fuel than the model gives it changes nothing, and it ends in a state no
    earlier than the one it started in. *)
Theorem fin_transit_terminates {BM : BytesMut} {BML : BytesMutLaws BM} clock t :
  task_ok t ->
  exists t', (forall fuel, (6 <= fuel)%nat -> fin_loop clock fuel t = Some t') /\
    task_ok t' /\ forward t t'.
Proof.
  intros Ht. destruct (fin_transit_ok clock t Ht) as (t' & E & Ht'). exists t'.
  split; [|split; [done|by apply (fin_transit_forward clock t)]].
  intros fuel Hf. rewrite <- E. unfold fin_transit_state.
  induction Hf as [|fuel Hf IH]; [done|]. rewrite <- fin_loop_fuel by lia. exact IH.
Qed.

Lemma fin_transit_terminates_witness :
  task_ok demo_server /\
  exists t', fin_loop demo_clock 100 demo_server = Some t' /\ forward demo_server t'.
Proof.
  split; [exact demo_server_ok|].
  destruct (fin_transit_terminates demo_clock demo_server demo_server_ok) as (t' & H & _ & Hf).
  exists t'. split; [apply H; lia|exact Hf].
Defined.

(** ** Opening a session *)

(** C16: a session is established exactly on a frame that is the session key followed by an
    identifier of the configured length, which for a client must be its own; every other frame
    closes the session, and no message reaches the program. *)
Theorem handshake_authentic {BM : BytesMut} {BML : BytesMutLaws BM} clock tx_ok t ok out t' :
  t_hs t = Syn -> syn_handshake_recv clock tx_ok t = Some (ok, out, t') ->
  match fst (Task_kcp_recv t) with
  | None => ok = true /\ out = [] /\ t_hs t' = Syn
  | Some syn =>
      (t_hs t' = Connected <-> exists id, syn = session_key (t_config t) ++ id /\
         Zlen id = session_id_len (t_config t) /\ (is_client t = true -> t_session_id t = id)) /\
      (t_hs t' = Connected -> syn = session_key (t_config t) ++ t_session_id t' /\ ok = tx_ok) /\
      (t_hs t' <> Connected -> ok = false /\ out = [])
  end.
Proof. exact (syn_handshake_recv_spec clock tx_ok t ok out t'). Qed.

(** The server when the client's frame is in its receive queue. *)
Definition demo_syn_received : Task :=
  default demo_server (Task_kcp_input demo_clock demo_syn demo_server).
Definition demo_syn_result : option (bool * list Output * Task) :=
  syn_handshake_recv demo_clock true demo_syn_received.

Lemma demo_syn_facts :
  t_hs demo_syn_received = Syn /\ is_Some (fst (Task_kcp_recv demo_syn_received)) /\
  match demo_syn_result with Some (_, _, t) => t_hs t = Connected | None => False end.
Proof.
  split; [vm_compute; reflexivity|]. split; [|vm_compute; reflexivity].
  vm_compute. eexists. reflexivity.
Qed.

Lemma demo_syn_result_eq :
  syn_handshake_recv demo_clock true demo_syn_received = demo_syn_result.
Proof. unfold demo_syn_result. reflexivity. Qed.

#[local] Opaque demo_syn_received demo_syn_result.

Lemma handshake_authentic_witness :
  t_hs demo_syn_received = Syn /\
  exists ok out t' syn, demo_syn_result = Some (ok, out, t') /\
    fst (Task_kcp_recv demo_syn_received) = Some syn /\
    syn = session_key (t_config demo_syn_received) ++ t_session_id t' /\ ok = true.
Proof.
  destruct demo_syn_facts as (Hs & [syn Esyn] & Hr). split; [exact Hs|].
  pose proof demo_syn_result_eq as Eq.
  destruct demo_syn_result as [[[ok out] t']|]; [|destruct Hr].
  pose proof (handshake_authentic demo_clock true demo_syn_received ok out t' Hs Eq) as H.
  rewrite Esyn in H. destruct H as (_ & H & _). destruct (H Hr) as [E1 E2].
  exists ok, out, t', syn. split; [reflexivity|]. split; [exact Esyn|]. split; [exact E1|exact E2].
Defined.

(** ** The handshake completes *)

Lemma demo_greeting_ok : greeting_ok demo_config.
Proof. vm_compute. repeat split; congruence. Qed.

Definition demo_answer : option (list Output * option bytes * Task) :=
  on_transport demo_clock demo_syn [] true demo_server None.

Lemma demo_answer_eq : on_transport demo_clock demo_syn [] true demo_server None = demo_answer.
Proof. reflexivity. Qed.

Lemma demo_first_packets :
  outputs (t_kcp demo_client) = [demo_syn] /\ outputs (t_kcp demo_server) = [] /\
  t_hs demo_client = Syn /\ t_hs demo_server = Syn.
Proof. vm_compute. done. Qed.

Lemma demo_answer_one :
  match demo_answer with Some (_, _, t) => Zlen (outputs (t_kcp t)) = 1 | None => False end.
Proof. vm_compute. done. Qed.

#[local] Opaque demo_client demo_server demo_syn demo_answer on_transport.

(** The packets of the example session, one each way, and both ends connected. *)
Lemma handshake_completes_witness :
  exists q s2 c2,
    demo_answer = Some ([OutConnected 7], None, s2) /\ t_hs s2 = Connected /\
    on_transport demo_clock q [] true demo_client None = Some ([OutConnected 7], None, c2) /\
    t_hs c2 = Connected /\ Kcp_conv (t_kcp c2) = 7 /\ t_session_id c2 = t_session_id s2.
Proof.
  destruct demo_started as [Ec Es]. destruct demo_first_packets as (Oc & Os & Hc & Hs).
  destruct (handshake_completes demo_clock demo_clock demo_config demo_config 7 demo_draw demo_draw
    demo_client demo_client demo_server demo_server demo_greeting_ok demo_greeting_ok eq_refl eq_refl
    ltac:(lia) eq_refl Ec Es (rtc_refl _ _) Hc (rtc_refl _ _) Hs) as (p & ps & Ep & H).
  rewrite Oc in Ep. pose proof (f_equal (hd []) Ep) as Ep1. pose proof (f_equal (@tl _) Ep) as Ep2.
  cbn [hd tl] in Ep1, Ep2. rewrite <- Ep1, <- Ep2 in H. clear Ep Ep1 Ep2.
  destruct (H eq_refl) as (s2 & q & qs & E2 & G1 & G2 & G3 & H'). clear H.
  pose proof demo_answer_one as Hone. rewrite demo_answer_eq in E2.
  rewrite E2, G3, Os, app_nil_l, Zlen_cons in Hone.
  destruct qs as [|? ?]; [|rewrite Zlen_cons in Hone; pose proof (Zlen_nonneg qs); lia].
  destruct (H' eq_refl) as (c2 & E3 & K1 & K2 & K3).
  exists q, s2, c2. split_and!; try assumption. congruence.
Defined.

(** ** Closing a session *)

(** C17: a data packet that leaves in [FinSent] is marked with [KCP_FIN].  A receiver of the
    same conversation finds the mark, closes its input, moves its own state, takes the mark off
    and then takes the packet as it was before it was marked. *)
Theorem fin_roundtrip {BM : BytesMut} {BML : BytesMutLaws BM} clock p t d :
  packet_for (conv (handle (t_kcp t))) p -> read_payload_data p = Some d ->
  Task_kcp_input clock (marked FinSent p) t =
    match fin_transit_state clock (fin_received t) with
    | Some t' => Some (t' <| t_kcp := snd (Kcp_input (t_kcp t') p) |>)
    | None => None
    end.
Proof. exact (Task_kcp_input_fin clock p t d). Qed.

Lemma demo_packet_for : packet_for (conv (handle (t_kcp demo_connected))) demo_packet.
Proof. vm_compute. repeat split; congruence. Qed.

Lemma demo_packet_payload : read_payload_data demo_packet = Some demo_msg.
Proof. vm_compute. reflexivity. Qed.

Lemma fin_roundtrip_witness :
  packet_for (conv (handle (t_kcp demo_connected))) demo_packet /\
  marked FinSent demo_packet <> demo_packet /\
  Task_kcp_input demo_clock (marked FinSent demo_packet) demo_connected =
    match fin_transit_state demo_clock (fin_received demo_connected) with
    | Some t' => Some (t' <| t_kcp := snd (Kcp_input (t_kcp t') demo_packet) |>)
    | None => None
    end.
Proof.
  split; [exact demo_packet_for|]. split; [vm_compute; intros E; discriminate E|].
  exact (fin_roundtrip demo_clock demo_packet demo_connected demo_msg demo_packet_for
           demo_packet_payload).
Defined.




(** ** The event loop *)

(** The task hands its output queue to the transport in order, each packet marked as the
    state asks, up to the first refusal; after a refusal the rest is dropped, and either way the
    queue ends empty and the rest of the wrapper is as it was. *)
Theorem output_order {BM : BytesMut} feed_ok flush_ok hs (k : Kcp) :
  kcp_output feed_ok flush_ok hs k =
    Some (fed feed_ok 0 (map (marked hs) (outputs k)), flush_ok, k <| output_queue := [] |>).
Proof. exact (kcp_output_spec feed_ok flush_ok hs k). Qed.

(** C40: when a retransmission is due before the next scheduled flush, the loop does not wait:
    [ikcp_check] says now, [ikcp_update] does nothing but set the clock, and the loop goes round
    again in the same state, without reaching the [select!], until the flush is due. *)
Theorem loop_spins {BM : BytesMut} clock t :
  let now := get_system_time (clock (t_ticks t)) in
  let k := handle (t_kcp t) in
  t_hs t = Connected -> updated k <> 0 -> -10000 <= _itimediff now (ts_flush k) < 0 ->
  Exists (fun s => _itimediff (seg_resendts s) now <= 0) (snd_buf k) ->
  loop_wait clock t =
    (Again, t <| t_ticks := S (t_ticks t) |>
              <| t_kcp := (t_kcp t) <| handle := k <| current := now |> |> |>).
Proof.
  intros now k Hs Hu Hts Hdue. destruct (ikcp_check_overdue k now Hu Hts Hdue) as [Ec Eu].
  unfold loop_wait, system_time. fold now. unfold Kcp_check. simp_upd. fold k. rewrite Ec.
  rewrite decide_True, Z.sub_diag by done. cbn [Z.min Z.eqb Z.compare].
  unfold Kcp_update, after_output. fold k. rewrite Eu. reflexivity.
Qed.

(** A connected session whose only segment is due at 325, between the flushes at 300 and 400. *)
Definition demo_waiting : IKCPCB := kcp_exec (OpUpdate 300) (kcp_exec (OpUpdate 200) demo_sent).
Definition demo_spin : Task :=
  (Task_new demo_config 7)
    <| t_kcp := mkKcp demo_waiting (32768, 32768) bm_new bm_new [] |> <| t_hs := Connected |>.

Lemma loop_spins_witness :
  t_hs demo_spin = Connected /\ ts_flush demo_waiting = 400 /\
  map seg_resendts (snd_buf demo_waiting) = [325] /\
  fst (loop_wait (fun _ => (0, 330)) demo_spin) = Again.
Proof.
  assert (ts_flush demo_waiting = 400) as Ets by (vm_compute; reflexivity).
  assert (map seg_resendts (snd_buf demo_waiting) = [325]) as Edue by (vm_compute; reflexivity).
  assert (updated demo_waiting <> 0) as Hu by (vm_compute; intros E; discriminate E).
  assert (-10000 <= _itimediff 330 (ts_flush demo_waiting) < 0) as Hts
    by (rewrite Ets; vm_compute; split; congruence).
  assert (Exists (fun s => _itimediff (seg_resendts s) 330 <= 0) (snd_buf demo_waiting)) as Hdue.
  { destruct (snd_buf demo_waiting) as [|s q]; [discriminate Edue|]. injection Edue as Es _.
    left. rewrite Es. vm_compute. congruence. }
  split; [reflexivity|]. split; [exact Ets|]. split; [exact Edue|].
  rewrite (loop_spins (fun _ => (0, 330)) demo_spin eq_refl Hu Hts Hdue). reflexivity.
Defined.

(** ** The program's end *)

(** C36: [poll_read] loses, repeats and reorders nothing: what it puts in the caller's buffer,
    followed by what is still unread, is what was unread before; it puts something whenever it
    can, and reports the end of the stream only when everything has been read. *)
Theorem read_contract remaining rx closed s :
  0 <= remaining -> (forall b, ks_read_buf s = Some b -> b <> []) ->
  let '(p, put, rx', s') := poll_read remaining rx closed s in
  put ++ unread rx' s' = unread rx s /\ Zlen put <= remaining /\
  (forall b, ks_read_buf s' = Some b -> b <> []) /\
  (remaining = 0 \/ unread rx s = [] \/ put <> []) /\
  p = (if (remaining =? 0) || negb (bool_decide (unread rx s = [])) || closed
       then Ready (Ok tt) else Pending).
Proof. exact (poll_read_spec remaining rx closed s). Qed.

Lemma read_contract_witness :
  let rx := [OutConnected 7; OutFrame []; OutFrame demo_msg] in
  let '(p, put, rx', s') := poll_read 3 rx false (KcpStream_new demo_config) in
  p = Ready (Ok tt) /\ put ++ unread rx' s' = demo_msg.
Proof.
  pose proof (read_contract 3 [OutConnected 7; OutFrame []; OutFrame demo_msg] false
    (KcpStream_new demo_config) ltac:(lia) ltac:(discriminate)) as H.
  cbv zeta. destruct (poll_read 3 _ false (KcpStream_new demo_config)) as [[[p put] rx'] s'].
  destruct H as (E & _ & _ & _ & Ep). split; [rewrite Ep; reflexivity|rewrite E; reflexivity].
Defined.

(** C37: [poll_write] sends a prefix of the buffer, in frames that are not empty and not longer
    than the largest frame the protocol takes, and reports exactly its length; it reports an
    error or waits only when it sent nothing, and never reports zero for a nonempty buffer. *)
Theorem write_contract buf ready send_ok s :
  max_frame_size (cfg_mtu (ks_config s)) <> 0 ->
  let '(r, sent) := poll_write buf ready send_ok s in
  Forall (fun c => c <> [] /\ Zlen c <= max_frame_size (cfg_mtu (ks_config s))) sent /\
  match r with
  | Ready (Ok n) => concat sent = take (Z.to_nat n) buf /\ n = Zlen (concat sent) /\
      (buf <> [] -> 0 < n)
  | Ready (Err e) => e = NotConnected /\ sent = []
  | Ready Panic => False
  | Pending => sent = []
  end.
Proof. exact (poll_write_spec buf ready send_ok s). Qed.

Lemma write_contract_witness :
  max_frame_size (cfg_mtu demo_config) = 350880 /\
  let '(r, sent) := poll_write demo_msg (fun _ => Ready true) (fun _ => true)
    (KcpStream_new demo_config) in r = Ready (Ok 5) /\ concat sent = demo_msg.
Proof.
  split; [vm_compute; reflexivity|].
  pose proof (write_contract demo_msg (fun _ => Ready true) (fun _ => true)
    (KcpStream_new demo_config) ltac:(vm_compute; discriminate)) as H.
  assert (fst (poll_write demo_msg (fun _ => Ready true) (fun _ => true)
    (KcpStream_new demo_config)) = Ready (Ok 5)) as E by (vm_compute; reflexivity).
  destruct (poll_write demo_msg _ _ (KcpStream_new demo_config)) as [r sent].
  cbn [fst] in E. subst r. split; [reflexivity|]. destruct H as (_ & -> & _). reflexivity.
Defined.
