(* ===== verification/UdpProps.v ===== *)
(** The contract of the listener, of the half-close pool and of the transports. *)
From Stdlib Require Import Strings.Byte.
From stdpp Require Import relations.
From S2P Require Import Prelude HashLink Bytes Protocol ProtocolSpec Config ConvCache Stream.
From S2P Require Import StreamIo Session Transport HalfClose Udp UdpSpec UdpLoop TaskProps.

(** ** The listener *)
Section Listener.
Context {SocketAddr : Type} {EqAddr : EqDecision SocketAddr}.
Context {MC : LinkedHashMap Z Z} {MT : LinkedHashMap Z (@Session SocketAddr)}.
Context {MI : LinkedHashMap bytes Z}.
Context {LC : LinkedHashMapLaws Z Z MC} {LT : LinkedHashMapLaws Z Session MT}.
Context {LI : LinkedHashMapLaws bytes Z MI}.

(** C21: in every state the listener's loop reaches, whatever packets and messages it gets, the
    table of sessions and the table of identifiers are inverse to each other, every number in
    use is valid and every identifier has the configured length. *)
Theorem listener_tables fuel now config cache s :
  rtc (udp_any fuel) (udp_start now (UdpTask_new config cache)) s -> udp_ok (us_task s).
Proof. intros Hr. apply (udp_reachable_ok fuel _ _ Hr), udp_ok_new. Qed.

(** C22: a packet is given to a session exactly when it came from the address of that session
    and carries its number, or asks for a session with its identifier; there is at most one
    such session. *)
Theorem packet_routing fuel e packet addr (t : UdpTask) eff t' :
  udp_ok t -> on_packet fuel e packet addr t = Some (eff, t') ->
  (forall c p, Forwarded c p ∈ eff <->
     p = packet /\ exists s, s_conv s = c /\ routes t' packet addr s) /\
  (forall s s', routes t' packet addr s -> routes t' packet addr s' -> s = s').
Proof.
  intros Hok E. destruct (on_packet_spec fuel e packet addr t eff t' Hok E) as [Hok' H].
  split; [|intros s s'; by apply routes_unique]. intros c p.
  destruct H as [(-> & -> & Hno)|[(-> & s & -> & Hs)|(s & sid & -> & Hs & _)]].
  - split; [by intros ?%not_elem_of_nil|]. intros (_ & s & _ & Hs). by destruct (Hno s).
  - rewrite list_elem_of_singleton. split; [intros [= -> ->]; split; [done|by exists s]|].
    intros (-> & s' & <- & Hs'). by rewrite (routes_unique t packet addr s s' Hok' Hs Hs').
  - rewrite elem_of_cons, list_elem_of_singleton. split.
    + intros [?|[= -> ->]]; [done|]. split; [done|by exists s].
    + intros (-> & s' & <- & Hs'). right. by rewrite (routes_unique t' packet addr s s' Hok' Hs Hs').
Qed.

Lemma session_spawned fuel e packet addr (t : UdpTask) eff t' c a :
  udp_ok t -> on_packet fuel e packet addr t = Some (eff, t') -> Spawned c a ∈ eff ->
  a = addr /\ exists sid,
    (syn_for t packet sid /\ u_is_closing t = false /\ e_permit e = true /\
     lhm_get (u_sid_map t) sid = None /\ is_valid_conv c = true /\ c ∉ map fst (sessions t)) /\
    fst (ConvCache_allocate fuel (e_draw e) (fun x => lhm_contains_key (u_conv_map t) x) (e_now e)
           (u_conv_cache t)) = Some c /\
    sessions t' = sessions t ++ [(c, mkSession c sid addr true true)].
Proof.
  intros Hok E.
  destruct (on_packet_spec fuel e packet addr t eff t' Hok E)
    as [_ [(_ & -> & _)|[(_ & s & -> & _)|(s & sid & -> & _ & Hs & Hc & Hp & Hi & En)]]].
  - by intros ?%not_elem_of_nil.
  - by intros ?%list_elem_of_singleton.
  - intros [[= -> ->]|?%list_elem_of_singleton]%elem_of_cons; [|done]. split; [done|].
    destruct (new_session_spec fuel e sid addr t s t' Hok Hi (proj2 (proj2 Hs)) En)
      as (Es & Hv & Hn & Et & _ & Ea & _).
    exists sid. split_and!; try done. by rewrite Et, <- Es.
Qed.

(** C23: a session is made exactly for a packet that carries [SYN_CONV] and the session key
    followed by an unknown identifier of the configured length, while the listener is open and
    the backlog has room; it gets the number [allocate] gives, which is valid and not in use,
    and no other session is touched. *)
Theorem session_creation fuel e packet addr (t : UdpTask) eff t' c a :
  udp_ok t -> on_packet fuel e packet addr t = Some (eff, t') ->
  Spawned c a ∈ eff <->
  a = addr /\ exists sid, syn_for t packet sid /\ u_is_closing t = false /\ e_permit e = true /\
    lhm_get (u_sid_map t) sid = None /\ is_valid_conv c = true /\ c ∉ map fst (sessions t) /\
    fst (ConvCache_allocate fuel (e_draw e) (fun x => lhm_contains_key (u_conv_map t) x) (e_now e)
           (u_conv_cache t)) = Some c /\
    sessions t' = sessions t ++ [(c, mkSession c sid addr true true)].
Proof.
  intros Hok E. split.
  - intros H. destruct (session_spawned fuel e packet addr t eff t' c a Hok E H)
      as (-> & sid & H1 & H2 & H3). split; [done|]. exists sid. naive_solver.
  - intros (-> & sid & Hs & Hc & Hp & Hi & _ & _ & Ea & _).
    rewrite (on_packet_syn fuel e packet addr t sid Hok Hs Hc Hp Hi) in E.
    revert E. unfold new_session.
    destruct (ConvCache_allocate fuel (e_draw e) _ (e_now e) (u_conv_cache t)) as [o cache].
    cbn [fst] in Ea. subst o. intros [= <- <-]. by left.
Qed.

(** C24: As long as a session lasts, a packet that went to it makes no other and goes to no other.
    Once a packet, such as the client's SYN, has gone to a session, then in every state the
    listener reaches while the number of that session stays in the table, whatever packets and
    messages come in between, the same packet goes to the same session if it comes from the same
    address, goes nowhere if it comes from another one, and changes nothing either way. *)
Theorem syn_idempotent fuel e packet addr (t : UdpTask) eff t' c now pc msgs s2 :
  udp_ok t -> on_packet fuel e packet addr t = Some (eff, t') -> Forwarded c packet ∈ eff ->
  rtc (udp_while fuel c) (mkUdpSys now pc msgs t') s2 ->
  forall e' addr', on_packet fuel e' packet addr' (us_task s2) =
    Some (if decide (addr' = addr) then [Forwarded c packet] else [], us_task s2).
Proof.
  intros Hok E Hin Hr e' addr'.
  assert (exists s, udp_ok t' /\ s_conv s = c /\ routes t' packet addr s) as (s & Hok' & Hc & Hs).
  { destruct (on_packet_spec fuel e packet addr t eff t' Hok E)
      as [Hok' [(_ & -> & _)|[(-> & s & -> & Hs)|(s & sid & -> & Hs & _)]]]; [by apply not_elem_of_nil in Hin|..];
      exists s; (split; [done|]); (split; [|done]).
    - apply list_elem_of_singleton in Hin. by injection Hin as ->.
    - apply elem_of_cons in Hin as [|Hin%list_elem_of_singleton]; [done|]. by injection Hin as ->. }
  destruct Hs as (Hs & Ha & Hp). rewrite Hc in Hs, Hp.
  destruct (lives_while fuel c (s_session_id s) addr _ _ Hr Hok') as (Hok2 & (s' & Hs' & Hi & Ha') & Ec);
    [by exists s|]. cbn [us_task] in Ec.
  destruct (ok_session _ Hok2 c s' Hs') as (Hc' & _).
  assert (routes (us_task s2) packet addr s') as Hr'.
  { split; [by rewrite Hc'|]. split; [done|]. rewrite Hc', Hi. unfold syn_for. by rewrite Ec. }
  unfold on_packet. rewrite (get_session_routed fuel e' packet addr addr' _ s' Hok2 Hr').
  destruct (decide (addr' = addr)); [|done]. by rewrite Hc'.
Qed.

(** C25: a number stays out of use for [LISTENER_CONV_TIMEOUT] after its session ended: whatever
    happens to the listener in between, a session made earlier than that has another number. *)
Theorem number_not_reused fuel now config s1 t1 c s pc msgs s2 e packet addr r eff t3 :
  rtc (udp_any fuel) (udp_start now (UdpTask_new config None)) s1 -> us_now s1 <= t1 ->
  lhm_get (u_conv_map (us_task s1)) c = Some s ->
  rtc (udp_any fuel)
    (mkUdpSys t1 pc msgs (snd (process_msg t1 (Disconnect c) (us_task s1)))) s2 ->
  us_now s2 <= e_now e -> e_now e - t1 < LISTENER_CONV_TIMEOUT ->
  on_packet fuel e packet addr (us_task s2) = Some (eff, t3) -> Spawned r addr ∈ eff -> r <> c.
Proof.
  intros Hr1 Ht1 Hg Hr2 Ht3 Hage E Hin.
  pose proof (udp_ok_new config None) as Hok0.
  pose proof (udp_reachable_ok fuel _ _ Hr1 Hok0) as Hok1.
  pose proof (process_msg_ok t1 (Disconnect c) _ Hok1) as Hok1'.
  destruct (ok_session _ Hok1 c s (get_conv _ _ _ Hg)) as (Hc & Hv & _).
  destruct (disconnect_spec t1 c s _ Hg) as (_ & _ & Ec & _). rewrite Hc in Ec.
  destruct (udp_reachable_cache fuel _ _ Hr1 Hok0) as (m1 & Hm1 & H1).
  destruct (udp_reachable_cache fuel _ _ Hr2 Hok1') as (m2 & Hm2 & H2).
  cbn [us_now us_task udp_start] in H1, H2. rewrite Ec in H2.
  destruct (runs_timed _ _ _ _ H1 (timed_new now LISTENER_CONV_TIMEOUT)) as [Htm Eto].
  assert (timeout (ConvCache_add c t1 (u_conv_cache (us_task s1))) = LISTENER_CONV_TIMEOUT) as Eto'.
  { transitivity (timeout (u_conv_cache (us_task s1))); [apply (cache_exec_timeout (Add c))|exact Eto]. }
  pose proof (udp_reachable_ok fuel _ _ Hr2 Hok1') as Hok2.
  apply (session_spawned fuel e packet addr _ eff t3 r addr Hok2 E) in Hin as (_ & sid & _ & Ha & _).
  eapply (runs_allocate_fresh t1 c _ m2 _ (e_now e)); rewrite ?Eto'; try done; [| |lia].
  - apply (timed_exec (Add c) m1 t1 _ Htm). lia.
  - by apply held_add.
Qed.

(** C29: one turn of the receiving branch handles at most [n] packets, in order; if more are
    ready, it takes one more from the socket, which no session ever gets. *)
Theorem burst_loses_one fuel n env d (ds : list (bytes * SocketAddr)) (t : UdpTask) :
  (0 < n)%nat ->
  recv_loop fuel n env (item d) (map item ds) t =
    match on_packets fuel env (take n (d :: ds)) t with
    | Some (eff, t') => Some (eff, map item (drop n ds), t')
    | None => None
    end /\
  d :: ds = take n (d :: ds) ++ take 1 (drop n (d :: ds)) ++ drop n ds.
Proof.
  intros Hn. split; [by apply recv_loop_burst|]. destruct n as [|n]; [lia|]. cbn [take drop app].
  f_equal. rewrite <- (take_drop n ds) at 1. f_equal.
  rewrite <- (take_drop 1 (drop n ds)) at 1. f_equal. rewrite drop_drop. f_equal. lia.
Qed.

(** C26: A listener that closes, once the end of every session is on its way, has at most [2 n + 1]
    more steps to make when [n] messages wait.  All the way, it goes on from the head of the loop by
    itself; in the [select!] any event takes it back to the head, and when no message is left, from
    there out of the loop; and when it leaves, no message and no session is left.  What it does not
    do is look again before the [select!]: an event has to come, as [closing_waits] shows. *)
Theorem closing_terminates fuel s :
  us_pc s = AtHead -> u_is_closing (us_task s) = true -> leaving (us_msgs s) (us_task s) ->
  (forall n s', nsteps (fun s s' => exists eff, udp_step fuel s eff s') n s s' ->
     (n <= 2 * length (us_msgs s) + 1)%nat) /\
  forall s', rtc (fun s s' => exists eff, udp_step fuel s eff s') s s' ->
    match us_pc s' with
    | AtHead => exists eff s'', udp_step fuel s' eff s''
    | AtSelect => forall now' env ev,
        clocked (us_now s') env now' -> udp_enabled ev (us_msgs s') (us_task s') = true ->
        exists eff s'', udp_step fuel s' eff s'' /\ us_pc s'' = AtHead /\ us_now s'' = now' /\
          (us_msgs s' = [] -> udp_step fuel s'' [] (mkUdpSys now' Left_ [] (us_task s'')))
    | Left_ => us_msgs s' = [] /\ sessions (us_task s') = []
    end.
Proof.
  intros Hpc Hc Hl. assert (shutting s) as Hsh by (unfold shutting; rewrite Hpc; done).
  assert (closing_work s = 2 * length (us_msgs s) + 1)%nat as <- by (unfold closing_work; by rewrite Hpc).
  clear Hpc Hc Hl. split.
  - intros n s' H. induction H as [s|n s1 s2 s3 [eff Hs] _ IH]; [lia|].
    destruct (shutting_step fuel s1 eff s2 Hs Hsh) as [Hsh2 Hlt]. specialize (IH Hsh2). lia.
  - intros s' H. induction H as [s|s1 s2 s3 [eff Hs] _ IH]; [|by eapply IH, shutting_step].
    destruct s as [now pc msgs t], Hsh as (Hc & Hl & He). cbn [us_now us_pc us_msgs us_task] in *.
    destruct pc; [| |split; [by apply He|apply (no_message_no_session msgs); [done|by apply He]]].
    + destruct (udp_head now msgs t) as [[[eff msgs'] t']|] eqn:E; eexists _, _.
      * by apply (udp_step_head fuel now now).
      * by apply udp_step_leave.
    + intros now' env ev Hck Hen. destruct (closing_branch_runs fuel env ev msgs t Hc) as (eff & msgs' & t' & Eb).
      destruct (closing_branch fuel env ev msgs t eff msgs' t' Hc Hl Eb) as (H1 & H2 & H3).
      exists eff, (mkUdpSys now' AtHead msgs' t'). split; [by eapply udp_step_branch|]. split; [done|]. split; [done|].
      intros ->. destruct msgs'; [|cbn in H3; lia]. cbn [us_task]. apply udp_step_leave.
      pose proof (closing_head now' [] t' H1 H2) as Hh.
      destruct (udp_head now' [] t') as [[[? ?] ?]|]; [|done]. by destruct Hh as (_ & _ & ?).
Qed.

(** C38: when the head of the loop handles the last message, and with it the last session, the loop
    still goes to its [select!], where nothing but a packet can wake it. *)
Theorem closing_waits now c (t : UdpTask) :
  udp_ok t -> u_is_closing t = true -> map fst (sessions t) = [c] ->
  exists eff t', udp_head now [Disconnect c] t = Some (eff, [], t') /\ sessions t' = [] /\
    udp_enabled (@UdpMsg SocketAddr) [] t' = false /\
    udp_enabled (@UdpCancelled SocketAddr) [] t' = false /\ udp_head now [] t' = None.
Proof.
  intros Hok Hc Hs. unfold udp_head at 1. rewrite Hc.
  destruct (process_msg now (Disconnect c) t) as [eff t'] eqn:E. exists eff, t'.
  pose proof (closing_process now (Disconnect c) t) as Hc'. rewrite E in Hc'. cbn [snd] in Hc'.
  assert (sessions t' = []) as Hs'.
  { destruct (sessions t') as [|[c' s'] l] eqn:El; [done|]. exfalso.
    destruct (sessions_process now (Disconnect c) t c') as [H1 H2].
    - rewrite E. cbn [snd]. rewrite El. by left.
    - rewrite Hs in H1. apply list_elem_of_singleton in H1 as ->. done. }
  split_and!; [done|done|done| |].
  - cbn. rewrite Hc', Hc. apply andb_false_r.
  - unfold udp_head. rewrite Hc', Hc, lhm_is_empty_law. unfold sessions in Hs'. by rewrite Hs'.
Qed.
End Listener.

(** *** A concrete listener *)

Section DemoListener.
#[local] Existing Instance list_lhm.
#[local] Existing Instance list_lhm_laws.

(** Addresses are numbers; the packet is the client's first one. *)
Definition demo_env : udp_env := mkUdpEnv 1000 (fun n => 5 + Z.of_nat n) true.
Definition demo_listener : @UdpTask nat _ _ _ := UdpTask_new demo_config None.
Definition demo_first : option (list (@effect nat) * UdpTask) :=
  on_packet 3 demo_env demo_syn 80%nat demo_listener.
Definition demo_listening : UdpTask := match demo_first with Some (_, t) => t | None => demo_listener end.

Lemma demo_first_eq :
  on_packet 3 demo_env demo_syn 80%nat demo_listener =
    Some ([Spawned 5 80%nat; Forwarded 5 demo_syn], demo_listening).
Proof. vm_compute. reflexivity. Qed.

Lemma demo_listener_ok : udp_ok demo_listener.
Proof. apply udp_ok_new. Qed.

Lemma demo_listening_ok : udp_ok demo_listening.
Proof. exact (proj1 (on_packet_spec 3 _ _ _ _ _ _ demo_listener_ok demo_first_eq)). Qed.

Lemma demo_session : lhm_get (u_conv_map demo_listening) 5 =
  Some (mkSession 5 [x21; x22; x23; x24] 80%nat true true).
Proof. vm_compute. reflexivity. Qed.

#[local] Opaque demo_syn demo_listening.

Lemma demo_head :
  udp_step 3 (udp_start 0 demo_listener) [] (mkUdpSys 500 AtSelect [] demo_listener).
Proof. by apply udp_step_head. Qed.

Lemma demo_recv :
  udp_branch 3 (fun _ => demo_env) (UdpRecv (Some (Datagram demo_syn 80%nat)) []) [] demo_listener =
    Some ([Spawned 5 80%nat; Forwarded 5 demo_syn], [], demo_listening).
Proof.
  unfold udp_branch. change [] with (map (@item nat) []) at 1.
  change (Some (Datagram demo_syn 80%nat)) with (item (demo_syn, 80%nat)).
  rewrite recv_loop_burst by (unfold LISTENER_TASK_LOOP; lia).
  rewrite take_ge by (cbn [length]; unfold LISTENER_TASK_LOOP; lia).
  cbn [on_packets]. rewrite demo_first_eq. reflexivity.
Qed.

Lemma demo_branch_step :
  udp_step 3 (mkUdpSys 500 AtSelect [] demo_listener) [Spawned 5 80%nat; Forwarded 5 demo_syn]
    (mkUdpSys 1000 AtHead [] demo_listening).
Proof.
  apply (udp_step_branch 3 500 1000 (fun _ => demo_env)
    (UdpRecv (Some (Datagram demo_syn 80%nat)) [])); [|reflexivity|exact demo_recv].
  split; [cbn [e_now demo_env]; lia|]. intros _. cbn [e_now demo_env]. lia.
Qed.

Lemma demo_run : rtc (udp_any 3) (udp_start 0 demo_listener) (mkUdpSys 1000 AtHead [] demo_listening).
Proof.
  eapply rtc_l; [right; eexists; exact demo_head|].
  eapply rtc_l; [right; eexists; exact demo_branch_step|]. apply rtc_refl.
Qed.

Lemma listener_tables_witness :
  rtc (udp_any 3) (udp_start 0 demo_listener) (mkUdpSys 1000 AtHead [] demo_listening) /\
  udp_ok demo_listening.
Proof.
  split; [exact demo_run|].
  exact (listener_tables 3 0 demo_config None (mkUdpSys 1000 AtHead [] demo_listening) demo_run).
Defined.

Lemma packet_routing_witness :
  udp_ok demo_listener /\ exists s, s_conv s = 5 /\ routes demo_listening demo_syn 80%nat s.
Proof.
  split; [exact demo_listener_ok|].
  destruct (packet_routing 3 demo_env demo_syn 80%nat demo_listener _ demo_listening
    demo_listener_ok demo_first_eq) as [H _].
  apply (H 5 demo_syn). right. left.
Defined.

Lemma session_creation_witness :
  udp_ok demo_listener /\
  exists sid, sessions demo_listening = [(5, mkSession 5 sid 80%nat true true)].
Proof.
  split; [exact demo_listener_ok|].
  destruct (proj1 (session_creation 3 demo_env demo_syn 80%nat demo_listener _ demo_listening
    5 80%nat demo_listener_ok demo_first_eq)) as (_ & sid & _ & _ & _ & _ & _ & _ & _ & E); [left|].
  exists sid. exact E.
Defined.

(** The program accepts the session, and its client repeats the SYN. *)
Definition demo_accepted : UdpTask := snd (process_msg 1500 (Connect 5) demo_listening).

Lemma demo_while : rtc (udp_while 3 5) (mkUdpSys 1000 AtSelect [Connect 5] demo_listening)
  (mkUdpSys 1500 AtHead [] demo_accepted).
Proof.
  apply rtc_once. split; [|vm_compute; left]. right. exists (fst (process_msg 1500 (Connect 5) demo_listening)).
  apply (udp_step_branch 3 1000 1500 (fun _ => mkUdpEnv 1500 (fun n => 5 + Z.of_nat n) true) UdpMsg);
    [|reflexivity|unfold udp_branch, demo_accepted; cbn [e_now]; by destruct (process_msg 1500 (Connect 5) _)].
  split; [cbn [e_now]; lia|]. intros _. cbn [e_now]. lia.
Qed.

Lemma syn_idempotent_witness :
  udp_ok demo_listener /\
  on_packet 3 demo_env demo_syn 80%nat demo_accepted = Some ([Forwarded 5 demo_syn], demo_accepted) /\
  on_packet 3 demo_env demo_syn 81%nat demo_accepted = Some ([], demo_accepted).
Proof.
  assert (Forwarded 5 demo_syn ∈ [Spawned 5 80%nat; Forwarded 5 demo_syn]) as Hin by (right; left).
  pose proof (syn_idempotent 3 demo_env demo_syn 80%nat demo_listener _ demo_listening 5 1000 AtSelect
    [Connect 5] (mkUdpSys 1500 AtHead [] demo_accepted) demo_listener_ok demo_first_eq Hin demo_while) as H.
  split; [exact demo_listener_ok|]. split.
  - exact (H demo_env 80%nat).
  - exact (H demo_env 81%nat).
Defined.

(** The session ends at 2000 and the client comes back at 3000. *)
Definition demo_ended : UdpTask := snd (process_msg 2000 (Disconnect 5) demo_listening).
Definition demo_env2 : udp_env := mkUdpEnv 3000 (fun n => 5 + Z.of_nat n) true.
Definition demo_back : option (list (@effect nat) * UdpTask) :=
  on_packet 3 demo_env2 demo_syn 80%nat demo_ended.

Lemma demo_back_effects :
  match demo_back with Some (eff, _) => eff | None => [] end =
    [Spawned 6 80%nat; Forwarded 6 demo_syn].
Proof. vm_compute. reflexivity. Qed.

Lemma number_not_reused_witness :
  rtc (udp_any 3) (udp_start 0 demo_listener) (mkUdpSys 1000 AtHead [] demo_listening) /\ 6 <> 5.
Proof.
  split; [exact demo_run|]. pose proof demo_back_effects as He.
  destruct demo_back as [[eff t3]|] eqn:E; [|discriminate He]. cbn beta iota in He. subst eff.
  apply (number_not_reused 3 0 demo_config (mkUdpSys 1000 AtHead [] demo_listening) 2000 5
    _ AtHead [] (mkUdpSys 2000 AtHead [] demo_ended) demo_env2 demo_syn 80%nat 6 _ t3 demo_run
    ltac:(cbn; lia) demo_session (rtc_refl _ _) ltac:(cbn; lia)
    ltac:(cbn; unfold LISTENER_CONV_TIMEOUT, from_secs; lia) E). left.
Defined.

Lemma burst_loses_one_witness :
  recv_loop 1 1 (fun _ => demo_env) (item (demo_syn, 80%nat))
    (map item [(demo_syn, 81%nat); (demo_syn, 82%nat)]) demo_listener =
    Some ([Spawned 5 80%nat; Forwarded 5 demo_syn], map item [(demo_syn, 82%nat)], demo_listening).
Proof.
  assert (on_packet 1 demo_env demo_syn 80%nat demo_listener =
    Some ([Spawned 5 80%nat; Forwarded 5 demo_syn], demo_listening)) as E by (vm_compute; reflexivity).
  rewrite (proj1 (burst_loses_one 1 1 (fun _ => demo_env) (demo_syn, 80%nat)
    [(demo_syn, 81%nat); (demo_syn, 82%nat)] demo_listener (Nat.lt_0_succ 0))).
  cbn [take on_packets]. rewrite E. reflexivity.
Defined.

(** The listener is told to close while the session's end is on its way. *)
Definition demo_closing : udp_sys :=
  mkUdpSys 1000 AtHead [Disconnect 5] (demo_listening <| u_is_closing := true |>).

Lemma demo_closing_leaving : leaving (us_msgs demo_closing) (us_task demo_closing).
Proof.
  intros c Hc. assert (map fst (sessions (us_task demo_closing)) = [5]) as E
    by (vm_compute; reflexivity).
  rewrite E in Hc. apply list_elem_of_singleton in Hc as ->. left.
Qed.

(** The message is handled at the head; a packet wakes the [select!]. *)
Lemma closing_terminates_witness :
  leaving (us_msgs demo_closing) (us_task demo_closing) /\
  (forall n s', nsteps (fun s s' => exists eff, udp_step 3 s eff s') n demo_closing s' -> (n <= 3)%nat) /\
  exists eff t' t'', udp_step 3 demo_closing eff (mkUdpSys 2000 AtSelect [] t') /\
    rtc (fun s s' => exists eff, udp_step 3 s eff s') (mkUdpSys 2000 AtSelect [] t')
      (mkUdpSys 3000 Left_ [] t'').
Proof.
  destruct (closing_terminates 3 demo_closing eq_refl eq_refl demo_closing_leaving) as [H1 H2].
  split; [exact demo_closing_leaving|]. split; [exact H1|].
  set (t := us_task demo_closing) in *. set (t' := snd (process_msg 2000 (Disconnect 5) t)).
  assert (udp_step 3 demo_closing (fst (process_msg 2000 (Disconnect 5) t)) (mkUdpSys 2000 AtSelect [] t')) as Hs.
  { apply udp_step_head; [lia|]. assert (u_is_closing t = true) as Ec by reflexivity.
    unfold udp_head. change (demo_listening <| u_is_closing := true |>) with t. rewrite Ec.
    by rewrite (surjective_pairing (process_msg 2000 (Disconnect 5) t)). }
  destruct (H2 _ (rtc_once _ _ (ex_intro _ _ Hs)) 3000 (fun _ => mkUdpEnv 3000 (fun n => 5 + Z.of_nat n) true)
    (UdpPkt (demo_syn, 80%nat) [])) as (eff & s2 & Hb & _ & _ & Hlv).
  - split; [cbn [e_now us_now]; lia|]. intros _. cbn [e_now]. lia.
  - reflexivity.
  - exists (fst (process_msg 2000 (Disconnect 5) t)), t', (us_task s2). split; [exact Hs|].
    eapply rtc_l; [by exists eff|]. apply rtc_once. exists []. by apply Hlv.
Defined.
Definition demo_last : UdpTask := (us_task demo_closing) <| u_cancelled := true |>.

Lemma demo_closing_ok : udp_ok demo_last.
Proof. destruct demo_listening_ok as [H1 H2 H3 H4 H5]. constructor; [exact H1|exact H2|exact H3|exact H4|done]. Qed.

Lemma closing_waits_witness :
  udp_ok demo_last /\
  exists eff t', udp_head 2000 [Disconnect 5] demo_last =
      Some (eff, [], t') /\ sessions t' = [].
Proof.
  split; [exact demo_closing_ok|].
  assert (map fst (sessions demo_last) = [5]) as E
    by (vm_compute; reflexivity).
  destruct (closing_waits 2000 5 demo_last demo_closing_ok
    eq_refl E) as (eff & t' & H1 & H2 & _).
  exists eff, t'. split; [exact H1|exact H2].
Defined.
End DemoListener.

(** ** The half-close pool *)



(** C27: the counter of the pool always is the number of tasks not yet dropped, and no wake-up is
    lost: once [shutdown] is called, and no task is created any more, every run is finite, and
    it can only end with the shutdown done and no task left. *)
Theorem shutdown_terminates {N : Notify} {NL : NotifyLaws N} s :
  rtc pool_any pool_start s ->
  hp_count (ps_pool s) = live (ps_tasks s) /\
  (ps_shutdown s <> ShIdle ->
   (forall n s', nsteps pool_step n s s' -> Z.of_nat n <= pool_measure s) /\
   (forall s', rtc pool_step s s' -> (forall s'', ~ pool_step s' s'') ->
      ps_shutdown s' = ShDone /\ ps_tasks s' = [])).
Proof.
  intros Hr. pose proof (pool_inv_reachable s Hr) as Hi. split; [apply Hi|]. intros Hsh. split.
  - intros n s' H. pose proof (pool_steps_bounded n s s' (inv_cancelled s Hi Hsh) H).
    pose proof (pool_measure_nonneg s'). lia.
  - intros s' H Hstuck. destruct (pool_steps_inv s s' H Hi Hsh) as [Hi' Hsh'].
    by apply pool_progress.
Qed.

Section DemoPool.
#[local] Existing Instance flag_notify.
#[local] Existing Instance flag_notify_laws.

Definition demo_pool : pool_sys :=
  mkPoolSys (mkPool true false 1) [(HcFirst, mkHalfClose [x01] 4)] ShCheck.

Lemma demo_pool_reachable : rtc pool_any pool_start demo_pool.
Proof.
  eapply rtc_l; [right; apply (call_create HalfClosePool_default [] ShIdle [x01] (from_secs 5));
    vm_compute; reflexivity|].
  eapply rtc_l; [right; apply call_shutdown|]. apply rtc_refl.
Qed.

Lemma shutdown_terminates_witness :
  rtc pool_any pool_start demo_pool /\
  forall s', rtc pool_step demo_pool s' -> (forall s'', ~ pool_step s' s'') ->
    ps_shutdown s' = ShDone /\ ps_tasks s' = [].
Proof.
  split; [exact demo_pool_reachable|].
  apply (proj2 (proj2 (shutdown_terminates demo_pool demo_pool_reachable)
    (fun E : ShCheck = ShIdle => eq_ind ShCheck (fun x => match x with ShIdle => False | _ => True end)
       I ShIdle E))).
Defined.
End DemoPool.

(** ** The transports *)

(** C30: a session over its own socket gets exactly the packets of its peer, in the order the
    socket gives them; others are skipped, and so are read errors, which do not end it.  When the
    socket holds nothing more the stream ends if the socket has, and else waits. *)
Theorem udp_stream_filter {SocketAddr : Type} {EqAddr : EqDecision SocketAddr} {Socket U : Type}
    {F : UdpFramed SocketAddr Socket U} {FL : UdpFramedLaws F} (s : UdpStream) n :
  (length (framed_waiting (ud_udp s)) < n)%nat ->
  fst (ud_collect n s) =
    (omap (from_peer (ud_peer_addr s)) (framed_waiting (ud_udp s)),
     if framed_closed (ud_udp s) then Ready None else Pending) /\
  framed_waiting (ud_udp (snd (ud_collect n s))) = [].
Proof. exact (ud_collect_spec n s). Qed.

Definition demo_socket : list_socket nat :=
  mkListSocket [Datagram [x01] 81%nat; ReadError; Datagram [x02] 80%nat] false [].

Lemma udp_stream_filter_witness :
  fst (fst (ud_collect (F := list_framed) 4 (UdpStream_new (F := list_framed) demo_socket 80%nat))) =
    [[x02]].
Proof.
  rewrite (proj1 (udp_stream_filter (F := list_framed) (FL := list_framed_laws)
    (UdpStream_new (F := list_framed) demo_socket 80%nat) 4 (le_n 4))).
  reflexivity.
Defined.

(** A session of a listener sends only to its own peer: what its sink puts in the listener's
    queue are packets it was given before it was closed, in order, each once, each with the
    address of that peer. *)
Theorem mpsc_sink_contract {SocketAddr Sender Receiver T : Type} (send : Sender -> T * SocketAddr -> bool)
    (s : @UdpMpscStream SocketAddr Sender Receiver) ops :
  sublist (fst (sink_run (I := UdpMpscStream_sink send) ops s))
    (map (fun x => (x, um_peer_addr s)) (before_close ops)).
Proof. exact (sink_run_spec (L := UdpMpscStream_laws send) ops s). Qed.
